(* ===== verification/_CoqProject ===== *)
-Q . S2P
Prelude.v
Hiutil.v
System.v
Crc16.v
Hiarray.v
Adlist.v
Dict.v
Goto.v
Hiredis.v
Cmddef.v
Lookup.v
Command.v
Context.v
Sds.v
Fragment.v
Split.v
Nodes.v
Topology.v
Route.v
Options.v
Execute.v
NodeProps.v
Ownership.v
TopoProps.v
Script.v
SlotMap.v
SlotsReply.v
OptionProps.v
NodesReply.v
Frame.v
Triple.v
Memory.v
Safety.v
Sound.v
ExecProps.v
Redirect.v
Client.v
Pipeline.v
SoundExec.v
Session.v
Async.v
AsyncProps.v
AsyncSound.v
Cluster.v
Start.v
Queue.v
Delivery.v
