(* ===== verification/Prelude.v ===== *)
(** * hiredis-cluster, verified: a shallow embedding of the client library

    hiredis-cluster is a C client for Redis Cluster on top of hiredis.  It keeps a map
    from the 16384 hash slots to cluster nodes, sends each command to the node of its
    key's slot, follows the cluster's redirections, splits commands whose keys lie in
    several slots, and offers all of that synchronously, pipelined, and on an event
    loop.  This library models src/*.c and src/*.h and proves what makes them correct,
    and where they are not, what they do instead.

    ** The program's parts, and the files that model them

    - hiutil.c is [Hiutil] (numbers, and sending and receiving) and [System] (socket options, the
      clock, assertions); the checksum of crc16.c and [keyHashSlot] are [Crc16];
      hiarray.c is [Hiarray]; adlist.c is [Adlist]; dict.c is [Dict].
    - command.c and cmddef.h: the command table is [Cmddef], its binary search [Lookup], and
      [redis_parse_cmd], which finds the keys in the wire format, [Command].
    - hircluster.h is [Context]: the records of nodes and of the context, and the state that
      the functions of hircluster.c thread.
    - hircluster.c, in the order of the calls:
      [Options] creates, configures and frees a context, and has hircluster_ssl.c;
      [Nodes] makes nodes and frees them; [Topology] parses CLUSTER SLOTS and CLUSTER NODES and
      installs the result ([updateNodesAndSlotmap]); [Route] gives the connection of a node and
      updates the slot map; [Fragment] splits a command by slot and merges the replies;
      [Execute] is the retry loop [redis_cluster_command_execute]; [Client] is the synchronous
      API with the pipeline and the node iterator; [Async] is the asynchronous API with the
      event loops of adapters/.
    - The other files hold no code of src/ but what is shared ([Prelude], [Goto], [Hiredis], [Sds]),
      examples ([Script]) and proofs: [Split] on [Fragment], [NodeProps], [Ownership], [TopoProps],
      [SlotMap], [SlotsReply] and [NodesReply] on [Nodes] and [Topology], [OptionProps] on [Options],
      [Frame], [ExecProps] and [Redirect] on [Execute], [Pipeline] and [Queue] on [Client],
      [AsyncProps] and [Delivery] on [Async].
    - Memory safety has files of its own: [Triple] (triples over [Goto.G]), [Memory] (what a dict
      owns in the heap), [Safety] (both parsers), [Sound] (the invariant of a context, and
      updating the slot map), [SoundExec] (executing a command), [Session] (any calls of the
      synchronous API) and [AsyncSound] (any calls and events of the asynchronous one).
    - [Cluster] and [Start] put the components together: a command from the user's bytes to the
      cluster's answer, and a context from its addresses to the first of these.

    Client and implementation meet at classes: [DictLaws] and [SdsLaws] for the callbacks of a
    dict and for hiredis' strings, [Framed] for the parts of the state that the functions
    below the API leave alone ([Frame] is proved once for every such view), [Ordered] for
    connections that answer in order, and [Accounts] for what a user of the asynchronous API
    can count.

    A definition has the name of the C function, without leading underscores.  A function
    that C leaves by [goto] is a computation of [Goto.G]: it threads a state and ends
    with a value, at a label, or undefined.  Loops and branches of a long function are
    definitions of their own, with a prefix: [p_] in the parser, [f_] in the splitter, [t_] in
    the topology, [x_] in the execution, [a_] in the asynchronous API.

    ** State, memory, and what is undefined

    Integers are [Z] with their wrap-around written out ([u16], [i32], ...); bytes are
    [Byte.byte], and a C string is read up to its NUL.  Shared objects are aliased as in C:
    nodes live in a heap by address, and the nodes dict, the slot table and the slave
    lists hold addresses; list cells live in the heap of [Adlist].  [Undefined] (or [None], in
    the files below [Goto]) is an access out of bounds, through NULL, or to a freed
    node.  Freeing a node takes it out of the heap, so a double free is undefined too.

    ** Parameters

    hiredis is not part of src/.  Its connections and the network are a state [W]; its
    functions are the classes [HiredisOps] ([Context]) and [AsyncOps] ([Async]) and nothing is
    assumed of them except where a theorem says so.  Its string functions are the class
    [SdsOps]; what the client relies on is [SdsLaws], which [sds_ref] shows to be satisfiable
    ([Sds]).  Whether the next allocations succeed is a list in the state, so every
    [goto oom] is modelled; in the small files it is an argument.  What
    [redisvFormatCommand] returns is an argument of the functions that call it.

    ** What the theorems show

    - A command with one key reaches the node of the key's slot and the user gets that node's
      answer; MGET on a cluster whose nodes hold the keys of their slots returns what one server
      with all keys would ([Cluster], from [redisClusterFormattedCommand]'s bytes to the merged
      reply).
    - A context without connections asks its addresses in turn until one answers; the next command
      goes to the master that this answer names for the key's slot ([Start]).
    - Installing a slot map is a transaction, also for memory: the context gets exactly the
      table of the new nodes and the old nodes are freed once, or nothing changes and the
      new ones are freed ([SlotMap]).  CLUSTER SLOTS replies are read as the specification by
      regions says ([SlotsReply]), CLUSTER NODES replies as the one by lines ([NodesReply]), and
      both give the slot table that the reply describes.
    - Memory: [Sound.sound] says that the heap holds exactly the nodes of the context's dict and
      their slaves, each once, that the slot table points to nodes of the dict, and how
      many nodes the dict has room for.  Parsing any reply, updating the slot map and
      executing a command keep it and use no freed node, whatever the cluster answers and
      whichever allocations fail ([Safety], [Sound], [SoundExec]); so do all sessions of the
      synchronous API and all interleavings of calls and events of the asynchronous one,
      as far as they are defined, and freeing the context leaves the heap empty
      ([Session], [AsyncSound]).
    - A command's retry loop ends, within the allowed retries, whatever the cluster
      answers; it changes no setting; MOVED, ASK, TRYAGAIN and CLUSTERDOWN are followed as
      documented ([ExecProps], [Redirect]).
    - Splitting a command by slot gives formatted commands that hold each key once, in its
      slot; merging the replies gives the reply of the unsplit command ([Split]).
    - The parser refines a description of a command by its arguments, and never reads
      outside the buffer ([Command]); the table's binary search is a linear one ([Lookup]).
    - The containers refine lists and finite maps ([Adlist], [Hiarray], [Dict]); the checksum is
      CRC-16/XMODEM and hash tags are honoured ([Crc16]).
    - The pipeline is a first-in first-out queue over all its connections ([Queue]); emptying it
      ends; a merged error reply is used after it was freed ([Pipeline]).
    - Over all calls and events, in any order, an accepted asynchronous command is answered at most
      once, and exactly once or still held as long as hiredis accepts what it is sent
      ([Delivery]).  It is retried a bounded number of times, and at most one slot map update is
      pending ([AsyncProps]).

    ** Bounds and fuel

    The theorems on dicts hold up to 2^29 entries ([Dict.dict_small]), and the invariant keeps
    within that: 2^28 nodes of a reply and as many that redirections and the user add.
    hiredis' replies are taken to be within the limits of the protocol
    ([Sound.ReplyBounds]), retry limits within 2^20 and sessions within 2^26 nodes
    ([Session]).

    [Execute.x_fuel_of] is the number of retries that are left and two more, which the loop
    cannot exceed because each round counts one retry ([ExecProps]); freeing a node has
    as much fuel as the heap has nodes; the lines of a CLUSTER NODES reply as many as it has
    bytes, since each line consumes one; iterating over a dict one more than its
    entries; emptying the pipeline one more than the queued commands ([Pipeline]).  The loop
    that writes until hiredis has written all may wait for ever in C; its fuel is an
    argument.

    ** Not modelled, and why

    win32.h holds macros of another build; examples/ and tests/ are clients.  Memory other
    than nodes (texts, lists, commands) has no addresses in the models of hircluster.c:
    that it is freed is stated for what a command owns ([Command.command_destroy]), not
    proved for every path.  CLUSTER NODES with [HIRCLUSTER_FLAG_ADD_SLAVE] is modelled, but
    outside of the theorems on memory, because it can free a master twice ([NodesReply]) and
    loses slaves of unknown masters.  hiredis calls
    the callbacks of pending commands while it frees an asynchronous connection; here
    [redisAsyncFree] acts on the connection only, so calls of the client from within that
    are out of scope, as is a user's function that frees the context it is called with; a user's
    function that issues commands is modelled by the calls that follow it.
    A context that is NULL is refused by the code before anything else, and the models
    start after that check.  [ASSERT] is empty in the default build. *)
From stdpp Require Export base list gmap numbers strings.
From Stdlib Require Export ZArith Lia.
From Stdlib Require Export Strings.Byte.
From Stdlib Require Strings.String.

#[global] Open Scope Z_scope.
#[global] Set Default Goal Selector "!".

(** ** Bytes and character literals *)

Abbreviation byte := Byte.byte.
Abbreviation bytes := (list Byte.byte).

#[global] Instance byte_eq_dec : EqDecision byte := Byte.byte_eq_dec.

(** A C string literal, without its terminating NUL. *)
Definition str (s : string) : bytes := String.list_byte_of_string s.

(** [Z_of_byte] is the value of an [unsigned char]; [byte_of_Z] is the
    truncating conversion of an integer to [unsigned char]. *)
Definition Z_of_byte (b : byte) : Z := Z.of_N (Byte.to_N b).
Definition byte_of_Z (z : Z) : byte :=
  match Byte.of_N (Z.to_N (z mod 256)) with Some b => b | None => Byte.x00 end.

Lemma Z_of_byte_range b : 0 <= Z_of_byte b < 256.
Proof. unfold Z_of_byte. pose proof (Byte.to_N_bounded b). lia. Qed.

Lemma Z_of_byte_of_Z z : 0 <= z < 256 -> Z_of_byte (byte_of_Z z) = z.
Proof.
  intros Hz. unfold byte_of_Z, Z_of_byte. rewrite Z.mod_small by lia.
  destruct (Byte.of_N (Z.to_N z)) as [b|] eqn:E.
  - apply Byte.to_of_N in E. rewrite E. lia.
  - apply Byte.of_N_None_iff in E. lia.
Qed.

Lemma byte_of_Z_of_byte b : byte_of_Z (Z_of_byte b) = b.
Proof.
  unfold byte_of_Z. rewrite Z.mod_small by apply Z_of_byte_range.
  unfold Z_of_byte. rewrite N2Z.id, Byte.of_to_N. done.
Qed.

#[global] Instance Z_of_byte_inj : Inj (=) (=) Z_of_byte.
Proof.
  intros a b H. rewrite <- (byte_of_Z_of_byte a), H. apply byte_of_Z_of_byte.
Qed.

(** [sds] strings are dictionary keys, so bytes are countable. *)
#[global] Instance byte_countable : Countable byte.
Proof.
  apply (inj_countable' Byte.to_N (fun n => byte_of_Z (Z.of_N n))).
  intros b. exact (byte_of_Z_of_byte b).
Defined.

(** ** Machine integers

    A w-bit integer is a [Z]; [wrapu] and [wraps] are the conversions to the
    unsigned and the two's complement type of width [w] (what the supported
    compilers do where the standard leaves a signed overflow open). *)
Definition wrapu (w z : Z) : Z := z mod 2 ^ w.
Definition wraps (w z : Z) : Z := (z + 2 ^ (w - 1)) mod 2 ^ w - 2 ^ (w - 1).

Abbreviation u8 := (wrapu 8).
Abbreviation u16 := (wrapu 16).
Abbreviation u32 := (wrapu 32).
Abbreviation u64 := (wrapu 64).
Abbreviation i32 := (wraps 32).
Abbreviation i64 := (wraps 64).

Definition INT_MAX : Z := 2147483647.
Definition INT_MIN : Z := -2147483648.
Definition UINT16_MAX : Z := 65535.
Definition LONG_MAX : Z := 9223372036854775807.
Definition INT64_MAX : Z := 9223372036854775807.

Lemma wrapu_range w z : 0 <= w -> 0 <= wrapu w z < 2 ^ w.
Proof. intros. apply Z.mod_pos_bound. lia. Qed.

Lemma wrapu_small w z : 0 <= z < 2 ^ w -> wrapu w z = z.
Proof. apply Z.mod_small. Qed.

Lemma wrapu_wrapu w z : wrapu w (wrapu w z) = wrapu w z.
Proof. unfold wrapu. apply Zmod_mod. Qed.

Lemma wrapu_add_l w a b : wrapu w (wrapu w a + b) = wrapu w (a + b).
Proof. unfold wrapu. apply Zplus_mod_idemp_l. Qed.

Lemma wraps_range w z : 0 < w -> - 2 ^ (w - 1) <= wraps w z < 2 ^ (w - 1).
Proof.
  intros Hw. unfold wraps.
  assert (Hp : 2 ^ w = 2 * 2 ^ (w - 1)).
  { rewrite <- Z.pow_succ_r by lia. f_equal. lia. }
  pose proof (Z.mod_pos_bound (z + 2 ^ (w - 1)) (2 ^ w)). lia.
Qed.

Lemma wraps_small w z :
  0 < w -> - 2 ^ (w - 1) <= z < 2 ^ (w - 1) -> wraps w z = z.
Proof.
  intros Hw Hz. unfold wraps.
  assert (Hp : 2 ^ w = 2 * 2 ^ (w - 1)).
  { rewrite <- Z.pow_succ_r by lia. f_equal. lia. }
  rewrite Z.mod_small; lia.
Qed.

Lemma i32_small z : INT_MIN <= z <= INT_MAX -> i32 z = z.
Proof. unfold INT_MIN, INT_MAX. intros. apply wraps_small; lia. Qed.

Lemma u32_small z : 0 <= z < 4294967296 -> u32 z = z.
Proof. intros. apply wrapu_small. lia. Qed.

(** ** The C library functions the sources use

    A [char *] argument is the memory from the pointer on; bytes past the end
    of the list read as the terminating NUL. *)
Fixpoint c_str (s : bytes) : bytes :=
  match s with
  | [] => []
  | b :: s' => if decide (b = Byte.x00) then [] else b :: c_str s'
  end.

Definition strlen (s : bytes) : Z := Z.of_nat (length (c_str s)).

Definition isdigit (b : byte) : bool :=
  (48 <=? Z_of_byte b) && (Z_of_byte b <=? 57).

Definition tolower (b : byte) : byte :=
  if (65 <=? Z_of_byte b) && (Z_of_byte b <=? 90)
  then byte_of_Z (Z_of_byte b + 32) else b.

(** [memcmp(a, b, n) == 0] *)
Definition memeq (a b : bytes) (n : nat) : bool := bool_decide (take n a = take n b).

(** [strncmp]: the difference of the first two bytes that differ, within [n]
    bytes and not past a NUL. *)
Fixpoint strncmp (a b : bytes) (n : nat) : Z :=
  match n with
  | O => 0
  | S n' =>
      let x := Z_of_byte (hd Byte.x00 a) in
      let y := Z_of_byte (hd Byte.x00 b) in
      if negb (x =? y) then x - y
      else if x =? 0 then 0
      else strncmp (tail a) (tail b) n'
  end.

Fixpoint strncasecmp (a b : bytes) (n : nat) : Z :=
  match n with
  | O => 0
  | S n' =>
      let x := Z_of_byte (tolower (hd Byte.x00 a)) in
      let y := Z_of_byte (tolower (hd Byte.x00 b)) in
      if negb (x =? y) then x - y
      else if x =? 0 then 0
      else strncasecmp (tail a) (tail b) n'
  end.

(** [strchr] and [strrchr] as offsets from the start of the string. *)
Fixpoint find_byte (c : byte) (s : bytes) : option nat :=
  match s with
  | [] => None
  | b :: s' => if decide (b = c) then Some O else S <$> find_byte c s'
  end.

Fixpoint find_last_byte (c : byte) (s : bytes) : option nat :=
  match s with
  | [] => None
  | b :: s' =>
      match find_last_byte c s' with
      | Some i => Some (S i)
      | None => if decide (b = c) then Some O else None
      end
  end.

Definition strchr (s : bytes) (c : byte) : option nat := find_byte c (c_str s).
Definition strrchr (s : bytes) (c : byte) : option nat := find_last_byte c (c_str s).

(** [buf_set s i b] is [s[i] = b], undefined ([None]) out of bounds. *)
Definition buf_set {A} (s : list A) (i : nat) (b : A) : option (list A) :=
  if decide (i < length s)%nat then Some (<[i := b]> s) else None.

Lemma buf_set_Some {A} (s : list A) i b :
  (i < length s)%nat -> buf_set s i b = Some (<[i := b]> s).
Proof. intros. unfold buf_set. by rewrite decide_True. Qed.

(** [step_buf] executes the in-bounds buffer writes of the goal. *)
Ltac step_buf :=
  repeat (rewrite buf_set_Some by (rewrite ?length_insert; simpl; lia); simpl).

Lemma c_str_no_nul s : Byte.x00 ∉ s -> c_str s = s.
Proof.
  induction s as [|b s IH]; [done|]. intros Hn. apply not_elem_of_cons in Hn as [Hb Hs].
  simpl. rewrite decide_False by done. by rewrite IH.
Qed.

Lemma c_str_app_nul s t : Byte.x00 ∉ s -> c_str (s ++ Byte.x00 :: t) = s.
Proof.
  induction s as [|b s IH]; [done|]. intros Hn. apply not_elem_of_cons in Hn as [Hb Hs].
  simpl. rewrite decide_False by done. by rewrite IH.
Qed.

Lemma find_byte_Some c s i :
  find_byte c s = Some i -> s !! i = Some c /\ c ∉ take i s.
Proof.
  revert i. induction s as [|b s IH]; intros i; simpl; [done|].
  case_decide as Hd.
  - intros [= <-]. subst. split; [done|]. simpl. apply not_elem_of_nil.
  - intros (j & Hj & ->)%fmap_Some. destruct (IH _ Hj) as [H1 H2].
    split; [done|]. simpl. apply not_elem_of_cons. done.
Qed.

Lemma find_byte_None c s : find_byte c s = None <-> c ∉ s.
Proof.
  induction s as [|b s IH]; simpl.
  - split; [intros; apply not_elem_of_nil | done].
  - rewrite not_elem_of_cons. case_decide as Hd.
    + split; [done|]. intros [Hne _]. congruence.
    + rewrite fmap_None, IH. split; [intros ?; split; congruence | by intros [??]].
Qed.

Lemma find_last_byte_Some c s i :
  find_last_byte c s = Some i -> s !! i = Some c /\ c ∉ drop (S i) s.
Proof.
  revert i. induction s as [|b s IH]; intros i; simpl; [done|].
  destruct (find_last_byte c s) as [j|] eqn:E.
  - intros [= <-]. by apply IH.
  - case_decide as Hd; [|done]. intros [= <-]. subst. split; [done|].
    rewrite drop_0. clear IH. induction s as [|x s IHs]; [apply not_elem_of_nil|].
    simpl in E. destruct (find_last_byte c s); [done|]. case_decide; [done|].
    apply not_elem_of_cons. eauto.
Qed.

(** [zdiv] is [lia] with the defining equations of quotients and remainders. *)
Ltac zdiv := Z.to_euclidean_division_equations; lia.

(** ** Decimal numbers *)
Definition digit (z : Z) : byte := byte_of_Z (z + 48).

(** The reference decimal notation of a nonnegative number, most significant
    digit first; the number of bits bounds the number of digits. *)
Fixpoint dec_fuel (fuel : nat) (z : Z) : bytes :=
  match fuel with
  | O => []
  | S f => if z <? 10 then [digit z] else dec_fuel f (z / 10) ++ [digit (z mod 10)]
  end.

Definition dec (z : Z) : bytes := dec_fuel (S (Z.to_nat (Z.log2 z))) z.

Lemma dec_fuel_enough f g z :
  0 <= z < 2 ^ Z.of_nat f -> z < 2 ^ Z.of_nat g -> (0 < f)%nat -> (0 < g)%nat ->
  dec_fuel f z = dec_fuel g z.
Proof.
  revert g z. induction f as [|f IH]; intros g z Hf Hg Hf0 Hg0; [lia|].
  destruct g as [|g]; [lia|]. simpl. destruct (z <? 10) eqn:E; [done|].
  apply Z.ltb_ge in E. f_equal.
  assert (0 <= z / 10 /\ z / 10 * 10 <= z) by zdiv.
  rewrite Nat2Z.inj_succ, Z.pow_succ_r in Hf, Hg by lia.
  assert (0 < f)%nat by (destruct f; [simpl in *; lia|lia]).
  assert (0 < g)%nat by (destruct g; [simpl in *; lia|lia]).
  apply IH; lia.
Qed.

Lemma dec_unfold z :
  0 <= z -> dec z = if z <? 10 then [digit z] else dec (z / 10) ++ [digit (z mod 10)].
Proof.
  intros Hz. unfold dec at 1. simpl. destruct (z <? 10) eqn:E; [done|].
  apply Z.ltb_ge in E. f_equal. unfold dec.
  assert (Hq : 0 < z / 10) by (apply Z.div_str_pos; lia).
  pose proof (Z.log2_spec z) as Hl. pose proof (Z.log2_spec (z / 10)) as Hl'.
  assert (z / 10 * 2 <= z) by zdiv.
  assert (0 < Z.log2 z) by (apply Z.log2_pos; lia).
  pose proof (Z.log2_nonneg (z / 10)).
  assert (Hs : 2 ^ Z.succ (Z.log2 z) = 2 * 2 ^ Z.log2 z) by (apply Z.pow_succ_r; lia).
  apply dec_fuel_enough; rewrite ?Nat2Z.inj_succ, ?Z2Nat.id by lia; try lia.
Qed.

Lemma dec_small z : 0 <= z < 10 -> dec z = [digit z].
Proof. intros. rewrite dec_unfold by lia. by replace (z <? 10) with true by lia. Qed.

Lemma dec_big z : 10 <= z -> dec z = dec (z / 10) ++ [digit (z mod 10)].
Proof. intros. rewrite dec_unfold by lia. by replace (z <? 10) with false by lia. Qed.

(** Induction on the decimal digits of a number. *)
Lemma dec_ind (P : Z -> Prop) :
  (forall z, 0 <= z < 10 -> P z) ->
  (forall z, 10 <= z -> P (z / 10) -> P z) ->
  forall z, 0 <= z -> P z.
Proof.
  intros Hb Hs. apply Zlt_0_ind. intros z IH Hz.
  destruct (Z.lt_ge_cases z 10); [apply Hb; lia|].
  apply Hs; [done|]. apply IH. split; [apply Z.div_pos; lia|].
  apply Z.div_lt; lia.
Qed.

Lemma Z_of_digit z : 0 <= z < 10 -> Z_of_byte (digit z) = z + 48.
Proof. intros. apply Z_of_byte_of_Z. lia. Qed.

Lemma isdigit_digit z : 0 <= z < 10 -> isdigit (digit z) = true.
Proof. intros. unfold isdigit. rewrite Z_of_digit by done. lia. Qed.

Lemma mod10_range z : 0 <= z mod 10 < 10.
Proof. apply Z.mod_pos_bound. lia. Qed.
#[export] Hint Resolve mod10_range : core.

Lemma dec_digits z : 0 <= z -> Forall (fun b => isdigit b = true) (dec z).
Proof.
  revert z. apply dec_ind; intros z Hz.
  - rewrite dec_small by done. constructor; [|done]. by apply isdigit_digit.
  - intros IH. rewrite dec_big by done. apply Forall_app. split; [done|].
    constructor; [|done]. by apply isdigit_digit.
Qed.

Lemma dec_length_pos z : 0 <= z -> (1 <= length (dec z))%nat.
Proof.
  intros Hz. rewrite dec_unfold by done.
  destruct (z <? 10); simpl; rewrite ?length_app; simpl; lia.
Qed.

Lemma dec_length_le k z :
  0 <= z < 10 ^ Z.of_nat k -> (0 < k)%nat -> (length (dec z) <= k)%nat.
Proof.
  revert z. induction k as [|k IH]; intros z Hz Hk; [lia|].
  rewrite dec_unfold by lia. destruct (z <? 10) eqn:E; [simpl; lia|].
  rewrite length_app. simpl. rewrite Nat2Z.inj_succ, Z.pow_succ_r in Hz by lia.
  assert (0 < k)%nat by (destruct k; [simpl in *; lia|lia]).
  assert (length (dec (z / 10)) <= k)%nat; [|lia].
  apply IH; [|done]. split; [zdiv|]. apply Z.div_lt_upper_bound; lia.
Qed.

Lemma isdigit_not_nul b : isdigit b = true -> b ≠ Byte.x00.
Proof. intros H ->. vm_compute in H. done. Qed.

(** The value of a digit string, accumulated from the left as the parsing
    loops do. *)
Definition digit_val (b : byte) : Z := Z_of_byte b - 48.
Definition dec_val (acc : Z) (s : bytes) : Z :=
  fold_left (fun v b => v * 10 + digit_val b) s acc.

Lemma digit_val_digit z : 0 <= z < 10 -> digit_val (digit z) = z.
Proof. intros. unfold digit_val. rewrite Z_of_digit by done. lia. Qed.

Lemma dec_val_app acc s t : dec_val acc (s ++ t) = dec_val (dec_val acc s) t.
Proof. apply fold_left_app. Qed.

Lemma dec_val_ge acc s :
  0 <= acc -> Forall (fun b => isdigit b = true) s -> acc <= dec_val acc s.
Proof.
  intros Ha Hs. revert acc Ha. induction Hs as [|b s Hb Hs IH]; intros acc Ha; [done|].
  unfold dec_val in *. simpl. unfold isdigit in Hb. etransitivity; [|apply IH]; unfold digit_val; lia.
Qed.

Lemma dec_val_dec z : 0 <= z -> dec_val 0 (dec z) = z.
Proof.
  revert z. apply dec_ind; intros z Hz.
  - rewrite dec_small by done. unfold dec_val. simpl. rewrite digit_val_digit; lia.
  - intros IH. rewrite dec_big, dec_val_app, IH by done.
    unfold dec_val. simpl. rewrite digit_val_digit by done.
    zdiv.
Qed.

(** Two folds that agree on the states an invariant allows. *)
Lemma fold_left_ext_inv {A B} (P : A -> Prop) (f g : A -> B -> A) l a :
  (forall a b, P a -> f a b = g a b /\ P (f a b)) -> P a ->
  fold_left f l a = fold_left g l a.
Proof.
  intros H. revert a. induction l as [|b l IH]; intros a Ha; [done|].
  simpl. destruct (H a b Ha) as [<- HP]. by apply IH.
Qed.

Lemma app_cons_snoc {A} (l : list A) x t : l ++ x :: t = (l ++ [x]) ++ t.
Proof. by rewrite <- app_assoc. Qed.

Lemma mapM_snoc {A B} (f : A -> option B) l k x y :
  mapM f l = Some k -> f x = Some y -> mapM f (l ++ [x]) = Some (k ++ [y]).
Proof.
  intros Hl Hx. apply mapM_Some_2, Forall2_app; [by apply mapM_Some_1|].
  by constructor.
Qed.

(** The groups of a list by the values of a function make up the list. *)
Lemma filter_partition {A B} {eqB : EqDecision B} (f : A -> B) (slots : list B) (idx : list A) : NoDup slots -> Forall (fun i => f i ∈ slots) idx ->
  concat ((fun sl => filter (fun i => f i = sl) idx) <$> slots) ≡ₚ idx.
Proof.
  revert idx. induction slots as [|sl slots IH]; intros idx Hnd Hin; cbn [fmap list_fmap concat].
  - destruct Hin as [|i idx Hi]; [done|]. by apply not_elem_of_nil in Hi.
  - apply NoDup_cons in Hnd as [Hsl Hnd].
    assert (E : concat ((fun sl => filter (fun i => f i = sl) idx) <$> slots)
      = concat ((fun s => filter (fun i => f i = s) (filter (fun i => f i <> sl) idx)) <$> slots)).
    { f_equal. apply list_fmap_ext. intros k x Hx%list_elem_of_lookup_2. rewrite list_filter_filter.
      apply list_filter_iff. intros i. split; [|tauto]. intros <-. split; [done|]. intros Hf. by rewrite <- Hf in Hsl. }
    rewrite E, IH; [|done|].
    + clear. induction idx as [|i idx IH]; [done|]. rewrite !filter_cons.
      destruct (decide (f i = sl)) as [Hf|Hf].
      * rewrite decide_False by auto. cbn [app]. by rewrite IH.
      * rewrite decide_True by done. rewrite <- Permutation_middle. by rewrite IH.
    + apply Forall_forall. intros i [Hne Hi]%list_elem_of_filter. rewrite Forall_forall in Hin.
      specialize (Hin i Hi). by apply elem_of_cons in Hin as [?|?].
Qed.

(** ** Result codes shared by the modules *)
Definition REDIS_OK : Z := 0.
Definition REDIS_ERR : Z := -1.

(** ** Automation

    [inv_opt] peels the option binds of a hypothesis; the [cnum] database
    carries the side conditions of machine arithmetic. *)
Create HintDb cnum.
Create Rewrite HintDb cnum.
#[export] Hint Resolve Z_of_byte_range wrapu_range : cnum.
#[export] Hint Rewrite wrapu_wrapu wrapu_add_l byte_of_Z_of_byte : cnum.

Ltac inv_opt :=
  repeat match goal with
  | H : Some _ = Some _ |- _ => injection H as H
  | H : None = Some _ |- _ => discriminate H
  | H : Some _ = None |- _ => discriminate H
  | H : (_ ≫= _) = Some _ |- _ => apply bind_Some in H as (? & ? & H)
  | H : (_ <$> _) = Some _ |- _ => apply fmap_Some in H as (? & ? & H)
  end; simplify_eq/=.
