(* ===== verification/Hiutil.v ===== *)
(** * hiutil.c: number parsing and printing, port check, blocking socket I/O

    [hi_atoi] and [hi_itoa] read and write the decimal numbers of the protocol;
    [hi_itoa] works on the caller's buffer in place, so the buffer's old
    contents are part of the model.  [hi_sendn] and [hi_recvn] loop over a
    socket whose [send] and [recv] are parameters. *)
From S2P Require Import Prelude.

(** ** [_hi_atoi] *)
Fixpoint hi_atoi_loop (value : Z) (line : bytes) : Z :=
  match line with
  | [] => if value <? 0 then -1 else value
  | b :: line' =>
      if (Z_of_byte b <? 48) || (57 <? Z_of_byte b) then -1
      else hi_atoi_loop (i32 (value * 10 + (Z_of_byte b - 48))) line'
  end.

Definition hi_atoi (line : bytes) : Z :=
  match line with [] => -1 | _ => hi_atoi_loop 0 line end.

(** ** [_hi_itoa]

    [None] is undefined behaviour: a write outside the buffer, or [abs] of
    [INT_MIN].  An [int] has at most ten digits, so eleven iterations of the
    digit loop are enough. *)
Fixpoint hi_itoa_digits (fuel : nat) (num : Z) (s : bytes) (len : nat)
  : option (bytes * nat) :=
  match fuel with
  | O => None
  | S fuel' =>
      if (num mod 10 =? 0) && (num / 10 =? 0) then Some (s, len)
      else
        let c := digit (num mod 10) in
        x ← s !! len;
        s1 ← buf_set s (S len) x;
        s2 ← buf_set s1 len c;
        hi_itoa_digits fuel' (num / 10) s2 (S len)
  end.

Fixpoint hi_itoa_reverse (n i len : nat) (s : bytes) : option bytes :=
  match n with
  | O => Some s
  | S n' =>
      c ← s !! i;
      d ← s !! (len - i - 1)%nat;
      s1 ← buf_set s i d;
      s2 ← buf_set s1 (len - i - 1)%nat c;
      hi_itoa_reverse n' (S i) len s2
  end.

Definition hi_itoa (s : bytes) (num : Z) : option bytes :=
  if num =? 0 then buf_set s 0 (digit 0)
  else if num =? INT_MIN then None
  else
    '(s1, len) ← hi_itoa_digits 11 (Z.abs num) s 0;
    '(s2, len) ← (if num <? 0 then
                    s2 ← buf_set s1 len "-"%byte; Some (s2, S len)
                  else Some (s1, len));
    s3 ← buf_set s2 len Byte.x00;
    hi_itoa_reverse (len / 2)%nat 0 len s3.

(** ** [hi_valid_port] and [_uint_len] *)
Definition hi_valid_port (n : Z) : bool := negb ((n <? 1) || (UINT16_MAX <? n)).

Fixpoint uint_len_loop (fuel : nat) (num n : Z) : Z :=
  match fuel with
  | O => n
  | S fuel' => if num =? 0 then n else uint_len_loop fuel' (num / 10) (n + 1)
  end.

Definition uint_len (num : Z) : Z :=
  let num := u32 num in
  if num =? 0 then 1 else uint_len_loop 10 num 0.

(** ** [_hi_sendn] and [_hi_recvn]

    The socket is a state [W]; [send] and [recv] give the call's return value,
    whether [errno] is [EINTR], and for [recv] the bytes read. *)
Section Sockets.
Context {W : Type}.
Variable send : W -> bytes -> W * (Z * bool).
Variable recv : W -> nat -> W * (Z * bool * bytes).

Fixpoint hi_sendn_loop (fuel : nat) (w : W) (ptr : bytes) (n : Z) : option (W * Z) :=
  match fuel with
  | O => None
  | S fuel' =>
      if decide (length ptr = O) then Some (w, n)
      else
        let '(w, (nsend, eintr)) := send w ptr in
        if nsend <? 0 then
          if eintr : bool then hi_sendn_loop fuel' w ptr n else Some (w, nsend)
        else if nsend =? 0 then Some (w, -1)
        else hi_sendn_loop fuel' w (drop (Z.to_nat nsend) ptr) n
  end.

Definition hi_sendn (fuel : nat) (w : W) (vptr : bytes) : option (W * Z) :=
  hi_sendn_loop fuel w vptr (Z.of_nat (length vptr)).

Fixpoint hi_recvn_loop (fuel : nat) (w : W) (nleft n : nat) (got : bytes)
  : option (W * Z * bytes) :=
  match fuel with
  | O => None
  | S fuel' =>
      if decide (nleft = O) then Some (w, Z.of_nat n - Z.of_nat nleft, got)
      else
        let '(w, (nrecv, eintr, data)) := recv w nleft in
        if nrecv <? 0 then
          if eintr : bool then hi_recvn_loop fuel' w nleft n got
          else Some (w, nrecv, got)
        else if nrecv =? 0 then Some (w, Z.of_nat n - Z.of_nat nleft, got)
        else hi_recvn_loop fuel' w (nleft - Z.to_nat nrecv) n (got ++ data)
  end.

Definition hi_recvn (fuel : nat) (w : W) (n : nat) : option (W * Z * bytes) :=
  hi_recvn_loop fuel w n n [].
End Sockets.

(** ** Properties of [hi_atoi] *)
Lemma i32_mul_add a d : i32 (i32 a * 10 + d) = i32 (a * 10 + d).
Proof.
  unfold wraps. f_equal.
  replace (((a + 2 ^ (32 - 1)) mod 2 ^ 32 - 2 ^ (32 - 1)) * 10 + d + 2 ^ (32 - 1))
    with ((a + 2 ^ (32 - 1)) mod 2 ^ 32 * 10 + (d + 2 ^ (32 - 1) - 2 ^ (32 - 1) * 10)) by lia.
  rewrite <- Zplus_mod_idemp_l, Zmult_mod_idemp_l, Zplus_mod_idemp_l. f_equal. lia.
Qed.

Lemma hi_atoi_loop_digits s v :
  Forall (fun b => isdigit b = true) s ->
  hi_atoi_loop (i32 v) s =
    (let r := i32 (dec_val v s) in if r <? 0 then -1 else r).
Proof.
  intros Hs. revert v. induction Hs as [|b s Hb Hs IH]; intros v; [done|].
  unfold isdigit in Hb. simpl.
  replace ((Z_of_byte b <? 48) || (57 <? Z_of_byte b)) with false by lia.
  rewrite i32_mul_add, IH. done.
Qed.

Lemma hi_atoi_loop_nondigit s v :
  ~ Forall (fun b => isdigit b = true) s -> hi_atoi_loop v s = -1.
Proof.
  revert v. induction s as [|b s IH]; intros v Hs; [destruct Hs; constructor|].
  simpl. destruct ((Z_of_byte b <? 48) || (57 <? Z_of_byte b)) eqn:E; [done|].
  apply IH. intros Hf. apply Hs. constructor; [|done]. unfold isdigit. lia.
Qed.

(** [hi_atoi] on every input: a non-empty digit string gives its value
    reduced to a 32-bit [int], or -1 when that is negative; every other input
    gives -1. *)
Lemma hi_atoi_value (s : bytes) :
  hi_atoi s =
    if bool_decide (s ≠ [] /\ Forall (fun b => isdigit b = true) s) then
      let r := i32 (dec_val 0 s) in if r <? 0 then -1 else r
    else -1.
Proof.
  case_bool_decide as Hd.
  - destruct Hd as [Hne Hs]. destruct s as [|b s]; [done|].
    change (hi_atoi (b :: s)) with (hi_atoi_loop (i32 0) (b :: s)).
    by apply hi_atoi_loop_digits.
  - destruct s as [|b s]; [done|]. apply hi_atoi_loop_nondigit.
    intros Hs. apply Hd. done.
Qed.

Lemma hi_atoi_dec z : 0 <= z <= INT_MAX -> hi_atoi (dec z) = z.
Proof.
  intros Hz. rewrite hi_atoi_value. rewrite bool_decide_true.
  - rewrite dec_val_dec by lia. rewrite i32_small by (unfold INT_MIN, INT_MAX in *; lia).
    simpl. by replace (z <? 0) with false by lia.
  - pose proof (dec_length_pos z). split; [destruct (dec z); simpl in *; [lia|done]|].
    apply dec_digits. lia.
Qed.

Lemma hi_atoi_range s : -1 <= hi_atoi s <= INT_MAX.
Proof.
  rewrite hi_atoi_value. case_bool_decide; [|unfold INT_MAX; lia].
  pose proof (wraps_range 32 (dec_val 0 s)). unfold INT_MAX.
  simpl. destruct (_ <? 0) eqn:E; lia.
Qed.

(** [hi_atoi] on every input: a non-empty digit string gives its value
    reduced to a 32-bit [int], or -1 when that is negative; every other input
    gives -1.  So a string of the value is parsed right up to [INT_MAX], and
    beyond it a wrong number can come out as valid. *)
Theorem hi_atoi_spec (s : bytes) :
  hi_atoi s =
    (if bool_decide (s ≠ [] /\ Forall (fun b => isdigit b = true) s) then
       let r := i32 (dec_val 0 s) in if r <? 0 then -1 else r
     else -1) /\
  (forall z, 0 <= z <= INT_MAX -> hi_atoi (dec z) = z) /\
  hi_atoi (dec (2 ^ 32 + 1)) = 1.
Proof. split; [apply hi_atoi_value|]. split; [apply hi_atoi_dec | vm_compute; reflexivity]. Qed.

(** ** Properties of [uint_len] *)
Lemma uint_len_loop_dec fuel z n :
  0 <= z < 10 ^ Z.of_nat fuel ->
  uint_len_loop fuel z n = if z =? 0 then n else n + Z.of_nat (length (dec z)).
Proof.
  revert z n. induction fuel as [|f IH]; intros z n Hz; simpl.
  - by replace (z =? 0) with true by lia.
  - destruct (z =? 0) eqn:E; [done|].
    rewrite Nat2Z.inj_succ, Z.pow_succ_r in Hz by lia.
    rewrite IH by zdiv. destruct (Z.lt_ge_cases z 10).
    + replace (z / 10 =? 0) with true by zdiv. rewrite dec_small by lia. simpl. lia.
    + replace (z / 10 =? 0) with false by zdiv. rewrite (dec_big z), length_app by lia.
      simpl. lia.
Qed.

(** [uint_len] is the number of decimal digits of its 32-bit argument. *)
Lemma uint_len_dec (z : Z) : uint_len z = Z.of_nat (length (dec (u32 z))).
Proof.
  unfold uint_len. pose proof (wrapu_range 32 z).
  destruct (u32 z =? 0) eqn:E.
  - apply Z.eqb_eq in E as ->. done.
  - rewrite uint_len_loop_dec by (simpl; lia). rewrite E. done.
Qed.

(** ** Properties of [hi_itoa] *)
#[local] Arguments Nat.div : simpl never.
Lemma hi_itoa_digits_spec fuel z s len :
  0 <= z < 10 ^ Z.of_nat fuel ->
  let ds := if z =? 0 then [] else reverse (dec z) in
  (len + length ds < length s)%nat ->
  exists x rest,
    hi_itoa_digits (S fuel) z s len
      = Some (take len s ++ ds ++ x :: rest, (len + length ds)%nat) /\
    rest = drop (S (len + length ds)) s.
Proof.
  revert z s len. induction fuel as [|f IH]; intros z s len Hz ds Hlen.
  - assert (z = 0) as -> by (simpl in Hz; lia). subst ds. simpl in *.
    destruct (lookup_lt_is_Some_2 s len) as [x Hx]; [lia|].
    exists x, (drop (S len) s). rewrite Nat.add_0_r. split; [|done].
    rewrite <- drop_S by done. rewrite take_drop. done.
  - destruct (z =? 0) eqn:E.
    + apply Z.eqb_eq in E as ->. subst ds. simpl in *.
      destruct (lookup_lt_is_Some_2 s len) as [x Hx]; [lia|].
      exists x, (drop (S len) s). rewrite Nat.add_0_r. split; [|done].
      rewrite <- drop_S by done. rewrite take_drop. done.
    + remember (S f) as f' eqn:Hf'.
      assert (Hds : ds = digit (z mod 10) ::
                (if z / 10 =? 0 then [] else reverse (dec (z / 10)))).
      { subst ds. rewrite dec_unfold by lia.
        destruct (z <? 10) eqn:E1.
        - replace (z / 10 =? 0) with true by zdiv. by rewrite Z.mod_small by lia.
        - replace (z / 10 =? 0) with false by zdiv. by rewrite reverse_app. }
      rewrite Hds in *. clear Hds ds.
      set (ds := if z / 10 =? 0 then [] else reverse (dec (z / 10))) in *.
      simpl. simpl in Hlen.
      replace ((z mod 10 =? 0) && (z / 10 =? 0)) with false by zdiv.
      destruct (lookup_lt_is_Some_2 s len) as [x Hx]; [lia|].
      rewrite Hx. simpl. step_buf.
      set (s2 := <[len := digit (z mod 10)]> (<[S len := x]> s)).
      assert (Hl2 : length s2 = length s) by (unfold s2; by rewrite !length_insert).
      rewrite Hf' in *. rewrite Nat2Z.inj_succ, Z.pow_succ_r in Hz by lia.
      destruct (IH (z / 10) s2 (S len)) as (y & rest & Heq & Hrest).
      { split; [zdiv|]. apply Z.div_lt_upper_bound; lia. }
      { fold ds. lia. }
      fold ds in Heq, Hrest. exists y, rest. rewrite Heq.
      assert (Htk : take (S len) s2 = take len s ++ [digit (z mod 10)]).
      { rewrite (take_S_r _ _ (digit (z mod 10))).
        - unfold s2. rewrite take_insert_ge, take_insert_ge by lia. done.
        - unfold s2. by rewrite list_lookup_insert_eq by (rewrite length_insert; lia). }
      rewrite Htk, <- app_assoc. split.
      * do 2 f_equal. lia.
      * rewrite Hrest. unfold s2. rewrite !drop_insert_lt by lia. f_equal. lia.
Qed.

Lemma hi_itoa_reverse_lookup n i len s :
  (2 * (i + n) <= len)%nat -> (len <= length s)%nat ->
  exists s', hi_itoa_reverse n i len s = Some s' /\ length s' = length s /\
    forall j, s' !! j =
      if bool_decide ((i <= j < i + n) \/ (len - i - n <= j < len - i))%nat
      then s !! (len - 1 - j)%nat else s !! j.
Proof.
  revert i s. induction n as [|n IH]; intros i s Hn Hlen; simpl.
  - exists s. split; [done|]. split; [done|]. intros j. by rewrite bool_decide_false by lia.
  - destruct (lookup_lt_is_Some_2 s i) as [c Hc]; [lia|].
    destruct (lookup_lt_is_Some_2 s (len - i - 1)) as [d Hd]; [lia|].
    rewrite Hc, Hd. simpl. step_buf.
    destruct (IH (S i) (<[(len - i - 1)%nat := c]> (<[i := d]> s)))
      as (s' & -> & Hl & Hj); [lia | rewrite !length_insert; lia|].
    rewrite !length_insert in Hl. exists s'. split; [done|]. split; [done|].
    intros j. rewrite Hj, !list_lookup_insert, !length_insert.
    repeat (case_bool_decide || case_decide); try lia; try done;
      try (rewrite <- Hc; f_equal; lia); try (rewrite <- Hd; f_equal; lia).
Qed.

Lemma hi_itoa_reverse_spec len s :
  (len <= length s)%nat ->
  hi_itoa_reverse (len / 2) 0 len s = Some (reverse (take len s) ++ drop len s).
Proof.
  intros Hlen. pose proof (Nat.div_mod_eq len 2) as Hq.
  pose proof (Nat.mod_upper_bound len 2) as Hm.
  destruct (hi_itoa_reverse_lookup (len / 2) 0 len s) as (s' & -> & Hl & Hj);
    [lia | done |].
  f_equal. apply list_eq. intros j. rewrite Hj.
  assert (Hlt : length (take len s) = len) by (rewrite length_take; lia).
  destruct (decide (j < len)%nat) as [Hjl|Hjl].
  - rewrite lookup_app_l by (rewrite length_reverse; lia).
    rewrite reverse_lookup by lia. rewrite Hlt, lookup_take_lt by lia.
    case_bool_decide; f_equal; lia.
  - rewrite lookup_app_r by (rewrite length_reverse; lia).
    rewrite length_reverse, Hlt, lookup_drop, bool_decide_false by lia. f_equal. lia.
Qed.

(** What [hi_itoa] leaves in the buffer: the sign, the decimal digits, a NUL,
    and the rest of the old contents. *)
Definition itoa_text (num : Z) : bytes :=
  (if num <? 0 then ["-"%byte] else []) ++ dec (Z.abs num).

(** The buffer after printing a nonzero number. *)
Lemma hi_itoa_run (s : bytes) (num : Z) :
  (12 <= length s)%nat -> INT_MIN < num <= INT_MAX -> num <> 0 ->
  hi_itoa s num
    = Some (itoa_text num ++ Byte.x00 :: drop (S (length (itoa_text num))) s).
Proof.
  intros Hlen Hn H0. unfold hi_itoa.
  replace (num =? 0) with false by lia. unfold INT_MIN, INT_MAX in *.
  replace (num =? -2147483648) with false by lia.
  assert (Hd : (length (dec (Z.abs num)) <= 10)%nat).
  { apply dec_length_le; simpl; lia. }
  destruct (hi_itoa_digits_spec 10 (Z.abs num) s 0) as (x & rest & Heq & Hrest).
  { simpl. lia. }
  { replace (Z.abs num =? 0) with false by lia. rewrite length_reverse. lia. }
  replace (Z.abs num =? 0) with false in * by lia. rewrite Heq, Hrest. clear Heq Hrest rest.
  rewrite take_0. simpl. rewrite length_reverse. unfold itoa_text.
  set (ds := dec (Z.abs num)) in *.
  assert (Hlr : length (reverse ds) = length ds) by apply length_reverse.
  destruct (num <? 0) eqn:E; simpl; rewrite buf_set_Some by
    (rewrite length_app, Hlr; simpl; rewrite ?length_drop; lia); simpl.
  - rewrite insert_app_r_alt by lia.
    replace (length ds - length (reverse ds))%nat with 0%nat by lia. simpl.
    rewrite buf_set_Some by (rewrite length_app, Hlr; simpl; rewrite ?length_drop; lia).
    simpl. rewrite insert_app_r_alt by lia.
    replace (S (length ds) - length (reverse ds))%nat with 1%nat by lia.
    destruct (lookup_lt_is_Some_2 s (S (length ds))) as [y Hy]; [lia|].
    rewrite (drop_S _ _ _ Hy). simpl.
    rewrite hi_itoa_reverse_spec by (rewrite length_app, Hlr; simpl; lia).
    rewrite take_app_ge, drop_app_ge by lia.
    replace (S (length ds) - length (reverse ds))%nat with 1%nat by lia.
    simpl. rewrite reverse_app, reverse_involutive. done.
  - rewrite insert_app_r_alt by lia.
    replace (length ds - length (reverse ds))%nat with 0%nat by lia. simpl.
    rewrite hi_itoa_reverse_spec by (rewrite length_app, Hlr; simpl; lia).
    rewrite take_app_length', drop_app_length' by done.
    by rewrite reverse_involutive.
Qed.

Lemma itoa_length (s : bytes) (num : Z) :
  (12 <= length s)%nat -> INT_MIN < num <= INT_MAX ->
  length (itoa_text num ++ Byte.x00 :: drop (S (length (itoa_text num))) s) = length s.
Proof.
  intros Hl Hn. unfold INT_MIN, INT_MAX in *. assert (length (itoa_text num) <= 11)%nat.
  { unfold itoa_text. rewrite length_app. pose proof (dec_length_le 10 (Z.abs num) ltac:(simpl; lia)).
    destruct (num <? 0); simpl; lia. }
  rewrite length_app. simpl. rewrite length_drop. lia.
Qed.

Lemma itoa_text_no_nul num : Byte.x00 ∉ itoa_text num.
Proof.
  unfold itoa_text. intros [H|H]%elem_of_app.
  - destruct (num <? 0); [|by apply not_elem_of_nil in H].
    by apply list_elem_of_singleton in H.
  - pose proof (dec_digits (Z.abs num) ltac:(lia)) as Hd. rewrite Forall_forall in Hd.
    by apply (isdigit_not_nul _ (Hd _ H)).
Qed.

(** Printing a positive [int] and parsing the C string in the buffer gives
    the number back. *)
Lemma hi_itoa_roundtrip (s : bytes) (num : Z) :
  (12 <= length s)%nat -> 0 < num <= INT_MAX ->
  exists s', hi_itoa s num = Some s' /\ hi_atoi (c_str s') = num.
Proof.
  intros Hl Hn. unfold INT_MAX in *. eexists. split.
  - apply hi_itoa_run; unfold INT_MIN, INT_MAX; [done|lia|lia].
  - rewrite c_str_app_nul by apply itoa_text_no_nul. unfold itoa_text.
    replace (num <? 0) with false by lia. simpl. rewrite Z.abs_eq by lia.
    apply hi_atoi_dec. unfold INT_MAX. lia.
Qed.


(** ** Properties of the socket loops

    What POSIX says of a [send] on a stream socket, over the bytes [log] the
    socket has accepted: a call accepts a prefix of its buffer, whose length it
    returns, or nothing when it fails. *)
Definition send_accepts_prefix {W} (log : W -> bytes)
    (send : W -> bytes -> W * (Z * bool)) : Prop :=
  forall w p w' k e, send w p = (w', (k, e)) ->
    k <= Z.of_nat (length p) /\ log w' = log w ++ take (Z.to_nat k) p.

Lemma hi_sendn_loop_log {W} (log : W -> bytes) send :
  send_accepts_prefix log send ->
  forall fuel w ptr n w' r,
    hi_sendn_loop send fuel w ptr n = Some (w', r) ->
    (r = n /\ log w' = log w ++ ptr) \/
    (r < 0 /\ exists k, log w' = log w ++ take k ptr).
Proof.
  intros Hsend. induction fuel as [|f IH]; intros w ptr n w' r; simpl; [done|].
  case_decide as Hp.
  { apply nil_length_inv in Hp as ->. intros [= <- <-]. left. by rewrite app_nil_r. }
  destruct (send w ptr) as [w1 [k e]] eqn:Es. apply Hsend in Es as [Hk Hlog].
  destruct (k <? 0) eqn:E1; [destruct e|destruct (k =? 0) eqn:E2].
  - replace (Z.to_nat k) with 0%nat in Hlog by lia. rewrite take_0, app_nil_r in Hlog.
    rewrite <- Hlog. apply IH.
  - intros [= <- <-]. right. split; [lia|]. eauto.
  - intros [= <- <-]. right. split; [lia|]. eauto.
  - intros [[-> Hl]|[Hr [j Hl]]]%IH; rewrite Hl, Hlog, <- app_assoc.
    + left. by rewrite take_drop.
    + right. split; [done|]. exists (Z.to_nat k + j)%nat.
      by rewrite <- (take_take_drop ptr).
Qed.

(** A [hi_sendn] that returns the length it was given has handed every byte
    to the socket, in order and once; one that fails has handed over a prefix. *)
Theorem hi_sendn_sends_all {W} (log : W -> bytes) send fuel w data w' r :
  send_accepts_prefix log send ->
  hi_sendn send fuel w data = Some (w', r) ->
  (r = Z.of_nat (length data) /\ log w' = log w ++ data) \/
  (r < 0 /\ exists k, log w' = log w ++ take k data).
Proof. intros Hs. by apply hi_sendn_loop_log. Qed.

(** A socket that accepts at most three bytes a call. *)
Definition send3 (w p : bytes) : bytes * (Z * bool) :=
  (w ++ take 3 p, (Z.of_nat (length (take 3 p)), false)).

Lemma hi_sendn_sends_all_witness :
  hi_sendn send3 9 [] (str "*1 PING") = Some (str "*1 PING", 7) /\
  ((7 = Z.of_nat (length (str "*1 PING")) /\ id (str "*1 PING") = id [] ++ str "*1 PING") \/
   (7 < 0 /\ exists k, id (str "*1 PING") = id [] ++ take k (str "*1 PING"))).
Proof.
  split; [reflexivity|].
  apply (hi_sendn_sends_all (@id bytes) send3 9 [] (str "*1 PING")).
  - intros w p w' k e [= <- <- <-]. rewrite Nat2Z.id, length_take.
    split; [lia|]. by destruct p as [|? [|? [|? ?]]].
  - reflexivity.
Defined.

