(* ===== verification/System.v ===== *)
(** * hiutil.c: socket options, the clock, and failed assertions

    Thin layers over POSIX: [fcntl], [setsockopt], [getsockopt], [gettimeofday] and glibc's
    [backtrace_symbols] are parameters, with their results as the manual pages give
    them.  [W] is the state of the system. *)
From S2P Require Import Prelude.

(** The options set and read, by level and name, and their values. *)
Inductive sockopt := SO_REUSEADDR | TCP_NODELAY | SO_LINGER | SO_SNDBUF | SO_RCVBUF | SO_ERROR.
Inductive optval := opt_int (v : Z) | opt_linger (l_onoff l_linger : Z).

Class SysOps (W : Type) := {
  O_NONBLOCK : Z;
  fcntl_getfl : W -> Z -> W * Z;               (* fcntl(sd, F_GETFL, 0) *)
  fcntl_setfl : W -> Z -> Z -> W * Z;          (* fcntl(sd, F_SETFL, flags) *)
  setsockopt : W -> Z -> sockopt -> optval -> W * Z;
  getsockopt : W -> Z -> sockopt -> Z -> W * (Z * Z);   (* an int, with its value before: status and value *)
  set_errno : W -> Z -> W
}.

Section Options.
Context {W : Type} `{SysOps W}.
Implicit Types (w : W) (sd : Z).

Definition hi_set_blocking w sd : W * Z :=
  let '(w, flags) := fcntl_getfl w sd in
  if flags <? 0 then (w, flags) else fcntl_setfl w sd (Z.land flags (Z.lnot O_NONBLOCK)).

Definition hi_set_nonblocking w sd : W * Z :=
  let '(w, flags) := fcntl_getfl w sd in
  if flags <? 0 then (w, flags) else fcntl_setfl w sd (Z.lor flags O_NONBLOCK).

Definition hi_set_reuseaddr w sd : W * Z := setsockopt w sd SO_REUSEADDR (opt_int 1).
Definition hi_set_tcpnodelay w sd : W * Z := setsockopt w sd TCP_NODELAY (opt_int 1).
Definition hi_set_linger w sd (timeout : Z) : W * Z := setsockopt w sd SO_LINGER (opt_linger 1 timeout).
Definition hi_set_sndbuf w sd (size : Z) : W * Z := setsockopt w sd SO_SNDBUF (opt_int size).
Definition hi_set_rcvbuf w sd (size : Z) : W * Z := setsockopt w sd SO_RCVBUF (opt_int size).

Definition hi_get_soerror w sd : W * Z :=
  let '(w, (status, err)) := getsockopt w sd SO_ERROR 0 in
  (if status =? 0 then set_errno w err else w, status).

Definition hi_get_sndbuf w sd : W * Z :=
  let '(w, (status, size)) := getsockopt w sd SO_SNDBUF 0 in
  if status <? 0 then (w, status) else (w, size).
Definition hi_get_rcvbuf w sd : W * Z :=
  let '(w, (status, size)) := getsockopt w sd SO_RCVBUF 0 in
  if status <? 0 then (w, status) else (w, size).
End Options.

(** ** The clock

    [now] is what [gettimeofday] stores, seconds and microseconds, if it succeeds; the
    sum is an [int64_t]. *)
Definition hi_usec_now (now : option (Z * Z)) : Z :=
  match now with
  | None => -1
  | Some (tv_sec, tv_usec) => i64 (tv_sec * 1000000 + tv_usec)
  end.

Definition hi_msec_now (now : option (Z * Z)) : Z := Z.quot (hi_usec_now now) 1000.

(** ** Stack traces and failed assertions

    What is printed, a line each, when the build has [HI_HAVE_BACKTRACE]: [symbols] is the
    result of [backtrace_symbols], as many as the call stack is deep.  [None] is a read
    outside of it. *)
Fixpoint stacktrace_loop (fuel : nat) (symbols : list bytes) (i j : Z) : option (list bytes) :=
  match fuel with
  | O => Some []
  | S fuel' =>
      if i <? Z.of_nat (length symbols) then
        symbol ← (if i <? 0 then None else symbols !! Z.to_nat i);
        rest ← stacktrace_loop fuel' symbols (i + 1) (j + 1);
        Some ((str "[" ++ dec j ++ str "] " ++ symbol) :: rest)
      else Some []
  end.

Definition hi_stacktrace (symbols : option (list bytes)) (skip_count : Z) : option (list bytes) :=
  match symbols with
  | None => Some []
  | Some symbols =>
      let skip_count := i32 (skip_count + 1) in
      stacktrace_loop (length symbols) symbols skip_count 0
  end.

(** How a program goes on: [hi_assert] never returns. *)
Inductive ends := returns | aborts.

Definition hi_assert (symbols : option (list bytes)) (cond file : bytes) (line : Z) (panic : bool) : option (list bytes * ends) :=
  let failed := str "File: " ++ file ++ str " Line: " ++ dec line ++ str ": " ++ cond in
  if panic then trace ← hi_stacktrace symbols 1; Some (failed :: trace, aborts)
  else Some ([failed], aborts).

(** ** Properties *)

(** What the manual pages say of the descriptor flags: [F_SETFL] that succeeds stores the
    flags, [F_GETFL] reads what is stored and changes nothing; [O_NONBLOCK] is one bit. *)
Class SysLaws {W} (ops : SysOps W) := {
  stored_flags : W -> Z -> Z;
  nonblock_bit : exists k, 0 <= k < 31 /\ O_NONBLOCK = 2 ^ k;
  getfl_law w sd w' r : fcntl_getfl w sd = (w', r) -> w' = w /\ (0 <= r -> r = stored_flags w sd);
  setfl_law w sd f w' r : fcntl_setfl w sd f = (w', r) ->
    forall sd', stored_flags w' sd' = if (0 <=? r) && (sd' =? sd) then f else stored_flags w sd'
}.

Section Props.
Context {W : Type} {ops : SysOps W} {laws : SysLaws ops}.

(** The descriptor blocks. *)
Definition blocks (w : W) (sd : Z) : bool := Z.land (stored_flags w sd) O_NONBLOCK =? 0.
Definition other_flags (w : W) (sd : Z) : Z := Z.land (stored_flags w sd) (Z.lnot O_NONBLOCK).

Lemma set_flags (f : Z -> Z) (w : W) sd w' r :
  (let '(w, flags) := fcntl_getfl w sd in if flags <? 0 then (w, flags) else fcntl_setfl w sd (f flags)) = (w', r) ->
  forall sd', stored_flags w' sd' = if (0 <=? r) && (sd' =? sd) then f (stored_flags w sd) else stored_flags w sd'.
Proof.
  destruct (fcntl_getfl w sd) as [w1 flags] eqn:E. apply getfl_law in E as [-> Hf]. destruct (flags <? 0) eqn:Ef.
  - intros [= <- <-] sd'. destruct (0 <=? flags) eqn:E0; [lia|done].
  - intros Es. rewrite <- Hf by lia. by apply setfl_law.
Qed.

Lemma nonblock_set f : Z.land (Z.lor f O_NONBLOCK) O_NONBLOCK ≠ 0.
Proof.
  destruct nonblock_bit as (k & Hk & ->). intros E. apply (f_equal (fun z => Z.testbit z k)) in E. revert E.
  rewrite Z.land_spec, Z.lor_spec, Z.pow2_bits_true, orb_true_r, Z.bits_0 by lia. done.
Qed.

Lemma nonblock_clear f : Z.land (Z.land f (Z.lnot O_NONBLOCK)) O_NONBLOCK = 0.
Proof. by rewrite <- Z.land_assoc, (Z.land_comm (Z.lnot _)), Z.land_lnot_diag, Z.land_0_r. Qed.

(** [hi_set_blocking] and [hi_set_nonblocking] do what they say: a call that returns no
    error leaves the descriptor blocking, respectively non-blocking, with its other
    flags as they were; one that fails changes no flags, and neither touches another
    descriptor. *)
Theorem hi_set_blocking_spec (w : W) (sd : Z) :
  forall nonblocking w' r, (if nonblocking : bool then hi_set_nonblocking w sd else hi_set_blocking w sd) = (w', r) ->
  (0 <= r -> blocks w' sd = negb nonblocking /\ other_flags w' sd = other_flags w sd) /\
  (r < 0 -> stored_flags w' sd = stored_flags w sd) /\
  forall sd', sd' ≠ sd -> stored_flags w' sd' = stored_flags w sd'.
Proof.
  intros nonblocking w' r E.
  set (f := if nonblocking then fun flags => Z.lor flags O_NONBLOCK else fun flags => Z.land flags (Z.lnot O_NONBLOCK)).
  assert (Hs : forall sd', stored_flags w' sd' = if (0 <=? r) && (sd' =? sd) then f (stored_flags w sd) else stored_flags w sd').
  { apply set_flags. by destruct nonblocking. }
  split; [|split].
  - intros Hr. unfold blocks, other_flags. rewrite Hs. destruct (0 <=? r) eqn:E0; [|lia]. rewrite Z.eqb_refl. cbn [andb].
    destruct nonblocking; subst f; cbn; split.
    + apply Z.eqb_neq, nonblock_set.
    + by rewrite Z.land_lor_distr_l, Z.land_lnot_diag, Z.lor_0_r.
    + apply Z.eqb_eq, nonblock_clear.
    + by rewrite <- Z.land_assoc, Z.land_diag.
  - intros Hr. rewrite Hs. destruct (0 <=? r) eqn:E0; [lia|done].
  - intros sd' Hne. rewrite Hs. replace (sd' =? sd) with false by (symmetry; by apply Z.eqb_neq). by rewrite andb_false_r.
Qed.
End Props.

(** A clock that fails reads as -1 microseconds but as 0 milliseconds. *)
Lemma hi_msec_now_failed : hi_usec_now None = -1 /\ hi_msec_now None = 0.
Proof. done. Qed.

(** ** Witness: a system with a word of flags for each descriptor, where 7 is not open *)
Definition ex_sys : SysOps (Z -> Z) := {|
  O_NONBLOCK := 2048;
  fcntl_getfl := fun w sd => (w, if sd =? 7 then -1 else w sd);
  fcntl_setfl := fun w sd f => if sd =? 7 then (w, -1) else (fun i => if i =? sd then f else w i, 0);
  setsockopt := fun w _ _ _ => (w, 0);
  getsockopt := fun w _ _ _ => (w, (0, 0));
  set_errno := fun w _ => w
|}.
Definition ex_sys_laws : SysLaws ex_sys.
Proof.
  refine {| stored_flags := fun (w : Z -> Z) sd => w sd |}; cbn.
  - by exists 11.
  - intros w sd w' r. destruct (sd =? 7); intros [= <- <-]; split; [done|lia|done|done].
  - intros w sd f w' r. destruct (sd =? 7); intros [= <- <-] sd'; cbn; [done|]. by destruct (sd' =? sd).
Defined.

Lemma hi_set_blocking_spec_witness : let w' := (hi_set_nonblocking (H := ex_sys) (fun _ => 3) 1).1 in
  blocks (laws := ex_sys_laws) w' 1 = false /\ other_flags (laws := ex_sys_laws) w' 1 = 3.
Proof.
  exact (proj1 (hi_set_blocking_spec (laws := ex_sys_laws) (fun _ => 3) 1 true _ _ eq_refl) ltac:(by vm_compute)).
Defined.
