(* ===== verification/Crc16.v ===== *)
(** * crc16.c and the key-to-slot mapping

    [crc16] is the table-driven checksum of crc16.c; [keyHashSlot] (hircluster.c)
    maps a key, or the hash tag inside it, to one of the 16384 slots.  The
    reference [crc16_bits] divides bit by bit by the XMODEM polynomial. *)
From S2P Require Import Prelude.

Definition crc16tab : list Z :=
  [
   0x0000; 0x1021; 0x2042; 0x3063; 0x4084; 0x50a5; 0x60c6; 0x70e7;
   0x8108; 0x9129; 0xa14a; 0xb16b; 0xc18c; 0xd1ad; 0xe1ce; 0xf1ef;
   0x1231; 0x0210; 0x3273; 0x2252; 0x52b5; 0x4294; 0x72f7; 0x62d6;
   0x9339; 0x8318; 0xb37b; 0xa35a; 0xd3bd; 0xc39c; 0xf3ff; 0xe3de;
   0x2462; 0x3443; 0x0420; 0x1401; 0x64e6; 0x74c7; 0x44a4; 0x5485;
   0xa56a; 0xb54b; 0x8528; 0x9509; 0xe5ee; 0xf5cf; 0xc5ac; 0xd58d;
   0x3653; 0x2672; 0x1611; 0x0630; 0x76d7; 0x66f6; 0x5695; 0x46b4;
   0xb75b; 0xa77a; 0x9719; 0x8738; 0xf7df; 0xe7fe; 0xd79d; 0xc7bc;
   0x48c4; 0x58e5; 0x6886; 0x78a7; 0x0840; 0x1861; 0x2802; 0x3823;
   0xc9cc; 0xd9ed; 0xe98e; 0xf9af; 0x8948; 0x9969; 0xa90a; 0xb92b;
   0x5af5; 0x4ad4; 0x7ab7; 0x6a96; 0x1a71; 0x0a50; 0x3a33; 0x2a12;
   0xdbfd; 0xcbdc; 0xfbbf; 0xeb9e; 0x9b79; 0x8b58; 0xbb3b; 0xab1a;
   0x6ca6; 0x7c87; 0x4ce4; 0x5cc5; 0x2c22; 0x3c03; 0x0c60; 0x1c41;
   0xedae; 0xfd8f; 0xcdec; 0xddcd; 0xad2a; 0xbd0b; 0x8d68; 0x9d49;
   0x7e97; 0x6eb6; 0x5ed5; 0x4ef4; 0x3e13; 0x2e32; 0x1e51; 0x0e70;
   0xff9f; 0xefbe; 0xdfdd; 0xcffc; 0xbf1b; 0xaf3a; 0x9f59; 0x8f78;
   0x9188; 0x81a9; 0xb1ca; 0xa1eb; 0xd10c; 0xc12d; 0xf14e; 0xe16f;
   0x1080; 0x00a1; 0x30c2; 0x20e3; 0x5004; 0x4025; 0x7046; 0x6067;
   0x83b9; 0x9398; 0xa3fb; 0xb3da; 0xc33d; 0xd31c; 0xe37f; 0xf35e;
   0x02b1; 0x1290; 0x22f3; 0x32d2; 0x4235; 0x5214; 0x6277; 0x7256;
   0xb5ea; 0xa5cb; 0x95a8; 0x8589; 0xf56e; 0xe54f; 0xd52c; 0xc50d;
   0x34e2; 0x24c3; 0x14a0; 0x0481; 0x7466; 0x6447; 0x5424; 0x4405;
   0xa7db; 0xb7fa; 0x8799; 0x97b8; 0xe75f; 0xf77e; 0xc71d; 0xd73c;
   0x26d3; 0x36f2; 0x0691; 0x16b0; 0x6657; 0x7676; 0x4615; 0x5634;
   0xd94c; 0xc96d; 0xf90e; 0xe92f; 0x99c8; 0x89e9; 0xb98a; 0xa9ab;
   0x5844; 0x4865; 0x7806; 0x6827; 0x18c0; 0x08e1; 0x3882; 0x28a3;
   0xcb7d; 0xdb5c; 0xeb3f; 0xfb1e; 0x8bf9; 0x9bd8; 0xabbb; 0xbb9a;
   0x4a75; 0x5a54; 0x6a37; 0x7a16; 0x0af1; 0x1ad0; 0x2ab3; 0x3a92;
   0xfd2e; 0xed0f; 0xdd6c; 0xcd4d; 0xbdaa; 0xad8b; 0x9de8; 0x8dc9;
   0x7c26; 0x6c07; 0x5c64; 0x4c45; 0x3ca2; 0x2c83; 0x1ce0; 0x0cc1;
   0xef1f; 0xff3e; 0xcf5d; 0xdf7c; 0xaf9b; 0xbfba; 0x8fd9; 0x9ff8;
   0x6e17; 0x7e36; 0x4e55; 0x5e74; 0x2e93; 0x3eb2; 0x0ed1; 0x1ef0
  ].

(** The value of a [char], which is signed on the common platforms; the mask
    [0x00FF] makes the result the same either way. *)
Definition Z_of_char (b : byte) : Z := wraps 8 (Z_of_byte b).

Definition crc16_step (crc : Z) (b : byte) : Z :=
  let i := Z.land (Z.lxor (Z.shiftr crc 8) (Z_of_char b)) 0x00FF in
  u16 (Z.lxor (Z.shiftl crc 8) (nth (Z.to_nat i) crc16tab 0)).

Definition crc16 (buf : bytes) : Z := fold_left crc16_step buf 0.

(** ** [keyHashSlot] *)
Definition REDIS_CLUSTER_SLOTS : Z := 16384.

(** The loops [for (i = ...; i < keylen; i++) if (key[i] == c) break;]: [rest]
    is the key from index [i] on. *)
Fixpoint scan_byte (c : byte) (rest : bytes) (i : nat) : nat :=
  match rest with
  | [] => i
  | b :: rest' => if decide (b = c) then i else scan_byte c rest' (S i)
  end.

Definition keyHashSlot (key : bytes) : Z :=
  let keylen := length key in
  let s := scan_byte "{"%byte key 0 in
  if decide (s = keylen) then Z.land (crc16 key) 0x3FFF
  else
    let e := scan_byte "}"%byte (drop (S s) key) (S s) in
    if decide (e = keylen \/ e = S s) then Z.land (crc16 key) 0x3FFF
    else Z.land (crc16 (take (e - s - 1) (drop (S s) key))) 0x3FFF.

(** [redisClusterGetSlotByKey] takes a C string. *)
Definition redisClusterGetSlotByKey (key : bytes) : Z := keyHashSlot (c_str key).

(** ** The reference checksum *)
Definition POLY : Z := 0x1021.

Definition crc_bit (c : Z) : Z :=
  Z.lxor (u16 (Z.shiftl c 1)) (if Z.testbit c 15 then POLY else 0).

Definition crc_bits8 (c : Z) : Z := Nat.iter 8 crc_bit c.

Definition crc_byte (c : Z) (b : Z) : Z := crc_bits8 (Z.lxor c (Z.shiftl b 8)).

Definition crc16_bits (buf : bytes) : Z :=
  fold_left (fun c b => crc_byte c (Z_of_byte b)) buf 0.

Example crc16_check_value : crc16 (str "123456789") = 0x31C3.
Proof. vm_compute. reflexivity. Qed.

(** ** Equivalence *)
Lemma u16_testbit z i : 0 <= i -> Z.testbit (u16 z) i = (i <? 16) && Z.testbit z i.
Proof.
  intros Hi. unfold wrapu. destruct (i <? 16) eqn:E; simpl.
  - apply Z.mod_pow2_bits_low. lia.
  - apply Z.mod_pow2_bits_high. lia.
Qed.

Lemma u16_lxor a b : u16 (Z.lxor a b) = Z.lxor (u16 a) (u16 b).
Proof.
  apply Z.bits_inj'. intros i Hi. rewrite Z.lxor_spec, !u16_testbit, Z.lxor_spec by done.
  by destruct (i <? 16).
Qed.

Lemma crc_bit_lxor a b : crc_bit (Z.lxor a b) = Z.lxor (crc_bit a) (crc_bit b).
Proof.
  unfold crc_bit. rewrite Z.lxor_spec, Z.shiftl_lxor, u16_lxor.
  set (x := u16 (Z.shiftl a 1)). set (y := u16 (Z.shiftl b 1)).
  apply Z.bits_inj'. intros i Hi. rewrite !Z.lxor_spec.
  destruct (Z.testbit a 15), (Z.testbit b 15); simpl; rewrite ?Z.bits_0;
    destruct (Z.testbit x i), (Z.testbit y i), (Z.testbit POLY i); done.
Qed.

Lemma crc_iter_lxor n a b :
  Nat.iter n crc_bit (Z.lxor a b) = Z.lxor (Nat.iter n crc_bit a) (Nat.iter n crc_bit b).
Proof. induction n as [|n IH]; simpl; [done|]. by rewrite IH, crc_bit_lxor. Qed.

(** The two facts read off the table: a high byte becomes its table entry, a
    low byte is shifted up. *)
Lemma crc_table_correct x :
  0 <= x < 256 ->
  crc_bits8 (Z.shiftl x 8) = nth (Z.to_nat x) crc16tab 0 /\ crc_bits8 x = Z.shiftl x 8.
Proof.
  intros Hx.
  assert (H : forallb (fun x =>
      (crc_bits8 (Z.shiftl x 8) =? nth (Z.to_nat x) crc16tab 0)
      && (crc_bits8 x =? Z.shiftl x 8)) (map Z.of_nat (seq 0 256)) = true)
    by (vm_compute; reflexivity).
  rewrite forallb_forall in H. specialize (H x). rewrite andb_true_iff, !Z.eqb_eq in H.
  apply H, in_map_iff. exists (Z.to_nat x). split; [lia|]. apply in_seq. lia.
Qed.

Lemma crc_bits8_lxor a b : crc_bits8 (Z.lxor a b) = Z.lxor (crc_bits8 a) (crc_bits8 b).
Proof. apply crc_iter_lxor. Qed.

Lemma Z_of_char_land b : Z.land (Z_of_char b) 255 = Z_of_byte b.
Proof.
  change 255 with (Z.ones 8). rewrite Z.land_ones by lia. unfold Z_of_char, wraps.
  rewrite Zminus_mod_idemp_l. pose proof (Z_of_byte_range b).
  replace (Z_of_byte b + 2 ^ (8 - 1) - 2 ^ (8 - 1)) with (Z_of_byte b) by lia.
  apply Z.mod_small. lia.
Qed.

Lemma land_255_range z : 0 <= Z.land z 255 < 256.
Proof. change 255 with (Z.ones 8). rewrite Z.land_ones by lia. apply Z.mod_pos_bound. lia. Qed.

Lemma crc_split c : Z.lxor (Z.shiftl (Z.shiftr c 8) 8) (Z.land c 255) = c.
Proof.
  apply Z.bits_inj'. intros i Hi. change 255 with (Z.ones 8).
  rewrite Z.lxor_spec, Z.land_spec, Z.shiftl_spec, Z.testbit_ones_nonneg by lia.
  destruct (Z.ltb_spec i 8).
  - rewrite Z.testbit_neg_r by lia. simpl. apply andb_true_r.
  - rewrite Z.shiftr_spec, Z.sub_add, andb_false_r by lia. apply xorb_false_r.
Qed.

Lemma shiftr8_range c : 0 <= c < 65536 -> 0 <= Z.shiftr c 8 < 256.
Proof. intros. rewrite Z.shiftr_div_pow2 by lia. simpl (2 ^ 8). zdiv. Qed.

Lemma land_255_id z : 0 <= z < 256 -> Z.land z 255 = z.
Proof.
  intros. change 255 with (Z.ones 8). rewrite Z.land_ones by lia. apply Z.mod_small. lia.
Qed.

Lemma land_lxor_255 a b : Z.land (Z.lxor a b) 255 = Z.lxor (Z.land a 255) (Z.land b 255).
Proof.
  apply Z.bits_inj'. intros i Hi. rewrite Z.land_spec, !Z.lxor_spec, !Z.land_spec.
  by destruct (Z.testbit a i), (Z.testbit b i), (Z.testbit 255 i).
Qed.

Lemma u16_shiftl8 c : u16 (Z.shiftl c 8) = Z.shiftl (Z.land c 255) 8.
Proof.
  unfold wrapu. change 255 with (Z.ones 8). rewrite Z.land_ones, !Z.shiftl_mul_pow2 by lia.
  replace (2 ^ 16) with (2 ^ 8 * 2 ^ 8) by lia. by rewrite Z.mul_mod_distr_r by lia.
Qed.

Lemma u16_id z : 0 <= z < 65536 -> u16 z = z.
Proof. intros. apply wrapu_small. lia. Qed.

Lemma crc_bit_range c : 0 <= crc_bit c < 65536.
Proof.
  unfold crc_bit. set (y := u16 _). set (p := if Z.testbit c 15 then POLY else 0).
  assert (Hy : 0 <= y < 65536) by (unfold y; apply (wrapu_range 16); lia).
  assert (Hp : 0 <= p < 65536) by (unfold p; destruct (Z.testbit _ _); unfold POLY; lia).
  rewrite <- (u16_id y), <- (u16_id p), <- u16_lxor by done.
  apply (wrapu_range 16). lia.
Qed.

Lemma crc_iter_range n z : (0 < n)%nat -> 0 <= Nat.iter n crc_bit z < 65536.
Proof. destruct n as [|n]; [lia|]. intros _. apply crc_bit_range. Qed.

Lemma crc_table_range x : 0 <= x < 256 -> 0 <= nth (Z.to_nat x) crc16tab 0 < 65536.
Proof.
  intros Hx. destruct (crc_table_correct x Hx) as [H _].
  rewrite <- H. apply crc_iter_range. lia.
Qed.

#[local] Opaque crc_bits8 crc16tab.

Lemma crc16_step_bits crc b :
  0 <= crc < 65536 -> crc16_step crc b = crc_byte crc (Z_of_byte b).
Proof.
  intros Hc. unfold crc16_step, crc_byte.
  pose proof (shiftr8_range crc Hc) as Hhi. pose proof (Z_of_byte_range b) as Hb.
  rewrite land_lxor_255, Z_of_char_land, land_255_id by done.
  set (x := Z.lxor (Z.shiftr crc 8) (Z_of_byte b)).
  assert (Hx : 0 <= x < 256).
  { replace x with (Z.land x 255); [apply land_255_range|].
    unfold x. by rewrite land_lxor_255, !land_255_id. }
  replace (Z.lxor crc (Z.shiftl (Z_of_byte b) 8))
    with (Z.lxor (Z.shiftl x 8) (Z.land crc 255)).
  - rewrite crc_bits8_lxor, (proj1 (crc_table_correct x Hx)),
      (proj2 (crc_table_correct _ (land_255_range crc))).
    rewrite u16_lxor, u16_shiftl8, u16_id by (by apply crc_table_range). apply Z.lxor_comm.
  - rewrite <- (crc_split crc) at 2. unfold x. rewrite Z.shiftl_lxor.
    rewrite !Z.lxor_assoc. f_equal. apply Z.lxor_comm.
Qed.

Lemma crc16_step_range crc b : 0 <= crc16_step crc b < 65536.
Proof. apply (wrapu_range 16). lia. Qed.

(** The table-driven [crc16] is the bit-by-bit CRC-16/XMODEM. *)
Lemma crc16_bits_eq (buf : bytes) : crc16 buf = crc16_bits buf.
Proof.
  apply (fold_left_ext_inv (fun c => 0 <= c < 65536)); [|lia].
  intros c b Hc. split; [by apply crc16_step_bits | apply crc16_step_range].
Qed.

Lemma crc16_range (buf : bytes) : 0 <= crc16 buf < 2 ^ 16.
Proof.
  unfold crc16. rewrite <- fold_left_rev_right. destruct (rev buf) as [|b l]; simpl; [lia|].
  apply (crc16_step_range _ b).
Qed.

(** C32. The table-driven [crc16] computes the bit-by-bit CRC-16/XMODEM of every
    buffer, and stays a [uint16_t]. *)
Theorem crc16_is_xmodem (buf : bytes) : crc16 buf = crc16_bits buf /\ 0 <= crc16 buf < 2 ^ 16.
Proof. split; [apply crc16_bits_eq | apply crc16_range]. Qed.

(** ** The slot of a key *)
Lemma scan_byte_spec c rest i :
  let j := scan_byte c rest i in
  (i <= j <= i + length rest)%nat /\ (c ∉ take (j - i) rest) /\
  ((j < i + length rest)%nat -> rest !! (j - i)%nat = Some c).
Proof.
  revert i. induction rest as [|b rest IH]; intros i; simpl.
  - rewrite take_nil. split; [lia|]. split; [apply not_elem_of_nil|lia].
  - case_decide as Hd.
    + subst. rewrite Nat.sub_diag. simpl. split; [lia|].
      split; [apply not_elem_of_nil|done].
    + specialize (IH (S i)). simpl in IH. destruct IH as (H1 & H2 & H3).
      replace (scan_byte c rest (S i) - i)%nat
        with (S (scan_byte c rest (S i) - S i))%nat by lia.
      split; [lia|]. split; [simpl; by apply not_elem_of_cons|]. intros. apply H3. lia.
Qed.

Lemma scan_byte_found c pre post i :
  c ∉ pre -> scan_byte c (pre ++ c :: post) i = (i + length pre)%nat.
Proof.
  revert i. induction pre as [|b pre IH]; intros i Hn; simpl.
  - rewrite decide_True by done. lia.
  - apply not_elem_of_cons in Hn as [Hb Hn]. rewrite decide_False by done.
    rewrite IH by done. lia.
Qed.

Lemma scan_byte_absent c s i : c ∉ s -> scan_byte c s i = (i + length s)%nat.
Proof.
  revert i. induction s as [|b s IH]; intros i Hn; simpl; [lia|].
  apply not_elem_of_cons in Hn as [Hb Hn]. rewrite decide_False by done.
  rewrite IH by done. lia.
Qed.

(** The part of a key that is hashed, as the comment on [keyHashSlot] defines
    it: what lies between the first brace and the next closing brace, when that
    is not empty, and the whole key otherwise. *)
Inductive hashed_part : bytes -> bytes -> Prop :=
  | hashed_tag pre tag post :
      "{"%byte ∉ pre -> "}"%byte ∉ tag -> tag ≠ [] ->
      hashed_part (pre ++ "{"%byte :: tag ++ "}"%byte :: post) tag
  | hashed_no_open key :
      "{"%byte ∉ key -> hashed_part key key
  | hashed_no_close pre rest :
      "{"%byte ∉ pre -> "}"%byte ∉ rest ->
      hashed_part (pre ++ "{"%byte :: rest) (pre ++ "{"%byte :: rest)
  | hashed_empty_tag pre post :
      "{"%byte ∉ pre ->
      hashed_part (pre ++ "{"%byte :: "}"%byte :: post)
                  (pre ++ "{"%byte :: "}"%byte :: post).

Lemma drop_S_app {A} (pre rest : list A) x : drop (S (length pre)) (pre ++ x :: rest) = rest.
Proof. rewrite cons_middle, app_assoc. apply drop_app_length'. rewrite length_app. simpl. lia. Qed.

Lemma keyHashSlot_open pre rest :
  "{"%byte ∉ pre ->
  keyHashSlot (pre ++ "{"%byte :: rest) =
    (let e := scan_byte "}"%byte rest (S (length pre)) in
     if decide (e = S (length pre) + length rest \/ e = S (length pre))%nat
     then Z.land (crc16 (pre ++ "{"%byte :: rest)) 0x3FFF
     else Z.land (crc16 (take (e - length pre - 1) rest)) 0x3FFF).
Proof.
  intros Hn. unfold keyHashSlot. rewrite scan_byte_found by done. simpl.
  rewrite drop_S_app, length_app. simpl.
  rewrite decide_False by lia. by rewrite Nat.add_succ_r.
Qed.

(** [keyHashSlot] is the low 14 bits of the CRC of the hashed part. *)
Lemma keyHashSlot_hashed (key part : bytes) :
  hashed_part key part -> keyHashSlot key = crc16_bits part mod REDIS_CLUSTER_SLOTS.
Proof.
  assert (Hm : forall z, Z.land z 0x3FFF = z mod REDIS_CLUSTER_SLOTS).
  { intros z. change 0x3FFF with (Z.ones 14). by rewrite Z.land_ones by lia. }
  intros Hp. rewrite <- crc16_bits_eq, <- Hm.
  destruct Hp as [pre tag post Hb Hc Hne|key Hb|pre rest Hb Hc|pre post Hb].
  - rewrite keyHashSlot_open by done. simpl. rewrite scan_byte_found by done.
    assert (length tag <> 0)%nat by (by destruct tag).
    rewrite decide_False by (rewrite length_app; simpl; lia). do 2 f_equal.
    rewrite take_app_le by lia. apply take_ge. lia.
  - unfold keyHashSlot. rewrite scan_byte_absent, decide_True by done. done.
  - rewrite keyHashSlot_open by done. simpl. rewrite scan_byte_absent by done.
    by rewrite decide_True by lia.
  - rewrite keyHashSlot_open by done. simpl. by rewrite decide_True by lia.
Qed.

Lemma hashed_part_total key : exists part, hashed_part key part.
Proof.
  destruct (find_byte "{"%byte key) as [s|] eqn:Es.
  - apply find_byte_Some in Es as [Hs Hpre].
    rewrite <- (take_drop_middle key s _ Hs).
    set (rest := drop (S s) key). destruct (find_byte "}"%byte rest) as [e|] eqn:Ee.
    + apply find_byte_Some in Ee as [He Htag].
      rewrite <- (take_drop_middle rest e _ He).
      destruct (decide (e = O)) as [->|He0]; [eexists; by apply hashed_empty_tag|].
      exists (take e rest). apply hashed_tag; [done|done|].
      intros Hnil. apply nil_length_inv in Hnil as Hn0 || idtac.
      apply lookup_lt_Some in He. assert (Hl : length (take e rest) = e) by
        (rewrite length_take; lia). rewrite Hnil in Hl. simpl in Hl. lia.
    + apply find_byte_None in Ee. eexists. by apply hashed_no_close.
  - apply find_byte_None in Es. exists key. by apply hashed_no_open.
Qed.

Lemma keyHashSlot_bounds (key : bytes) : 0 <= keyHashSlot key < REDIS_CLUSTER_SLOTS.
Proof.
  destruct (hashed_part_total key) as [part Hp]. rewrite (keyHashSlot_hashed _ _ Hp).
  apply Z.mod_pos_bound. reflexivity.
Qed.

(** C31. The slot of a key is the CRC-16/XMODEM of its hashed part modulo 16384: of the
    first non-empty hash tag when the first opening brace starts one, of the
    whole key otherwise.  Every key has a hashed part, and a slot of the table. *)
Theorem keyHashSlot_spec (key : bytes) :
  (forall part, hashed_part key part -> keyHashSlot key = crc16_bits part mod REDIS_CLUSTER_SLOTS) /\
  (exists part, hashed_part key part) /\ 0 <= keyHashSlot key < REDIS_CLUSTER_SLOTS.
Proof.
  split; [apply keyHashSlot_hashed|]. split; [apply hashed_part_total | apply keyHashSlot_bounds].
Qed.

(** Keys that share a non-empty hash tag share their slot. *)
Theorem keyHashSlot_same_tag (pre1 pre2 tag post1 post2 : bytes) :
  "{"%byte ∉ pre1 -> "{"%byte ∉ pre2 -> "}"%byte ∉ tag -> tag ≠ [] ->
  keyHashSlot (pre1 ++ "{"%byte :: tag ++ "}"%byte :: post1) =
  keyHashSlot (pre2 ++ "{"%byte :: tag ++ "}"%byte :: post2).
Proof. intros. by rewrite !(keyHashSlot_hashed _ tag) by (by apply hashed_tag). Qed.

Lemma keyHashSlot_spec_witness :
  hashed_part (str "foo{hash_tag}") (str "hash_tag") /\
  keyHashSlot (str "foo{hash_tag}") = crc16_bits (str "hash_tag") mod REDIS_CLUSTER_SLOTS.
Proof.
  assert (H : hashed_part (str "foo{hash_tag}") (str "hash_tag")).
  { apply (hashed_tag (str "foo") (str "hash_tag") []); [apply (bool_decide_unpack _); done..|done]. }
  exact (conj H (proj1 (keyHashSlot_spec (str "foo{hash_tag}")) _ H)).
Defined.

Lemma keyHashSlot_same_tag_witness :
  keyHashSlot (str "a{user1000}x") = keyHashSlot (str "{user1000}.following").
Proof.
  apply (keyHashSlot_same_tag (str "a") [] (str "user1000") (str "x") (str ".following"));
    [apply (bool_decide_unpack _); done..|done].
Defined.
