(* ===== verification/Hiarray.v ===== *)
(** * hiarray.c: the growable array

    An array is the C struct with its heap block; [push], [pop] and [get] return
    a byte offset into the block, as the code returns a pointer, and the caller
    stores or loads through it.  Allocation results are arguments: [hi_malloc]
    and [hi_realloc] belong to hiredis.  [ASSERT] is empty in the default build
    and is not part of the model. *)
From S2P Require Import Prelude.

Section Hiarray.
Context {A : Type}.

(** A heap block: its size in bytes and the elements stored in it, by byte
    offset. *)
Record block := mkBlock { bsize : Z; cells : gmap Z A }.

Record hiarray := mkHiarray {
  nelem : Z;            (* uint32_t: # element *)
  elem : option block;  (* element *)
  size : Z;             (* size_t: element size *)
  nalloc : Z            (* uint32_t: # allocated element *)
}.

Definition hiarray_null : hiarray := mkHiarray 0 None 0 0.

Definition hiarray_set (elem : option block) (size nalloc : Z) : hiarray :=
  mkHiarray 0 elem size nalloc.

Definition hiarray_n (a : hiarray) : Z := nelem a.

(** [malloc_a] and [malloc_elem]: whether the two allocations succeed. *)
Definition hiarray_create (malloc_a malloc_elem : bool) (n size : Z) : option hiarray :=
  if negb malloc_a then None
  else if negb malloc_elem then None
  else Some (mkHiarray 0 (Some (mkBlock (u64 (n * size)) ∅)) size n).

Definition hiarray_deinit (a : hiarray) : hiarray :=
  mkHiarray (nelem a) None (size a) (nalloc a).

(** [elem] is the byte offset of a pointer into the block. *)
Definition hiarray_idx (a : hiarray) (elem : Z) : Z :=
  let off := u32 elem in off / u32 (size a).

(** What [realloc] keeps of a block. *)
Definition realloc_block (b : option block) (sz esize : Z) : block :=
  mkBlock sz
    (match b with
     | Some b => filter (fun p => p.1 + esize <= sz) (cells b)
     | None => ∅
     end).

Definition hiarray_push (realloc_ok : bool) (a : hiarray) : hiarray * option Z :=
  let grown :=
    if nelem a =? nalloc a then
      let sz := u64 (size a * nalloc a) in
      if negb realloc_ok then None
      else Some (mkHiarray (nelem a) (Some (realloc_block (elem a) (u64 (2 * sz)) (size a)))
                   (size a) (u32 (nalloc a * 2)))
    else Some a in
  match grown with
  | None => (a, None)
  | Some a =>
      let p := u64 (size a * nelem a) in
      (mkHiarray (u32 (nelem a + 1)) (elem a) (size a) (nalloc a), Some p)
  end.

Definition hiarray_pop (a : hiarray) : hiarray * Z :=
  let n := u32 (nelem a - 1) in
  (mkHiarray n (elem a) (size a) (nalloc a), u64 (size a * n)).

Definition hiarray_get (a : hiarray) (idx : Z) : Z := u64 (size a * idx).

Definition hiarray_top (a : hiarray) : Z := hiarray_get a (u32 (nelem a - 1)).

Definition hiarray_swap (a b : hiarray) : hiarray * hiarray := (b, a).

(** Access through a returned pointer: undefined outside the block. *)
Definition store (a : hiarray) (p : Z) (v : A) : option hiarray :=
  b ← elem a;
  if decide (0 <= p /\ p + size a <= bsize b) then
    Some (mkHiarray (nelem a) (Some (mkBlock (bsize b) (<[p := v]> (cells b))))
            (size a) (nalloc a))
  else None.

Definition load (a : hiarray) (p : Z) : option A :=
  b ← elem a;
  if decide (0 <= p /\ p + size a <= bsize b) then cells b !! p else None.

(** [hiarray_each]: [func] takes the element and the caller's data and gives
    the data and a status; [HI_OK] is 0.  [nelem] bounds the iterations. *)
Fixpoint hiarray_each_loop {D} (fuel : nat) (a : hiarray) (func : A -> D -> D * Z)
    (data : D) (i nelem : Z) : option (D * Z) :=
  if i <? nelem then
    match fuel with
    | O => None
    | S fuel' =>
        e ← load a (hiarray_get a i);
        let '(data, status) := func e data in
        if negb (status =? 0) then Some (data, status)
        else hiarray_each_loop fuel' a func data (i + 1) nelem
    end
  else Some (data, 0).

Definition hiarray_each {D} (a : hiarray) (func : A -> D -> D * Z) (data : D)
  : option (D * Z) :=
  hiarray_each_loop (Z.to_nat (hiarray_n a)) a func data 0 (hiarray_n a).

(** [hiarray_sort] is [qsort] on the block; [qsort] belongs to the C library, which leaves
    the order of equal elements open. *)
Definition hiarray_elems (a : hiarray) : option (list A) :=
  mapM (fun i => load a (hiarray_get a (Z.of_nat i))) (seq 0 (Z.to_nat (nelem a))).

Fixpoint store_all (a : hiarray) (i : Z) (l : list A) : option hiarray :=
  match l with
  | [] => Some a
  | v :: l => a ← store a (hiarray_get a i) v; store_all a (i + 1) l
  end.

Definition hiarray_sort (qsort : (A -> A -> Z) -> list A -> list A) (a : hiarray) (compare : A -> A -> Z)
  : option hiarray :=
  l ← hiarray_elems a; store_all a 0 (qsort compare l).

(** ** The contract: an array holds a list *)
Definition repr (a : hiarray) (l : list A) : Prop :=
  0 < size a < 2 ^ 32 /\ nelem a = Z.of_nat (length l) /\
  nelem a <= nalloc a < 2 ^ 32 /\ 0 < nalloc a /\
  size a * nalloc a < 2 ^ 64 /\
  exists b, elem a = Some b /\ bsize b = size a * nalloc a /\
    forall i v, l !! i = Some v -> cells b !! (size a * Z.of_nat i) = Some v.

Lemma hiarray_create_repr n sz :
  0 < n < 2 ^ 32 -> 0 < sz < 2 ^ 32 ->
  exists a, hiarray_create true true n sz = Some a /\ repr a [].
Proof.
  intros Hn Hs. eexists. split; [reflexivity|]. unfold repr. simpl.
  assert (sz * n < 2 ^ 64) by nia.
  do 5 (split; [lia|]). eexists. split; [reflexivity|].
  split; [|done]. simpl. rewrite wrapu_small by nia. lia.
Qed.

Lemma get_offset a l i :
  repr a l -> 0 <= i < nalloc a ->
  hiarray_get a i = size a * i /\ 0 <= size a * i /\
  forall b, elem a = Some b -> bsize b = size a * nalloc a ->
    size a * i + size a <= bsize b.
Proof.
  intros (Hs & Hn & Hna & Hp & Hov & b & Hb & Hbs & Hc) Hi.
  unfold hiarray_get. rewrite wrapu_small by nia. split; [done|].
  split; [nia|]. intros b' ? ->. nia.
Qed.

Lemma load_get a l i v :
  repr a l -> l !! i = Some v -> load a (hiarray_get a (Z.of_nat i)) = Some v.
Proof.
  intros Hr Hi. pose proof (lookup_lt_Some _ _ _ Hi) as Hlt.
  pose proof Hr as (Hs & Hn & Hna & Hp & Hov & b & Hb & Hbs & Hc).
  destruct (get_offset a l (Z.of_nat i) Hr) as (-> & H0 & Hle); [lia|].
  unfold load. rewrite Hb. simpl. rewrite decide_True by eauto. by apply Hc.
Qed.

Lemma repr_length_lt a l i v : repr a l -> l !! i = Some v -> Z.of_nat i < nelem a.
Proof. intros (_ & -> & _) Hi. apply lookup_lt_Some in Hi. lia. Qed.

(** An array that fits: doubling it overflows neither the element count nor
    the byte size. *)
Definition can_double (a : hiarray) : Prop :=
  nalloc a * 2 < 2 ^ 32 /\ 2 * (size a * nalloc a) < 2 ^ 64.

Lemma store_at_end a b l v n :
  n = Z.of_nat (length l) -> 0 < size a < 2 ^ 32 -> nelem a = n + 1 -> nelem a <= nalloc a < 2 ^ 32 ->
  size a * nalloc a < 2 ^ 64 -> elem a = Some b -> bsize b = size a * nalloc a ->
  (forall i w, l !! i = Some w -> cells b !! (size a * Z.of_nat i) = Some w) ->
  exists a', store a (u64 (size a * n)) v = Some a' /\
    repr a' (l ++ [v]).
Proof.
  intros -> Hs Hn Hna Hov Hb Hbs Hc. unfold store. rewrite Hb. simpl.
  rewrite wrapu_small by nia. rewrite decide_True by (rewrite Hbs; nia).
  eexists. split; [reflexivity|]. unfold repr. simpl.
  rewrite length_app. simpl. do 5 (split; [lia|]).
  eexists. split; [reflexivity|]. split; [done|]. intros i w Hi. simpl.
  apply lookup_app_Some in Hi as [Hi|[Hge Hi]].
  - pose proof (lookup_lt_Some _ _ _ Hi). rewrite lookup_insert_ne by nia. by apply Hc.
  - apply list_lookup_singleton_Some in Hi as [Hi <-].
    replace i with (length l) by lia. apply lookup_insert_eq.
Qed.

(** Push and store through the returned pointer: the array holds one more
    element; a failing [realloc] leaves it as it was. *)
Lemma hiarray_push_repr ok a l v :
  repr a l -> can_double a ->
  match hiarray_push ok a with
  | (a', Some p) => exists a'', store a' p v = Some a'' /\ repr a'' (l ++ [v])
  | (a', None) => a' = a /\ ok = false /\ nelem a = nalloc a
  end.
Proof.
  intros Hr [Hd1 Hd2]. pose proof Hr as (Hs & Hn & Hna & Hp & Hov & b & Hb & Hbs & Hc).
  unfold hiarray_push. destruct (nelem a =? nalloc a) eqn:E.
  - apply Z.eqb_eq in E. destruct ok; simpl; [|done].
    rewrite (wrapu_small 64 (size a * nalloc a)) by nia.
    rewrite (wrapu_small 64 (2 * (size a * nalloc a))) by nia.
    rewrite (wrapu_small 32 (nelem a + 1)), (wrapu_small 32 (nalloc a * 2)) by lia.
    simpl. eapply (store_at_end (mkHiarray _ _ _ _) _ _ _ (nelem a)); simpl; try reflexivity; eauto; try lia; [simpl; lia|].
    intros i w Hi. rewrite Hb. simpl. apply map_lookup_filter_Some. split; [by apply Hc|].
    apply lookup_lt_Some in Hi. simpl. nia.
  - rewrite (wrapu_small 32 (nelem a + 1)) by lia. simpl.
    eapply (store_at_end (mkHiarray _ _ _ _) _ _ _ (nelem a)); simpl; eauto; lia.
Qed.

Lemma hiarray_pop_repr a l v :
  repr a (l ++ [v]) ->
  let '(a', p) := hiarray_pop a in load a' p = Some v /\ repr a' l.
Proof.
  intros Hr. pose proof Hr as (Hs & Hn & Hna & Hp & Hov & b & Hb & Hbs & Hc).
  unfold hiarray_pop. rewrite length_app in Hn. simpl in Hn.
  rewrite (wrapu_small 32) by lia. replace (nelem a - 1) with (Z.of_nat (length l)) by lia.
  split.
  - change (load a (hiarray_get a (Z.of_nat (length l))) = Some v).
    apply (load_get a (l ++ [v])); [done|]. apply list_lookup_middle. done.
  - unfold repr. simpl. do 5 (split; [lia|]). exists b. split; [done|]. split; [done|].
    intros i w Hi. apply Hc. by apply lookup_app_l_Some.
Qed.

Lemma hiarray_idx_get a l i :
  repr a l -> 0 <= i < nalloc a -> size a * nalloc a <= 2 ^ 32 ->
  hiarray_idx a (hiarray_get a i) = i.
Proof.
  intros Hr Hi Hsz. destruct (get_offset a l i Hr Hi) as (-> & _ & _).
  destruct Hr as (Hs & _). unfold hiarray_idx.
  rewrite !wrapu_small by nia. rewrite Z.mul_comm. apply Z.div_mul. lia.
Qed.

(** ** Sorting *)
Lemma hiarray_elems_repr a l : repr a l -> hiarray_elems a = Some l.
Proof.
  intros Hr. unfold hiarray_elems. pose proof Hr as (_ & -> & _). rewrite Nat2Z.id. apply mapM_Some_2, Forall2_same_length_lookup_2.
  - by rewrite length_seq.
  - intros i j v Hj Hv. apply lookup_seq in Hj as [-> _]. by apply (load_get a l).
Qed.

Lemma store_repr a l i v : repr a l -> (i < length l)%nat ->
  exists a', store a (hiarray_get a (Z.of_nat i)) v = Some a' /\ repr a' (<[i := v]> l).
Proof.
  intros Hr Hi. pose proof Hr as (Hs & Hn & Hna & Hp & Hov & b & Hb & Hbs & Hc).
  destruct (get_offset a l (Z.of_nat i) Hr) as (-> & H0 & Hle); [lia|].
  unfold store. rewrite Hb. simpl. rewrite decide_True by eauto. eexists. split; [reflexivity|]. unfold repr. simpl.
  rewrite length_insert. do 5 (split; [lia|]). eexists. split; [reflexivity|]. split; [done|]. intros j w Hj. simpl.
  destruct (decide (i = j)) as [<-|Hne].
  - rewrite list_lookup_insert_eq in Hj by done. injection Hj as <-. apply lookup_insert_eq.
  - rewrite list_lookup_insert_ne in Hj by done. rewrite lookup_insert_ne by nia. by apply Hc.
Qed.

Lemma store_all_repr l' : forall a pre rest, repr a (pre ++ rest) -> length l' = length rest ->
  exists a', store_all a (Z.of_nat (length pre)) l' = Some a' /\ repr a' (pre ++ l').
Proof.
  induction l' as [|v l' IH]; intros a pre [|w rest] Hr Hl; try done; [by exists a|].
  destruct (store_repr a (pre ++ w :: rest) (length pre) v Hr) as (a' & Ea & Hr'); [rewrite length_app; simpl; lia|].
  cbn [store_all]. rewrite Ea. simpl. rewrite insert_app_r_alt, Nat.sub_diag in Hr' by lia. simpl in Hr'.
  rewrite cons_middle, app_assoc in Hr'. destruct (IH a' (pre ++ [v]) rest Hr') as (a2 & E2 & Hr2); [simpl in Hl; lia|].
  exists a2. rewrite length_app in E2. simpl in E2. rewrite Nat2Z.inj_add in E2. split; [exact E2|].
  by rewrite <- app_assoc in Hr2.
Qed.

(** Sorting stays in the block and leaves the array with what [qsort] makes of its
    elements. *)
Lemma hiarray_sort_repr qsort a l compare : repr a l -> length (qsort compare l) = length l ->
  exists a', hiarray_sort qsort a compare = Some a' /\ repr a' (qsort compare l).
Proof.
  intros Hr Hl. unfold hiarray_sort. rewrite (hiarray_elems_repr a l Hr). by apply (store_all_repr _ a [] l).
Qed.

(** The reference for [hiarray_each]: a fold that stops at the first status
    that is not [HI_OK]. *)
Fixpoint each_spec {D} (func : A -> D -> D * Z) (data : D) (l : list A) : D * Z :=
  match l with
  | [] => (data, 0)
  | e :: l' =>
      let '(data, status) := func e data in
      if negb (status =? 0) then (data, status) else each_spec func data l'
  end.

Lemma hiarray_each_repr {D} a l (func : A -> D -> D * Z) data :
  repr a l -> hiarray_each a func data = Some (each_spec func data l).
Proof.
  intros Hr. unfold hiarray_each, hiarray_n.
  pose proof Hr as (_ & Hn & _). rewrite Hn, Nat2Z.id.
  assert (H : forall k pre data, l = pre ++ drop (length pre) l ->
    (k = length (drop (length pre) l))%nat ->
    hiarray_each_loop k a func data (Z.of_nat (length pre)) (Z.of_nat (length l))
      = Some (each_spec func data (drop (length pre) l))).
  { induction k as [|k IH]; intros pre d Hl Hk.
    - symmetry in Hk. pose proof (nil_length_inv _ Hk) as Hnil. rewrite length_drop in Hk.
      rewrite Hnil. simpl. by replace (_ <? _) with false by lia.
    - destruct (drop (length pre) l) as [|e rest] eqn:Hd; [done|]. simpl in Hk.
      assert (He : l !! length pre = Some e).
      { rewrite Hl. by apply list_lookup_middle. }
      pose proof (lookup_lt_Some _ _ _ He). simpl.
      replace (Z.of_nat (length pre) <? Z.of_nat (length l)) with true by lia.
      rewrite (load_get a l _ e) by done. simpl.
      destruct (func e d) as [d' st]. destruct (negb (st =? 0)); [done|].
      assert (Hd' : drop (length (pre ++ [e])) l = rest).
      { rewrite length_app. simpl. rewrite Nat.add_1_r. apply drop_S in He.
        rewrite Hd in He. by injection He. }
      specialize (IH (pre ++ [e]) d'). rewrite Hd' in IH.
      rewrite length_app in IH. simpl in IH. rewrite Nat2Z.inj_add in IH. apply IH.
      + rewrite <- app_assoc. done.
      + lia. }
  apply (H _ [] data); [done|]. simpl. by rewrite drop_0.
Qed.
(** An array that grew from one element by doubling: what its users rely on. *)
Definition holds (a : hiarray) (l : list A) : Prop :=
  repr a l /\ nalloc a <= 2 * Z.max 1 (Z.of_nat (length l)).

Lemma store_nalloc a p v a' : store a p v = Some a' -> nalloc a' = nalloc a /\ size a' = size a.
Proof. unfold store. destruct (elem a) as [b|]; simpl; [|done]. case_decide; [|done]. by intros [= <-]. Qed.

Lemma hiarray_push_holds ok a l v :
  holds a l -> Z.of_nat (length l) < 2 ^ 30 ->
  match hiarray_push ok a with
  | (a', Some p) => exists a'', store a' p v = Some a'' /\ holds a'' (l ++ [v])
  | (a', None) => a' = a /\ ok = false
  end.
Proof.
  intros [Hr Hna] Hl. pose proof Hr as (Hs & Hn & Hle & Hp & Hov & _).
  assert (Hd : can_double a) by (unfold can_double; nia).
  pose proof (hiarray_push_repr ok a l v Hr Hd) as H.
  assert (Hna' : nalloc (hiarray_push ok a).1 <= 2 * Z.max 1 (Z.of_nat (length (l ++ [v])))).
  { rewrite length_app. simpl. unfold hiarray_push. destruct (nelem a =? nalloc a) eqn:E; simpl.
    - destruct ok; simpl; [|lia]. rewrite (wrapu_small 32 (nalloc a * 2)) by (unfold can_double in Hd; lia). lia.
    - lia. }
  destruct (hiarray_push ok a) as [a' [p|]]; [|naive_solver]. destruct H as (a'' & Hst & Hr').
  exists a''. split; [done|]. split; [done|]. apply store_nalloc in Hst as [-> _]. done.
Qed.

Lemma hiarray_create_holds sz :
  0 < sz < 2 ^ 32 -> exists a, hiarray_create true true 1 sz = Some a /\ holds a [].
Proof.
  intros Hs. destruct (hiarray_create_repr 1 sz) as (a & Ha & Hr); [lia|done|].
  exists a. split; [done|]. split; [done|]. unfold hiarray_create in Ha. simpl in Ha. injection Ha as <-. simpl. lia.
Qed.

Lemma holds_n a l : holds a l -> hiarray_n a = Z.of_nat (length l).
Proof. intros [(_ & Hn & _) _]. done. Qed.
End Hiarray.

Arguments block : clear implicits.
Arguments hiarray : clear implicits.

(** The array is a stack over its heap block: pushing (and growing when the
    block is full) appends the stored element and keeps the others where the
    list says, a failed [realloc] changes nothing, popping returns the offset of
    the last element, and every access through a returned pointer stays inside
    the block. *)
Theorem hiarray_stack {A} (ok : bool) (a : hiarray A) (l : list A) (v : A) :
  repr a l -> can_double a ->
  match hiarray_push ok a with
  | (a', Some p) =>
      exists a'', store a' p v = Some a'' /\ repr a'' (l ++ [v]) /\
        (let '(b, q) := hiarray_pop a'' in load b q = Some v /\ repr b l)
  | (a', None) => a' = a /\ ok = false /\ nelem a = nalloc a
  end.
Proof.
  intros Hr Hd. pose proof (hiarray_push_repr ok a l v Hr Hd) as H.
  destruct (hiarray_push ok a) as [a' [p|]]; [|done].
  destruct H as (a'' & Hs & Hr'). exists a''. split; [done|]. split; [done|].
  by apply hiarray_pop_repr.
Qed.

(** [hiarray_each] visits the elements in order and stops at the first
    status that is not [HI_OK]; it always terminates and never reads outside the
    block. *)
Theorem hiarray_each_visits {A D} (a : hiarray A) (l : list A) (func : A -> D -> D * Z)
    (data : D) :
  repr a l -> hiarray_each a func data = Some (each_spec func data l).
Proof. apply hiarray_each_repr. Qed.

Definition ex_array : hiarray Z :=
  mkHiarray 2 (Some (mkBlock 8 {[0 := 11; 4 := 22]})) 4 2.

Lemma ex_array_repr : repr ex_array [11; 22].
Proof.
  unfold repr. simpl. do 5 (split; [lia|]). eexists. split; [reflexivity|].
  split; [reflexivity|]. intros [|[|[|i]]] v [= <-]; reflexivity.
Qed.

Lemma hiarray_stack_witness :
  match hiarray_push true ex_array with
  | (a', Some p) =>
      exists a'', store a' p 33 = Some a'' /\ repr a'' [11; 22; 33] /\
        (let '(b, q) := hiarray_pop a'' in load b q = Some 33 /\ repr b [11; 22])
  | (a', None) => a' = ex_array /\ true = false /\ nelem ex_array = nalloc ex_array
  end.
Proof.
  apply (hiarray_stack true ex_array [11; 22] 33 ex_array_repr).
  unfold can_double. simpl. lia.
Defined.

Lemma hiarray_each_visits_witness :
  hiarray_each ex_array (fun e d => (d + e, if e =? 11 then 0 else -1)) 0 = Some (33, -1).
Proof. exact (hiarray_each_visits ex_array [11; 22] _ 0 ex_array_repr). Defined.
