(* ===== verification/Adlist.v ===== *)
(** * adlist.c: the doubly linked list

    Nodes live in a heap and lists hold pointers into it, so every operation is
    the code's pointer updates.  [None] as the result of an operation is a NULL
    or dangling dereference.  [rep h L ls] says that the list [L] is well formed
    in the heap [h] and holds the nodes [ls], in order; the theorems give each
    operation's effect on [ls] and leave the rest of the heap alone. *)
From S2P Require Import Prelude.

Abbreviation loc := positive.

Record listNode (V : Type) := mkNode {
  prev : option loc;
  next : option loc;
  value : V
}.
Arguments mkNode {V}. Arguments prev {V}. Arguments next {V}. Arguments value {V}.

Abbreviation heap V := (gmap loc (listNode V)).

(** The methods are NULL or a function; [dup] returns NULL when it fails. *)
Record hilist (V : Type) := mkList {
  head : option loc;
  tail : option loc;
  dup : option (V -> option V);
  free : option (V -> unit);
  match_ : option (V -> V -> bool);
  len : Z                           (* unsigned long *)
}.
Arguments mkList {V}. Arguments head {V}. Arguments tail {V}. Arguments dup {V}.
Arguments free {V}. Arguments match_ {V}. Arguments len {V}.

Inductive direction := AL_START_HEAD | AL_START_TAIL.

Record listIter := mkIter { iter_next : option loc; iter_direction : direction }.

Section Adlist.
Context {V : Type} {eqV : EqDecision V}.

(** [hi_malloc] of a node: NULL, or a location not in use. *)
Variable malloc : heap V -> option loc.

(** Field accesses through a pointer. *)
Definition deref (h : heap V) (p : option loc) : option (listNode V) := p ≫= (h !!.).

Definition set_prev (h : heap V) (p x : option loc) : option (heap V) :=
  l ← p; n ← h !! l; Some (<[l := mkNode x (next n) (value n)]> h).

Definition set_next (h : heap V) (p x : option loc) : option (heap V) :=
  l ← p; n ← h !! l; Some (<[l := mkNode (prev n) x (value n)]> h).

Definition with_ends (L : hilist V) (hd tl : option loc) (n : Z) : hilist V :=
  mkList hd tl (dup L) (free L) (match_ L) n.

(** [struct_ok]: whether [hi_malloc] of the list struct succeeds. *)
Definition listCreate (struct_ok : bool) : option (hilist V) :=
  if struct_ok then Some (mkList None None None None None 0) else None.

(** The loop of [listRelease] gives the heap without the list's nodes and the
    values handed to the [free] method, in order. *)
Fixpoint listRelease_loop (n : nat) (h : heap V) (L : hilist V) (current : option loc)
    (freed : list V) : option (heap V * list V) :=
  match n with
  | O => Some (h, freed)
  | S n' =>
      c ← current;
      nd ← h !! c;
      let freed := match free L with Some _ => freed ++ [value nd] | None => freed end in
      listRelease_loop n' (delete c h) L (next nd) freed
  end.

Definition listRelease (h : heap V) (L : hilist V) : option (heap V * list V) :=
  listRelease_loop (Z.to_nat (len L)) h L (head L) [].

(** The [bool] is whether the list was returned (true) or NULL (false). *)
Definition listAddNodeHead (h : heap V) (L : hilist V) (v : V)
  : option (heap V * hilist V * bool) :=
  match malloc h with
  | None => Some (h, L, false)
  | Some node =>
      if len L =? 0 then
        Some (<[node := mkNode None None v]> h,
              with_ends L (Some node) (Some node) (u64 (len L + 1)), true)
      else
        let h := <[node := mkNode None (head L) v]> h in
        h ← set_prev h (head L) (Some node);
        Some (h, with_ends L (Some node) (tail L) (u64 (len L + 1)), true)
  end.

Definition listAddNodeTail (h : heap V) (L : hilist V) (v : V)
  : option (heap V * hilist V * bool) :=
  match malloc h with
  | None => Some (h, L, false)
  | Some node =>
      if len L =? 0 then
        Some (<[node := mkNode None None v]> h,
              with_ends L (Some node) (Some node) (u64 (len L + 1)), true)
      else
        let h := <[node := mkNode (tail L) None v]> h in
        h ← set_next h (tail L) (Some node);
        Some (h, with_ends L (head L) (Some node) (u64 (len L + 1)), true)
  end.

Definition listInsertNode (h : heap V) (L : hilist V) (old_node : loc) (v : V)
    (after : bool) : option (heap V * hilist V * bool) :=
  match malloc h with
  | None => Some (h, L, false)
  | Some node =>
      o ← h !! old_node;
      let '(np, nn, hd, tl) :=
        if after then
          (Some old_node, next o, head L,
           if decide (tail L = Some old_node) then Some node else tail L)
        else
          (prev o, Some old_node,
           (if decide (head L = Some old_node) then Some node else head L), tail L) in
      let h := <[node := mkNode np nn v]> h in
      h ← (match np with Some _ => set_next h np (Some node) | None => Some h end);
      h ← (match nn with Some _ => set_prev h nn (Some node) | None => Some h end);
      Some (h, with_ends L hd tl (u64 (len L + 1)), true)
  end.

(** The value is what the [free] method, when set, is called with. *)
Definition listDelNode (h : heap V) (L : hilist V) (node : loc)
  : option (heap V * hilist V * option V) :=
  n ← h !! node;
  '(h, hd) ← (match prev n with
              | Some _ => h ← set_next h (prev n) (next n); Some (h, head L)
              | None => Some (h, next n)
              end);
  n ← h !! node;
  '(h, tl) ← (match next n with
              | Some _ => h ← set_prev h (next n) (prev n); Some (h, tail L)
              | None => Some (h, prev n)
              end);
  Some (delete node h, with_ends L hd tl (u64 (len L - 1)),
        match free L with Some _ => Some (value n) | None => None end).

Definition listRewind (L : hilist V) : listIter := mkIter (head L) AL_START_HEAD.
Definition listRewindTail (L : hilist V) : listIter := mkIter (tail L) AL_START_TAIL.

Definition listGetIterator (iter_ok : bool) (L : hilist V) (d : direction) : option listIter :=
  if negb iter_ok then None
  else Some (mkIter (match d with AL_START_HEAD => head L | AL_START_TAIL => tail L end) d).

Definition listNext (h : heap V) (it : listIter) : option (listIter * option loc) :=
  match iter_next it with
  | None => Some (it, None)
  | Some current =>
      n ← h !! current;
      Some (mkIter (match iter_direction it with
                    | AL_START_HEAD => next n
                    | AL_START_TAIL => prev n
                    end) (iter_direction it), Some current)
  end.

(** The copying loop; the result [Some (h, None)] is a returned NULL, with the
    copy released. *)
Fixpoint listDup_loop (fuel : nat) (h : heap V) (copy : hilist V) (it : listIter)
  : option (heap V * option (hilist V)) :=
  match fuel with
  | O => None
  | S fuel' =>
      '(it, node) ← listNext h it;
      match node with
      | None => Some (h, Some copy)
      | Some node =>
          n ← h !! node;
          match (match dup copy with Some f => f (value n) | None => Some (value n) end) with
          | None => '(h, _) ← listRelease h copy; Some (h, None)
          | Some v =>
              '(h, copy, ok) ← listAddNodeTail h copy v;
              if ok : bool then listDup_loop fuel' h copy it
              else '(h, _) ← listRelease h copy; Some (h, None)
          end
      end
  end.

Definition listDup (struct_ok : bool) (h : heap V) (orig : hilist V)
  : option (heap V * option (hilist V)) :=
  match listCreate struct_ok with
  | None => Some (h, None)
  | Some _ =>
      let copy := mkList None None (dup orig) (free orig) (match_ orig) 0 in
      listDup_loop (S (Z.to_nat (len orig))) h copy (listRewind orig)
  end.

Fixpoint listSearchKey_loop (fuel : nat) (h : heap V) (L : hilist V) (key : V)
    (it : listIter) : option (option loc) :=
  match fuel with
  | O => None
  | S fuel' =>
      '(it, node) ← listNext h it;
      match node with
      | None => Some None
      | Some node =>
          n ← h !! node;
          if (match match_ L with
              | Some f => f (value n) key
              | None => bool_decide (key = value n)
              end)
          then Some (Some node)
          else listSearchKey_loop fuel' h L key it
      end
  end.

Definition listSearchKey (h : heap V) (L : hilist V) (key : V) : option (option loc) :=
  listSearchKey_loop (S (Z.to_nat (len L))) h L key (listRewind L).

(** [while (index-- && n) n = n->next], the step chosen by the direction. *)
Fixpoint listIndex_walk (index : nat) (h : heap V) (step : listNode V -> option loc)
    (n : option loc) : option (option loc) :=
  match index with
  | O => Some n
  | S index' =>
      match n with
      | None => Some None
      | Some l => nd ← h !! l; listIndex_walk index' h step (step nd)
      end
  end.

Definition listIndex (h : heap V) (L : hilist V) (index : Z) : option (option loc) :=
  if index <? 0 then listIndex_walk (Z.to_nat (- index - 1)) h prev (tail L)
  else listIndex_walk (Z.to_nat index) h next (head L).

Definition listRotate (h : heap V) (L : hilist V) : option (heap V * hilist V) :=
  if len L <=? 1 then Some (h, L)
  else
    let tl := tail L in
    t ← deref h tl;
    let tail' := prev t in
    h ← set_next h tail' None;
    h ← set_prev h (head L) tl;
    h ← set_prev h tl None;
    h ← set_next h tl (head L);
    Some (h, with_ends L tl tail' (len L)).
End Adlist.

(** ** The representation of a list

    [ls] lists the nodes' locations and values; [first] and [last] give a
    segment's end pointers, [pp] and [nx] the neighbours outside it. *)
Section Rep.
Context {V : Type}.
Implicit Types (h : heap V) (ls : list (loc * V)) (L : hilist V).

Definition first_loc ls (nx : option loc) : option loc :=
  match ls with [] => nx | (p, _) :: _ => Some p end.

Fixpoint last_loc ls (pp : option loc) : option loc :=
  match ls with [] => pp | (p, _) :: ls' => last_loc ls' (Some p) end.

Fixpoint dseg h (pp : option loc) ls (nx : option loc) : Prop :=
  match ls with
  | [] => True
  | (p, v) :: ls' =>
      h !! p = Some (mkNode pp (first_loc ls' nx) v) /\ dseg h (Some p) ls' nx
  end.

Definition rep h L ls : Prop :=
  NoDup ls.*1 /\ dseg h None ls None /\
  head L = first_loc ls None /\ tail L = last_loc ls None /\
  len L = Z.of_nat (length ls) /\ Z.of_nat (length ls) < 2 ^ 64 - 1.

(** The heap outside a set of locations is unchanged. *)
Definition frame (own : list loc) h h' : Prop := forall q, q ∉ own -> h' !! q = h !! q.

Lemma first_loc_app l1 l2 nx : first_loc (l1 ++ l2) nx = first_loc l1 (first_loc l2 nx).
Proof. by destruct l1 as [|[p v] l1]. Qed.

Lemma last_loc_app l1 l2 pp : last_loc (l1 ++ l2) pp = last_loc l2 (last_loc l1 pp).
Proof. revert pp. induction l1 as [|[p v] l1 IH]; intros pp; simpl; auto. Qed.

Lemma last_loc_snoc l p v pp : last_loc (l ++ [(p, v)]) pp = Some p.
Proof. by rewrite last_loc_app. Qed.

Lemma dseg_app h pp l1 l2 nx :
  dseg h pp (l1 ++ l2) nx <->
  dseg h pp l1 (first_loc l2 nx) /\ dseg h (last_loc l1 pp) l2 nx.
Proof.
  revert pp. induction l1 as [|[p v] l1 IH]; intros pp; simpl; [naive_solver|].
  rewrite IH, first_loc_app. naive_solver.
Qed.

Lemma dseg_lookup h pp l1 p v l2 nx :
  dseg h pp (l1 ++ (p, v) :: l2) nx ->
  h !! p = Some (mkNode (last_loc l1 pp) (first_loc l2 nx) v).
Proof. intros [_ [H _]]%dseg_app. done. Qed.

Lemma last_loc_None p v ls pp : last_loc ((p, v) :: ls) pp <> None.
Proof.
  simpl. revert p v. induction ls as [|[q w] ls IH]; intros p v; simpl; [done|]. by apply (IH q w).
Qed.

(** A segment only depends on its own cells. *)
Lemma dseg_frame h h' pp ls nx :
  (forall p, p ∈ ls.*1 -> h' !! p = h !! p) -> dseg h pp ls nx -> dseg h' pp ls nx.
Proof.
  revert pp. induction ls as [|[p v] ls IH]; intros pp Hf; simpl; [done|].
  intros [Hp Hs]. split.
  - rewrite Hf; [done|]. simpl. apply elem_of_cons. by left.
  - apply IH; [|done]. intros q Hq. apply Hf. simpl. apply elem_of_cons. by right.
Qed.

Lemma dseg_insert_ne h pp ls nx q n :
  q ∉ ls.*1 -> dseg h pp ls nx -> dseg (<[q := n]> h) pp ls nx.
Proof.
  intros Hq. apply dseg_frame. intros p Hp. apply lookup_insert_ne. congruence.
Qed.

Lemma dseg_delete_ne h pp ls nx q :
  q ∉ ls.*1 -> dseg h pp ls nx -> dseg (delete q h) pp ls nx.
Proof.
  intros Hq. apply dseg_frame. intros p Hp. apply lookup_delete_ne. congruence.
Qed.

Lemma dseg_fresh h pp ls nx q : h !! q = None -> dseg h pp ls nx -> q ∉ ls.*1.
Proof.
  intros Hq. revert pp. induction ls as [|[p v] ls IH]; intros pp; simpl.
  - intros _. apply not_elem_of_nil.
  - intros [Hp Hs]. apply not_elem_of_cons. split; [congruence|eauto].
Qed.

(** Changing the pointers at the two ends of a segment. *)
Lemma dseg_set_first h pp pp' p v ls nx :
  p ∉ ls.*1 -> dseg h pp ((p, v) :: ls) nx ->
  exists n, h !! p = Some n /\
    dseg (<[p := mkNode pp' (next n) (value n)]> h) pp' ((p, v) :: ls) nx.
Proof.
  intros Hp [Hl Hs]. eexists. split; [done|]. simpl.
  split; [apply lookup_insert_eq|]. by apply dseg_insert_ne.
Qed.

Lemma dseg_set_last h pp p v ls nx nx' :
  p ∉ ls.*1 -> dseg h pp (ls ++ [(p, v)]) nx ->
  exists n, h !! p = Some n /\
    dseg (<[p := mkNode (prev n) nx' (value n)]> h) pp (ls ++ [(p, v)]) nx'.
Proof.
  intros Hp [Hs [Hl _]]%dseg_app. eexists. split; [done|]. apply dseg_app. simpl.
  split; [by apply dseg_insert_ne|]. split; [apply lookup_insert_eq|done].
Qed.

Lemma frame_refl own h : frame own h h.
Proof. by intros q Hq. Qed.

Lemma frame_trans own h1 h2 h3 : frame own h1 h2 -> frame own h2 h3 -> frame own h1 h3.
Proof. intros H1 H2 q Hq. by rewrite H2, H1. Qed.

Lemma frame_insert own h p n : p ∈ own -> frame own h (<[p := n]> h).
Proof. intros Hp q Hq. apply lookup_insert_ne. congruence. Qed.

Lemma frame_delete own h p : p ∈ own -> frame own h (delete p h).
Proof. intros Hp q Hq. apply lookup_delete_ne. congruence. Qed.
End Rep.

Create HintDb adlist.
#[export] Hint Resolve frame_refl frame_insert frame_delete : adlist.
#[export] Hint Resolve dseg_insert_ne dseg_delete_ne lookup_insert_eq : adlist.

(** ** Linking and unlinking a node *)
Section Link.
Context {V : Type}.
Implicit Types (h : heap V) (ls l : list (loc * V)).

(** Sets the neighbours' pointers, where there are neighbours. *)
Definition link_prev h (p x : option loc) : option (heap V) :=
  match p with Some _ => set_next h p x | None => Some h end.
Definition link_next h (p x : option loc) : option (heap V) :=
  match p with Some _ => set_prev h p x | None => Some h end.

Lemma link_prev_dseg h l nx nx' :
  NoDup l.*1 -> dseg h None l nx ->
  exists h', link_prev h (last_loc l None) nx' = Some h' /\
    dseg h' None l nx' /\ frame l.*1 h h'.
Proof.
  intros Hnd Hs. destruct l as [|[p v] l _] using rev_ind.
  - exists h. auto with adlist.
  - rewrite last_loc_snoc. simpl. rewrite fmap_app, NoDup_app in Hnd.
    destruct Hnd as (_ & Hp & _).
    destruct (dseg_set_last h None p v l nx nx') as (n & -> & Hd); [|done|].
    { intros Hin. apply (Hp _ Hin), list_elem_of_singleton. done. }
    simpl. eexists. split; [reflexivity|]. split; [done|].
    apply frame_insert. rewrite fmap_app. simpl. set_solver.
Qed.

Lemma link_next_dseg h pp pp' l nx :
  NoDup l.*1 -> dseg h pp l nx ->
  exists h', link_next h (first_loc l None) pp' = Some h' /\
    dseg h' pp' l nx /\ frame l.*1 h h'.
Proof.
  intros Hnd Hs. destruct l as [|[p v] l].
  - exists h. auto with adlist.
  - apply NoDup_cons in Hnd as [Hp _]. simpl first_loc.
    destruct (dseg_set_first h pp pp' p v l nx) as (n & Hn & Hd); [done..|].
    simpl link_next. unfold set_prev. simpl. rewrite Hn. simpl.
    eexists. split; [reflexivity|]. split; [done|]. apply frame_insert. simpl. set_solver.
Qed.

(** Rewriting the pointers around a split point of a list. *)
Lemma relink h l1 l2 pp' nx' pp nx :
  NoDup (l1 ++ l2).*1 -> dseg h None l1 nx -> dseg h pp l2 None ->
  exists h1 h2, link_prev h (last_loc l1 None) nx' = Some h1 /\
    link_next h1 (first_loc l2 None) pp' = Some h2 /\
    dseg h2 None l1 nx' /\ dseg h2 pp' l2 None /\ frame (l1 ++ l2).*1 h h2.
Proof.
  rewrite fmap_app, NoDup_app. intros (Hn1 & Hd & Hn2) Hs1 Hs2.
  destruct (link_prev_dseg h l1 nx nx' Hn1 Hs1) as (h1 & -> & Hs1' & Hf1).
  assert (Hs2' : dseg h1 pp l2 None).
  { apply (dseg_frame h); [|done]. intros p Hp. apply Hf1. intros Hin. by apply (Hd p). }
  destruct (link_next_dseg h1 pp pp' l2 None Hn2 Hs2') as (h2 & Heq & Hs2'' & Hf2).
  exists h1, h2. split; [done|]. split; [done|]. split.
  { apply (dseg_frame h1); [|done]. intros p Hp. apply Hf2. by apply Hd. }
  split; [done|]. intros q Hq. rewrite not_elem_of_app in Hq. destruct Hq as [Hq1 Hq2].
  rewrite Hf2, Hf1; done.
Qed.

Lemma insert_between h l1 l2 node v :
  NoDup (l1 ++ l2).*1 -> dseg h None (l1 ++ l2) None -> h !! node = None ->
  let h0 := <[node := mkNode (last_loc l1 None) (first_loc l2 None) v]> h in
  exists h1 h2, link_prev h0 (last_loc l1 None) (Some node) = Some h1 /\
    link_next h1 (first_loc l2 None) (Some node) = Some h2 /\
    dseg h2 None (l1 ++ (node, v) :: l2) None /\
    NoDup (l1 ++ (node, v) :: l2).*1 /\ frame (node :: (l1 ++ l2).*1) h h2.
Proof.
  intros Hnd Hs Hfr h0. pose proof (dseg_fresh _ _ _ _ _ Hfr Hs) as Hnode.
  apply dseg_app in Hs as [Hs1 Hs2].
  rewrite fmap_app in Hnode. apply not_elem_of_app in Hnode as [Hno1 Hno2].
  destruct (relink h0 l1 l2 (Some node) (Some node) (last_loc l1 None) (first_loc l2 None))
    as (h1 & h2 & Hh1 & Hh2 & Hd1 & Hd2 & Hf); [done|by apply dseg_insert_ne..|].
  exists h1, h2. split; [done|]. split; [done|]. split; [|split].
  - apply dseg_app. split; [done|]. split; [|done].
    rewrite Hf; [apply lookup_insert_eq|]. rewrite fmap_app. by apply not_elem_of_app.
  - rewrite fmap_app in *. simpl. apply NoDup_app in Hnd as (H1 & H2 & H3).
    apply NoDup_app. split; [done|]. split.
    + intros x Hx. apply not_elem_of_cons. split; [congruence|by apply H2].
    + by apply NoDup_cons.
  - intros q [Hq1 Hq2]%not_elem_of_cons. rewrite Hf by done. by apply lookup_insert_ne.
Qed.

Lemma remove_between h l1 l2 node v :
  NoDup (l1 ++ (node, v) :: l2).*1 -> dseg h None (l1 ++ (node, v) :: l2) None ->
  exists h1 h2, link_prev h (last_loc l1 None) (first_loc l2 None) = Some h1 /\
    h1 !! node = h !! node /\
    link_next h1 (first_loc l2 None) (last_loc l1 None) = Some h2 /\
    dseg (delete node h2) None (l1 ++ l2) None /\
    NoDup (l1 ++ l2).*1 /\ frame (l1 ++ (node, v) :: l2).*1 h (delete node h2).
Proof.
  intros Hnd Hs. apply dseg_app in Hs as [Hs1 [Hn Hs2]]. simpl in Hs1.
  assert (Hnd' : NoDup (l1 ++ l2).*1 /\ node ∉ (l1 ++ l2).*1).
  { rewrite !fmap_app in *. simpl in Hnd. apply NoDup_app in Hnd as (H1 & H2 & H3).
    apply NoDup_cons in H3 as [H3 H4]. split.
    - apply NoDup_app. split; [done|]. split; [|done].
      intros x Hx. specialize (H2 x Hx). by apply not_elem_of_cons in H2 as [_ H2].
    - apply not_elem_of_app. split; [|done]. intros Hin.
      specialize (H2 _ Hin). by apply not_elem_of_cons in H2 as [H2 _]. }
  destruct Hnd' as [Hnd' Hnode].
  destruct (relink h l1 l2 (last_loc l1 None) (first_loc l2 None) (Some node) (Some node))
    as (h1 & h2 & Hh1 & Hh2 & Hd1 & Hd2 & Hf); [done..|].
  pose proof Hnode as Hno. rewrite fmap_app in Hno. apply not_elem_of_app in Hno as [Hno1 Hno2].
  exists h1, h2. split; [done|]. split; [|split; [done|split; [|split; [done|]]]].
  - rewrite fmap_app, NoDup_app in Hnd'. destruct Hnd' as (H1 & H2 & H3).
    destruct (link_prev_dseg h l1 (Some node) (first_loc l2 None) H1 Hs1) as (h' & E & _ & Hfr).
    rewrite Hh1 in E. injection E as <-. by apply Hfr.
  - apply dseg_delete_ne; [done|]. by apply dseg_app.
  - intros q Hq. rewrite fmap_app in Hq. simpl in Hq.
    apply not_elem_of_app in Hq as [Hq1 Hq2]. apply not_elem_of_cons in Hq2 as [Hq2 Hq3].
    rewrite lookup_delete_ne by done. apply Hf. rewrite fmap_app. by apply not_elem_of_app.
Qed.
End Link.

(** ** The operations *)
Section Ops.
Context {V : Type} {eqV : EqDecision V}.
Variable malloc : heap V -> option loc.
Hypothesis malloc_fresh : forall h p, malloc h = Some p -> h !! p = None.
Implicit Types (h : heap V) (ls l : list (loc * V)) (L : hilist V).

Lemma rep_len_zero h L ls : rep h L ls -> (len L =? 0) = bool_decide (ls = []).
Proof.
  intros (_ & _ & _ & _ & -> & _). by destruct ls.
Qed.

Lemma rep_intro h L ls hd tl n :
  NoDup ls.*1 -> dseg h None ls None -> hd = first_loc ls None -> tl = last_loc ls None ->
  n = Z.of_nat (length ls) -> Z.of_nat (length ls) < 2 ^ 64 - 1 ->
  rep h (with_ends L hd tl n) ls.
Proof. intros. repeat split; done. Qed.

(** The claim every insertion makes: NULL and no change when [hi_malloc]
    fails, and otherwise the list with the new node in its place, the nodes of
    other lists untouched. *)
Definition inserts h L (r : option (heap V * hilist V * bool)) (l1 l2 : list (loc * V)) (v : V)
  : Prop :=
  match malloc h with
  | None => r = Some (h, L, false)
  | Some node => exists h' L', r = Some (h', L', true) /\
      rep h' L' (l1 ++ (node, v) :: l2) /\ frame (node :: (l1 ++ l2).*1) h h' /\
      dup L' = dup L /\ free L' = free L /\ match_ L' = match_ L
  end.

Lemma length_insert_mid {A} (l1 l2 : list A) x : length (l1 ++ x :: l2) = S (length (l1 ++ l2)).
Proof. rewrite !length_app. simpl. lia. Qed.

Lemma inserts_intro h L l1 l2 v node h1 h2 hd tl :
  malloc h = Some node -> rep h L (l1 ++ l2) ->
  Z.of_nat (length (l1 ++ l2)) < 2 ^ 64 - 2 ->
  link_prev (<[node := mkNode (last_loc l1 None) (first_loc l2 None) v]> h)
    (last_loc l1 None) (Some node) = Some h1 ->
  link_next h1 (first_loc l2 None) (Some node) = Some h2 ->
  hd = first_loc (l1 ++ (node, v) :: l2) None -> tl = last_loc (l1 ++ (node, v) :: l2) None ->
  rep h2 (with_ends L hd tl (u64 (len L + 1))) (l1 ++ (node, v) :: l2) /\
  frame (node :: (l1 ++ l2).*1) h h2.
Proof.
  intros Hm (Hnd & Hs & _ & _ & Hl & _) Hlen H1 H2 Hhd Htl.
  destruct (insert_between h l1 l2 node v) as (h1' & h2' & E1 & E2 & Hd & Hn & Hf); eauto.
  rewrite H1 in E1. injection E1 as <-. rewrite H2 in E2. injection E2 as <-.
  split; [|done]. apply rep_intro; [done..| |]; rewrite ?length_insert_mid; [|lia].
  rewrite wrapu_small; lia.
Qed.

Lemma insert_pointers h L l1 l2 v node :
  malloc h = Some node -> rep h L (l1 ++ l2) ->
  exists h1 h2,
    link_prev (<[node := mkNode (last_loc l1 None) (first_loc l2 None) v]> h)
      (last_loc l1 None) (Some node) = Some h1 /\
    link_next h1 (first_loc l2 None) (Some node) = Some h2.
Proof.
  intros Hm (Hnd & Hs & _).
  destruct (insert_between h l1 l2 node v) as (h1 & h2 & ? & ? & _); eauto.
Qed.


Lemma listAddNodeTail_inserts h L ls v :
  rep h L ls -> Z.of_nat (length ls) < 2 ^ 64 - 2 ->
  inserts h L (listAddNodeTail malloc h L v) ls [] v.
Proof.
  intros Hr Hlen. unfold inserts, listAddNodeTail.
  destruct (malloc h) as [node|] eqn:Hm; [|done].
  rewrite (rep_len_zero _ _ _ Hr). pose proof Hr as (_ & _ & Hh & Ht & _).
  rewrite <- (app_nil_r ls) in Hr, Hlen.
  destruct (insert_pointers h L ls [] v node Hm Hr) as (h1 & h2 & H1 & H2).
  destruct ls as [|[p w] ls'] using rev_ind; [|clear IHls'].
  - simpl. simpl in H1, H2. injection H1 as <-. injection H2 as <-.
    do 2 eexists. split; [reflexivity|].
    destruct (inserts_intro h L [] [] v node _ _ _ _ Hm Hr Hlen eq_refl eq_refl eq_refl
      eq_refl) as [Hrep Hf]. eauto 10.
  - rewrite bool_decide_false by (by destruct ls'). rewrite Ht.
    destruct (inserts_intro h L (ls' ++ [(p, w)]) [] v node h1 h2 _ _
      Hm Hr Hlen H1 H2 eq_refl eq_refl) as [Hrep Hf].
    rewrite last_loc_snoc in *. cbn [link_prev link_next first_loc] in H1, H2.
    injection H2 as ->. rewrite H1. cbn [mbind option_bind]. do 2 eexists. split; [reflexivity|].
    replace (head L) with (first_loc ((ls' ++ [(p, w)]) ++ [(node, v)]) None)
      by (rewrite Hh; by destruct ls').
    eauto 10.
Qed.

Lemma listAddNodeHead_inserts h L ls v :
  rep h L ls -> Z.of_nat (length ls) < 2 ^ 64 - 2 ->
  inserts h L (listAddNodeHead malloc h L v) [] ls v.
Proof.
  intros Hr Hlen. unfold inserts, listAddNodeHead.
  destruct (malloc h) as [node|] eqn:Hm; [|done].
  rewrite (rep_len_zero _ _ _ Hr). pose proof Hr as (_ & _ & Hh & Ht & _).
  destruct (insert_pointers h L [] ls v node Hm Hr) as (h1 & h2 & H1 & H2).
  destruct (inserts_intro h L [] ls v node h1 h2 _ _
      Hm Hr Hlen H1 H2 eq_refl eq_refl) as [Hrep Hf].
  simpl in H1. injection H1 as <-.
  destruct ls as [|[p w] ls].
  - simpl in *. injection H2 as <-. do 2 eexists. split; [reflexivity|]. eauto.
  - rewrite bool_decide_false by done. rewrite Hh.
    cbn [link_next first_loc last_loc] in H2 |- *. rewrite H2. cbn [mbind option_bind].
    do 2 eexists. split; [reflexivity|]. rewrite Ht. eauto.
Qed.

Lemma last_loc_in ls pp p : last_loc ls pp = Some p -> p ∈ ls.*1 \/ pp = Some p.
Proof.
  revert pp. induction ls as [|[q v] ls IH]; intros pp; simpl; [eauto|].
  intros H. apply IH in H as [H|H]; left; apply elem_of_cons; [eauto|left; congruence].
Qed.

(** The end pointers stay where they are unless the insertion is at the end. *)
Lemma last_loc_mid (l1 l2 : list (loc * V)) p v :
  NoDup (l1 ++ (p, v) :: l2).*1 ->
  last_loc (l1 ++ (p, v) :: l2) None = Some p <-> l2 = [].
Proof.
  rewrite fmap_app. simpl. intros Hnd. rewrite last_loc_app. simpl. split; [|by intros ->].
  intros Hl. destruct l2 as [|[q w] l2]; [done|]. simpl in Hl. exfalso.
  apply NoDup_app in Hnd as (_ & _ & Hnd). apply NoDup_cons in Hnd as [Hp Hnd].
  simpl in Hp. apply last_loc_in in Hl as [Hl|Hl]; apply Hp, elem_of_cons;
    [by right|left; congruence].
Qed.

Lemma first_loc_mid (l1 l2 : list (loc * V)) p v :
  NoDup (l1 ++ (p, v) :: l2).*1 ->
  first_loc (l1 ++ (p, v) :: l2) None = Some p <-> l1 = [].
Proof.
  rewrite fmap_app. simpl. intros Hnd. split; [|by intros ->].
  destruct l1 as [|[q w] l1]; [done|]. simpl. intros [= ->]. exfalso.
  apply NoDup_cons in Hnd as [Hp _]. apply Hp, elem_of_app. right. apply elem_of_cons. by left.
Qed.

(** Inserting after ([after] true) or before a node of the list. *)
Lemma listInsertNode_inserts h L l1 l2 p w v (after : bool) :
  let ls := l1 ++ (p, w) :: l2 in
  rep h L ls -> Z.of_nat (length ls) < 2 ^ 64 - 2 ->
  if after then inserts h L (listInsertNode malloc h L p v true) (l1 ++ [(p, w)]) l2 v
  else inserts h L (listInsertNode malloc h L p v false) l1 ((p, w) :: l2) v.
Proof.
  intros ls Hr Hlen. pose proof Hr as (Hnd & Hs & Hh & Ht & _).
  pose proof (dseg_lookup _ _ _ _ _ _ _ Hs) as Hp.
  assert (Hls : ls = (l1 ++ [(p, w)]) ++ l2) by (by rewrite <- app_assoc).
  destruct after; unfold inserts, listInsertNode;
    (destruct (malloc h) as [node|] eqn:Hm; [|done]); rewrite Hp; cbn [mbind option_bind].
  - rewrite Hls in Hr, Hlen.
    destruct (insert_pointers h L _ _ v node Hm Hr) as (h1 & h2 & H1 & H2).
    destruct (inserts_intro h L _ _ v node h1 h2 _ _
        Hm Hr Hlen H1 H2 eq_refl eq_refl) as [Hrep Hf].
    rewrite last_loc_snoc in H1. unfold link_prev in H1. cbn [next value]. rewrite H1.
    cbn [mbind option_bind]. unfold link_next in H2. rewrite H2. cbn [mbind option_bind].
    do 2 eexists. split; [reflexivity|].
    replace (head L) with (first_loc ((l1 ++ [(p, w)]) ++ (node, v) :: l2) None)
      by (rewrite Hh; by destruct l1).
    replace (if decide _ then _ else _)
      with (last_loc ((l1 ++ [(p, w)]) ++ (node, v) :: l2) None); [eauto 10|].
    rewrite Ht. unfold ls. rewrite last_loc_app. simpl.
    destruct (decide _) as [Hd|Hd].
    + apply last_loc_mid in Hd; [|done]. by subst.
    + destruct l2 as [|[q u] l2]; [|by rewrite last_loc_app].
      destruct Hd. by rewrite last_loc_app.
  - destruct (insert_pointers h L _ _ v node Hm Hr) as (h1 & h2 & H1 & H2).
    destruct (inserts_intro h L _ _ v node h1 h2 _ _
        Hm Hr Hlen H1 H2 eq_refl eq_refl) as [Hrep Hf].
    unfold link_prev in H1. cbn [prev value first_loc] in *. rewrite H1.
    cbn [mbind option_bind]. unfold link_next in H2. rewrite H2. cbn [mbind option_bind].
    do 2 eexists. split; [reflexivity|].
    replace (tail L) with (last_loc (l1 ++ (node, v) :: (p, w) :: l2) None)
      by (rewrite Ht; unfold ls; by rewrite !last_loc_app).
    replace (if decide _ then _ else _)
      with (first_loc (l1 ++ (node, v) :: (p, w) :: l2) None); [eauto 10|].
    rewrite Hh. destruct (decide _) as [Hd|Hd].
    + apply first_loc_mid in Hd; [|done]. by subst.
    + destruct l1 as [|[q u] l1]; [|done]. by destruct Hd.
Qed.

(** [listDelNode] takes the node out, hands its value to the [free] method and
    frees the cell. *)
Lemma listDelNode_rep h L l1 l2 p v :
  rep h L (l1 ++ (p, v) :: l2) ->
  exists h' L',
    listDelNode h L p =
      Some (h', L', match free L with Some _ => Some v | None => None end) /\
    rep h' L' (l1 ++ l2) /\ h' !! p = None /\ frame (l1 ++ (p, v) :: l2).*1 h h' /\
    free L' = free L /\ match_ L' = match_ L.
Proof.
  intros (Hnd & Hs & Hh & Ht & Hl & Hmax).
  pose proof (dseg_lookup _ _ _ _ _ _ _ Hs) as Hp.
  destruct (remove_between h l1 l2 p v Hnd Hs)
    as (h1 & h2 & H1 & Hn1 & H2 & Hd & Hn & Hf).
  unfold listDelNode. rewrite Hp. cbn [mbind option_bind prev next value].
  assert (E1 : match last_loc l1 None with
            | Some _ => h0 ← set_next h (last_loc l1 None) (first_loc l2 None); Some (h0, head L)
            | None => Some (h, first_loc l2 None)
            end = Some (h1, first_loc (l1 ++ l2) None)).
  { unfold link_prev in H1. rewrite first_loc_app in Hh |- *. rewrite Hh.
    destruct l1 as [|[q u] l1]; [by injection H1 as <-|].
    destruct (last_loc ((q, u) :: l1) None) eqn:E; [|by apply last_loc_None in E].
    rewrite H1. done. }
  rewrite E1. cbn [mbind option_bind]. rewrite Hn1, Hp. cbn [mbind option_bind prev next value].
  assert (E2 : match first_loc l2 None with
            | Some _ => h0 ← set_prev h1 (first_loc l2 None) (last_loc l1 None); Some (h0, tail L)
            | None => Some (h1, last_loc l1 None)
            end = Some (h2, last_loc (l1 ++ l2) None)).
  { unfold link_next in H2. rewrite last_loc_app in Ht |- *. rewrite Ht.
    destruct l2 as [|[q u] l2]; [by injection H2 as <-|]. cbn [first_loc] in *.
    rewrite H2. done. }
  rewrite E2. cbn [mbind option_bind].
  do 2 eexists. split; [reflexivity|]. rewrite length_insert_mid in *.
  split; [|split; [apply lookup_delete_eq|done]].
  apply rep_intro; [done..| |lia]. rewrite Hl, wrapu_small; lia.
Qed.
End Ops.

(** ** Traversals, release, rotation and duplication *)
Section Traverse.
Context {V : Type} {eqV : EqDecision V}.
Implicit Types (h : heap V) (ls l : list (loc * V)) (L : hilist V).

Lemma listNext_head h pp ls :
  dseg h pp ls None ->
  listNext h (mkIter (first_loc ls None) AL_START_HEAD) =
    match ls with
    | [] => Some (mkIter None AL_START_HEAD, None)
    | (p, _) :: ls' => Some (mkIter (first_loc ls' None) AL_START_HEAD, Some p)
    end.
Proof. destruct ls as [|[p v] ls]; [done|]. simpl. intros [Hp _]. unfold listNext. simpl. by rewrite Hp. Qed.

Lemma listNext_tail h ls p v :
  dseg h None (ls ++ [(p, v)]) None ->
  listNext h (mkIter (last_loc (ls ++ [(p, v)]) None) AL_START_TAIL) =
    Some (mkIter (last_loc ls None) AL_START_TAIL, Some p).
Proof.
  intros Hs. rewrite last_loc_snoc. apply dseg_lookup in Hs. unfold listNext. simpl. by rewrite Hs.
Qed.

Lemma walk_next h pp ls i :
  dseg h pp ls None -> listIndex_walk i h next (first_loc ls None) = Some (ls.*1 !! i).
Proof.
  revert pp ls. induction i as [|i IH]; intros pp [|[p v] ls]; try done.
  intros [Hp Hs]. simpl. rewrite Hp. simpl. by rewrite (IH (Some p)).
Qed.

Lemma walk_prev h ls i nx :
  dseg h None ls nx ->
  listIndex_walk i h prev (last_loc ls None) = Some (reverse ls.*1 !! i).
Proof.
  revert ls nx. induction i as [|i IH]; intros ls nx;
    destruct ls as [|[p v] ls _] using rev_ind; try done; intros Hs;
    rewrite last_loc_snoc, fmap_app, reverse_app; [done|].
  pose proof (dseg_lookup _ _ _ _ _ _ _ Hs) as Hp. apply dseg_app in Hs as [Hs _].
  simpl. rewrite Hp. simpl. by apply (IH ls (Some p)).
Qed.

(** The index counts from the head, or from the tail when it is negative. *)
Lemma listIndex_rep h L ls i :
  rep h L ls ->
  listIndex h L i =
    Some (if i <? 0 then reverse ls.*1 !! Z.to_nat (- i - 1) else ls.*1 !! Z.to_nat i).
Proof.
  intros (_ & Hs & Hh & Ht & _). unfold listIndex. destruct (i <? 0).
  - rewrite Ht. by apply (walk_prev h ls _ None).
  - rewrite Hh. by apply (walk_next h None).
Qed.

Definition key_matches L (key : V) (n : loc * V) : bool :=
  match match_ L with Some f => f n.2 key | None => bool_decide (key = n.2) end.

Lemma search_loop h L key pp ls fuel :
  dseg h pp ls None -> (length ls < fuel)%nat ->
  listSearchKey_loop fuel h L key (mkIter (first_loc ls None) AL_START_HEAD) =
    Some (fst <$> (filter (fun n => key_matches L key n = true) ls !! 0%nat)).
Proof.
  revert pp ls. induction fuel as [|fuel IH]; intros pp ls Hs Hf; [lia|].
  cbn [listSearchKey_loop]. rewrite (listNext_head _ _ _ Hs).
  destruct ls as [|[p v] ls]; [done|]. destruct Hs as [Hp Hs].
  cbn [mbind option_bind]. rewrite Hp. cbn [mbind option_bind value].
  rewrite filter_cons.
  change (match match_ L with Some f => f v key | None => bool_decide (key = v) end)
    with (key_matches L key (p, v)).
  destruct (key_matches L key (p, v)); [done|].
  rewrite (IH (Some p)); [done|done|simpl in Hf; lia].
Qed.

(** The first node that matches, or NULL. *)
Lemma listSearchKey_rep h L ls key :
  rep h L ls ->
  listSearchKey h L key =
    Some (fst <$> (filter (fun n => key_matches L key n = true) ls !! 0%nat)).
Proof.
  intros (_ & Hs & Hh & _ & Hl & _). unfold listSearchKey, listRewind.
  rewrite Hh, Hl, Nat2Z.id. apply (search_loop h L key None); [done|lia].
Qed.

Lemma release_loop h L pp ls acc :
  NoDup ls.*1 -> dseg h pp ls None ->
  exists h', listRelease_loop (length ls) h L (first_loc ls None) acc =
      Some (h', match free L with Some _ => acc ++ ls.*2 | None => acc end) /\
    (forall q, h' !! q = if bool_decide (q ∈ ls.*1) then None else h !! q).
Proof.
  revert h pp acc. induction ls as [|[p v] ls IH]; intros h pp acc Hnd Hs.
  - exists h. simpl. destruct (free L); rewrite ?app_nil_r; split; try done;
      intros q; by rewrite bool_decide_false by apply not_elem_of_nil.
  - apply NoDup_cons in Hnd as [Hp Hnd]. destruct Hs as [Hl Hs]. cbn [listRelease_loop length first_loc].
    cbn [mbind option_bind]. rewrite Hl. cbn [mbind option_bind next value].
    destruct (IH (delete p h) (Some p) (match free L with Some _ => acc ++ [v] | None => acc end))
      as (h' & -> & Hq); [done|by apply dseg_delete_ne|].
    exists h'. split.
    { destruct (free L); [|done]. by rewrite <- app_assoc. }
    intros q. rewrite Hq, lookup_delete. simpl.
    destruct (decide (p = q)); repeat case_bool_decide; try done; set_solver.
Qed.

(** Every node is freed, each value goes to the [free] method once, in order,
    and no other cell changes. *)
Lemma listRelease_rep h L ls :
  rep h L ls ->
  exists h', listRelease h L =
      Some (h', match free L with Some _ => ls.*2 | None => [] end) /\
    (forall q, h' !! q = if bool_decide (q ∈ ls.*1) then None else h !! q).
Proof.
  intros (Hnd & Hs & Hh & _ & Hl & _). unfold listRelease. rewrite Hh, Hl, Nat2Z.id.
  apply (release_loop h L None ls []); done.
Qed.

Lemma listRotate_rep h L ls p v :
  rep h L (ls ++ [(p, v)]) ->
  exists h' L', listRotate h L = Some (h', L') /\ rep h' L' ((p, v) :: ls) /\
    frame (ls ++ [(p, v)]).*1 h h'.
Proof.
  intros Hr. pose proof Hr as (Hnd & Hs & Hh & Ht & Hl & Hmax). unfold listRotate.
  rewrite Hl. destruct (decide (ls = [])) as [->|Hne].
  { simpl. exists h, L. auto using frame_refl. }
  assert (Hpos : (0 < length ls)%nat) by (destruct ls; [done|simpl; lia]).
  rewrite (proj2 (Z.leb_gt _ 1)) by (rewrite length_app; cbn [length]; lia).
  pose proof (dseg_lookup _ _ _ _ _ _ _ Hs) as Hp. rewrite Ht, last_loc_snoc.
  unfold deref. cbn [mbind option_bind]. rewrite Hp. cbn [mbind option_bind prev].
  apply dseg_app in Hs as [Hs _]. rewrite fmap_app in Hnd. apply NoDup_app in Hnd as (Hn1 & Hn2 & _).
  assert (Hpl : p ∉ ls.*1).
  { intros Hin. apply (Hn2 _ Hin), list_elem_of_singleton. done. }
  destruct (link_prev_dseg h ls (Some p) None Hn1 Hs) as (h1 & H1 & Hs1 & Hf1).
  destruct (link_next_dseg h1 None (Some p) ls None Hn1 Hs1) as (h2 & H2 & Hs2 & Hf2).
  assert (Hhl : exists q z, (forall nx, first_loc ls nx = Some q) /\
    last_loc ls None = Some z).
  { destruct ls as [|[q u] ls]; [done|]. 
    destruct (last_loc ((q, u) :: ls) None) as [z|] eqn:El;
      [exists q, z; split; reflexivity | by apply last_loc_None in El]. }
  destruct Hhl as (q & z & Hq & Hz). rewrite first_loc_app, Hq in Hh. simpl in Hh.
  rewrite Hz in *. rewrite Hq in H2. unfold link_prev in H1. unfold link_next in H2.
  rewrite H1. cbn [mbind option_bind]. rewrite Hh, H2. cbn [mbind option_bind].
  assert (Hp2 : h2 !! p = Some (mkNode (Some z) None v)) by (rewrite Hf2, Hf1; done).
  unfold set_prev. cbn [mbind option_bind]. rewrite Hp2. cbn [mbind option_bind next value].
  unfold set_next. cbn [mbind option_bind]. rewrite lookup_insert_eq.
  cbn [mbind option_bind prev value].
  do 2 eexists. split; [reflexivity|]. rewrite insert_insert_eq. split.
  - apply rep_intro.
    + simpl. by apply NoDup_cons.
    + simpl. rewrite Hq. split; [apply lookup_insert_eq|]. by apply dseg_insert_ne.
    + done.
    + rewrite <- Hz. cbn [last_loc]. destruct ls as [|[q' u] ls']; done.
    + rewrite length_app. simpl. lia.
    + rewrite length_app in Hmax. simpl in *. lia.
  - intros x Hx. rewrite fmap_app in Hx. apply not_elem_of_app in Hx as [Hx1 Hx2].
    rewrite lookup_insert_ne by (intros ->; apply Hx2; simpl; by apply list_elem_of_singleton).
    by rewrite Hf2, Hf1.
Qed.
End Traverse.

Section Dup.
Context {V : Type} {eqV : EqDecision V}.
Variable malloc : heap V -> option loc.
Hypothesis malloc_fresh : forall h p, malloc h = Some p -> h !! p = None.
Implicit Types (h : heap V) (ls l : list (loc * V)) (L : hilist V).

(** The value a copied node gets: the [dup] method's, or the same one. *)
Definition dup_value L (v : V) : option V :=
  match dup L with Some f => f v | None => Some v end.

(** What [listDup] may return: a copy on nodes that were not in use, or NULL
    with the heap exactly as it was. *)
Definition dup_result (h0 : heap V) (orig : hilist V) (vs : list V)
    (r : option (heap V * option (hilist V))) : Prop :=
  match r with
  | Some (h', Some copy) =>
      exists cs, rep h' copy cs /\ mapM (dup_value orig) vs = Some cs.*2 /\
        (forall q, q ∈ cs.*1 -> h0 !! q = None) /\ frame cs.*1 h0 h' /\
        dup copy = dup orig /\ free copy = free orig /\ match_ copy = match_ orig
  | Some (h', None) => h' = h0
  | None => False
  end.

Lemma release_restores h0 h copy cs :
  rep h copy cs -> (forall q, q ∈ cs.*1 -> h0 !! q = None) -> frame cs.*1 h0 h ->
  exists freed, listRelease h copy = Some (h0, freed).
Proof.
  intros Hr Hfr Hf. destruct (listRelease_rep h copy cs Hr) as (h' & -> & Hq).
  eexists. do 2 f_equal. apply map_eq. intros q. rewrite Hq.
  case_bool_decide as Hd; [symmetry; by apply Hfr | by apply Hf].
Qed.

Lemma dup_loop h0 orig copy h cs pre todo pp fuel :
  rep h copy cs -> dseg h0 pp todo None ->
  mapM (dup_value orig) pre = Some cs.*2 ->
  (forall q, q ∈ cs.*1 -> h0 !! q = None) -> frame cs.*1 h0 h ->
  dup copy = dup orig -> free copy = free orig -> match_ copy = match_ orig ->
  (length todo < fuel)%nat ->
  Z.of_nat (length cs + length todo) < 2 ^ 64 - 2 ->
  dup_result h0 orig (pre ++ todo.*2)
    (listDup_loop malloc fuel h copy (mkIter (first_loc todo None) AL_START_HEAD)).
Proof.
  revert h copy cs pre todo pp. induction fuel as [|fuel IH];
    intros h copy cs pre todo pp Hr Hs Hpre Hfresh Hf Hdup Hfree Hmatch Hfuel Hlen; [lia|].
  assert (Hs' : dseg h pp todo None).
  { apply (dseg_frame h0); [|done]. intros p Hp. apply Hf. intros Hin.
    apply Hfresh in Hin. by apply (dseg_fresh _ _ _ _ _ Hin Hs). }
  cbn [listDup_loop]. rewrite (listNext_head _ _ _ Hs').
  destruct todo as [|[p v] todo]; cbn [mbind option_bind].
  { rewrite app_nil_r. simpl. exists cs. eauto 10. }
  destruct Hs' as [Hp Hs']. rewrite Hp. cbn [mbind option_bind value].
  change (match dup copy with Some f => f v | None => Some v end) with (dup_value copy v).
  assert (Hdv : dup_value copy v = dup_value orig v) by (unfold dup_value; by rewrite Hdup).
  rewrite Hdv. destruct (dup_value orig v) as [w|] eqn:Ew; cbn [mbind option_bind].
  2: { by destruct (release_restores h0 h copy cs Hr Hfresh Hf) as (fr & ->). }
  simpl in Hfuel, Hlen.
  pose proof (listAddNodeTail_inserts malloc malloc_fresh h copy cs w Hr ltac:(lia)) as Hadd.
  unfold inserts in Hadd. destruct (malloc h) as [node|] eqn:Hm.
  2: { rewrite Hadd. cbn [mbind option_bind].
       by destruct (release_restores h0 h copy cs Hr Hfresh Hf) as (fr & ->). }
  destruct Hadd as (h' & copy' & -> & Hr' & Hf' & Hd' & Hfr' & Hm').
  cbn [mbind option_bind]. rewrite app_nil_r in Hf'. simpl in Hs. destruct Hs as [_ Hs].
  assert (Hnode : h0 !! node = None).
  { rewrite <- (Hf node); [by apply malloc_fresh|].
    destruct Hr as (_ & Hds & _). by apply (dseg_fresh _ _ _ _ _ (malloc_fresh _ _ Hm) Hds). }
  replace (pre ++ ((p, v) :: todo).*2) with ((pre ++ [v]) ++ todo.*2) by (by rewrite <- app_assoc).
  apply (IH h' copy' (cs ++ [(node, w)]) (pre ++ [v]) todo (Some p)); try done; try congruence.
  - rewrite fmap_app. by apply mapM_snoc.
  - intros q. rewrite fmap_app, elem_of_app. simpl. rewrite list_elem_of_singleton.
    intros [Hin| ->]; eauto.
  - intros q Hq. rewrite fmap_app in Hq. simpl in Hq.
    rewrite not_elem_of_app, not_elem_of_cons in Hq. destruct Hq as (Hq1 & Hq2 & _).
    rewrite Hf' by (by apply not_elem_of_cons). by apply Hf.
  - lia.
  - rewrite length_app. simpl. lia.
Qed.
End Dup.

(** ** The claims *)

(** C39. Adding at the head, at the tail, or on either side of a node puts the new
    value at that place of the list; when [hi_malloc] fails NULL is returned and
    nothing changes. *)
Theorem adlist_insertion {V} {eqV : EqDecision V} (malloc : heap V -> option loc)
    (h : heap V) (L : hilist V) (l1 l2 : list (loc * V)) (p : loc) (w v : V) :
  (forall h p, malloc h = Some p -> h !! p = None) ->
  let ls := l1 ++ (p, w) :: l2 in
  rep h L ls -> Z.of_nat (length ls) < 2 ^ 64 - 2 ->
  inserts malloc h L (listAddNodeHead malloc h L v) [] ls v /\
  inserts malloc h L (listAddNodeTail malloc h L v) ls [] v /\
  inserts malloc h L (listInsertNode malloc h L p v true) (l1 ++ [(p, w)]) l2 v /\
  inserts malloc h L (listInsertNode malloc h L p v false) l1 ((p, w) :: l2) v.
Proof.
  intros Hm ls Hr Hl.
  split; [by apply listAddNodeHead_inserts|]. split; [by apply listAddNodeTail_inserts|].
  split; [by apply (listInsertNode_inserts malloc Hm h L l1 l2 p w v true)
         | by apply (listInsertNode_inserts malloc Hm h L l1 l2 p w v false)].
Qed.

(** Deleting a node takes it out of the list, frees its cell, hands its value
    to the [free] method and leaves every other list's nodes alone. *)
Theorem adlist_deletion {V} (h : heap V) (L : hilist V)
    (l1 l2 : list (loc * V)) (p : loc) (v : V) :
  rep h L (l1 ++ (p, v) :: l2) ->
  exists h' L',
    listDelNode h L p = Some (h', L', match free L with Some _ => Some v | None => None end) /\
    rep h' L' (l1 ++ l2) /\ h' !! p = None /\ frame (l1 ++ (p, v) :: l2).*1 h h' /\
    free L' = free L /\ match_ L' = match_ L.
Proof. apply listDelNode_rep. Qed.

(** [listDup] never fails undefined: it returns a list of the duplicated
    values on fresh nodes, or NULL with the heap exactly as before, so nothing
    leaks and the original is never modified. *)
Theorem listDup_copies {V} {eqV : EqDecision V} (malloc : heap V -> option loc)
    (struct_ok : bool) (h : heap V) (orig : hilist V) (ls : list (loc * V)) :
  (forall h p, malloc h = Some p -> h !! p = None) ->
  rep h orig ls -> Z.of_nat (length ls) < 2 ^ 64 - 2 ->
  dup_result h orig ls.*2 (listDup malloc struct_ok h orig).
Proof.
  intros Hm Hr Hlen. unfold listDup. destruct struct_ok; [|done]. cbn [listCreate].
  pose proof Hr as (_ & Hs & Hh & _ & Hl & _). unfold listRewind. rewrite Hh, Hl, Nat2Z.id.
  apply (dup_loop malloc Hm h orig _ h [] [] ls None); try done; try lia.
  all: repeat split; simpl; try lia; first [apply NoDup_nil_2 | by intros q ?%not_elem_of_nil].
Qed.

(** A heap with a list of three numbers, and an allocator. *)
Definition ex_heap : heap Z :=
  list_to_map [(1%positive, mkNode None (Some 2%positive) 10);
               (2%positive, mkNode (Some 1%positive) (Some 3%positive) 20);
               (3%positive, mkNode (Some 2%positive) None 30)].
Definition ex_list : hilist Z :=
  mkList (Some 1%positive) (Some 3%positive) None None None 3.
Definition ex_nodes : list (loc * Z) :=
  [(1%positive, 10); (2%positive, 20); (3%positive, 30)].
Definition ex_malloc (h : heap Z) : option loc := Some (fresh (dom h)).

Lemma ex_rep : rep ex_heap ex_list ex_nodes.
Proof.
  split; [apply (bool_decide_unpack _); vm_compute; exact I|].
  repeat split; try reflexivity; simpl; lia.
Qed.

Lemma ex_malloc_fresh h p : ex_malloc h = Some p -> h !! p = None.
Proof. intros [= <-]. apply not_elem_of_dom, is_fresh. Qed.

Lemma adlist_insertion_witness :
  inserts ex_malloc ex_heap ex_list (listAddNodeHead ex_malloc ex_heap ex_list 5) [] ex_nodes 5.
Proof.
  apply (adlist_insertion ex_malloc ex_heap ex_list [(1%positive, 10)] [(3%positive, 30)]
           2%positive 20 5 ex_malloc_fresh ex_rep).
  simpl. lia.
Defined.

Lemma adlist_deletion_witness :
  exists h' L', listDelNode ex_heap ex_list 2%positive = Some (h', L', None) /\
    rep h' L' [(1%positive, 10); (3%positive, 30)] /\ h' !! 2%positive = None /\
    frame ex_nodes.*1 ex_heap h' /\ free L' = None /\ match_ L' = None.
Proof. exact (adlist_deletion ex_heap ex_list [(1%positive, 10)] [(3%positive, 30)] 2%positive 20 ex_rep). Defined.

Lemma listDup_copies_witness :
  dup_result ex_heap ex_list [10; 20; 30] (listDup ex_malloc true ex_heap ex_list).
Proof.
  apply (listDup_copies ex_malloc true ex_heap ex_list ex_nodes ex_malloc_fresh ex_rep).
  simpl. lia.
Defined.
