(* ===== verification/Dict.v ===== *)
(** * dict.c: the chained hash table

    A table is a list of buckets and a bucket the list of its entries, so the
    [next] pointers of an entry chain are the list's spine.  The [dictType] with
    its optional callbacks is a parameter, as in C; the destructors act on a
    state [W] of the caller.  [hi_malloc] and [hi_calloc] belong to hiredis: whether
    they succeed is an argument.  [None] stands for undefined behaviour (an index
    outside the table) or a failed [assert]. *)
From S2P Require Import Prelude.

Definition DICT_OK : Z := 0.
Definition DICT_ERR : Z := 1.
Definition DICT_HT_INITIAL_SIZE : Z := 4.

(** [while (len--) hash = ((hash << 5) + hash) + ( *buf++)] on [unsigned int]. *)
Definition dictGenHashFunction (buf : bytes) : Z :=
  fold_left (fun hash c => u32 (u32 (u32 (Z.shiftl hash 5) + hash) + Z_of_byte c)) buf 5381.

(** The hash as a polynomial in 33. *)
Definition bernstein (buf : bytes) : Z :=
  fold_left (fun hash c => hash * 33 + Z_of_byte c) buf 5381.

Record dictType (K V W : Type) := mkDictType {
  hashFunction : K -> Z;                        (* unsigned int *)
  keyDup : option (K -> K);
  valDup : option (V -> V);
  keyCompare : option (K -> K -> bool);
  keyDestructor : option (K -> W -> W);
  valDestructor : option (V -> W -> W)
}.
Arguments mkDictType {K V W} _ _ _ _ _ _.
Arguments hashFunction {K V W} _ _.
Arguments keyDup {K V W} _.
Arguments valDup {K V W} _.
Arguments keyCompare {K V W} _.
Arguments keyDestructor {K V W} _.
Arguments valDestructor {K V W} _.

Record dict (K V : Type) := mkDict {
  d_table : list (list (K * V));
  d_size : Z;      (* unsigned long *)
  d_sizemask : Z;  (* unsigned long *)
  d_used : Z       (* unsigned long *)
}.
Arguments mkDict {K V} _ _ _ _.
Arguments d_table {K V} _.
Arguments d_size {K V} _.
Arguments d_sizemask {K V} _.
Arguments d_used {K V} _.

(** An iterator: the entry returned last and the one saved as its successor,
    each with the rest of its chain. *)
Record dictIterator (K V : Type) := mkDictIterator {
  it_index : Z;   (* int *)
  it_entry : list (K * V);
  it_nextEntry : list (K * V)
}.
Arguments mkDictIterator {K V} _ _ _.
Arguments it_index {K V} _.
Arguments it_entry {K V} _.
Arguments it_nextEntry {K V} _.

(** [while (1) { if (i >= size) return i; i *= 2; }]: [i] is an unsigned long. *)
Fixpoint dictNextPower_loop (fuel : nat) (i size : Z) : option Z :=
  match fuel with
  | O => None
  | S fuel' => if size <=? i then Some i else dictNextPower_loop fuel' (u64 (i * 2)) size
  end.

Definition dictNextPower (size : Z) : option Z :=
  if LONG_MAX <=? size then Some LONG_MAX
  else dictNextPower_loop 64 DICT_HT_INITIAL_SIZE size.

Section Dict.
Context {K V W : Type} {eqK : EqDecision K}.
Variable type : dictType K V W.

Definition dictReset : dict K V := mkDict [] 0 0 0.

Definition dictCreate (malloc_ok : bool) : option (dict K V) :=
  if malloc_ok then Some dictReset else None.

(** [dictHashKey(ht, key) & mask], stored in an [unsigned int]. *)
Definition bucket_index (mask : Z) (key : K) : Z := u32 (Z.land (hashFunction type key) mask).

Definition dictCompareHashKeys (key1 key2 : K) : bool :=
  match keyCompare type with
  | Some cmp => cmp key1 key2
  | None => bool_decide (key1 = key2)
  end.

(** The inner loop of [dictExpand]: push each entry of a chain in front of its
    new bucket. *)
Fixpoint rehash_chain (mask : Z) (he : list (K * V)) (tbl : list (list (K * V))) (used : Z)
    : option (list (list (K * V)) * Z) :=
  match he with
  | [] => Some (tbl, used)
  | e :: nextHe =>
      let h := Z.to_nat (bucket_index mask e.1) in
      c ← tbl !! h;
      rehash_chain mask nextHe (<[h := e :: c]> tbl) (u64 (used - 1))
  end.

(** The outer loop, which stops early once every entry has moved. *)
Fixpoint rehash_loop (mask : Z) (old : list (list (K * V))) (tbl : list (list (K * V)))
    (used : Z) : option (list (list (K * V)) * Z) :=
  match old with
  | [] => Some (tbl, used)
  | c :: old' =>
      if 0 <? used then
        '(tbl, used) ← rehash_chain mask c tbl used;
        rehash_loop mask old' tbl used
      else Some (tbl, used)
  end.

Definition dictExpand (calloc_ok : bool) (ht : dict K V) (size : Z) : option (dict K V * Z) :=
  realsize ← dictNextPower size;
  if size <? d_used ht then Some (ht, DICT_ERR)
  else if negb calloc_ok then Some (ht, DICT_ERR)
  else
    let mask := u64 (realsize - 1) in
    '(tbl, used) ← rehash_loop mask (d_table ht) (replicate (Z.to_nat realsize) []) (d_used ht);
    if used =? 0 then Some (mkDict tbl realsize mask (d_used ht), DICT_OK) else None.

Definition dictExpandIfNeeded (calloc_ok : bool) (ht : dict K V) : option (dict K V * Z) :=
  if d_size ht =? 0 then dictExpand calloc_ok ht DICT_HT_INITIAL_SIZE
  else if d_used ht =? d_size ht then dictExpand calloc_ok ht (u64 (d_size ht * 2))
  else Some (ht, DICT_OK).

Fixpoint chain_find (key : K) (he : list (K * V)) : option (K * V) :=
  match he with
  | [] => None
  | e :: next => if dictCompareHashKeys key e.1 then Some e else chain_find key next
  end.

(** The index is returned as an [int]. *)
Definition dictKeyIndex (calloc_ok : bool) (ht : dict K V) (key : K) : option (dict K V * Z) :=
  '(ht, r) ← dictExpandIfNeeded calloc_ok ht;
  if r =? DICT_ERR then Some (ht, -1)
  else
    let h := bucket_index (d_sizemask ht) key in
    c ← d_table ht !! Z.to_nat h;
    match chain_find key c with
    | Some _ => Some (ht, -1)
    | None => Some (ht, i32 h)
    end.

Definition dictSetHashKey (key : K) : K :=
  match keyDup type with Some dup => dup key | None => key end.
Definition dictSetHashVal (val : V) : V :=
  match valDup type with Some dup => dup val | None => val end.

Definition dictAdd (calloc_ok malloc_ok : bool) (ht : dict K V) (key : K) (val : V)
    : option (dict K V * Z) :=
  '(ht, index) ← dictKeyIndex calloc_ok ht key;
  if index =? -1 then Some (ht, DICT_ERR)
  else if negb malloc_ok then Some (ht, DICT_ERR)
  else if index <? 0 then None
  else
    c ← d_table ht !! Z.to_nat index;
    let entry := (dictSetHashKey key, dictSetHashVal val) in
    Some (mkDict (<[Z.to_nat index := entry :: c]> (d_table ht)) (d_size ht)
            (d_sizemask ht) (u64 (d_used ht + 1)), DICT_OK).

Definition dictFind (ht : dict K V) (key : K) : option (option (K * V)) :=
  if d_size ht =? 0 then Some None
  else
    c ← d_table ht !! Z.to_nat (bucket_index (d_sizemask ht) key);
    Some (chain_find key c).

(** [dictSetHashVal(ht, de, val)] through the entry [dictFind] gave. *)
Fixpoint chain_set (key : K) (val : V) (he : list (K * V)) : list (K * V) :=
  match he with
  | [] => []
  | e :: next =>
      if dictCompareHashKeys key e.1 then (e.1, dictSetHashVal val) :: next
      else e :: chain_set key val next
  end.

Definition dictSetFoundVal (ht : dict K V) (key : K) (val : V) : option (dict K V) :=
  let h := Z.to_nat (bucket_index (d_sizemask ht) key) in
  c ← d_table ht !! h;
  Some (mkDict (<[h := chain_set key val c]> (d_table ht)) (d_size ht) (d_sizemask ht) (d_used ht)).

Definition dictFreeEntry (e : K * V) (w : W) : W :=
  let w := match keyDestructor type with Some f => f e.1 w | None => w end in
  match valDestructor type with Some f => f e.2 w | None => w end.

Fixpoint clear_chain (he : list (K * V)) (used : Z) (w : W) : Z * W :=
  match he with
  | [] => (used, w)
  | e :: next => clear_chain next (u64 (used - 1)) (dictFreeEntry e w)
  end.

Fixpoint clear_loop (tbl : list (list (K * V))) (used : Z) (w : W) : W :=
  match tbl with
  | [] => w
  | c :: tbl' =>
      if 0 <? used then
        let '(used, w) := clear_chain c used w in clear_loop tbl' used w
      else w
  end.

(** [_dictClear]; [dictRelease] frees the structure after it. *)
Definition dictClear (ht : dict K V) (w : W) : dict K V * W :=
  (dictReset, clear_loop (d_table ht) (d_used ht) w).

Definition dictRelease (ht : dict K V) (w : W) : W := (dictClear ht w).2.

Definition dictInitIterator : dictIterator K V := mkDictIterator (-1) [] [].

(** The comparison is done on [int]s; one iteration per bucket left. *)
Fixpoint dictNext_loop (fuel : nat) (ht : dict K V) (it : dictIterator K V)
    : option (dictIterator K V * option (K * V)) :=
  match fuel with
  | O => None
  | S fuel' =>
      match it_entry it with
      | [] =>
          let index := i32 (it_index it + 1) in
          if i32 (d_size ht) <=? index
          then Some (mkDictIterator index [] (it_nextEntry it), None)
          else
            if index <? 0 then None
            else
              c ← d_table ht !! Z.to_nat index;
              match c with
              | [] => dictNext_loop fuel' ht (mkDictIterator index [] (it_nextEntry it))
              | e :: next => Some (mkDictIterator index c next, Some e)
              end
      | _ =>
          match it_nextEntry it with
          | [] => dictNext_loop fuel' ht (mkDictIterator (it_index it) [] [])
          | e :: next => Some (mkDictIterator (it_index it) (e :: next) next, Some e)
          end
      end
  end.

Definition dictNext (ht : dict K V) (it : dictIterator K V)
    : option (dictIterator K V * option (K * V)) :=
  dictNext_loop (S (S (S (length (d_table ht))))) ht it.

(** The loop every user of an iterator runs:
    [while ((de = dictNext(&di)) != NULL)]. *)
Fixpoint dict_iterate (fuel : nat) (ht : dict K V) (it : dictIterator K V)
    : option (list (K * V)) :=
  match fuel with
  | O => None
  | S fuel' =>
      '(it, de) ← dictNext ht it;
      match de with
      | None => Some []
      | Some e => es ← dict_iterate fuel' ht it; Some (e :: es)
      end
  end.

Definition dict_entries (ht : dict K V) : option (list (K * V)) :=
  dict_iterate (S (Z.to_nat (d_used ht))) ht dictInitIterator.

(** ** The contract: a table holds a finite map *)

(** The callbacks are those of a map: the hash is an [unsigned int], the
    comparison is equality. *)
Class DictLaws : Prop := {
  hash_range k : 0 <= hashFunction type k < 2 ^ 32;
  compare_eq k1 k2 : dictCompareHashKeys k1 k2 = bool_decide (k1 = k2);
  dup_key k : dictSetHashKey k = k;
  dup_val v : dictSetHashVal v = v
}.
Context {laws : DictLaws}.
Implicit Types (tbl : list (list (K * V))) (c : list (K * V)) (ht : dict K V).

(** Every entry is in the bucket of its key. *)
Definition bucketed (mask : Z) (tbl : list (list (K * V))) : Prop :=
  forall i c e, tbl !! i = Some c -> e ∈ c -> Z.to_nat (bucket_index mask e.1) = i.

Definition table_ok (k : Z) (tbl : list (list (K * V))) : Prop :=
  2 <= k <= 30 /\ Z.of_nat (length tbl) = 2 ^ k /\ bucketed (2 ^ k - 1) tbl.

(** The invariant of the table. *)
Definition dict_wf (ht : dict K V) : Prop :=
  d_used ht = Z.of_nat (length (concat (d_table ht))) /\
  NoDup (concat (d_table ht)).*1 /\
  (ht = dictReset \/
   exists k, table_ok k (d_table ht) /\ d_size ht = 2 ^ k /\ d_sizemask ht = 2 ^ k - 1 /\
     d_used ht <= d_size ht).

Definition dict_pairs (ht : dict K V) : list (K * V) := concat (d_table ht).

Lemma dictReset_wf : dict_wf dictReset.
Proof. split; [done|]. split; [apply NoDup_nil_2|]. by left. Qed.

Lemma bucket_index_mod k key :
  0 <= k <= 31 -> bucket_index (2 ^ k - 1) key = hashFunction type key mod 2 ^ k.
Proof.
  intros Hk. unfold bucket_index. replace (2 ^ k - 1) with (Z.ones k) by (rewrite Z.ones_equiv; lia).
  rewrite Z.land_ones by lia. pose proof (hash_range key).
  pose proof (Z.mod_pos_bound (hashFunction type key) (2 ^ k) ltac:(apply Z.pow_pos_nonneg; lia)).
  pose proof (Z.pow_le_mono_r 2 k 31 ltac:(lia) ltac:(lia)).
  apply u32_small. lia.
Qed.

Lemma bucket_lt k tbl key :
  table_ok k tbl -> (Z.to_nat (bucket_index (2 ^ k - 1) key) < length tbl)%nat.
Proof.
  intros (Hk & Hl & _). rewrite bucket_index_mod by lia.
  pose proof (Z.mod_pos_bound (hashFunction type key) (2 ^ k) ltac:(apply Z.pow_pos_nonneg; lia)). lia.
Qed.

Lemma bucket_lookup k tbl key :
  table_ok k tbl -> exists c, tbl !! Z.to_nat (bucket_index (2 ^ k - 1) key) = Some c.
Proof. intros H. by apply lookup_lt_is_Some_2, bucket_lt. Qed.

Lemma concat_insert tbl i c c' :
  tbl !! i = Some c -> concat tbl ≡ₚ c ++ concat (delete i tbl) /\
  concat (<[i := c']> tbl) ≡ₚ c' ++ concat (delete i tbl).
Proof.
  intros Hi. apply list_elem_of_split_length in Hi as (l1 & l2 & -> & ->).
  rewrite insert_app_r_alt by lia. rewrite Nat.sub_diag. simpl.
  rewrite delete_middle, !concat_app. simpl. split; solve_Permutation.
Qed.

Lemma concat_push tbl i c (e : K * V) :
  tbl !! i = Some c -> concat (<[i := e :: c]> tbl) ≡ₚ e :: concat tbl.
Proof.
  intros Hi. destruct (concat_insert tbl i c (e :: c) Hi) as [-> ->]. done.
Qed.

Lemma bucketed_push mask tbl i c (e : K * V) :
  bucketed mask tbl -> tbl !! i = Some c -> Z.to_nat (bucket_index mask e.1) = i ->
  bucketed mask (<[i := e :: c]> tbl).
Proof.
  intros Hb Hc Hi j d x Hj Hx. destruct (decide (i = j)) as [->|Hne].
  - rewrite list_lookup_insert_eq in Hj by (by apply lookup_lt_Some in Hc). simplify_eq.
    apply elem_of_cons in Hx as [->|Hx]; [done|]. by eapply Hb.
  - rewrite list_lookup_insert_ne in Hj by done. by eapply Hb.
Qed.

Lemma table_ok_push k tbl c (e : K * V) :
  table_ok k tbl -> tbl !! Z.to_nat (bucket_index (2 ^ k - 1) e.1) = Some c ->
  table_ok k (<[Z.to_nat (bucket_index (2 ^ k - 1) e.1) := e :: c]> tbl).
Proof.
  intros (Hk & Hl & Hb) Hc. split; [done|]. split; [by rewrite length_insert|].
  by apply bucketed_push.
Qed.

(** ** Growing the table *)

Lemma rehash_chain_ok k he : forall tbl used,
  table_ok k tbl -> Z.of_nat (length he) <= used < 2 ^ 64 ->
  exists tbl', rehash_chain (2 ^ k - 1) he tbl used = Some (tbl', used - Z.of_nat (length he)) /\
    table_ok k tbl' /\ concat tbl' ≡ₚ he ++ concat tbl.
Proof.
  induction he as [|e he IH]; intros tbl used Ht Hu; simpl in *.
  - exists tbl. rewrite Z.sub_0_r. done.
  - destruct (bucket_lookup k tbl e.1 Ht) as [c Hc]. rewrite Hc. cbn [mbind option_bind].
    rewrite (wrapu_small 64) by lia.
    destruct (IH (<[Z.to_nat (bucket_index (2 ^ k - 1) e.1) := e :: c]> tbl) (used - 1))
      as (tbl' & -> & Ht' & Hp); [by apply table_ok_push|lia|].
    exists tbl'. split; [do 2 f_equal; lia|]. split; [done|].
    rewrite Hp, (concat_push _ _ _ _ Hc). symmetry. apply Permutation_middle.
Qed.

Lemma rehash_loop_ok k old : forall tbl used,
  table_ok k tbl -> used = Z.of_nat (length (concat old)) -> used < 2 ^ 64 ->
  exists tbl', rehash_loop (2 ^ k - 1) old tbl used = Some (tbl', 0) /\
    table_ok k tbl' /\ concat tbl' ≡ₚ concat old ++ concat tbl.
Proof.
  induction old as [|c old IH]; intros tbl used Ht Hu Hlt; simpl in *.
  - exists tbl. by subst.
  - rewrite length_app in Hu. destruct (0 <? used) eqn:E.
    + destruct (rehash_chain_ok k c tbl used Ht) as (t1 & -> & Ht1 & Hp1); [lia|].
      cbn [mbind option_bind]. destruct (IH t1 (used - Z.of_nat (length c)) Ht1) as (t2 & -> & Ht2 & Hp2);
        [lia|lia|].
      exists t2. split; [done|]. split; [done|]. rewrite Hp2, Hp1. solve_Permutation.
    + apply Z.ltb_ge in E. assert (length c = 0 /\ length (concat old) = 0)%nat as [H1 H2] by lia.
      apply nil_length_inv in H1 as ->. apply nil_length_inv in H2. rewrite H2.
      exists tbl. replace used with 0 by lia. done.
Qed.

Lemma dictNextPower_loop_ok fuel : forall j size,
  2 <= j -> j + Z.of_nat fuel = 66 -> 0 < size < 2 ^ 63 -> (2 < j -> 2 ^ (j - 1) < size) -> (0 < fuel)%nat ->
  exists k, j <= k <= 63 /\ dictNextPower_loop fuel (2 ^ j) size = Some (2 ^ k) /\
    size <= 2 ^ k /\ (2 < k -> 2 ^ (k - 1) < size).
Proof.
  induction fuel as [|fuel IH]; intros j size Hj Hf Hs Hlow H0; [lia|]. simpl.
  destruct (size <=? 2 ^ j) eqn:E.
  - exists j. assert (j <= 63 \/ 63 < j) as [Hle|Hgt] by lia.
    + split; [lia|]. split; [done|]. split; [lia|done].
    + pose proof (Z.pow_le_mono_r 2 63 (j - 1)). lia.
  - assert (j <= 62).
    { apply Z.leb_gt in E. assert (j < 63); [apply (Z.pow_lt_mono_r_iff 2)|]; lia. }
    assert (E2 : 2 ^ j * 2 = 2 ^ (j + 1)) by (rewrite Z.pow_add_r by lia; lia).
    pose proof (Z.pow_le_mono_r 2 (j + 1) 63 ltac:(lia) ltac:(lia)).
    rewrite (wrapu_small 64) by (rewrite E2; pose proof (Z.pow_pos_nonneg 2 (j + 1)); lia).
    rewrite E2. destruct (IH (j + 1) size) as (k & Hk & -> & Hks & Hkl); try lia.
    { intros _. rewrite Z.add_simpl_r. lia. }
    exists k. split; [lia|done].
Qed.

(** [_dictNextPower] ends, on the least power of two that is large enough. *)
Lemma dictNextPower_ok size :
  0 < size < LONG_MAX ->
  exists k, 2 <= k <= 63 /\ dictNextPower size = Some (2 ^ k) /\ size <= 2 ^ k /\
    (2 < k -> 2 ^ (k - 1) < size).
Proof.
  unfold LONG_MAX. intros Hs. unfold dictNextPower, LONG_MAX.
  replace (_ <=? size) with false by lia.
  apply (dictNextPower_loop_ok 64 2 size); lia.
Qed.

Lemma empty_table_ok k : 2 <= k <= 30 -> table_ok k (replicate (Z.to_nat (2 ^ k)) []).
Proof.
  intros Hk. split; [done|]. rewrite length_replicate.
  pose proof (Z.pow_pos_nonneg 2 k). split; [lia|].
  intros i c e Hc He. apply lookup_replicate in Hc as [-> _]. by apply not_elem_of_nil in He.
Qed.

Lemma concat_replicate_nil {A} n : concat (replicate n (@nil A)) = [].
Proof. induction n as [|n IH]; done. Qed.

Lemma wf_permute ht k tbl :
  dict_wf ht -> table_ok k tbl -> concat tbl ≡ₚ dict_pairs ht -> d_used ht <= 2 ^ k ->
  dict_wf (mkDict tbl (2 ^ k) (2 ^ k - 1) (d_used ht)).
Proof.
  intros (Hu & Hnd & _) Ht Hp Hle. unfold dict_pairs in Hp. split; [|split]; simpl.
  - by rewrite Hu, Hp.
  - by rewrite Hp.
  - right. by exists k.
Qed.

Lemma wf_used_nonneg ht : dict_wf ht -> 0 <= d_used ht.
Proof. intros (-> & _). lia. Qed.

(** [dictExpand]: same pairs, in a table that has room. *)
Lemma dictExpand_ok calloc_ok ht size :
  dict_wf ht -> 0 < size <= 2 ^ 30 -> d_used ht <= size ->
  exists ht' r, dictExpand calloc_ok ht size = Some (ht', r) /\ dict_wf ht' /\
    dict_pairs ht' ≡ₚ dict_pairs ht /\ d_used ht' = d_used ht /\
    (r = DICT_ERR /\ ht' = ht /\ calloc_ok = false \/
     r = DICT_OK /\ calloc_ok = true /\ size <= d_size ht').
Proof.
  intros Hwf Hs Hle. unfold dictExpand.
  destruct (dictNextPower_ok size) as (k & Hk & -> & Hks & Hkl); [unfold LONG_MAX; lia|].
  cbn [mbind option_bind]. replace (size <? d_used ht) with false by lia.
  destruct calloc_ok; cbn [negb]; [|by exists ht, DICT_ERR; naive_solver].
  assert (k <= 30).
  { destruct (Z.le_gt_cases k 30); [done|]. pose proof (Z.pow_le_mono_r 2 30 (k - 1)). lia. }
  pose proof (Z.pow_le_mono_r 2 k 30 ltac:(lia) ltac:(lia)).
  pose proof (Z.pow_pos_nonneg 2 k ltac:(lia) ltac:(lia)).
  rewrite (wrapu_small 64) by lia. pose proof Hwf as (Hu & Hnd & _).
  destruct (rehash_loop_ok k (d_table ht) (replicate (Z.to_nat (2 ^ k)) []) (d_used ht))
    as (tbl & -> & Ht & Hp); [apply empty_table_ok; lia|done|lia|].
  cbn [mbind option_bind]. rewrite concat_replicate_nil, app_nil_r in Hp. simpl.
  eexists _, _. split; [reflexivity|]. split; [apply wf_permute; [done|done|done|lia]|].
  split; [done|]. split; [done|]. right. simpl. split; [done|]. split; [done|lia].
Qed.

(** The table has at most [2 ^ 29] entries: far below what the address space
    allows, and what keeps the [int] index of [_dictKeyIndex] positive. *)
Definition dict_small ht : Prop := d_used ht <= 2 ^ 29.

Lemma dictExpandIfNeeded_ok calloc_ok ht :
  dict_wf ht -> dict_small ht ->
  exists ht' r, dictExpandIfNeeded calloc_ok ht = Some (ht', r) /\ dict_wf ht' /\
    dict_pairs ht' ≡ₚ dict_pairs ht /\ d_used ht' = d_used ht /\
    (r = DICT_ERR /\ ht' = ht /\ calloc_ok = false \/ r = DICT_OK /\ d_used ht' < d_size ht').
Proof.
  intros Hwf Hsm. unfold dictExpandIfNeeded, dict_small in *.
  pose proof Hwf as (Hu & Hnd & Hor).
  destruct (d_size ht =? 0) eqn:E.
  - destruct Hor as [-> |(k & (Hk & _) & Hs & _)]; [|pose proof (Z.pow_nonzero 2 k); lia].
    destruct (dictExpand_ok calloc_ok dictReset DICT_HT_INITIAL_SIZE) as (h & r & -> & H1 & H2 & H3 & H4);
      [apply dictReset_wf|unfold DICT_HT_INITIAL_SIZE; lia|done|].
    exists h, r. split; [done|]. split; [done|]. split; [done|]. split; [done|].
    rewrite H3. unfold DICT_HT_INITIAL_SIZE in H4. simpl. naive_solver lia.
  - destruct Hor as [-> |(k & (Hk & Hl & Hb) & Hs & Hm & Hus)]; [done|].
    destruct (d_used ht =? d_size ht) eqn:E2; [|exists ht, DICT_OK; naive_solver lia].
    apply Z.eqb_eq in E2. pose proof (Z.pow_pos_nonneg 2 k ltac:(lia) ltac:(lia)).
    rewrite (wrapu_small 64) by lia.
    destruct (dictExpand_ok calloc_ok ht (d_size ht * 2)) as (h & r & -> & H1 & H2 & H3 & H4); [done|lia|lia|].
    exists h, r. naive_solver lia.
Qed.

(** ** Lookup, insertion and update *)
Context {countK : Countable K}.

(** The map a table holds. *)
Definition to_map ht : gmap K V := list_to_map (dict_pairs ht).

Lemma chain_find_Some key c e : chain_find key c = Some e -> e ∈ c /\ e.1 = key.
Proof.
  induction c as [|x c IH]; simpl; [done|]. rewrite compare_eq. case_bool_decide as Hk.
  - intros [= <-]. split; [apply elem_of_cons; by left|done].
  - intros (? & ?)%IH. split; [apply elem_of_cons; by right|done].
Qed.

Lemma chain_find_None key c : chain_find key c = None -> key ∉ c.*1.
Proof.
  induction c as [|x c IH]; simpl; [intros _; apply not_elem_of_nil|].
  rewrite compare_eq. case_bool_decide as Hk; [done|].
  intros ?%IH. by apply not_elem_of_cons.
Qed.

Lemma in_bucket_pairs ht i c e : d_table ht !! i = Some c -> e ∈ c -> e ∈ dict_pairs ht.
Proof.
  intros Hi He. unfold dict_pairs. destruct (concat_insert _ i c c Hi) as [-> _].
  apply elem_of_app. by left.
Qed.

Lemma pairs_in_bucket ht k key v :
  table_ok k (d_table ht) -> (key, v) ∈ dict_pairs ht ->
  exists c, d_table ht !! Z.to_nat (bucket_index (2 ^ k - 1) key) = Some c /\ (key, v) ∈ c.
Proof.
  intros (_ & _ & Hb) Hin. apply list_elem_of_In, in_concat in Hin as (c & Hc & He).
  apply list_elem_of_In in Hc, He. apply list_elem_of_lookup in Hc as [i Hi].
  exists c. pose proof (Hb i c (key, v) Hi He) as Hi'. simpl in Hi'. by rewrite Hi'.
Qed.

Lemma chain_find_ok ht k key c :
  dict_wf ht -> table_ok k (d_table ht) ->
  d_table ht !! Z.to_nat (bucket_index (2 ^ k - 1) key) = Some c ->
  chain_find key c = (key,.) <$> to_map ht !! key.
Proof.
  intros (_ & Hnd & _) Ht Hc. destruct (chain_find key c) as [[k' v]|] eqn:E.
  - apply chain_find_Some in E as [Hin [= ->]]. unfold to_map.
    erewrite elem_of_list_to_map_1; [done|done|]. by eapply in_bucket_pairs.
  - apply chain_find_None in E. destruct (to_map ht !! key) as [v|] eqn:E2; [|done].
    apply elem_of_list_to_map_2 in E2. destruct (pairs_in_bucket ht k key v Ht E2) as (c' & Hc' & Hin).
    simplify_eq. destruct E. by apply (list_elem_of_fmap_2 fst _ (key, v)).
Qed.

Lemma dictFind_ok ht key :
  dict_wf ht -> dictFind ht key = Some ((key,.) <$> to_map ht !! key).
Proof.
  intros Hwf. unfold dictFind. pose proof Hwf as (_ & _ & [-> |(k & Ht & Hs & Hm & _)]); [done|].
  pose proof Ht as (Hk & _). pose proof (Z.pow_nonzero 2 k ltac:(lia) ltac:(lia)).
  replace (d_size ht =? 0) with false by lia. rewrite Hm.
  destruct (bucket_lookup k (d_table ht) key Ht) as [c Hc]. rewrite Hc. cbn [mbind option_bind].
  by erewrite chain_find_ok.
Qed.

Lemma to_map_perm ht1 ht2 :
  dict_wf ht1 -> dict_pairs ht1 ≡ₚ dict_pairs ht2 -> to_map ht1 = to_map ht2.
Proof. intros (_ & Hnd & _) Hp. by apply list_to_map_proper. Qed.

Lemma to_map_size ht : dict_wf ht -> d_used ht = Z.of_nat (size (to_map ht)).
Proof.
  intros (-> & Hnd & _). unfold to_map, dict_pairs in *. f_equal. generalize dependent (concat (d_table ht)).
  intros l Hl. induction l as [|[k v] l IH]; [done|]. simpl in *. apply NoDup_cons in Hl as [Hn Hl].
  rewrite map_size_insert_None by (by apply not_elem_of_list_to_map_1). by rewrite IH.
Qed.

Lemma bucket_index_small k key : 0 <= k <= 30 -> 0 <= bucket_index (2 ^ k - 1) key < 2 ^ 30.
Proof.
  intros Hk. rewrite bucket_index_mod by lia.
  pose proof (Z.mod_pos_bound (hashFunction type key) (2 ^ k) ltac:(apply Z.pow_pos_nonneg; lia)).
  pose proof (Z.pow_le_mono_r 2 k 30). lia.
Qed.

Lemma dictAdd_ok calloc_ok malloc_ok ht key val :
  dict_wf ht -> dict_small ht ->
  exists ht' r, dictAdd calloc_ok malloc_ok ht key val = Some (ht', r) /\ dict_wf ht' /\
    (r = DICT_OK /\ to_map ht !! key = None /\ to_map ht' = <[key := val]> (to_map ht) \/
     r = DICT_ERR /\ to_map ht' = to_map ht /\
       (calloc_ok = false \/ malloc_ok = false \/ is_Some (to_map ht !! key))).
Proof.
  intros Hwf Hsm. unfold dictAdd, dictKeyIndex.
  destruct (dictExpandIfNeeded_ok calloc_ok ht Hwf Hsm) as (h1 & r & -> & Hwf1 & Hp & Hu & Hr).
  pose proof (to_map_perm _ _ Hwf1 Hp) as Hmap. cbn [mbind option_bind].
  destruct Hr as [(-> & -> & ->)|(-> & Hlt)]; [eexists _, _; split; [done|]; naive_solver|].
  cbn [Z.eqb DICT_OK DICT_ERR]. pose proof Hwf1 as (Hu1 & Hnd1 & Hor).
  pose proof (wf_used_nonneg _ Hwf1).
  destruct Hor as [-> |(k & Ht & Hs & Hm & Hus)]; [simpl in Hlt; lia|]. rewrite Hm.
  destruct (bucket_lookup k (d_table h1) key Ht) as [c Hc]. rewrite Hc. cbn [mbind option_bind].
  pose proof (chain_find_ok h1 k key c Hwf1 Ht Hc) as Hf. rewrite Hf, <- Hmap.
  destruct (to_map h1 !! key) as [v|] eqn:E; simpl; [eexists _, _; split; [done|]; naive_solver|].
  pose proof Ht as (Hk & _). pose proof (bucket_index_small k key ltac:(lia)) as Hb.
  rewrite i32_small by (unfold INT_MIN, INT_MAX; lia).
  replace (_ =? -1) with false by lia.
  destruct malloc_ok; cbn [negb]; [|eexists _, _; split; [done|]; naive_solver].
  replace (_ <? 0) with false by lia. rewrite Hc. cbn [mbind option_bind]. rewrite dup_key, dup_val.
  pose proof (concat_push _ _ _ (key, val) Hc) as Hpush.
  unfold dict_small in Hsm. rewrite (wrapu_small 64) by lia.
  eexists _, _. split; [reflexivity|].
  assert (Hfresh : key ∉ (dict_pairs h1).*1) by (by apply not_elem_of_list_to_map_2).
  assert (Hwf' : dict_wf (mkDict (<[Z.to_nat (bucket_index (2 ^ k - 1) key) := (key, val) :: c]> (d_table h1))
                    (d_size h1) (d_sizemask h1) (d_used h1 + 1))).
  { split; [|split]; simpl.
    - rewrite Hpush. simpl. lia.
    - rewrite Hpush. simpl. by apply NoDup_cons.
    - right. exists k. split; [by apply (table_ok_push k (d_table h1) c (key, val))|]. simpl. lia. }
  split; [done|]. left. split; [done|]. split; [done|].
  unfold to_map at 1, dict_pairs at 1. simpl.
  rewrite (list_to_map_proper _ ((key, val) :: dict_pairs h1)); [done| |by apply Hpush].
  by destruct Hwf' as (_ & ? & _).
Qed.

Lemma dictFind_Some ht key e :
  dict_wf ht -> dictFind ht key = Some (Some e) -> e.1 = key /\ to_map ht !! key = Some e.2.
Proof.
  intros Hwf. rewrite dictFind_ok by done. intros [= H]. apply fmap_Some in H as (v & Hv & ->). done.
Qed.

Lemma chain_set_keys key val c : (chain_set key val c).*1 = c.*1.
Proof.
  induction c as [|x c IH]; [done|]. simpl. destruct (dictCompareHashKeys key x.1); [done|].
  by rewrite !fmap_cons, IH.
Qed.

Lemma chain_set_split key v val c :
  NoDup c.*1 -> (key, v) ∈ c ->
  exists l1 l2, c = l1 ++ (key, v) :: l2 /\ chain_set key val c = l1 ++ (key, val) :: l2.
Proof.
  induction c as [|x c IH]; intros Hnd Hin; [by apply not_elem_of_nil in Hin|].
  simpl in *. apply NoDup_cons in Hnd as [Hx Hnd]. rewrite compare_eq.
  apply elem_of_cons in Hin as [<-|Hin].
  - rewrite bool_decide_eq_true_2 by done. exists [], c. by rewrite dup_val.
  - case_bool_decide as Hk.
    + destruct Hx. simpl in Hk. rewrite <- Hk. by apply (list_elem_of_fmap_2 fst _ (key, v)).
    + destruct (IH Hnd Hin) as (l1 & l2 & -> & ->). by exists (x :: l1), l2.
Qed.

(** Updating the value of an entry that [dictFind] found. *)
Lemma dictSetFoundVal_ok ht key val :
  dict_wf ht -> is_Some (to_map ht !! key) ->
  exists ht', dictSetFoundVal ht key val = Some ht' /\ dict_wf ht' /\
    to_map ht' = <[key := val]> (to_map ht).
Proof.
  intros Hwf [v Hv]. pose proof Hwf as (Hu & Hnd & Hor).
  destruct Hor as [-> |(k & Ht & Hs & Hm & Hus)]; [done|]. unfold dictSetFoundVal. rewrite Hm.
  apply elem_of_list_to_map_2 in Hv as Hin.
  destruct (pairs_in_bucket ht k key v Ht Hin) as (c & Hc & Hinc). rewrite Hc. cbn [mbind option_bind].
  eexists. split; [reflexivity|].
  destruct (concat_insert _ _ c (chain_set key val c) Hc) as [Hp1 Hp2].
  assert (Hndc : NoDup c.*1).
  { rewrite Hp1, fmap_app in Hnd. by apply NoDup_app in Hnd as (? & _). }
  destruct (chain_set_split key v val c Hndc Hinc) as (l1 & l2 & Hl & Hl').
  assert (Hkeys : (concat (<[Z.to_nat (bucket_index (2 ^ k - 1) key) := chain_set key val c]> (d_table ht))).*1
                    ≡ₚ (concat (d_table ht)).*1).
  { by rewrite Hp1, Hp2, !fmap_app, chain_set_keys. }
  assert (Hnd' : NoDup (concat (<[Z.to_nat (bucket_index (2 ^ k - 1) key) := chain_set key val c]> (d_table ht))).*1)
    by by rewrite Hkeys.
  split; [split; [|split; [done|]]|].
  - simpl. rewrite Hu, <- (length_fmap fst), <- Hkeys, length_fmap. done.
  - right. exists k. destruct Ht as (Hk & Hlen & Hb). split; [|done]. split; [done|].
    split; [simpl; by rewrite length_insert|]. intros i d e Hi He. simpl in Hi.
    destruct (decide (i = Z.to_nat (bucket_index (2 ^ k - 1) key))) as [->|Hne];
      [|rewrite list_lookup_insert_ne in Hi by done; by eapply Hb].
    simpl in Hi. rewrite list_lookup_insert_eq in Hi by (by apply lookup_lt_Some in Hc). injection Hi as <-.
    rewrite Hl' in He. apply elem_of_app in He as [He|[->|He]%elem_of_cons]; [| done |];
      apply (Hb _ _ e Hc); rewrite Hl; set_solver.
  - apply (list_to_map_proper _ _ Hnd') in Hp2 as Heq. unfold to_map, dict_pairs. simpl. rewrite Heq, Hl'.
    assert (Hpv : concat (d_table ht) ≡ₚ (key, v) :: (l1 ++ l2) ++ concat (delete (Z.to_nat (bucket_index (2 ^ k - 1) key)) (d_table ht))).
    { rewrite Hp1, Hl. solve_Permutation. }
    rewrite (list_to_map_proper (concat (d_table ht)) _ Hnd Hpv). simpl. rewrite insert_insert_eq.
    rewrite Hp2, Hl' in Hnd'.
    rewrite (list_to_map_proper _ ((key, val) :: (l1 ++ l2) ++ concat (delete (Z.to_nat (bucket_index (2 ^ k - 1) key)) (d_table ht)))).
    + done.
    + done.
    + solve_Permutation.
Qed.

(** ** Iteration and release *)

(** What an iterator has still to give: the rest of its chain and the buckets
    after its index. *)
Definition it_rest ht (it : dictIterator K V) : list (K * V) :=
  (match it_entry it with [] => [] | _ => it_nextEntry it end)
    ++ concat (drop (Z.to_nat (it_index it + 1)) (d_table ht)).

Definition it_ok ht (it : dictIterator K V) : Prop := -1 <= it_index it < d_size ht \/ it_index it = -1.

Lemma wf_size ht : dict_wf ht -> d_size ht = Z.of_nat (length (d_table ht)) /\ 0 <= d_size ht <= 2 ^ 30.
Proof.
  intros (_ & _ & [-> |(k & (Hk & Hl & _) & Hs & _)]); [simpl; lia|].
  pose proof (Z.pow_le_mono_r 2 k 30). lia.
Qed.

Lemma dictNext_scan ht : dict_wf ht -> forall fuel it,
  it_entry it = [] -> it_ok ht it ->
  (S (length (d_table ht)) < fuel + Z.to_nat (it_index it + 1))%nat ->
  exists it', dictNext_loop fuel ht it = Some (it', head (it_rest ht it)) /\
    (it_rest ht it <> [] -> it_ok ht it') /\ it_rest ht it' = tail (it_rest ht it).
Proof.
  intros Hwf. pose proof (wf_size ht Hwf) as [Hsz Hle].
  induction fuel as [|fuel IH]; intros it He Hok Hf; unfold it_ok in *.
  { lia. }
  simpl. rewrite He. rewrite !i32_small by (unfold INT_MIN, INT_MAX; lia).
  unfold it_rest at 1. rewrite He. simpl.
  destruct (d_size ht <=? it_index it + 1) eqn:E.
  - unfold it_rest. rewrite He. simpl. rewrite !drop_ge by lia. eexists. split; [reflexivity|].
    simpl. split; [done|]. by rewrite drop_ge by lia.
  - replace (it_index it + 1 <? 0) with false by lia.
    destruct (lookup_lt_is_Some_2 (d_table ht) (Z.to_nat (it_index it + 1))) as [c Hc]; [lia|].
    rewrite Hc. cbn [mbind option_bind]. unfold it_rest. rewrite He, (drop_S _ _ _ Hc). simpl.
    assert (Hnat : S (Z.to_nat (it_index it + 1)) = Z.to_nat (it_index it + 1 + 1)) by lia.
    rewrite Hnat. destruct c as [|e next].
    + destruct (IH (mkDictIterator (it_index it + 1) [] (it_nextEntry it))) as (it' & -> & Hok' & Hr);
        [done|simpl; lia|simpl; lia|].
      exists it'. done.
    + eexists. split; [reflexivity|]. simpl. split; [lia|done].
Qed.

(** One [dictNext]: the next entry of the rest, or NULL at its end. *)
Lemma dictNext_ok ht it :
  dict_wf ht -> it_ok ht it ->
  exists it', dictNext ht it = Some (it', head (it_rest ht it)) /\
    (it_rest ht it <> [] -> it_ok ht it') /\ it_rest ht it' = tail (it_rest ht it).
Proof.
  intros Hwf Hok. unfold dictNext.
  destruct (it_entry it) as [|e c] eqn:He; [apply dictNext_scan; [done..|lia]|].
  cbn [dictNext_loop]. rewrite He. destruct (it_nextEntry it) as [|e' next] eqn:Hn.
  - destruct (dictNext_scan ht Hwf (S (S (length (d_table ht)))) (mkDictIterator (it_index it) [] []))
      as (it' & Hl & Hok' & Hr); [done|done|lia|].
    exists it'. unfold it_rest in *. rewrite He, Hn. simpl in *. done.
  - eexists. split; [|split].
    + unfold it_rest. rewrite He, Hn. reflexivity.
    + done.
    + unfold it_rest. rewrite He, Hn. done.
Qed.

Lemma dict_iterate_ok ht : dict_wf ht -> forall fuel it,
  it_ok ht it -> (length (it_rest ht it) < fuel)%nat ->
  dict_iterate fuel ht it = Some (it_rest ht it).
Proof.
  intros Hwf. induction fuel as [|fuel IH]; intros it Hok Hf; [lia|]. simpl.
  destruct (dictNext_ok ht it Hwf Hok) as (it' & -> & Hok' & Hr). cbn [mbind option_bind].
  destruct (it_rest ht it) as [|e l] eqn:E; [done|]. specialize (Hok' ltac:(done)). simpl in *.
  rewrite IH, Hr; [done|done|rewrite Hr; lia].
Qed.

Lemma dict_entries_ok ht : dict_wf ht -> dict_entries ht = Some (dict_pairs ht).
Proof.
  intros Hwf. unfold dict_entries.
  rewrite dict_iterate_ok; [reflexivity|done| |].
  - unfold it_ok. simpl. pose proof (wf_size ht Hwf). lia.
  - destruct Hwf as (-> & _). unfold it_rest. simpl. rewrite drop_0. lia.
Qed.

Lemma clear_chain_ok he : forall used w,
  Z.of_nat (length he) <= used < 2 ^ 64 ->
  clear_chain he used w = (used - Z.of_nat (length he), fold_left (flip dictFreeEntry) he w).
Proof.
  induction he as [|e he IH]; intros used w Hu; simpl in *; [by rewrite Z.sub_0_r|].
  rewrite (wrapu_small 64) by lia. rewrite IH by lia. f_equal. lia.
Qed.

Lemma clear_loop_ok tbl : forall used w,
  used = Z.of_nat (length (concat tbl)) -> used < 2 ^ 64 ->
  clear_loop tbl used w = fold_left (flip dictFreeEntry) (concat tbl) w.
Proof.
  induction tbl as [|c tbl IH]; intros used w Hu Hlt; simpl in *; [done|].
  rewrite length_app in Hu. rewrite fold_left_app. destruct (0 <? used) eqn:E.
  - rewrite clear_chain_ok by lia. by apply IH; lia.
  - assert (length c = 0 /\ length (concat tbl) = 0)%nat as [H1 H2] by lia.
    apply nil_length_inv in H1 as ->. apply nil_length_inv in H2. by rewrite H2.
Qed.

(** [dictRelease] runs the destructors of every entry, each once. *)
Lemma dictRelease_ok ht w :
  dict_wf ht -> d_used ht < 2 ^ 64 ->
  dictRelease ht w = fold_left (flip dictFreeEntry) (dict_pairs ht) w.
Proof. intros (Hu & _) Hlt. by apply clear_loop_ok. Qed.

End Dict.

Arguments bucket_index {K V W} _ _ _.

Lemma dictGenHashFunction_range buf : 0 <= dictGenHashFunction buf < 2 ^ 32.
Proof.
  unfold dictGenHashFunction. rewrite <- fold_left_rev_right.
  destruct (rev buf) as [|c l]; simpl; [lia|]. apply wrapu_range. lia.
Qed.

(** The hash is the polynomial, on 32 bits. *)
Lemma dictGenHashFunction_bernstein buf : dictGenHashFunction buf = u32 (bernstein buf).
Proof.
  unfold dictGenHashFunction, bernstein. change 5381 with (u32 5381) at 1. generalize 5381.
  induction buf as [|c buf IH]; intros h; [done|]. simpl. rewrite <- IH. f_equal.
  rewrite Z.shiftl_mul_pow2 by lia. change (2 ^ 5) with 32. unfold wrapu.
  Z.to_euclidean_division_equations. nia.
Qed.

(** C35. The table implements a finite map: [dictFind] is its lookup; [dictAdd]
    inserts a new key, growing the table when it is full, and refuses an existing
    one; when an allocation fails the map is unchanged.  No bucket index leaves
    the table, no [assert] fails and the invariant is kept. *)
Theorem dict_refines_map {K V W} {eqK : EqDecision K} {countK : Countable K}
    (type : dictType K V W) (ht : dict K V) (calloc_ok malloc_ok : bool) (key : K) (val : V) :
  DictLaws type -> dict_wf type ht -> dict_small ht ->
  dictFind type ht key = Some ((key,.) <$> to_map ht !! key) /\
  exists ht' r, dictAdd type calloc_ok malloc_ok ht key val = Some (ht', r) /\ dict_wf type ht' /\
    (r = DICT_OK /\ to_map ht !! key = None /\ to_map ht' = <[key := val]> (to_map ht) \/
     r = DICT_ERR /\ to_map ht' = to_map ht /\
       (calloc_ok = false \/ malloc_ok = false \/ is_Some (to_map ht !! key))).
Proof. intros Hl Hwf Hs. split; [by apply dictFind_ok | by apply dictAdd_ok]. Qed.

(** Iterating a table with [dictNext] until it gives NULL ends, and gives every
    pair of the map exactly once; [dictSize] is the number of pairs. *)
Theorem dict_iteration {K V W} {eqK : EqDecision K} {countK : Countable K}
    (type : dictType K V W) (ht : dict K V) :
  dict_wf type ht ->
  exists es, dict_entries ht = Some es /\ NoDup es.*1 /\ es ≡ₚ map_to_list (to_map ht) /\
    d_used ht = Z.of_nat (length es).
Proof.
  intros Hwf. exists (dict_pairs ht). pose proof Hwf as (Hu & Hnd & _).
  split; [by eapply dict_entries_ok|]. split; [done|]. split; [|done].
  symmetry. by apply map_to_list_to_map.
Qed.

(** [_dictNextPower] terminates on the least power of two not below its
    argument (and not below the initial size), up to half the range of an
    [unsigned long]. *)
Theorem dictNextPower_least (size : Z) :
  0 < size < LONG_MAX ->
  exists k, 2 <= k <= 63 /\ dictNextPower size = Some (2 ^ k) /\ size <= 2 ^ k /\
    (2 < k -> 2 ^ (k - 1) < size).
Proof. apply dictNextPower_ok. Qed.

(** A dictionary from byte strings to numbers. *)
Definition ex_type : dictType bytes Z unit :=
  mkDictType dictGenHashFunction None None None None None.

#[local] Instance ex_laws : DictLaws ex_type.
Proof. split; try done. apply dictGenHashFunction_range. Qed.

Definition ex_dict : dict bytes Z :=
  match dictAdd ex_type true true dictReset (str "a:1") 1 with
  | Some (ht, _) => ht | None => dictReset
  end.

Lemma ex_dict_wf : dict_wf ex_type ex_dict /\ to_map ex_dict = {[str "a:1" := 1]}.
Proof.
  destruct (dictAdd_ok ex_type true true dictReset (str "a:1") 1 (dictReset_wf ex_type))
    as (ht & r & E & Hwf & H); [unfold dict_small; simpl; lia|].
  unfold ex_dict. rewrite E. split; [done|].
  destruct H as [(_ & _ & ->)|(_ & _ & [|[|[? [=]]]])]; done.
Qed.

Lemma dict_refines_map_witness :
  dictFind ex_type ex_dict (str "b:2") = Some ((str "b:2",.) <$> to_map ex_dict !! str "b:2") /\
  exists ht' r, dictAdd ex_type true true ex_dict (str "b:2") 2 = Some (ht', r) /\
    dict_wf ex_type ht' /\
    (r = DICT_OK /\ to_map ex_dict !! str "b:2" = None /\
       to_map ht' = <[str "b:2" := 2]> (to_map ex_dict) \/
     r = DICT_ERR /\ to_map ht' = to_map ex_dict /\
       (true = false \/ true = false \/ is_Some (to_map ex_dict !! str "b:2"))).
Proof.
  apply (dict_refines_map ex_type ex_dict true true (str "b:2") 2 ex_laws (proj1 ex_dict_wf)).
  vm_compute. discriminate.
Defined.

Lemma dict_iteration_witness :
  exists es, dict_entries ex_dict = Some es /\ NoDup es.*1 /\
    es ≡ₚ map_to_list (to_map ex_dict) /\ d_used ex_dict = Z.of_nat (length es).
Proof. exact (dict_iteration ex_type ex_dict (proj1 ex_dict_wf)). Defined.

Lemma dictNextPower_least_witness :
  exists k, 2 <= k <= 63 /\ dictNextPower 100 = Some (2 ^ k) /\ 100 <= 2 ^ k /\
    (2 < k -> 2 ^ (k - 1) < 100).
Proof. apply (dictNextPower_least 100). unfold LONG_MAX. lia. Defined.
