(* ===== verification/Goto.v ===== *)
(** * Functions with labels

    The C functions of this library leave their bodies by [goto error], [goto oom]
    and early returns.  A computation threads a state [S] and ends normally with
    a value or at a label of [L]; [undefined] is the end of a computation that
    has no defined behaviour in C (an access out of bounds or through NULL). *)
From S2P Require Import Prelude.

Inductive outcome (L A : Type) :=
  | Normal (a : A)
  | At (l : L)
  | Undefined.
Arguments Normal {L A} _.
Arguments At {L A} _.
Arguments Undefined {L A}.

Definition G (S L A : Type) : Type := S -> S * outcome L A.

Definition goto {S L A} (l : L) : G S L A := fun s => (s, At l).
Definition undefined {S L A} : G S L A := fun s => (s, Undefined).

#[global] Instance g_ret {S L} : MRet (G S L) := fun A a s => (s, Normal a).
#[global] Instance g_bind {S L} : MBind (G S L) := fun A B f m s =>
  match m s with
  | (s, Normal a) => f a s
  | (s, At l) => (s, At l)
  | (s, Undefined) => (s, Undefined)
  end.
#[global] Instance g_fmap {S L} : FMap (G S L) := fun A B f m => m ≫= (mret ∘ f).

Definition gget {S L} : G S L S := fun s => (s, Normal s).
Definition gputs {S L A} (f : S -> S) (a : A) : G S L A := fun s => (f s, Normal a).
Definition gmodify {S L} (f : S -> S) : G S L unit := gputs f ().

(** A value that must be there. *)
Definition gdef {S L A} (o : option A) : G S L A :=
  match o with Some a => mret a | None => undefined end.

(** [if (o == NULL) goto l;] *)
Definition gsome {S L A} (l : L) (o : option A) : G S L A :=
  match o with Some a => mret a | None => goto l end.

(** [if (b) goto l;] *)
Definition gwhen {S L} (b : bool) (l : L) : G S L unit := if b then goto l else mret ().

(** The code at the labels: what a function does where it lands. *)
Definition gcatch {S L L' A} (m : G S L A) (h : L -> G S L' A) : G S L' A := fun s =>
  match m s with
  | (s, Normal a) => (s, Normal a)
  | (s, At l) => h l s
  | (s, Undefined) => (s, Undefined)
  end.

(** A computation that does not end undefined, with a postcondition for each way
    out. *)
Definition gspec {S L A} (m : G S L A) (s : S) (P : S -> A -> Prop) (E : S -> L -> Prop) : Prop :=
  match m s with
  | (s', Normal a) => P s' a
  | (s', At l) => E s' l
  | (_, Undefined) => False
  end.

(** Each step of a computation by rewriting. *)
Section Steps.
Context {S L : Type}.
Implicit Types (s : S) (l : L).

Lemma gbind_ret {A B} (a : A) (f : A -> G S L B) s : (mret a ≫= f) s = f a s.
Proof. done. Qed.
Lemma gbind_goto {A B} l (f : A -> G S L B) s : (goto l ≫= f) s = (s, At l).
Proof. done. Qed.
Lemma gbind_normal {A B} (m : G S L A) (f : A -> G S L B) s s' a :
  m s = (s', Normal a) -> (m ≫= f) s = f a s'.
Proof. unfold mbind, g_bind. by intros ->. Qed.
Lemma gbind_at {A B} (m : G S L A) (f : A -> G S L B) s s' l :
  m s = (s', At l) -> (m ≫= f) s = (s', At l).
Proof. unfold mbind, g_bind. by intros ->. Qed.
Lemma gbind_modify {B} (g : S -> S) (f : () -> G S L B) s : (gmodify g ≫= f) s = f () (g s).
Proof. done. Qed.
Lemma gbind_get {B} (f : S -> G S L B) s : (gget ≫= f) s = f s s.
Proof. done. Qed.
Lemma gbind_when {B} (b : bool) l (f : () -> G S L B) s :
  (gwhen b l ≫= f) s = if b then (s, At l) else f () s.
Proof. by destruct b. Qed.
Lemma gbind_assoc {A B C} (m : G S L A) (f : A -> G S L B) (g : B -> G S L C) s :
  ((m ≫= f) ≫= g) s = (m ≫= (fun a => f a ≫= g)) s.
Proof. unfold mbind, g_bind. by destruct (m s) as [s' []]. Qed.

Lemma gspec_ret {A} (a : A) s (P : S -> A -> Prop) (E : S -> L -> Prop) :
  P s a -> gspec (mret a) s P E.
Proof. done. Qed.

Lemma gspec_goto {A} l s (P : S -> A -> Prop) (E : S -> L -> Prop) :
  E s l -> gspec (goto l) s P E.
Proof. done. Qed.

Lemma gspec_bind {A B} (m : G S L A) (f : A -> G S L B) s P E Q :
  gspec m s Q E -> (forall s' a, Q s' a -> gspec (f a) s' P E) -> gspec (m ≫= f) s P E.
Proof.
  unfold gspec, mbind, g_bind. destruct (m s) as [s' [a|l|]]; try done. intros HQ Hf. by apply Hf.
Qed.

Lemma gspec_mono {A} (m : G S L A) s (P P' : S -> A -> Prop) (E E' : S -> L -> Prop) :
  gspec m s P E -> (forall s a, P s a -> P' s a) -> (forall s l, E s l -> E' s l) ->
  gspec m s P' E'.
Proof. unfold gspec. destruct (m s) as [s' [a|l|]]; eauto. Qed.

Lemma gspec_when b l s (P : S -> () -> Prop) (E : S -> L -> Prop) :
  (b = true -> E s l) -> (b = false -> P s ()) -> gspec (gwhen b l) s P E.
Proof. destruct b; unfold gspec; simpl; auto. Qed.

Lemma gspec_catch {L' A} (m : G S L A) (h : L -> G S L' A) s P E (E' : S -> L' -> Prop) :
  gspec m s P E -> (forall s l, E s l -> gspec (h l) s P E') -> gspec (gcatch m h) s P E'.
Proof.
  unfold gspec, gcatch. destruct (m s) as [s' [a|l|]]; [done| |done]. intros HE Hh. by apply Hh.
Qed.
End Steps.

(** ** Frames

    A computation keeps [f] of its state and ends only normally, undefined, or at the
    labels [lab].  The lemmas are hints of [keeps]; [keeps_tac] walks through a body. *)
Definition keeps {S L B A} (f : S -> B) (lab : L -> Prop) (m : G S L A) : Prop := forall s,
  match m s with
  | (s', Normal _) => f s' = f s
  | (s', At l) => lab l /\ f s' = f s
  | (_, Undefined) => True
  end.

Section Keeps.
Context {S L B : Type} (f : S -> B) (lab : L -> Prop).

Lemma keeps_ret {A} (a : A) : keeps f lab (mret a).
Proof. done. Qed.
Lemma keeps_goto {A} l : lab l -> keeps f lab (goto (A := A) l).
Proof. done. Qed.
Lemma keeps_undefined {A} : keeps f lab (undefined (A := A)).
Proof. done. Qed.
Lemma keeps_get : keeps f lab gget.
Proof. done. Qed.
Lemma keeps_modify g : (forall s, f (g s) = f s) -> keeps f lab (gmodify g).
Proof. intros Hg s. apply Hg. Qed.
Lemma keeps_def {A} (o : option A) : keeps f lab (gdef o).
Proof. by destruct o. Qed.
Lemma keeps_some {A} l (o : option A) : lab l -> keeps f lab (gsome l o).
Proof. by destruct o. Qed.
Lemma keeps_when b l : lab l -> keeps f lab (gwhen b l).
Proof. by destruct b. Qed.
Lemma keeps_bind {A C} (m : G S L A) (k : A -> G S L C) :
  keeps f lab m -> (forall a, keeps f lab (k a)) -> keeps f lab (m ≫= k).
Proof.
  intros Hm Hk s. unfold mbind, g_bind. specialize (Hm s). destruct (m s) as [s' [a|l|]]; [|done|done].
  specialize (Hk a s'). destruct (k a s') as [s2 [c|l|]]; [congruence| |done]. destruct Hk. split; [done|congruence].
Qed.
Lemma keeps_catch {L' A} (lab' : L' -> Prop) (m : G S L' A) (h : L' -> G S L A) :
  keeps f lab' m -> (forall l, keeps f lab (h l)) -> keeps f lab (gcatch m h).
Proof.
  intros Hm Hh s. unfold gcatch. specialize (Hm s). destruct (m s) as [s' [a|l|]]; [done| |done].
  destruct Hm as [_ Hm]. specialize (Hh l s'). destruct (h l s') as [s2 [c|l2|]]; [congruence| |done].
  destruct Hh. split; [done|congruence].
Qed.
Lemma keeps_normal {A} (m : G S L A) s s' a : keeps f lab m -> m s = (s', Normal a) -> f s' = f s.
Proof. intros Hm E. specialize (Hm s). by rewrite E in Hm. Qed.
Lemma keeps_at {A} (m : G S L A) s s' l : keeps f lab m -> m s = (s', At l) -> lab l /\ f s' = f s.
Proof. intros Hm E. specialize (Hm s). by rewrite E in Hm. Qed.
End Keeps.

(** What holds where a computation ends, when it is not undefined. *)
Definition leaves {S L A} (m : G S L A) (s : S) (P : S -> A -> Prop) (E : S -> L -> Prop) : Prop :=
  match m s with (s', Normal a) => P s' a | (s', At l) => E s' l | (_, Undefined) => True end.

Section Leaves.
Context {S L : Type}.

Lemma leaves_bind {A B} (m : G S L A) (k : A -> G S L B) s P E (Q : S -> A -> Prop) :
  leaves m s Q E -> (forall s' a, Q s' a -> leaves (k a) s' P E) -> leaves (m ≫= k) s P E.
Proof. unfold leaves, mbind, g_bind. destruct (m s) as [s' [a|l|]]; [|done|done]. intros HQ Hk. by apply Hk. Qed.

Lemma leaves_mono {A} (m : G S L A) s (P P' : S -> A -> Prop) (E E' : S -> L -> Prop) :
  leaves m s P E -> (forall s a, P s a -> P' s a) -> (forall s l, E s l -> E' s l) -> leaves m s P' E'.
Proof. unfold leaves. destruct (m s) as [s' [a|l|]]; eauto. Qed.

Lemma leaves_keeps {A B} (f : S -> B) (lab : L -> Prop) (m : G S L A) s :
  keeps f lab m -> leaves m s (fun s' _ => f s' = f s) (fun s' l => lab l /\ f s' = f s).
Proof. intros Hm. unfold leaves. specialize (Hm s). by destruct (m s) as [s' [a|l|]]. Qed.
End Leaves.

Create HintDb keeps discriminated.
#[export] Hint Constants Opaque : keeps.
#[export] Hint Resolve keeps_ret keeps_get keeps_def keeps_undefined : keeps.

(** One step through the body of a function. *)
Ltac keeps_step :=
  lazymatch goal with
  | |- keeps _ _ (mbind _ _) => apply keeps_bind; [|intros]
  | |- keeps _ _ (gcatch _ _) => apply keeps_catch with (lab' := fun _ => True); [|intros]
  | |- keeps _ _ (goto _) => apply keeps_goto; first [exact I | reflexivity]
  | |- keeps _ _ (gsome _ _) => apply keeps_some; first [exact I | reflexivity]
  | |- keeps _ _ (gwhen _ _) => apply keeps_when; first [exact I | reflexivity]
  | |- keeps _ _ (gmodify _) => first [apply keeps_modify; intros; reflexivity | solve [eauto 3 with keeps]]
  | |- keeps _ _ (let '(_, _) := ?x in _) => destruct x
  | |- keeps _ _ (if ?b then _ else _) => destruct b
  | |- keeps _ _ (match ?x with _ => _ end) => destruct x
  | |- keeps _ _ _ => solve [eauto 3 with keeps]
  end.
Ltac keeps_tac := intros; cbn zeta; repeat (keeps_step; cbn zeta).
Ltac unfold_tac f := intros; unfold f; keeps_tac.

Create Rewrite HintDb goto.
#[export] Hint Rewrite @gbind_ret @gbind_goto @gbind_modify @gbind_get @gbind_when @gbind_assoc : goto.
