(* ===== verification/Hiredis.v ===== *)
(** * hiredis: the data this library shares with it

    hiredis is a separate library; its reply values and its error numbers are
    part of its documented interface (hiredis.h), and the code of src/ only builds
    and inspects them.  The functions of hiredis are parameters of the models that
    call them. *)
From S2P Require Import Prelude.

#[local] Set Warnings "-register-all".

(** [redisReply] by its [type]. *)
Inductive redisReply :=
  | REDIS_REPLY_STRING (s : bytes)
  | REDIS_REPLY_ARRAY (element : list redisReply)
  | REDIS_REPLY_INTEGER (i : Z)
  | REDIS_REPLY_NIL
  | REDIS_REPLY_STATUS (s : bytes)
  | REDIS_REPLY_ERROR (s : bytes)
  | REDIS_REPLY_OTHER (type : Z) (element : list redisReply).

Definition REDIS_ERR_IO : Z := 1.
Definition REDIS_ERR_OTHER : Z := 2.
Definition REDIS_ERR_EOF : Z := 3.
Definition REDIS_ERR_PROTOCOL : Z := 4.
Definition REDIS_ERR_OOM : Z := 5.
Definition REDIS_ERR_TIMEOUT : Z := 6.

(** The size of [errstr] in a context: [char errstr[128]]. *)
Definition ERRSTR_SIZE : nat := 128.

(** The wire format of a command, as [redisFormatCommand] documents it and the
    server expects it. *)
Definition CRLF : bytes := ["013"%byte; "010"%byte].
Definition fmt_bulk (arg : bytes) : bytes :=
  str "$" ++ dec (Z.of_nat (length arg)) ++ CRLF ++ arg ++ CRLF.
Definition fmt_cmd (argv : list bytes) : bytes :=
  str "*" ++ dec (Z.of_nat (length argv)) ++ CRLF ++ concat (fmt_bulk <$> argv).
