(* ===== verification/Cmddef.v ===== *)
(** * cmddef.h: the command table

    The enum of command types and the table of command definitions, one entry for
    each COMMAND line of cmddef.h, in its order.  The table is in three parts of
    125 or 126 lines. *)
From S2P Require Import Prelude.

(** [cmd_type]: the request commands of cmddef.h between [CMD_UNKNOWN] and the
    response types. *)
Inductive cmd_type :=
  | CMD_UNKNOWN
  | CMD_REQ_REDIS_ACL_CAT
  | CMD_REQ_REDIS_ACL_DELUSER
  | CMD_REQ_REDIS_ACL_DRYRUN
  | CMD_REQ_REDIS_ACL_GENPASS
  | CMD_REQ_REDIS_ACL_GETUSER
  | CMD_REQ_REDIS_ACL_HELP
  | CMD_REQ_REDIS_ACL_LIST
  | CMD_REQ_REDIS_ACL_LOAD
  | CMD_REQ_REDIS_ACL_LOG
  | CMD_REQ_REDIS_ACL_SAVE
  | CMD_REQ_REDIS_ACL_SETUSER
  | CMD_REQ_REDIS_ACL_USERS
  | CMD_REQ_REDIS_ACL_WHOAMI
  | CMD_REQ_REDIS_APPEND
  | CMD_REQ_REDIS_ASKING
  | CMD_REQ_REDIS_AUTH
  | CMD_REQ_REDIS_BGREWRITEAOF
  | CMD_REQ_REDIS_BGSAVE
  | CMD_REQ_REDIS_BITCOUNT
  | CMD_REQ_REDIS_BITFIELD
  | CMD_REQ_REDIS_BITFIELD_RO
  | CMD_REQ_REDIS_BITOP
  | CMD_REQ_REDIS_BITPOS
  | CMD_REQ_REDIS_BLMOVE
  | CMD_REQ_REDIS_BLMPOP
  | CMD_REQ_REDIS_BLPOP
  | CMD_REQ_REDIS_BRPOP
  | CMD_REQ_REDIS_BRPOPLPUSH
  | CMD_REQ_REDIS_BZMPOP
  | CMD_REQ_REDIS_BZPOPMAX
  | CMD_REQ_REDIS_BZPOPMIN
  | CMD_REQ_REDIS_CLIENT_CACHING
  | CMD_REQ_REDIS_CLIENT_GETNAME
  | CMD_REQ_REDIS_CLIENT_GETREDIR
  | CMD_REQ_REDIS_CLIENT_HELP
  | CMD_REQ_REDIS_CLIENT_ID
  | CMD_REQ_REDIS_CLIENT_INFO
  | CMD_REQ_REDIS_CLIENT_KILL
  | CMD_REQ_REDIS_CLIENT_LIST
  | CMD_REQ_REDIS_CLIENT_NO_EVICT
  | CMD_REQ_REDIS_CLIENT_NO_TOUCH
  | CMD_REQ_REDIS_CLIENT_PAUSE
  | CMD_REQ_REDIS_CLIENT_REPLY
  | CMD_REQ_REDIS_CLIENT_SETINFO
  | CMD_REQ_REDIS_CLIENT_SETNAME
  | CMD_REQ_REDIS_CLIENT_TRACKING
  | CMD_REQ_REDIS_CLIENT_TRACKINGINFO
  | CMD_REQ_REDIS_CLIENT_UNBLOCK
  | CMD_REQ_REDIS_CLIENT_UNPAUSE
  | CMD_REQ_REDIS_CLUSTER_ADDSLOTS
  | CMD_REQ_REDIS_CLUSTER_ADDSLOTSRANGE
  | CMD_REQ_REDIS_CLUSTER_BUMPEPOCH
  | CMD_REQ_REDIS_CLUSTER_COUNT_FAILURE_REPORTS
  | CMD_REQ_REDIS_CLUSTER_COUNTKEYSINSLOT
  | CMD_REQ_REDIS_CLUSTER_DELSLOTS
  | CMD_REQ_REDIS_CLUSTER_DELSLOTSRANGE
  | CMD_REQ_REDIS_CLUSTER_FAILOVER
  | CMD_REQ_REDIS_CLUSTER_FLUSHSLOTS
  | CMD_REQ_REDIS_CLUSTER_FORGET
  | CMD_REQ_REDIS_CLUSTER_GETKEYSINSLOT
  | CMD_REQ_REDIS_CLUSTER_HELP
  | CMD_REQ_REDIS_CLUSTER_INFO
  | CMD_REQ_REDIS_CLUSTER_KEYSLOT
  | CMD_REQ_REDIS_CLUSTER_LINKS
  | CMD_REQ_REDIS_CLUSTER_MEET
  | CMD_REQ_REDIS_CLUSTER_MYID
  | CMD_REQ_REDIS_CLUSTER_MYSHARDID
  | CMD_REQ_REDIS_CLUSTER_NODES
  | CMD_REQ_REDIS_CLUSTER_REPLICAS
  | CMD_REQ_REDIS_CLUSTER_REPLICATE
  | CMD_REQ_REDIS_CLUSTER_RESET
  | CMD_REQ_REDIS_CLUSTER_SAVECONFIG
  | CMD_REQ_REDIS_CLUSTER_SET_CONFIG_EPOCH
  | CMD_REQ_REDIS_CLUSTER_SETSLOT
  | CMD_REQ_REDIS_CLUSTER_SHARDS
  | CMD_REQ_REDIS_CLUSTER_SLAVES
  | CMD_REQ_REDIS_CLUSTER_SLOTS
  | CMD_REQ_REDIS_COMMAND_COUNT
  | CMD_REQ_REDIS_COMMAND_DOCS
  | CMD_REQ_REDIS_COMMAND_GETKEYS
  | CMD_REQ_REDIS_COMMAND_GETKEYSANDFLAGS
  | CMD_REQ_REDIS_COMMAND_HELP
  | CMD_REQ_REDIS_COMMAND_INFO
  | CMD_REQ_REDIS_COMMAND_LIST
  | CMD_REQ_REDIS_CONFIG_GET
  | CMD_REQ_REDIS_CONFIG_HELP
  | CMD_REQ_REDIS_CONFIG_RESETSTAT
  | CMD_REQ_REDIS_CONFIG_REWRITE
  | CMD_REQ_REDIS_CONFIG_SET
  | CMD_REQ_REDIS_COPY
  | CMD_REQ_REDIS_DBSIZE
  | CMD_REQ_REDIS_DEBUG
  | CMD_REQ_REDIS_DECR
  | CMD_REQ_REDIS_DECRBY
  | CMD_REQ_REDIS_DEL
  | CMD_REQ_REDIS_DISCARD
  | CMD_REQ_REDIS_DUMP
  | CMD_REQ_REDIS_ECHO
  | CMD_REQ_REDIS_EVAL
  | CMD_REQ_REDIS_EVALSHA
  | CMD_REQ_REDIS_EVALSHA_RO
  | CMD_REQ_REDIS_EVAL_RO
  | CMD_REQ_REDIS_EXEC
  | CMD_REQ_REDIS_EXISTS
  | CMD_REQ_REDIS_EXPIRE
  | CMD_REQ_REDIS_EXPIREAT
  | CMD_REQ_REDIS_EXPIRETIME
  | CMD_REQ_REDIS_FAILOVER
  | CMD_REQ_REDIS_FCALL
  | CMD_REQ_REDIS_FCALL_RO
  | CMD_REQ_REDIS_FLUSHALL
  | CMD_REQ_REDIS_FLUSHDB
  | CMD_REQ_REDIS_FUNCTION_DELETE
  | CMD_REQ_REDIS_FUNCTION_DUMP
  | CMD_REQ_REDIS_FUNCTION_FLUSH
  | CMD_REQ_REDIS_FUNCTION_HELP
  | CMD_REQ_REDIS_FUNCTION_KILL
  | CMD_REQ_REDIS_FUNCTION_LIST
  | CMD_REQ_REDIS_FUNCTION_LOAD
  | CMD_REQ_REDIS_FUNCTION_RESTORE
  | CMD_REQ_REDIS_FUNCTION_STATS
  | CMD_REQ_REDIS_GEOADD
  | CMD_REQ_REDIS_GEODIST
  | CMD_REQ_REDIS_GEOHASH
  | CMD_REQ_REDIS_GEOPOS
  | CMD_REQ_REDIS_GEORADIUS
  | CMD_REQ_REDIS_GEORADIUSBYMEMBER
  | CMD_REQ_REDIS_GEORADIUSBYMEMBER_RO
  | CMD_REQ_REDIS_GEORADIUS_RO
  | CMD_REQ_REDIS_GEOSEARCH
  | CMD_REQ_REDIS_GEOSEARCHSTORE
  | CMD_REQ_REDIS_GET
  | CMD_REQ_REDIS_GETBIT
  | CMD_REQ_REDIS_GETDEL
  | CMD_REQ_REDIS_GETEX
  | CMD_REQ_REDIS_GETRANGE
  | CMD_REQ_REDIS_GETSET
  | CMD_REQ_REDIS_HDEL
  | CMD_REQ_REDIS_HELLO
  | CMD_REQ_REDIS_HEXISTS
  | CMD_REQ_REDIS_HGET
  | CMD_REQ_REDIS_HGETALL
  | CMD_REQ_REDIS_HINCRBY
  | CMD_REQ_REDIS_HINCRBYFLOAT
  | CMD_REQ_REDIS_HKEYS
  | CMD_REQ_REDIS_HLEN
  | CMD_REQ_REDIS_HMGET
  | CMD_REQ_REDIS_HMSET
  | CMD_REQ_REDIS_HRANDFIELD
  | CMD_REQ_REDIS_HSCAN
  | CMD_REQ_REDIS_HSET
  | CMD_REQ_REDIS_HSETNX
  | CMD_REQ_REDIS_HSTRLEN
  | CMD_REQ_REDIS_HVALS
  | CMD_REQ_REDIS_INCR
  | CMD_REQ_REDIS_INCRBY
  | CMD_REQ_REDIS_INCRBYFLOAT
  | CMD_REQ_REDIS_INFO
  | CMD_REQ_REDIS_KEYS
  | CMD_REQ_REDIS_LASTSAVE
  | CMD_REQ_REDIS_LATENCY_DOCTOR
  | CMD_REQ_REDIS_LATENCY_GRAPH
  | CMD_REQ_REDIS_LATENCY_HELP
  | CMD_REQ_REDIS_LATENCY_HISTOGRAM
  | CMD_REQ_REDIS_LATENCY_HISTORY
  | CMD_REQ_REDIS_LATENCY_LATEST
  | CMD_REQ_REDIS_LATENCY_RESET
  | CMD_REQ_REDIS_LCS
  | CMD_REQ_REDIS_LINDEX
  | CMD_REQ_REDIS_LINSERT
  | CMD_REQ_REDIS_LLEN
  | CMD_REQ_REDIS_LMOVE
  | CMD_REQ_REDIS_LMPOP
  | CMD_REQ_REDIS_LOLWUT
  | CMD_REQ_REDIS_LPOP
  | CMD_REQ_REDIS_LPOS
  | CMD_REQ_REDIS_LPUSH
  | CMD_REQ_REDIS_LPUSHX
  | CMD_REQ_REDIS_LRANGE
  | CMD_REQ_REDIS_LREM
  | CMD_REQ_REDIS_LSET
  | CMD_REQ_REDIS_LTRIM
  | CMD_REQ_REDIS_MEMORY_DOCTOR
  | CMD_REQ_REDIS_MEMORY_HELP
  | CMD_REQ_REDIS_MEMORY_MALLOC_STATS
  | CMD_REQ_REDIS_MEMORY_PURGE
  | CMD_REQ_REDIS_MEMORY_STATS
  | CMD_REQ_REDIS_MEMORY_USAGE
  | CMD_REQ_REDIS_MGET
  | CMD_REQ_REDIS_MIGRATE
  | CMD_REQ_REDIS_MODULE_HELP
  | CMD_REQ_REDIS_MODULE_LIST
  | CMD_REQ_REDIS_MODULE_LOAD
  | CMD_REQ_REDIS_MODULE_LOADEX
  | CMD_REQ_REDIS_MODULE_UNLOAD
  | CMD_REQ_REDIS_MONITOR
  | CMD_REQ_REDIS_MOVE
  | CMD_REQ_REDIS_MSET
  | CMD_REQ_REDIS_MSETNX
  | CMD_REQ_REDIS_MULTI
  | CMD_REQ_REDIS_OBJECT_ENCODING
  | CMD_REQ_REDIS_OBJECT_FREQ
  | CMD_REQ_REDIS_OBJECT_HELP
  | CMD_REQ_REDIS_OBJECT_IDLETIME
  | CMD_REQ_REDIS_OBJECT_REFCOUNT
  | CMD_REQ_REDIS_PERSIST
  | CMD_REQ_REDIS_PEXPIRE
  | CMD_REQ_REDIS_PEXPIREAT
  | CMD_REQ_REDIS_PEXPIRETIME
  | CMD_REQ_REDIS_PFADD
  | CMD_REQ_REDIS_PFCOUNT
  | CMD_REQ_REDIS_PFDEBUG
  | CMD_REQ_REDIS_PFMERGE
  | CMD_REQ_REDIS_PFSELFTEST
  | CMD_REQ_REDIS_PING
  | CMD_REQ_REDIS_PSETEX
  | CMD_REQ_REDIS_PSUBSCRIBE
  | CMD_REQ_REDIS_PSYNC
  | CMD_REQ_REDIS_PTTL
  | CMD_REQ_REDIS_PUBLISH
  | CMD_REQ_REDIS_PUBSUB_CHANNELS
  | CMD_REQ_REDIS_PUBSUB_HELP
  | CMD_REQ_REDIS_PUBSUB_NUMPAT
  | CMD_REQ_REDIS_PUBSUB_NUMSUB
  | CMD_REQ_REDIS_PUBSUB_SHARDCHANNELS
  | CMD_REQ_REDIS_PUBSUB_SHARDNUMSUB
  | CMD_REQ_REDIS_PUNSUBSCRIBE
  | CMD_REQ_REDIS_QUIT
  | CMD_REQ_REDIS_RANDOMKEY
  | CMD_REQ_REDIS_READONLY
  | CMD_REQ_REDIS_READWRITE
  | CMD_REQ_REDIS_RENAME
  | CMD_REQ_REDIS_RENAMENX
  | CMD_REQ_REDIS_REPLCONF
  | CMD_REQ_REDIS_REPLICAOF
  | CMD_REQ_REDIS_RESET
  | CMD_REQ_REDIS_RESTORE
  | CMD_REQ_REDIS_RESTORE_ASKING
  | CMD_REQ_REDIS_ROLE
  | CMD_REQ_REDIS_RPOP
  | CMD_REQ_REDIS_RPOPLPUSH
  | CMD_REQ_REDIS_RPUSH
  | CMD_REQ_REDIS_RPUSHX
  | CMD_REQ_REDIS_SADD
  | CMD_REQ_REDIS_SAVE
  | CMD_REQ_REDIS_SCAN
  | CMD_REQ_REDIS_SCARD
  | CMD_REQ_REDIS_SCRIPT_DEBUG
  | CMD_REQ_REDIS_SCRIPT_EXISTS
  | CMD_REQ_REDIS_SCRIPT_FLUSH
  | CMD_REQ_REDIS_SCRIPT_HELP
  | CMD_REQ_REDIS_SCRIPT_KILL
  | CMD_REQ_REDIS_SCRIPT_LOAD
  | CMD_REQ_REDIS_SDIFF
  | CMD_REQ_REDIS_SDIFFSTORE
  | CMD_REQ_REDIS_SELECT
  | CMD_REQ_REDIS_SENTINEL_CKQUORUM
  | CMD_REQ_REDIS_SENTINEL_CONFIG
  | CMD_REQ_REDIS_SENTINEL_DEBUG
  | CMD_REQ_REDIS_SENTINEL_FAILOVER
  | CMD_REQ_REDIS_SENTINEL_FLUSHCONFIG
  | CMD_REQ_REDIS_SENTINEL_GET_MASTER_ADDR_BY_NAME
  | CMD_REQ_REDIS_SENTINEL_HELP
  | CMD_REQ_REDIS_SENTINEL_INFO_CACHE
  | CMD_REQ_REDIS_SENTINEL_IS_MASTER_DOWN_BY_ADDR
  | CMD_REQ_REDIS_SENTINEL_MASTER
  | CMD_REQ_REDIS_SENTINEL_MASTERS
  | CMD_REQ_REDIS_SENTINEL_MONITOR
  | CMD_REQ_REDIS_SENTINEL_MYID
  | CMD_REQ_REDIS_SENTINEL_PENDING_SCRIPTS
  | CMD_REQ_REDIS_SENTINEL_REMOVE
  | CMD_REQ_REDIS_SENTINEL_REPLICAS
  | CMD_REQ_REDIS_SENTINEL_RESET
  | CMD_REQ_REDIS_SENTINEL_SENTINELS
  | CMD_REQ_REDIS_SENTINEL_SET
  | CMD_REQ_REDIS_SENTINEL_SIMULATE_FAILURE
  | CMD_REQ_REDIS_SENTINEL_SLAVES
  | CMD_REQ_REDIS_SET
  | CMD_REQ_REDIS_SETBIT
  | CMD_REQ_REDIS_SETEX
  | CMD_REQ_REDIS_SETNX
  | CMD_REQ_REDIS_SETRANGE
  | CMD_REQ_REDIS_SHUTDOWN
  | CMD_REQ_REDIS_SINTER
  | CMD_REQ_REDIS_SINTERCARD
  | CMD_REQ_REDIS_SINTERSTORE
  | CMD_REQ_REDIS_SISMEMBER
  | CMD_REQ_REDIS_SLAVEOF
  | CMD_REQ_REDIS_SLOWLOG_GET
  | CMD_REQ_REDIS_SLOWLOG_HELP
  | CMD_REQ_REDIS_SLOWLOG_LEN
  | CMD_REQ_REDIS_SLOWLOG_RESET
  | CMD_REQ_REDIS_SMEMBERS
  | CMD_REQ_REDIS_SMISMEMBER
  | CMD_REQ_REDIS_SMOVE
  | CMD_REQ_REDIS_SORT
  | CMD_REQ_REDIS_SORT_RO
  | CMD_REQ_REDIS_SPOP
  | CMD_REQ_REDIS_SPUBLISH
  | CMD_REQ_REDIS_SRANDMEMBER
  | CMD_REQ_REDIS_SREM
  | CMD_REQ_REDIS_SSCAN
  | CMD_REQ_REDIS_SSUBSCRIBE
  | CMD_REQ_REDIS_STRLEN
  | CMD_REQ_REDIS_SUBSCRIBE
  | CMD_REQ_REDIS_SUBSTR
  | CMD_REQ_REDIS_SUNION
  | CMD_REQ_REDIS_SUNIONSTORE
  | CMD_REQ_REDIS_SUNSUBSCRIBE
  | CMD_REQ_REDIS_SWAPDB
  | CMD_REQ_REDIS_SYNC
  | CMD_REQ_REDIS_TIME
  | CMD_REQ_REDIS_TOUCH
  | CMD_REQ_REDIS_TTL
  | CMD_REQ_REDIS_TYPE
  | CMD_REQ_REDIS_UNLINK
  | CMD_REQ_REDIS_UNSUBSCRIBE
  | CMD_REQ_REDIS_UNWATCH
  | CMD_REQ_REDIS_WAIT
  | CMD_REQ_REDIS_WAITAOF
  | CMD_REQ_REDIS_WATCH
  | CMD_REQ_REDIS_XACK
  | CMD_REQ_REDIS_XADD
  | CMD_REQ_REDIS_XAUTOCLAIM
  | CMD_REQ_REDIS_XCLAIM
  | CMD_REQ_REDIS_XDEL
  | CMD_REQ_REDIS_XGROUP_CREATE
  | CMD_REQ_REDIS_XGROUP_CREATECONSUMER
  | CMD_REQ_REDIS_XGROUP_DELCONSUMER
  | CMD_REQ_REDIS_XGROUP_DESTROY
  | CMD_REQ_REDIS_XGROUP_HELP
  | CMD_REQ_REDIS_XGROUP_SETID
  | CMD_REQ_REDIS_XINFO_CONSUMERS
  | CMD_REQ_REDIS_XINFO_GROUPS
  | CMD_REQ_REDIS_XINFO_HELP
  | CMD_REQ_REDIS_XINFO_STREAM
  | CMD_REQ_REDIS_XLEN
  | CMD_REQ_REDIS_XPENDING
  | CMD_REQ_REDIS_XRANGE
  | CMD_REQ_REDIS_XREAD
  | CMD_REQ_REDIS_XREADGROUP
  | CMD_REQ_REDIS_XREVRANGE
  | CMD_REQ_REDIS_XSETID
  | CMD_REQ_REDIS_XTRIM
  | CMD_REQ_REDIS_ZADD
  | CMD_REQ_REDIS_ZCARD
  | CMD_REQ_REDIS_ZCOUNT
  | CMD_REQ_REDIS_ZDIFF
  | CMD_REQ_REDIS_ZDIFFSTORE
  | CMD_REQ_REDIS_ZINCRBY
  | CMD_REQ_REDIS_ZINTER
  | CMD_REQ_REDIS_ZINTERCARD
  | CMD_REQ_REDIS_ZINTERSTORE
  | CMD_REQ_REDIS_ZLEXCOUNT
  | CMD_REQ_REDIS_ZMPOP
  | CMD_REQ_REDIS_ZMSCORE
  | CMD_REQ_REDIS_ZPOPMAX
  | CMD_REQ_REDIS_ZPOPMIN
  | CMD_REQ_REDIS_ZRANDMEMBER
  | CMD_REQ_REDIS_ZRANGE
  | CMD_REQ_REDIS_ZRANGEBYLEX
  | CMD_REQ_REDIS_ZRANGEBYSCORE
  | CMD_REQ_REDIS_ZRANGESTORE
  | CMD_REQ_REDIS_ZRANK
  | CMD_REQ_REDIS_ZREM
  | CMD_REQ_REDIS_ZREMRANGEBYLEX
  | CMD_REQ_REDIS_ZREMRANGEBYRANK
  | CMD_REQ_REDIS_ZREMRANGEBYSCORE
  | CMD_REQ_REDIS_ZREVRANGE
  | CMD_REQ_REDIS_ZREVRANGEBYLEX
  | CMD_REQ_REDIS_ZREVRANGEBYSCORE
  | CMD_REQ_REDIS_ZREVRANK
  | CMD_REQ_REDIS_ZSCAN
  | CMD_REQ_REDIS_ZSCORE
  | CMD_REQ_REDIS_ZUNION
  | CMD_REQ_REDIS_ZUNIONSTORE
  | CMD_RSP_REDIS_STATUS
  | CMD_RSP_REDIS_ERROR
  | CMD_RSP_REDIS_INTEGER
  | CMD_RSP_REDIS_BULK
  | CMD_RSP_REDIS_MULTIBULK
  | CMD_SENTINEL.

Inductive cmd_keypos := KEYPOS_NONE | KEYPOS_UNKNOWN | KEYPOS_INDEX | KEYPOS_KEYNUM.

Record cmddef := mkCmddef {
  cd_type : cmd_type;
  cd_name : bytes;
  cd_subname : option bytes;
  firstkeymethod : cmd_keypos;
  firstkeypos : Z;   (* int8_t *)
  cd_arity : Z       (* int8_t *)
}.

(** The arguments of the COMMAND macro, in its order. *)
Definition COMMAND (type : cmd_type) (name : string) (subname : option string) (arity : Z)
    (keymethod : cmd_keypos) (keypos : Z) : cmddef :=
  mkCmddef type (str name) (str <$> subname) keymethod keypos arity.

Definition redis_commands_1 : list cmddef := [
  COMMAND CMD_REQ_REDIS_ACL_CAT "ACL" (Some "CAT"%string) (-2) KEYPOS_NONE 0;
  COMMAND CMD_REQ_REDIS_ACL_DELUSER "ACL" (Some "DELUSER"%string) (-3) KEYPOS_NONE 0;
  COMMAND CMD_REQ_REDIS_ACL_DRYRUN "ACL" (Some "DRYRUN"%string) (-4) KEYPOS_NONE 0;
  COMMAND CMD_REQ_REDIS_ACL_GENPASS "ACL" (Some "GENPASS"%string) (-2) KEYPOS_NONE 0;
  COMMAND CMD_REQ_REDIS_ACL_GETUSER "ACL" (Some "GETUSER"%string) 3 KEYPOS_NONE 0;
  COMMAND CMD_REQ_REDIS_ACL_HELP "ACL" (Some "HELP"%string) 2 KEYPOS_NONE 0;
  COMMAND CMD_REQ_REDIS_ACL_LIST "ACL" (Some "LIST"%string) 2 KEYPOS_NONE 0;
  COMMAND CMD_REQ_REDIS_ACL_LOAD "ACL" (Some "LOAD"%string) 2 KEYPOS_NONE 0;
  COMMAND CMD_REQ_REDIS_ACL_LOG "ACL" (Some "LOG"%string) (-2) KEYPOS_NONE 0;
  COMMAND CMD_REQ_REDIS_ACL_SAVE "ACL" (Some "SAVE"%string) 2 KEYPOS_NONE 0;
  COMMAND CMD_REQ_REDIS_ACL_SETUSER "ACL" (Some "SETUSER"%string) (-3) KEYPOS_NONE 0;
  COMMAND CMD_REQ_REDIS_ACL_USERS "ACL" (Some "USERS"%string) 2 KEYPOS_NONE 0;
  COMMAND CMD_REQ_REDIS_ACL_WHOAMI "ACL" (Some "WHOAMI"%string) 2 KEYPOS_NONE 0;
  COMMAND CMD_REQ_REDIS_APPEND "APPEND" None 3 KEYPOS_INDEX 1;
  COMMAND CMD_REQ_REDIS_ASKING "ASKING" None 1 KEYPOS_NONE 0;
  COMMAND CMD_REQ_REDIS_AUTH "AUTH" None (-2) KEYPOS_NONE 0;
  COMMAND CMD_REQ_REDIS_BGREWRITEAOF "BGREWRITEAOF" None 1 KEYPOS_NONE 0;
  COMMAND CMD_REQ_REDIS_BGSAVE "BGSAVE" None (-1) KEYPOS_NONE 0;
  COMMAND CMD_REQ_REDIS_BITCOUNT "BITCOUNT" None (-2) KEYPOS_INDEX 1;
  COMMAND CMD_REQ_REDIS_BITFIELD "BITFIELD" None (-2) KEYPOS_INDEX 1;
  COMMAND CMD_REQ_REDIS_BITFIELD_RO "BITFIELD_RO" None (-2) KEYPOS_INDEX 1;
  COMMAND CMD_REQ_REDIS_BITOP "BITOP" None (-4) KEYPOS_INDEX 2;
  COMMAND CMD_REQ_REDIS_BITPOS "BITPOS" None (-3) KEYPOS_INDEX 1;
  COMMAND CMD_REQ_REDIS_BLMOVE "BLMOVE" None 6 KEYPOS_INDEX 1;
  COMMAND CMD_REQ_REDIS_BLMPOP "BLMPOP" None (-5) KEYPOS_KEYNUM 2;
  COMMAND CMD_REQ_REDIS_BLPOP "BLPOP" None (-3) KEYPOS_INDEX 1;
  COMMAND CMD_REQ_REDIS_BRPOP "BRPOP" None (-3) KEYPOS_INDEX 1;
  COMMAND CMD_REQ_REDIS_BRPOPLPUSH "BRPOPLPUSH" None 4 KEYPOS_INDEX 1;
  COMMAND CMD_REQ_REDIS_BZMPOP "BZMPOP" None (-5) KEYPOS_KEYNUM 2;
  COMMAND CMD_REQ_REDIS_BZPOPMAX "BZPOPMAX" None (-3) KEYPOS_INDEX 1;
  COMMAND CMD_REQ_REDIS_BZPOPMIN "BZPOPMIN" None (-3) KEYPOS_INDEX 1;
  COMMAND CMD_REQ_REDIS_CLIENT_CACHING "CLIENT" (Some "CACHING"%string) 3 KEYPOS_NONE 0;
  COMMAND CMD_REQ_REDIS_CLIENT_GETNAME "CLIENT" (Some "GETNAME"%string) 2 KEYPOS_NONE 0;
  COMMAND CMD_REQ_REDIS_CLIENT_GETREDIR "CLIENT" (Some "GETREDIR"%string) 2 KEYPOS_NONE 0;
  COMMAND CMD_REQ_REDIS_CLIENT_HELP "CLIENT" (Some "HELP"%string) 2 KEYPOS_NONE 0;
  COMMAND CMD_REQ_REDIS_CLIENT_ID "CLIENT" (Some "ID"%string) 2 KEYPOS_NONE 0;
  COMMAND CMD_REQ_REDIS_CLIENT_INFO "CLIENT" (Some "INFO"%string) 2 KEYPOS_NONE 0;
  COMMAND CMD_REQ_REDIS_CLIENT_KILL "CLIENT" (Some "KILL"%string) (-3) KEYPOS_NONE 0;
  COMMAND CMD_REQ_REDIS_CLIENT_LIST "CLIENT" (Some "LIST"%string) (-2) KEYPOS_NONE 0;
  COMMAND CMD_REQ_REDIS_CLIENT_NO_EVICT "CLIENT" (Some "NO-EVICT"%string) 3 KEYPOS_NONE 0;
  COMMAND CMD_REQ_REDIS_CLIENT_NO_TOUCH "CLIENT" (Some "NO-TOUCH"%string) 3 KEYPOS_NONE 0;
  COMMAND CMD_REQ_REDIS_CLIENT_PAUSE "CLIENT" (Some "PAUSE"%string) (-3) KEYPOS_NONE 0;
  COMMAND CMD_REQ_REDIS_CLIENT_REPLY "CLIENT" (Some "REPLY"%string) 3 KEYPOS_NONE 0;
  COMMAND CMD_REQ_REDIS_CLIENT_SETINFO "CLIENT" (Some "SETINFO"%string) 4 KEYPOS_NONE 0;
  COMMAND CMD_REQ_REDIS_CLIENT_SETNAME "CLIENT" (Some "SETNAME"%string) 3 KEYPOS_NONE 0;
  COMMAND CMD_REQ_REDIS_CLIENT_TRACKING "CLIENT" (Some "TRACKING"%string) (-3) KEYPOS_NONE 0;
  COMMAND CMD_REQ_REDIS_CLIENT_TRACKINGINFO "CLIENT" (Some "TRACKINGINFO"%string) 2 KEYPOS_NONE 0;
  COMMAND CMD_REQ_REDIS_CLIENT_UNBLOCK "CLIENT" (Some "UNBLOCK"%string) (-3) KEYPOS_NONE 0;
  COMMAND CMD_REQ_REDIS_CLIENT_UNPAUSE "CLIENT" (Some "UNPAUSE"%string) 2 KEYPOS_NONE 0;
  COMMAND CMD_REQ_REDIS_CLUSTER_ADDSLOTS "CLUSTER" (Some "ADDSLOTS"%string) (-3) KEYPOS_NONE 0;
  COMMAND CMD_REQ_REDIS_CLUSTER_ADDSLOTSRANGE "CLUSTER" (Some "ADDSLOTSRANGE"%string) (-4) KEYPOS_NONE 0;
  COMMAND CMD_REQ_REDIS_CLUSTER_BUMPEPOCH "CLUSTER" (Some "BUMPEPOCH"%string) 2 KEYPOS_NONE 0;
  COMMAND CMD_REQ_REDIS_CLUSTER_COUNT_FAILURE_REPORTS "CLUSTER" (Some "COUNT-FAILURE-REPORTS"%string) 3 KEYPOS_NONE 0;
  COMMAND CMD_REQ_REDIS_CLUSTER_COUNTKEYSINSLOT "CLUSTER" (Some "COUNTKEYSINSLOT"%string) 3 KEYPOS_NONE 0;
  COMMAND CMD_REQ_REDIS_CLUSTER_DELSLOTS "CLUSTER" (Some "DELSLOTS"%string) (-3) KEYPOS_NONE 0;
  COMMAND CMD_REQ_REDIS_CLUSTER_DELSLOTSRANGE "CLUSTER" (Some "DELSLOTSRANGE"%string) (-4) KEYPOS_NONE 0;
  COMMAND CMD_REQ_REDIS_CLUSTER_FAILOVER "CLUSTER" (Some "FAILOVER"%string) (-2) KEYPOS_NONE 0;
  COMMAND CMD_REQ_REDIS_CLUSTER_FLUSHSLOTS "CLUSTER" (Some "FLUSHSLOTS"%string) 2 KEYPOS_NONE 0;
  COMMAND CMD_REQ_REDIS_CLUSTER_FORGET "CLUSTER" (Some "FORGET"%string) 3 KEYPOS_NONE 0;
  COMMAND CMD_REQ_REDIS_CLUSTER_GETKEYSINSLOT "CLUSTER" (Some "GETKEYSINSLOT"%string) 4 KEYPOS_NONE 0;
  COMMAND CMD_REQ_REDIS_CLUSTER_HELP "CLUSTER" (Some "HELP"%string) 2 KEYPOS_NONE 0;
  COMMAND CMD_REQ_REDIS_CLUSTER_INFO "CLUSTER" (Some "INFO"%string) 2 KEYPOS_NONE 0;
  COMMAND CMD_REQ_REDIS_CLUSTER_KEYSLOT "CLUSTER" (Some "KEYSLOT"%string) 3 KEYPOS_NONE 0;
  COMMAND CMD_REQ_REDIS_CLUSTER_LINKS "CLUSTER" (Some "LINKS"%string) 2 KEYPOS_NONE 0;
  COMMAND CMD_REQ_REDIS_CLUSTER_MEET "CLUSTER" (Some "MEET"%string) (-4) KEYPOS_NONE 0;
  COMMAND CMD_REQ_REDIS_CLUSTER_MYID "CLUSTER" (Some "MYID"%string) 2 KEYPOS_NONE 0;
  COMMAND CMD_REQ_REDIS_CLUSTER_MYSHARDID "CLUSTER" (Some "MYSHARDID"%string) 2 KEYPOS_NONE 0;
  COMMAND CMD_REQ_REDIS_CLUSTER_NODES "CLUSTER" (Some "NODES"%string) 2 KEYPOS_NONE 0;
  COMMAND CMD_REQ_REDIS_CLUSTER_REPLICAS "CLUSTER" (Some "REPLICAS"%string) 3 KEYPOS_NONE 0;
  COMMAND CMD_REQ_REDIS_CLUSTER_REPLICATE "CLUSTER" (Some "REPLICATE"%string) 3 KEYPOS_NONE 0;
  COMMAND CMD_REQ_REDIS_CLUSTER_RESET "CLUSTER" (Some "RESET"%string) (-2) KEYPOS_NONE 0;
  COMMAND CMD_REQ_REDIS_CLUSTER_SAVECONFIG "CLUSTER" (Some "SAVECONFIG"%string) 2 KEYPOS_NONE 0;
  COMMAND CMD_REQ_REDIS_CLUSTER_SET_CONFIG_EPOCH "CLUSTER" (Some "SET-CONFIG-EPOCH"%string) 3 KEYPOS_NONE 0;
  COMMAND CMD_REQ_REDIS_CLUSTER_SETSLOT "CLUSTER" (Some "SETSLOT"%string) (-4) KEYPOS_NONE 0;
  COMMAND CMD_REQ_REDIS_CLUSTER_SHARDS "CLUSTER" (Some "SHARDS"%string) 2 KEYPOS_NONE 0;
  COMMAND CMD_REQ_REDIS_CLUSTER_SLAVES "CLUSTER" (Some "SLAVES"%string) 3 KEYPOS_NONE 0;
  COMMAND CMD_REQ_REDIS_CLUSTER_SLOTS "CLUSTER" (Some "SLOTS"%string) 2 KEYPOS_NONE 0;
  COMMAND CMD_REQ_REDIS_COMMAND_COUNT "COMMAND" (Some "COUNT"%string) 2 KEYPOS_NONE 0;
  COMMAND CMD_REQ_REDIS_COMMAND_DOCS "COMMAND" (Some "DOCS"%string) (-2) KEYPOS_NONE 0;
  COMMAND CMD_REQ_REDIS_COMMAND_GETKEYS "COMMAND" (Some "GETKEYS"%string) (-3) KEYPOS_NONE 0;
  COMMAND CMD_REQ_REDIS_COMMAND_GETKEYSANDFLAGS "COMMAND" (Some "GETKEYSANDFLAGS"%string) (-3) KEYPOS_NONE 0;
  COMMAND CMD_REQ_REDIS_COMMAND_HELP "COMMAND" (Some "HELP"%string) 2 KEYPOS_NONE 0;
  COMMAND CMD_REQ_REDIS_COMMAND_INFO "COMMAND" (Some "INFO"%string) (-2) KEYPOS_NONE 0;
  COMMAND CMD_REQ_REDIS_COMMAND_LIST "COMMAND" (Some "LIST"%string) (-2) KEYPOS_NONE 0;
  COMMAND CMD_REQ_REDIS_CONFIG_GET "CONFIG" (Some "GET"%string) (-3) KEYPOS_NONE 0;
  COMMAND CMD_REQ_REDIS_CONFIG_HELP "CONFIG" (Some "HELP"%string) 2 KEYPOS_NONE 0;
  COMMAND CMD_REQ_REDIS_CONFIG_RESETSTAT "CONFIG" (Some "RESETSTAT"%string) 2 KEYPOS_NONE 0;
  COMMAND CMD_REQ_REDIS_CONFIG_REWRITE "CONFIG" (Some "REWRITE"%string) 2 KEYPOS_NONE 0;
  COMMAND CMD_REQ_REDIS_CONFIG_SET "CONFIG" (Some "SET"%string) (-4) KEYPOS_NONE 0;
  COMMAND CMD_REQ_REDIS_COPY "COPY" None (-3) KEYPOS_INDEX 1;
  COMMAND CMD_REQ_REDIS_DBSIZE "DBSIZE" None 1 KEYPOS_NONE 0;
  COMMAND CMD_REQ_REDIS_DEBUG "DEBUG" None (-2) KEYPOS_NONE 0;
  COMMAND CMD_REQ_REDIS_DECR "DECR" None 2 KEYPOS_INDEX 1;
  COMMAND CMD_REQ_REDIS_DECRBY "DECRBY" None 3 KEYPOS_INDEX 1;
  COMMAND CMD_REQ_REDIS_DEL "DEL" None (-2) KEYPOS_INDEX 1;
  COMMAND CMD_REQ_REDIS_DISCARD "DISCARD" None 1 KEYPOS_NONE 0;
  COMMAND CMD_REQ_REDIS_DUMP "DUMP" None 2 KEYPOS_INDEX 1;
  COMMAND CMD_REQ_REDIS_ECHO "ECHO" None 2 KEYPOS_NONE 0;
  COMMAND CMD_REQ_REDIS_EVAL "EVAL" None (-3) KEYPOS_KEYNUM 2;
  COMMAND CMD_REQ_REDIS_EVALSHA "EVALSHA" None (-3) KEYPOS_KEYNUM 2;
  COMMAND CMD_REQ_REDIS_EVALSHA_RO "EVALSHA_RO" None (-3) KEYPOS_KEYNUM 2;
  COMMAND CMD_REQ_REDIS_EVAL_RO "EVAL_RO" None (-3) KEYPOS_KEYNUM 2;
  COMMAND CMD_REQ_REDIS_EXEC "EXEC" None 1 KEYPOS_NONE 0;
  COMMAND CMD_REQ_REDIS_EXISTS "EXISTS" None (-2) KEYPOS_INDEX 1;
  COMMAND CMD_REQ_REDIS_EXPIRE "EXPIRE" None (-3) KEYPOS_INDEX 1;
  COMMAND CMD_REQ_REDIS_EXPIREAT "EXPIREAT" None (-3) KEYPOS_INDEX 1;
  COMMAND CMD_REQ_REDIS_EXPIRETIME "EXPIRETIME" None 2 KEYPOS_INDEX 1;
  COMMAND CMD_REQ_REDIS_FAILOVER "FAILOVER" None (-1) KEYPOS_NONE 0;
  COMMAND CMD_REQ_REDIS_FCALL "FCALL" None (-3) KEYPOS_KEYNUM 2;
  COMMAND CMD_REQ_REDIS_FCALL_RO "FCALL_RO" None (-3) KEYPOS_KEYNUM 2;
  COMMAND CMD_REQ_REDIS_FLUSHALL "FLUSHALL" None (-1) KEYPOS_NONE 0;
  COMMAND CMD_REQ_REDIS_FLUSHDB "FLUSHDB" None (-1) KEYPOS_NONE 0;
  COMMAND CMD_REQ_REDIS_FUNCTION_DELETE "FUNCTION" (Some "DELETE"%string) 3 KEYPOS_NONE 0;
  COMMAND CMD_REQ_REDIS_FUNCTION_DUMP "FUNCTION" (Some "DUMP"%string) 2 KEYPOS_NONE 0;
  COMMAND CMD_REQ_REDIS_FUNCTION_FLUSH "FUNCTION" (Some "FLUSH"%string) (-2) KEYPOS_NONE 0;
  COMMAND CMD_REQ_REDIS_FUNCTION_HELP "FUNCTION" (Some "HELP"%string) 2 KEYPOS_NONE 0;
  COMMAND CMD_REQ_REDIS_FUNCTION_KILL "FUNCTION" (Some "KILL"%string) 2 KEYPOS_NONE 0;
  COMMAND CMD_REQ_REDIS_FUNCTION_LIST "FUNCTION" (Some "LIST"%string) (-2) KEYPOS_NONE 0;
  COMMAND CMD_REQ_REDIS_FUNCTION_LOAD "FUNCTION" (Some "LOAD"%string) (-3) KEYPOS_NONE 0;
  COMMAND CMD_REQ_REDIS_FUNCTION_RESTORE "FUNCTION" (Some "RESTORE"%string) (-3) KEYPOS_NONE 0;
  COMMAND CMD_REQ_REDIS_FUNCTION_STATS "FUNCTION" (Some "STATS"%string) 2 KEYPOS_NONE 0;
  COMMAND CMD_REQ_REDIS_GEOADD "GEOADD" None (-5) KEYPOS_INDEX 1;
  COMMAND CMD_REQ_REDIS_GEODIST "GEODIST" None (-4) KEYPOS_INDEX 1;
  COMMAND CMD_REQ_REDIS_GEOHASH "GEOHASH" None (-2) KEYPOS_INDEX 1;
  COMMAND CMD_REQ_REDIS_GEOPOS "GEOPOS" None (-2) KEYPOS_INDEX 1].

Definition redis_commands_2 : list cmddef := [
  COMMAND CMD_REQ_REDIS_GEORADIUS "GEORADIUS" None (-6) KEYPOS_INDEX 1;
  COMMAND CMD_REQ_REDIS_GEORADIUSBYMEMBER "GEORADIUSBYMEMBER" None (-5) KEYPOS_INDEX 1;
  COMMAND CMD_REQ_REDIS_GEORADIUSBYMEMBER_RO "GEORADIUSBYMEMBER_RO" None (-5) KEYPOS_INDEX 1;
  COMMAND CMD_REQ_REDIS_GEORADIUS_RO "GEORADIUS_RO" None (-6) KEYPOS_INDEX 1;
  COMMAND CMD_REQ_REDIS_GEOSEARCH "GEOSEARCH" None (-7) KEYPOS_INDEX 1;
  COMMAND CMD_REQ_REDIS_GEOSEARCHSTORE "GEOSEARCHSTORE" None (-8) KEYPOS_INDEX 1;
  COMMAND CMD_REQ_REDIS_GET "GET" None 2 KEYPOS_INDEX 1;
  COMMAND CMD_REQ_REDIS_GETBIT "GETBIT" None 3 KEYPOS_INDEX 1;
  COMMAND CMD_REQ_REDIS_GETDEL "GETDEL" None 2 KEYPOS_INDEX 1;
  COMMAND CMD_REQ_REDIS_GETEX "GETEX" None (-2) KEYPOS_INDEX 1;
  COMMAND CMD_REQ_REDIS_GETRANGE "GETRANGE" None 4 KEYPOS_INDEX 1;
  COMMAND CMD_REQ_REDIS_GETSET "GETSET" None 3 KEYPOS_INDEX 1;
  COMMAND CMD_REQ_REDIS_HDEL "HDEL" None (-3) KEYPOS_INDEX 1;
  COMMAND CMD_REQ_REDIS_HELLO "HELLO" None (-1) KEYPOS_NONE 0;
  COMMAND CMD_REQ_REDIS_HEXISTS "HEXISTS" None 3 KEYPOS_INDEX 1;
  COMMAND CMD_REQ_REDIS_HGET "HGET" None 3 KEYPOS_INDEX 1;
  COMMAND CMD_REQ_REDIS_HGETALL "HGETALL" None 2 KEYPOS_INDEX 1;
  COMMAND CMD_REQ_REDIS_HINCRBY "HINCRBY" None 4 KEYPOS_INDEX 1;
  COMMAND CMD_REQ_REDIS_HINCRBYFLOAT "HINCRBYFLOAT" None 4 KEYPOS_INDEX 1;
  COMMAND CMD_REQ_REDIS_HKEYS "HKEYS" None 2 KEYPOS_INDEX 1;
  COMMAND CMD_REQ_REDIS_HLEN "HLEN" None 2 KEYPOS_INDEX 1;
  COMMAND CMD_REQ_REDIS_HMGET "HMGET" None (-3) KEYPOS_INDEX 1;
  COMMAND CMD_REQ_REDIS_HMSET "HMSET" None (-4) KEYPOS_INDEX 1;
  COMMAND CMD_REQ_REDIS_HRANDFIELD "HRANDFIELD" None (-2) KEYPOS_INDEX 1;
  COMMAND CMD_REQ_REDIS_HSCAN "HSCAN" None (-3) KEYPOS_INDEX 1;
  COMMAND CMD_REQ_REDIS_HSET "HSET" None (-4) KEYPOS_INDEX 1;
  COMMAND CMD_REQ_REDIS_HSETNX "HSETNX" None 4 KEYPOS_INDEX 1;
  COMMAND CMD_REQ_REDIS_HSTRLEN "HSTRLEN" None 3 KEYPOS_INDEX 1;
  COMMAND CMD_REQ_REDIS_HVALS "HVALS" None 2 KEYPOS_INDEX 1;
  COMMAND CMD_REQ_REDIS_INCR "INCR" None 2 KEYPOS_INDEX 1;
  COMMAND CMD_REQ_REDIS_INCRBY "INCRBY" None 3 KEYPOS_INDEX 1;
  COMMAND CMD_REQ_REDIS_INCRBYFLOAT "INCRBYFLOAT" None 3 KEYPOS_INDEX 1;
  COMMAND CMD_REQ_REDIS_INFO "INFO" None (-1) KEYPOS_NONE 0;
  COMMAND CMD_REQ_REDIS_KEYS "KEYS" None 2 KEYPOS_NONE 0;
  COMMAND CMD_REQ_REDIS_LASTSAVE "LASTSAVE" None 1 KEYPOS_NONE 0;
  COMMAND CMD_REQ_REDIS_LATENCY_DOCTOR "LATENCY" (Some "DOCTOR"%string) 2 KEYPOS_NONE 0;
  COMMAND CMD_REQ_REDIS_LATENCY_GRAPH "LATENCY" (Some "GRAPH"%string) 3 KEYPOS_NONE 0;
  COMMAND CMD_REQ_REDIS_LATENCY_HELP "LATENCY" (Some "HELP"%string) 2 KEYPOS_NONE 0;
  COMMAND CMD_REQ_REDIS_LATENCY_HISTOGRAM "LATENCY" (Some "HISTOGRAM"%string) (-2) KEYPOS_NONE 0;
  COMMAND CMD_REQ_REDIS_LATENCY_HISTORY "LATENCY" (Some "HISTORY"%string) 3 KEYPOS_NONE 0;
  COMMAND CMD_REQ_REDIS_LATENCY_LATEST "LATENCY" (Some "LATEST"%string) 2 KEYPOS_NONE 0;
  COMMAND CMD_REQ_REDIS_LATENCY_RESET "LATENCY" (Some "RESET"%string) (-2) KEYPOS_NONE 0;
  COMMAND CMD_REQ_REDIS_LCS "LCS" None (-3) KEYPOS_INDEX 1;
  COMMAND CMD_REQ_REDIS_LINDEX "LINDEX" None 3 KEYPOS_INDEX 1;
  COMMAND CMD_REQ_REDIS_LINSERT "LINSERT" None 5 KEYPOS_INDEX 1;
  COMMAND CMD_REQ_REDIS_LLEN "LLEN" None 2 KEYPOS_INDEX 1;
  COMMAND CMD_REQ_REDIS_LMOVE "LMOVE" None 5 KEYPOS_INDEX 1;
  COMMAND CMD_REQ_REDIS_LMPOP "LMPOP" None (-4) KEYPOS_KEYNUM 1;
  COMMAND CMD_REQ_REDIS_LOLWUT "LOLWUT" None (-1) KEYPOS_NONE 0;
  COMMAND CMD_REQ_REDIS_LPOP "LPOP" None (-2) KEYPOS_INDEX 1;
  COMMAND CMD_REQ_REDIS_LPOS "LPOS" None (-3) KEYPOS_INDEX 1;
  COMMAND CMD_REQ_REDIS_LPUSH "LPUSH" None (-3) KEYPOS_INDEX 1;
  COMMAND CMD_REQ_REDIS_LPUSHX "LPUSHX" None (-3) KEYPOS_INDEX 1;
  COMMAND CMD_REQ_REDIS_LRANGE "LRANGE" None 4 KEYPOS_INDEX 1;
  COMMAND CMD_REQ_REDIS_LREM "LREM" None 4 KEYPOS_INDEX 1;
  COMMAND CMD_REQ_REDIS_LSET "LSET" None 4 KEYPOS_INDEX 1;
  COMMAND CMD_REQ_REDIS_LTRIM "LTRIM" None 4 KEYPOS_INDEX 1;
  COMMAND CMD_REQ_REDIS_MEMORY_DOCTOR "MEMORY" (Some "DOCTOR"%string) 2 KEYPOS_NONE 0;
  COMMAND CMD_REQ_REDIS_MEMORY_HELP "MEMORY" (Some "HELP"%string) 2 KEYPOS_NONE 0;
  COMMAND CMD_REQ_REDIS_MEMORY_MALLOC_STATS "MEMORY" (Some "MALLOC-STATS"%string) 2 KEYPOS_NONE 0;
  COMMAND CMD_REQ_REDIS_MEMORY_PURGE "MEMORY" (Some "PURGE"%string) 2 KEYPOS_NONE 0;
  COMMAND CMD_REQ_REDIS_MEMORY_STATS "MEMORY" (Some "STATS"%string) 2 KEYPOS_NONE 0;
  COMMAND CMD_REQ_REDIS_MEMORY_USAGE "MEMORY" (Some "USAGE"%string) (-3) KEYPOS_INDEX 2;
  COMMAND CMD_REQ_REDIS_MGET "MGET" None (-2) KEYPOS_INDEX 1;
  COMMAND CMD_REQ_REDIS_MIGRATE "MIGRATE" None (-6) KEYPOS_INDEX 3;
  COMMAND CMD_REQ_REDIS_MODULE_HELP "MODULE" (Some "HELP"%string) 2 KEYPOS_NONE 0;
  COMMAND CMD_REQ_REDIS_MODULE_LIST "MODULE" (Some "LIST"%string) 2 KEYPOS_NONE 0;
  COMMAND CMD_REQ_REDIS_MODULE_LOAD "MODULE" (Some "LOAD"%string) (-3) KEYPOS_NONE 0;
  COMMAND CMD_REQ_REDIS_MODULE_LOADEX "MODULE" (Some "LOADEX"%string) (-3) KEYPOS_NONE 0;
  COMMAND CMD_REQ_REDIS_MODULE_UNLOAD "MODULE" (Some "UNLOAD"%string) 3 KEYPOS_NONE 0;
  COMMAND CMD_REQ_REDIS_MONITOR "MONITOR" None 1 KEYPOS_NONE 0;
  COMMAND CMD_REQ_REDIS_MOVE "MOVE" None 3 KEYPOS_INDEX 1;
  COMMAND CMD_REQ_REDIS_MSET "MSET" None (-3) KEYPOS_INDEX 1;
  COMMAND CMD_REQ_REDIS_MSETNX "MSETNX" None (-3) KEYPOS_INDEX 1;
  COMMAND CMD_REQ_REDIS_MULTI "MULTI" None 1 KEYPOS_NONE 0;
  COMMAND CMD_REQ_REDIS_OBJECT_ENCODING "OBJECT" (Some "ENCODING"%string) 3 KEYPOS_INDEX 2;
  COMMAND CMD_REQ_REDIS_OBJECT_FREQ "OBJECT" (Some "FREQ"%string) 3 KEYPOS_INDEX 2;
  COMMAND CMD_REQ_REDIS_OBJECT_HELP "OBJECT" (Some "HELP"%string) 2 KEYPOS_NONE 0;
  COMMAND CMD_REQ_REDIS_OBJECT_IDLETIME "OBJECT" (Some "IDLETIME"%string) 3 KEYPOS_INDEX 2;
  COMMAND CMD_REQ_REDIS_OBJECT_REFCOUNT "OBJECT" (Some "REFCOUNT"%string) 3 KEYPOS_INDEX 2;
  COMMAND CMD_REQ_REDIS_PERSIST "PERSIST" None 2 KEYPOS_INDEX 1;
  COMMAND CMD_REQ_REDIS_PEXPIRE "PEXPIRE" None (-3) KEYPOS_INDEX 1;
  COMMAND CMD_REQ_REDIS_PEXPIREAT "PEXPIREAT" None (-3) KEYPOS_INDEX 1;
  COMMAND CMD_REQ_REDIS_PEXPIRETIME "PEXPIRETIME" None 2 KEYPOS_INDEX 1;
  COMMAND CMD_REQ_REDIS_PFADD "PFADD" None (-2) KEYPOS_INDEX 1;
  COMMAND CMD_REQ_REDIS_PFCOUNT "PFCOUNT" None (-2) KEYPOS_INDEX 1;
  COMMAND CMD_REQ_REDIS_PFDEBUG "PFDEBUG" None 3 KEYPOS_INDEX 2;
  COMMAND CMD_REQ_REDIS_PFMERGE "PFMERGE" None (-2) KEYPOS_INDEX 1;
  COMMAND CMD_REQ_REDIS_PFSELFTEST "PFSELFTEST" None 1 KEYPOS_NONE 0;
  COMMAND CMD_REQ_REDIS_PING "PING" None (-1) KEYPOS_NONE 0;
  COMMAND CMD_REQ_REDIS_PSETEX "PSETEX" None 4 KEYPOS_INDEX 1;
  COMMAND CMD_REQ_REDIS_PSUBSCRIBE "PSUBSCRIBE" None (-2) KEYPOS_NONE 0;
  COMMAND CMD_REQ_REDIS_PSYNC "PSYNC" None (-3) KEYPOS_NONE 0;
  COMMAND CMD_REQ_REDIS_PTTL "PTTL" None 2 KEYPOS_INDEX 1;
  COMMAND CMD_REQ_REDIS_PUBLISH "PUBLISH" None 3 KEYPOS_NONE 0;
  COMMAND CMD_REQ_REDIS_PUBSUB_CHANNELS "PUBSUB" (Some "CHANNELS"%string) (-2) KEYPOS_NONE 0;
  COMMAND CMD_REQ_REDIS_PUBSUB_HELP "PUBSUB" (Some "HELP"%string) 2 KEYPOS_NONE 0;
  COMMAND CMD_REQ_REDIS_PUBSUB_NUMPAT "PUBSUB" (Some "NUMPAT"%string) 2 KEYPOS_NONE 0;
  COMMAND CMD_REQ_REDIS_PUBSUB_NUMSUB "PUBSUB" (Some "NUMSUB"%string) (-2) KEYPOS_NONE 0;
  COMMAND CMD_REQ_REDIS_PUBSUB_SHARDCHANNELS "PUBSUB" (Some "SHARDCHANNELS"%string) (-2) KEYPOS_NONE 0;
  COMMAND CMD_REQ_REDIS_PUBSUB_SHARDNUMSUB "PUBSUB" (Some "SHARDNUMSUB"%string) (-2) KEYPOS_NONE 0;
  COMMAND CMD_REQ_REDIS_PUNSUBSCRIBE "PUNSUBSCRIBE" None (-1) KEYPOS_NONE 0;
  COMMAND CMD_REQ_REDIS_QUIT "QUIT" None (-1) KEYPOS_NONE 0;
  COMMAND CMD_REQ_REDIS_RANDOMKEY "RANDOMKEY" None 1 KEYPOS_NONE 0;
  COMMAND CMD_REQ_REDIS_READONLY "READONLY" None 1 KEYPOS_NONE 0;
  COMMAND CMD_REQ_REDIS_READWRITE "READWRITE" None 1 KEYPOS_NONE 0;
  COMMAND CMD_REQ_REDIS_RENAME "RENAME" None 3 KEYPOS_INDEX 1;
  COMMAND CMD_REQ_REDIS_RENAMENX "RENAMENX" None 3 KEYPOS_INDEX 1;
  COMMAND CMD_REQ_REDIS_REPLCONF "REPLCONF" None (-1) KEYPOS_NONE 0;
  COMMAND CMD_REQ_REDIS_REPLICAOF "REPLICAOF" None 3 KEYPOS_NONE 0;
  COMMAND CMD_REQ_REDIS_RESET "RESET" None 1 KEYPOS_NONE 0;
  COMMAND CMD_REQ_REDIS_RESTORE "RESTORE" None (-4) KEYPOS_INDEX 1;
  COMMAND CMD_REQ_REDIS_RESTORE_ASKING "RESTORE-ASKING" None (-4) KEYPOS_INDEX 1;
  COMMAND CMD_REQ_REDIS_ROLE "ROLE" None 1 KEYPOS_NONE 0;
  COMMAND CMD_REQ_REDIS_RPOP "RPOP" None (-2) KEYPOS_INDEX 1;
  COMMAND CMD_REQ_REDIS_RPOPLPUSH "RPOPLPUSH" None 3 KEYPOS_INDEX 1;
  COMMAND CMD_REQ_REDIS_RPUSH "RPUSH" None (-3) KEYPOS_INDEX 1;
  COMMAND CMD_REQ_REDIS_RPUSHX "RPUSHX" None (-3) KEYPOS_INDEX 1;
  COMMAND CMD_REQ_REDIS_SADD "SADD" None (-3) KEYPOS_INDEX 1;
  COMMAND CMD_REQ_REDIS_SAVE "SAVE" None 1 KEYPOS_NONE 0;
  COMMAND CMD_REQ_REDIS_SCAN "SCAN" None (-2) KEYPOS_NONE 0;
  COMMAND CMD_REQ_REDIS_SCARD "SCARD" None 2 KEYPOS_INDEX 1;
  COMMAND CMD_REQ_REDIS_SCRIPT_DEBUG "SCRIPT" (Some "DEBUG"%string) 3 KEYPOS_NONE 0;
  COMMAND CMD_REQ_REDIS_SCRIPT_EXISTS "SCRIPT" (Some "EXISTS"%string) (-3) KEYPOS_NONE 0;
  COMMAND CMD_REQ_REDIS_SCRIPT_FLUSH "SCRIPT" (Some "FLUSH"%string) (-2) KEYPOS_NONE 0].

Definition redis_commands_3 : list cmddef := [
  COMMAND CMD_REQ_REDIS_SCRIPT_HELP "SCRIPT" (Some "HELP"%string) 2 KEYPOS_NONE 0;
  COMMAND CMD_REQ_REDIS_SCRIPT_KILL "SCRIPT" (Some "KILL"%string) 2 KEYPOS_NONE 0;
  COMMAND CMD_REQ_REDIS_SCRIPT_LOAD "SCRIPT" (Some "LOAD"%string) 3 KEYPOS_NONE 0;
  COMMAND CMD_REQ_REDIS_SDIFF "SDIFF" None (-2) KEYPOS_INDEX 1;
  COMMAND CMD_REQ_REDIS_SDIFFSTORE "SDIFFSTORE" None (-3) KEYPOS_INDEX 1;
  COMMAND CMD_REQ_REDIS_SELECT "SELECT" None 2 KEYPOS_NONE 0;
  COMMAND CMD_REQ_REDIS_SENTINEL_CKQUORUM "SENTINEL" (Some "CKQUORUM"%string) 3 KEYPOS_NONE 0;
  COMMAND CMD_REQ_REDIS_SENTINEL_CONFIG "SENTINEL" (Some "CONFIG"%string) (-4) KEYPOS_NONE 0;
  COMMAND CMD_REQ_REDIS_SENTINEL_DEBUG "SENTINEL" (Some "DEBUG"%string) (-2) KEYPOS_NONE 0;
  COMMAND CMD_REQ_REDIS_SENTINEL_FAILOVER "SENTINEL" (Some "FAILOVER"%string) 3 KEYPOS_NONE 0;
  COMMAND CMD_REQ_REDIS_SENTINEL_FLUSHCONFIG "SENTINEL" (Some "FLUSHCONFIG"%string) 2 KEYPOS_NONE 0;
  COMMAND CMD_REQ_REDIS_SENTINEL_GET_MASTER_ADDR_BY_NAME "SENTINEL" (Some "GET-MASTER-ADDR-BY-NAME"%string) 3 KEYPOS_NONE 0;
  COMMAND CMD_REQ_REDIS_SENTINEL_HELP "SENTINEL" (Some "HELP"%string) 2 KEYPOS_NONE 0;
  COMMAND CMD_REQ_REDIS_SENTINEL_INFO_CACHE "SENTINEL" (Some "INFO-CACHE"%string) (-3) KEYPOS_NONE 0;
  COMMAND CMD_REQ_REDIS_SENTINEL_IS_MASTER_DOWN_BY_ADDR "SENTINEL" (Some "IS-MASTER-DOWN-BY-ADDR"%string) 6 KEYPOS_NONE 0;
  COMMAND CMD_REQ_REDIS_SENTINEL_MASTER "SENTINEL" (Some "MASTER"%string) 3 KEYPOS_NONE 0;
  COMMAND CMD_REQ_REDIS_SENTINEL_MASTERS "SENTINEL" (Some "MASTERS"%string) 2 KEYPOS_NONE 0;
  COMMAND CMD_REQ_REDIS_SENTINEL_MONITOR "SENTINEL" (Some "MONITOR"%string) 6 KEYPOS_NONE 0;
  COMMAND CMD_REQ_REDIS_SENTINEL_MYID "SENTINEL" (Some "MYID"%string) 2 KEYPOS_NONE 0;
  COMMAND CMD_REQ_REDIS_SENTINEL_PENDING_SCRIPTS "SENTINEL" (Some "PENDING-SCRIPTS"%string) 2 KEYPOS_NONE 0;
  COMMAND CMD_REQ_REDIS_SENTINEL_REMOVE "SENTINEL" (Some "REMOVE"%string) 3 KEYPOS_NONE 0;
  COMMAND CMD_REQ_REDIS_SENTINEL_REPLICAS "SENTINEL" (Some "REPLICAS"%string) 3 KEYPOS_NONE 0;
  COMMAND CMD_REQ_REDIS_SENTINEL_RESET "SENTINEL" (Some "RESET"%string) 3 KEYPOS_NONE 0;
  COMMAND CMD_REQ_REDIS_SENTINEL_SENTINELS "SENTINEL" (Some "SENTINELS"%string) 3 KEYPOS_NONE 0;
  COMMAND CMD_REQ_REDIS_SENTINEL_SET "SENTINEL" (Some "SET"%string) (-5) KEYPOS_NONE 0;
  COMMAND CMD_REQ_REDIS_SENTINEL_SIMULATE_FAILURE "SENTINEL" (Some "SIMULATE-FAILURE"%string) (-3) KEYPOS_NONE 0;
  COMMAND CMD_REQ_REDIS_SENTINEL_SLAVES "SENTINEL" (Some "SLAVES"%string) 3 KEYPOS_NONE 0;
  COMMAND CMD_REQ_REDIS_SET "SET" None (-3) KEYPOS_INDEX 1;
  COMMAND CMD_REQ_REDIS_SETBIT "SETBIT" None 4 KEYPOS_INDEX 1;
  COMMAND CMD_REQ_REDIS_SETEX "SETEX" None 4 KEYPOS_INDEX 1;
  COMMAND CMD_REQ_REDIS_SETNX "SETNX" None 3 KEYPOS_INDEX 1;
  COMMAND CMD_REQ_REDIS_SETRANGE "SETRANGE" None 4 KEYPOS_INDEX 1;
  COMMAND CMD_REQ_REDIS_SHUTDOWN "SHUTDOWN" None (-1) KEYPOS_NONE 0;
  COMMAND CMD_REQ_REDIS_SINTER "SINTER" None (-2) KEYPOS_INDEX 1;
  COMMAND CMD_REQ_REDIS_SINTERCARD "SINTERCARD" None (-3) KEYPOS_KEYNUM 1;
  COMMAND CMD_REQ_REDIS_SINTERSTORE "SINTERSTORE" None (-3) KEYPOS_INDEX 1;
  COMMAND CMD_REQ_REDIS_SISMEMBER "SISMEMBER" None 3 KEYPOS_INDEX 1;
  COMMAND CMD_REQ_REDIS_SLAVEOF "SLAVEOF" None 3 KEYPOS_NONE 0;
  COMMAND CMD_REQ_REDIS_SLOWLOG_GET "SLOWLOG" (Some "GET"%string) (-2) KEYPOS_NONE 0;
  COMMAND CMD_REQ_REDIS_SLOWLOG_HELP "SLOWLOG" (Some "HELP"%string) 2 KEYPOS_NONE 0;
  COMMAND CMD_REQ_REDIS_SLOWLOG_LEN "SLOWLOG" (Some "LEN"%string) 2 KEYPOS_NONE 0;
  COMMAND CMD_REQ_REDIS_SLOWLOG_RESET "SLOWLOG" (Some "RESET"%string) 2 KEYPOS_NONE 0;
  COMMAND CMD_REQ_REDIS_SMEMBERS "SMEMBERS" None 2 KEYPOS_INDEX 1;
  COMMAND CMD_REQ_REDIS_SMISMEMBER "SMISMEMBER" None (-3) KEYPOS_INDEX 1;
  COMMAND CMD_REQ_REDIS_SMOVE "SMOVE" None 4 KEYPOS_INDEX 1;
  COMMAND CMD_REQ_REDIS_SORT "SORT" None (-2) KEYPOS_INDEX 1;
  COMMAND CMD_REQ_REDIS_SORT_RO "SORT_RO" None (-2) KEYPOS_INDEX 1;
  COMMAND CMD_REQ_REDIS_SPOP "SPOP" None (-2) KEYPOS_INDEX 1;
  COMMAND CMD_REQ_REDIS_SPUBLISH "SPUBLISH" None 3 KEYPOS_INDEX 1;
  COMMAND CMD_REQ_REDIS_SRANDMEMBER "SRANDMEMBER" None (-2) KEYPOS_INDEX 1;
  COMMAND CMD_REQ_REDIS_SREM "SREM" None (-3) KEYPOS_INDEX 1;
  COMMAND CMD_REQ_REDIS_SSCAN "SSCAN" None (-3) KEYPOS_INDEX 1;
  COMMAND CMD_REQ_REDIS_SSUBSCRIBE "SSUBSCRIBE" None (-2) KEYPOS_INDEX 1;
  COMMAND CMD_REQ_REDIS_STRLEN "STRLEN" None 2 KEYPOS_INDEX 1;
  COMMAND CMD_REQ_REDIS_SUBSCRIBE "SUBSCRIBE" None (-2) KEYPOS_NONE 0;
  COMMAND CMD_REQ_REDIS_SUBSTR "SUBSTR" None 4 KEYPOS_INDEX 1;
  COMMAND CMD_REQ_REDIS_SUNION "SUNION" None (-2) KEYPOS_INDEX 1;
  COMMAND CMD_REQ_REDIS_SUNIONSTORE "SUNIONSTORE" None (-3) KEYPOS_INDEX 1;
  COMMAND CMD_REQ_REDIS_SUNSUBSCRIBE "SUNSUBSCRIBE" None (-1) KEYPOS_INDEX 1;
  COMMAND CMD_REQ_REDIS_SWAPDB "SWAPDB" None 3 KEYPOS_NONE 0;
  COMMAND CMD_REQ_REDIS_SYNC "SYNC" None 1 KEYPOS_NONE 0;
  COMMAND CMD_REQ_REDIS_TIME "TIME" None 1 KEYPOS_NONE 0;
  COMMAND CMD_REQ_REDIS_TOUCH "TOUCH" None (-2) KEYPOS_INDEX 1;
  COMMAND CMD_REQ_REDIS_TTL "TTL" None 2 KEYPOS_INDEX 1;
  COMMAND CMD_REQ_REDIS_TYPE "TYPE" None 2 KEYPOS_INDEX 1;
  COMMAND CMD_REQ_REDIS_UNLINK "UNLINK" None (-2) KEYPOS_INDEX 1;
  COMMAND CMD_REQ_REDIS_UNSUBSCRIBE "UNSUBSCRIBE" None (-1) KEYPOS_NONE 0;
  COMMAND CMD_REQ_REDIS_UNWATCH "UNWATCH" None 1 KEYPOS_NONE 0;
  COMMAND CMD_REQ_REDIS_WAIT "WAIT" None 3 KEYPOS_NONE 0;
  COMMAND CMD_REQ_REDIS_WAITAOF "WAITAOF" None 4 KEYPOS_NONE 0;
  COMMAND CMD_REQ_REDIS_WATCH "WATCH" None (-2) KEYPOS_INDEX 1;
  COMMAND CMD_REQ_REDIS_XACK "XACK" None (-4) KEYPOS_INDEX 1;
  COMMAND CMD_REQ_REDIS_XADD "XADD" None (-5) KEYPOS_INDEX 1;
  COMMAND CMD_REQ_REDIS_XAUTOCLAIM "XAUTOCLAIM" None (-6) KEYPOS_INDEX 1;
  COMMAND CMD_REQ_REDIS_XCLAIM "XCLAIM" None (-6) KEYPOS_INDEX 1;
  COMMAND CMD_REQ_REDIS_XDEL "XDEL" None (-3) KEYPOS_INDEX 1;
  COMMAND CMD_REQ_REDIS_XGROUP_CREATE "XGROUP" (Some "CREATE"%string) (-5) KEYPOS_INDEX 2;
  COMMAND CMD_REQ_REDIS_XGROUP_CREATECONSUMER "XGROUP" (Some "CREATECONSUMER"%string) 5 KEYPOS_INDEX 2;
  COMMAND CMD_REQ_REDIS_XGROUP_DELCONSUMER "XGROUP" (Some "DELCONSUMER"%string) 5 KEYPOS_INDEX 2;
  COMMAND CMD_REQ_REDIS_XGROUP_DESTROY "XGROUP" (Some "DESTROY"%string) 4 KEYPOS_INDEX 2;
  COMMAND CMD_REQ_REDIS_XGROUP_HELP "XGROUP" (Some "HELP"%string) 2 KEYPOS_NONE 0;
  COMMAND CMD_REQ_REDIS_XGROUP_SETID "XGROUP" (Some "SETID"%string) (-5) KEYPOS_INDEX 2;
  COMMAND CMD_REQ_REDIS_XINFO_CONSUMERS "XINFO" (Some "CONSUMERS"%string) 4 KEYPOS_INDEX 2;
  COMMAND CMD_REQ_REDIS_XINFO_GROUPS "XINFO" (Some "GROUPS"%string) 3 KEYPOS_INDEX 2;
  COMMAND CMD_REQ_REDIS_XINFO_HELP "XINFO" (Some "HELP"%string) 2 KEYPOS_NONE 0;
  COMMAND CMD_REQ_REDIS_XINFO_STREAM "XINFO" (Some "STREAM"%string) (-3) KEYPOS_INDEX 2;
  COMMAND CMD_REQ_REDIS_XLEN "XLEN" None 2 KEYPOS_INDEX 1;
  COMMAND CMD_REQ_REDIS_XPENDING "XPENDING" None (-3) KEYPOS_INDEX 1;
  COMMAND CMD_REQ_REDIS_XRANGE "XRANGE" None (-4) KEYPOS_INDEX 1;
  COMMAND CMD_REQ_REDIS_XREAD "XREAD" None (-4) KEYPOS_UNKNOWN 0;
  COMMAND CMD_REQ_REDIS_XREADGROUP "XREADGROUP" None (-7) KEYPOS_UNKNOWN 0;
  COMMAND CMD_REQ_REDIS_XREVRANGE "XREVRANGE" None (-4) KEYPOS_INDEX 1;
  COMMAND CMD_REQ_REDIS_XSETID "XSETID" None (-3) KEYPOS_INDEX 1;
  COMMAND CMD_REQ_REDIS_XTRIM "XTRIM" None (-4) KEYPOS_INDEX 1;
  COMMAND CMD_REQ_REDIS_ZADD "ZADD" None (-4) KEYPOS_INDEX 1;
  COMMAND CMD_REQ_REDIS_ZCARD "ZCARD" None 2 KEYPOS_INDEX 1;
  COMMAND CMD_REQ_REDIS_ZCOUNT "ZCOUNT" None 4 KEYPOS_INDEX 1;
  COMMAND CMD_REQ_REDIS_ZDIFF "ZDIFF" None (-3) KEYPOS_KEYNUM 1;
  COMMAND CMD_REQ_REDIS_ZDIFFSTORE "ZDIFFSTORE" None (-4) KEYPOS_INDEX 1;
  COMMAND CMD_REQ_REDIS_ZINCRBY "ZINCRBY" None 4 KEYPOS_INDEX 1;
  COMMAND CMD_REQ_REDIS_ZINTER "ZINTER" None (-3) KEYPOS_KEYNUM 1;
  COMMAND CMD_REQ_REDIS_ZINTERCARD "ZINTERCARD" None (-3) KEYPOS_KEYNUM 1;
  COMMAND CMD_REQ_REDIS_ZINTERSTORE "ZINTERSTORE" None (-4) KEYPOS_INDEX 1;
  COMMAND CMD_REQ_REDIS_ZLEXCOUNT "ZLEXCOUNT" None 4 KEYPOS_INDEX 1;
  COMMAND CMD_REQ_REDIS_ZMPOP "ZMPOP" None (-4) KEYPOS_KEYNUM 1;
  COMMAND CMD_REQ_REDIS_ZMSCORE "ZMSCORE" None (-3) KEYPOS_INDEX 1;
  COMMAND CMD_REQ_REDIS_ZPOPMAX "ZPOPMAX" None (-2) KEYPOS_INDEX 1;
  COMMAND CMD_REQ_REDIS_ZPOPMIN "ZPOPMIN" None (-2) KEYPOS_INDEX 1;
  COMMAND CMD_REQ_REDIS_ZRANDMEMBER "ZRANDMEMBER" None (-2) KEYPOS_INDEX 1;
  COMMAND CMD_REQ_REDIS_ZRANGE "ZRANGE" None (-4) KEYPOS_INDEX 1;
  COMMAND CMD_REQ_REDIS_ZRANGEBYLEX "ZRANGEBYLEX" None (-4) KEYPOS_INDEX 1;
  COMMAND CMD_REQ_REDIS_ZRANGEBYSCORE "ZRANGEBYSCORE" None (-4) KEYPOS_INDEX 1;
  COMMAND CMD_REQ_REDIS_ZRANGESTORE "ZRANGESTORE" None (-5) KEYPOS_INDEX 1;
  COMMAND CMD_REQ_REDIS_ZRANK "ZRANK" None (-3) KEYPOS_INDEX 1;
  COMMAND CMD_REQ_REDIS_ZREM "ZREM" None (-3) KEYPOS_INDEX 1;
  COMMAND CMD_REQ_REDIS_ZREMRANGEBYLEX "ZREMRANGEBYLEX" None 4 KEYPOS_INDEX 1;
  COMMAND CMD_REQ_REDIS_ZREMRANGEBYRANK "ZREMRANGEBYRANK" None 4 KEYPOS_INDEX 1;
  COMMAND CMD_REQ_REDIS_ZREMRANGEBYSCORE "ZREMRANGEBYSCORE" None 4 KEYPOS_INDEX 1;
  COMMAND CMD_REQ_REDIS_ZREVRANGE "ZREVRANGE" None (-4) KEYPOS_INDEX 1;
  COMMAND CMD_REQ_REDIS_ZREVRANGEBYLEX "ZREVRANGEBYLEX" None (-4) KEYPOS_INDEX 1;
  COMMAND CMD_REQ_REDIS_ZREVRANGEBYSCORE "ZREVRANGEBYSCORE" None (-4) KEYPOS_INDEX 1;
  COMMAND CMD_REQ_REDIS_ZREVRANK "ZREVRANK" None (-3) KEYPOS_INDEX 1;
  COMMAND CMD_REQ_REDIS_ZSCAN "ZSCAN" None (-3) KEYPOS_INDEX 1;
  COMMAND CMD_REQ_REDIS_ZSCORE "ZSCORE" None 3 KEYPOS_INDEX 1;
  COMMAND CMD_REQ_REDIS_ZUNION "ZUNION" None (-3) KEYPOS_KEYNUM 1;
  COMMAND CMD_REQ_REDIS_ZUNIONSTORE "ZUNIONSTORE" None (-4) KEYPOS_INDEX 1].

Definition redis_commands : list cmddef :=
  redis_commands_1 ++ redis_commands_2 ++ redis_commands_3.

(** The enumerators are numbered in order, which decides equality. *)
Definition all_cmd_types : list cmd_type :=
  [CMD_UNKNOWN] ++ (cd_type <$> redis_commands) ++
  [CMD_RSP_REDIS_STATUS; CMD_RSP_REDIS_ERROR; CMD_RSP_REDIS_INTEGER; CMD_RSP_REDIS_BULK;
   CMD_RSP_REDIS_MULTIBULK; CMD_SENTINEL].

Definition cmd_type_code (t : cmd_type) : nat :=
  match t with
  | CMD_UNKNOWN => 0
  | CMD_REQ_REDIS_ACL_CAT => 1
  | CMD_REQ_REDIS_ACL_DELUSER => 2
  | CMD_REQ_REDIS_ACL_DRYRUN => 3
  | CMD_REQ_REDIS_ACL_GENPASS => 4
  | CMD_REQ_REDIS_ACL_GETUSER => 5
  | CMD_REQ_REDIS_ACL_HELP => 6
  | CMD_REQ_REDIS_ACL_LIST => 7
  | CMD_REQ_REDIS_ACL_LOAD => 8
  | CMD_REQ_REDIS_ACL_LOG => 9
  | CMD_REQ_REDIS_ACL_SAVE => 10
  | CMD_REQ_REDIS_ACL_SETUSER => 11
  | CMD_REQ_REDIS_ACL_USERS => 12
  | CMD_REQ_REDIS_ACL_WHOAMI => 13
  | CMD_REQ_REDIS_APPEND => 14
  | CMD_REQ_REDIS_ASKING => 15
  | CMD_REQ_REDIS_AUTH => 16
  | CMD_REQ_REDIS_BGREWRITEAOF => 17
  | CMD_REQ_REDIS_BGSAVE => 18
  | CMD_REQ_REDIS_BITCOUNT => 19
  | CMD_REQ_REDIS_BITFIELD => 20
  | CMD_REQ_REDIS_BITFIELD_RO => 21
  | CMD_REQ_REDIS_BITOP => 22
  | CMD_REQ_REDIS_BITPOS => 23
  | CMD_REQ_REDIS_BLMOVE => 24
  | CMD_REQ_REDIS_BLMPOP => 25
  | CMD_REQ_REDIS_BLPOP => 26
  | CMD_REQ_REDIS_BRPOP => 27
  | CMD_REQ_REDIS_BRPOPLPUSH => 28
  | CMD_REQ_REDIS_BZMPOP => 29
  | CMD_REQ_REDIS_BZPOPMAX => 30
  | CMD_REQ_REDIS_BZPOPMIN => 31
  | CMD_REQ_REDIS_CLIENT_CACHING => 32
  | CMD_REQ_REDIS_CLIENT_GETNAME => 33
  | CMD_REQ_REDIS_CLIENT_GETREDIR => 34
  | CMD_REQ_REDIS_CLIENT_HELP => 35
  | CMD_REQ_REDIS_CLIENT_ID => 36
  | CMD_REQ_REDIS_CLIENT_INFO => 37
  | CMD_REQ_REDIS_CLIENT_KILL => 38
  | CMD_REQ_REDIS_CLIENT_LIST => 39
  | CMD_REQ_REDIS_CLIENT_NO_EVICT => 40
  | CMD_REQ_REDIS_CLIENT_NO_TOUCH => 41
  | CMD_REQ_REDIS_CLIENT_PAUSE => 42
  | CMD_REQ_REDIS_CLIENT_REPLY => 43
  | CMD_REQ_REDIS_CLIENT_SETINFO => 44
  | CMD_REQ_REDIS_CLIENT_SETNAME => 45
  | CMD_REQ_REDIS_CLIENT_TRACKING => 46
  | CMD_REQ_REDIS_CLIENT_TRACKINGINFO => 47
  | CMD_REQ_REDIS_CLIENT_UNBLOCK => 48
  | CMD_REQ_REDIS_CLIENT_UNPAUSE => 49
  | CMD_REQ_REDIS_CLUSTER_ADDSLOTS => 50
  | CMD_REQ_REDIS_CLUSTER_ADDSLOTSRANGE => 51
  | CMD_REQ_REDIS_CLUSTER_BUMPEPOCH => 52
  | CMD_REQ_REDIS_CLUSTER_COUNT_FAILURE_REPORTS => 53
  | CMD_REQ_REDIS_CLUSTER_COUNTKEYSINSLOT => 54
  | CMD_REQ_REDIS_CLUSTER_DELSLOTS => 55
  | CMD_REQ_REDIS_CLUSTER_DELSLOTSRANGE => 56
  | CMD_REQ_REDIS_CLUSTER_FAILOVER => 57
  | CMD_REQ_REDIS_CLUSTER_FLUSHSLOTS => 58
  | CMD_REQ_REDIS_CLUSTER_FORGET => 59
  | CMD_REQ_REDIS_CLUSTER_GETKEYSINSLOT => 60
  | CMD_REQ_REDIS_CLUSTER_HELP => 61
  | CMD_REQ_REDIS_CLUSTER_INFO => 62
  | CMD_REQ_REDIS_CLUSTER_KEYSLOT => 63
  | CMD_REQ_REDIS_CLUSTER_LINKS => 64
  | CMD_REQ_REDIS_CLUSTER_MEET => 65
  | CMD_REQ_REDIS_CLUSTER_MYID => 66
  | CMD_REQ_REDIS_CLUSTER_MYSHARDID => 67
  | CMD_REQ_REDIS_CLUSTER_NODES => 68
  | CMD_REQ_REDIS_CLUSTER_REPLICAS => 69
  | CMD_REQ_REDIS_CLUSTER_REPLICATE => 70
  | CMD_REQ_REDIS_CLUSTER_RESET => 71
  | CMD_REQ_REDIS_CLUSTER_SAVECONFIG => 72
  | CMD_REQ_REDIS_CLUSTER_SET_CONFIG_EPOCH => 73
  | CMD_REQ_REDIS_CLUSTER_SETSLOT => 74
  | CMD_REQ_REDIS_CLUSTER_SHARDS => 75
  | CMD_REQ_REDIS_CLUSTER_SLAVES => 76
  | CMD_REQ_REDIS_CLUSTER_SLOTS => 77
  | CMD_REQ_REDIS_COMMAND_COUNT => 78
  | CMD_REQ_REDIS_COMMAND_DOCS => 79
  | CMD_REQ_REDIS_COMMAND_GETKEYS => 80
  | CMD_REQ_REDIS_COMMAND_GETKEYSANDFLAGS => 81
  | CMD_REQ_REDIS_COMMAND_HELP => 82
  | CMD_REQ_REDIS_COMMAND_INFO => 83
  | CMD_REQ_REDIS_COMMAND_LIST => 84
  | CMD_REQ_REDIS_CONFIG_GET => 85
  | CMD_REQ_REDIS_CONFIG_HELP => 86
  | CMD_REQ_REDIS_CONFIG_RESETSTAT => 87
  | CMD_REQ_REDIS_CONFIG_REWRITE => 88
  | CMD_REQ_REDIS_CONFIG_SET => 89
  | CMD_REQ_REDIS_COPY => 90
  | CMD_REQ_REDIS_DBSIZE => 91
  | CMD_REQ_REDIS_DEBUG => 92
  | CMD_REQ_REDIS_DECR => 93
  | CMD_REQ_REDIS_DECRBY => 94
  | CMD_REQ_REDIS_DEL => 95
  | CMD_REQ_REDIS_DISCARD => 96
  | CMD_REQ_REDIS_DUMP => 97
  | CMD_REQ_REDIS_ECHO => 98
  | CMD_REQ_REDIS_EVAL => 99
  | CMD_REQ_REDIS_EVALSHA => 100
  | CMD_REQ_REDIS_EVALSHA_RO => 101
  | CMD_REQ_REDIS_EVAL_RO => 102
  | CMD_REQ_REDIS_EXEC => 103
  | CMD_REQ_REDIS_EXISTS => 104
  | CMD_REQ_REDIS_EXPIRE => 105
  | CMD_REQ_REDIS_EXPIREAT => 106
  | CMD_REQ_REDIS_EXPIRETIME => 107
  | CMD_REQ_REDIS_FAILOVER => 108
  | CMD_REQ_REDIS_FCALL => 109
  | CMD_REQ_REDIS_FCALL_RO => 110
  | CMD_REQ_REDIS_FLUSHALL => 111
  | CMD_REQ_REDIS_FLUSHDB => 112
  | CMD_REQ_REDIS_FUNCTION_DELETE => 113
  | CMD_REQ_REDIS_FUNCTION_DUMP => 114
  | CMD_REQ_REDIS_FUNCTION_FLUSH => 115
  | CMD_REQ_REDIS_FUNCTION_HELP => 116
  | CMD_REQ_REDIS_FUNCTION_KILL => 117
  | CMD_REQ_REDIS_FUNCTION_LIST => 118
  | CMD_REQ_REDIS_FUNCTION_LOAD => 119
  | CMD_REQ_REDIS_FUNCTION_RESTORE => 120
  | CMD_REQ_REDIS_FUNCTION_STATS => 121
  | CMD_REQ_REDIS_GEOADD => 122
  | CMD_REQ_REDIS_GEODIST => 123
  | CMD_REQ_REDIS_GEOHASH => 124
  | CMD_REQ_REDIS_GEOPOS => 125
  | CMD_REQ_REDIS_GEORADIUS => 126
  | CMD_REQ_REDIS_GEORADIUSBYMEMBER => 127
  | CMD_REQ_REDIS_GEORADIUSBYMEMBER_RO => 128
  | CMD_REQ_REDIS_GEORADIUS_RO => 129
  | CMD_REQ_REDIS_GEOSEARCH => 130
  | CMD_REQ_REDIS_GEOSEARCHSTORE => 131
  | CMD_REQ_REDIS_GET => 132
  | CMD_REQ_REDIS_GETBIT => 133
  | CMD_REQ_REDIS_GETDEL => 134
  | CMD_REQ_REDIS_GETEX => 135
  | CMD_REQ_REDIS_GETRANGE => 136
  | CMD_REQ_REDIS_GETSET => 137
  | CMD_REQ_REDIS_HDEL => 138
  | CMD_REQ_REDIS_HELLO => 139
  | CMD_REQ_REDIS_HEXISTS => 140
  | CMD_REQ_REDIS_HGET => 141
  | CMD_REQ_REDIS_HGETALL => 142
  | CMD_REQ_REDIS_HINCRBY => 143
  | CMD_REQ_REDIS_HINCRBYFLOAT => 144
  | CMD_REQ_REDIS_HKEYS => 145
  | CMD_REQ_REDIS_HLEN => 146
  | CMD_REQ_REDIS_HMGET => 147
  | CMD_REQ_REDIS_HMSET => 148
  | CMD_REQ_REDIS_HRANDFIELD => 149
  | CMD_REQ_REDIS_HSCAN => 150
  | CMD_REQ_REDIS_HSET => 151
  | CMD_REQ_REDIS_HSETNX => 152
  | CMD_REQ_REDIS_HSTRLEN => 153
  | CMD_REQ_REDIS_HVALS => 154
  | CMD_REQ_REDIS_INCR => 155
  | CMD_REQ_REDIS_INCRBY => 156
  | CMD_REQ_REDIS_INCRBYFLOAT => 157
  | CMD_REQ_REDIS_INFO => 158
  | CMD_REQ_REDIS_KEYS => 159
  | CMD_REQ_REDIS_LASTSAVE => 160
  | CMD_REQ_REDIS_LATENCY_DOCTOR => 161
  | CMD_REQ_REDIS_LATENCY_GRAPH => 162
  | CMD_REQ_REDIS_LATENCY_HELP => 163
  | CMD_REQ_REDIS_LATENCY_HISTOGRAM => 164
  | CMD_REQ_REDIS_LATENCY_HISTORY => 165
  | CMD_REQ_REDIS_LATENCY_LATEST => 166
  | CMD_REQ_REDIS_LATENCY_RESET => 167
  | CMD_REQ_REDIS_LCS => 168
  | CMD_REQ_REDIS_LINDEX => 169
  | CMD_REQ_REDIS_LINSERT => 170
  | CMD_REQ_REDIS_LLEN => 171
  | CMD_REQ_REDIS_LMOVE => 172
  | CMD_REQ_REDIS_LMPOP => 173
  | CMD_REQ_REDIS_LOLWUT => 174
  | CMD_REQ_REDIS_LPOP => 175
  | CMD_REQ_REDIS_LPOS => 176
  | CMD_REQ_REDIS_LPUSH => 177
  | CMD_REQ_REDIS_LPUSHX => 178
  | CMD_REQ_REDIS_LRANGE => 179
  | CMD_REQ_REDIS_LREM => 180
  | CMD_REQ_REDIS_LSET => 181
  | CMD_REQ_REDIS_LTRIM => 182
  | CMD_REQ_REDIS_MEMORY_DOCTOR => 183
  | CMD_REQ_REDIS_MEMORY_HELP => 184
  | CMD_REQ_REDIS_MEMORY_MALLOC_STATS => 185
  | CMD_REQ_REDIS_MEMORY_PURGE => 186
  | CMD_REQ_REDIS_MEMORY_STATS => 187
  | CMD_REQ_REDIS_MEMORY_USAGE => 188
  | CMD_REQ_REDIS_MGET => 189
  | CMD_REQ_REDIS_MIGRATE => 190
  | CMD_REQ_REDIS_MODULE_HELP => 191
  | CMD_REQ_REDIS_MODULE_LIST => 192
  | CMD_REQ_REDIS_MODULE_LOAD => 193
  | CMD_REQ_REDIS_MODULE_LOADEX => 194
  | CMD_REQ_REDIS_MODULE_UNLOAD => 195
  | CMD_REQ_REDIS_MONITOR => 196
  | CMD_REQ_REDIS_MOVE => 197
  | CMD_REQ_REDIS_MSET => 198
  | CMD_REQ_REDIS_MSETNX => 199
  | CMD_REQ_REDIS_MULTI => 200
  | CMD_REQ_REDIS_OBJECT_ENCODING => 201
  | CMD_REQ_REDIS_OBJECT_FREQ => 202
  | CMD_REQ_REDIS_OBJECT_HELP => 203
  | CMD_REQ_REDIS_OBJECT_IDLETIME => 204
  | CMD_REQ_REDIS_OBJECT_REFCOUNT => 205
  | CMD_REQ_REDIS_PERSIST => 206
  | CMD_REQ_REDIS_PEXPIRE => 207
  | CMD_REQ_REDIS_PEXPIREAT => 208
  | CMD_REQ_REDIS_PEXPIRETIME => 209
  | CMD_REQ_REDIS_PFADD => 210
  | CMD_REQ_REDIS_PFCOUNT => 211
  | CMD_REQ_REDIS_PFDEBUG => 212
  | CMD_REQ_REDIS_PFMERGE => 213
  | CMD_REQ_REDIS_PFSELFTEST => 214
  | CMD_REQ_REDIS_PING => 215
  | CMD_REQ_REDIS_PSETEX => 216
  | CMD_REQ_REDIS_PSUBSCRIBE => 217
  | CMD_REQ_REDIS_PSYNC => 218
  | CMD_REQ_REDIS_PTTL => 219
  | CMD_REQ_REDIS_PUBLISH => 220
  | CMD_REQ_REDIS_PUBSUB_CHANNELS => 221
  | CMD_REQ_REDIS_PUBSUB_HELP => 222
  | CMD_REQ_REDIS_PUBSUB_NUMPAT => 223
  | CMD_REQ_REDIS_PUBSUB_NUMSUB => 224
  | CMD_REQ_REDIS_PUBSUB_SHARDCHANNELS => 225
  | CMD_REQ_REDIS_PUBSUB_SHARDNUMSUB => 226
  | CMD_REQ_REDIS_PUNSUBSCRIBE => 227
  | CMD_REQ_REDIS_QUIT => 228
  | CMD_REQ_REDIS_RANDOMKEY => 229
  | CMD_REQ_REDIS_READONLY => 230
  | CMD_REQ_REDIS_READWRITE => 231
  | CMD_REQ_REDIS_RENAME => 232
  | CMD_REQ_REDIS_RENAMENX => 233
  | CMD_REQ_REDIS_REPLCONF => 234
  | CMD_REQ_REDIS_REPLICAOF => 235
  | CMD_REQ_REDIS_RESET => 236
  | CMD_REQ_REDIS_RESTORE => 237
  | CMD_REQ_REDIS_RESTORE_ASKING => 238
  | CMD_REQ_REDIS_ROLE => 239
  | CMD_REQ_REDIS_RPOP => 240
  | CMD_REQ_REDIS_RPOPLPUSH => 241
  | CMD_REQ_REDIS_RPUSH => 242
  | CMD_REQ_REDIS_RPUSHX => 243
  | CMD_REQ_REDIS_SADD => 244
  | CMD_REQ_REDIS_SAVE => 245
  | CMD_REQ_REDIS_SCAN => 246
  | CMD_REQ_REDIS_SCARD => 247
  | CMD_REQ_REDIS_SCRIPT_DEBUG => 248
  | CMD_REQ_REDIS_SCRIPT_EXISTS => 249
  | CMD_REQ_REDIS_SCRIPT_FLUSH => 250
  | CMD_REQ_REDIS_SCRIPT_HELP => 251
  | CMD_REQ_REDIS_SCRIPT_KILL => 252
  | CMD_REQ_REDIS_SCRIPT_LOAD => 253
  | CMD_REQ_REDIS_SDIFF => 254
  | CMD_REQ_REDIS_SDIFFSTORE => 255
  | CMD_REQ_REDIS_SELECT => 256
  | CMD_REQ_REDIS_SENTINEL_CKQUORUM => 257
  | CMD_REQ_REDIS_SENTINEL_CONFIG => 258
  | CMD_REQ_REDIS_SENTINEL_DEBUG => 259
  | CMD_REQ_REDIS_SENTINEL_FAILOVER => 260
  | CMD_REQ_REDIS_SENTINEL_FLUSHCONFIG => 261
  | CMD_REQ_REDIS_SENTINEL_GET_MASTER_ADDR_BY_NAME => 262
  | CMD_REQ_REDIS_SENTINEL_HELP => 263
  | CMD_REQ_REDIS_SENTINEL_INFO_CACHE => 264
  | CMD_REQ_REDIS_SENTINEL_IS_MASTER_DOWN_BY_ADDR => 265
  | CMD_REQ_REDIS_SENTINEL_MASTER => 266
  | CMD_REQ_REDIS_SENTINEL_MASTERS => 267
  | CMD_REQ_REDIS_SENTINEL_MONITOR => 268
  | CMD_REQ_REDIS_SENTINEL_MYID => 269
  | CMD_REQ_REDIS_SENTINEL_PENDING_SCRIPTS => 270
  | CMD_REQ_REDIS_SENTINEL_REMOVE => 271
  | CMD_REQ_REDIS_SENTINEL_REPLICAS => 272
  | CMD_REQ_REDIS_SENTINEL_RESET => 273
  | CMD_REQ_REDIS_SENTINEL_SENTINELS => 274
  | CMD_REQ_REDIS_SENTINEL_SET => 275
  | CMD_REQ_REDIS_SENTINEL_SIMULATE_FAILURE => 276
  | CMD_REQ_REDIS_SENTINEL_SLAVES => 277
  | CMD_REQ_REDIS_SET => 278
  | CMD_REQ_REDIS_SETBIT => 279
  | CMD_REQ_REDIS_SETEX => 280
  | CMD_REQ_REDIS_SETNX => 281
  | CMD_REQ_REDIS_SETRANGE => 282
  | CMD_REQ_REDIS_SHUTDOWN => 283
  | CMD_REQ_REDIS_SINTER => 284
  | CMD_REQ_REDIS_SINTERCARD => 285
  | CMD_REQ_REDIS_SINTERSTORE => 286
  | CMD_REQ_REDIS_SISMEMBER => 287
  | CMD_REQ_REDIS_SLAVEOF => 288
  | CMD_REQ_REDIS_SLOWLOG_GET => 289
  | CMD_REQ_REDIS_SLOWLOG_HELP => 290
  | CMD_REQ_REDIS_SLOWLOG_LEN => 291
  | CMD_REQ_REDIS_SLOWLOG_RESET => 292
  | CMD_REQ_REDIS_SMEMBERS => 293
  | CMD_REQ_REDIS_SMISMEMBER => 294
  | CMD_REQ_REDIS_SMOVE => 295
  | CMD_REQ_REDIS_SORT => 296
  | CMD_REQ_REDIS_SORT_RO => 297
  | CMD_REQ_REDIS_SPOP => 298
  | CMD_REQ_REDIS_SPUBLISH => 299
  | CMD_REQ_REDIS_SRANDMEMBER => 300
  | CMD_REQ_REDIS_SREM => 301
  | CMD_REQ_REDIS_SSCAN => 302
  | CMD_REQ_REDIS_SSUBSCRIBE => 303
  | CMD_REQ_REDIS_STRLEN => 304
  | CMD_REQ_REDIS_SUBSCRIBE => 305
  | CMD_REQ_REDIS_SUBSTR => 306
  | CMD_REQ_REDIS_SUNION => 307
  | CMD_REQ_REDIS_SUNIONSTORE => 308
  | CMD_REQ_REDIS_SUNSUBSCRIBE => 309
  | CMD_REQ_REDIS_SWAPDB => 310
  | CMD_REQ_REDIS_SYNC => 311
  | CMD_REQ_REDIS_TIME => 312
  | CMD_REQ_REDIS_TOUCH => 313
  | CMD_REQ_REDIS_TTL => 314
  | CMD_REQ_REDIS_TYPE => 315
  | CMD_REQ_REDIS_UNLINK => 316
  | CMD_REQ_REDIS_UNSUBSCRIBE => 317
  | CMD_REQ_REDIS_UNWATCH => 318
  | CMD_REQ_REDIS_WAIT => 319
  | CMD_REQ_REDIS_WAITAOF => 320
  | CMD_REQ_REDIS_WATCH => 321
  | CMD_REQ_REDIS_XACK => 322
  | CMD_REQ_REDIS_XADD => 323
  | CMD_REQ_REDIS_XAUTOCLAIM => 324
  | CMD_REQ_REDIS_XCLAIM => 325
  | CMD_REQ_REDIS_XDEL => 326
  | CMD_REQ_REDIS_XGROUP_CREATE => 327
  | CMD_REQ_REDIS_XGROUP_CREATECONSUMER => 328
  | CMD_REQ_REDIS_XGROUP_DELCONSUMER => 329
  | CMD_REQ_REDIS_XGROUP_DESTROY => 330
  | CMD_REQ_REDIS_XGROUP_HELP => 331
  | CMD_REQ_REDIS_XGROUP_SETID => 332
  | CMD_REQ_REDIS_XINFO_CONSUMERS => 333
  | CMD_REQ_REDIS_XINFO_GROUPS => 334
  | CMD_REQ_REDIS_XINFO_HELP => 335
  | CMD_REQ_REDIS_XINFO_STREAM => 336
  | CMD_REQ_REDIS_XLEN => 337
  | CMD_REQ_REDIS_XPENDING => 338
  | CMD_REQ_REDIS_XRANGE => 339
  | CMD_REQ_REDIS_XREAD => 340
  | CMD_REQ_REDIS_XREADGROUP => 341
  | CMD_REQ_REDIS_XREVRANGE => 342
  | CMD_REQ_REDIS_XSETID => 343
  | CMD_REQ_REDIS_XTRIM => 344
  | CMD_REQ_REDIS_ZADD => 345
  | CMD_REQ_REDIS_ZCARD => 346
  | CMD_REQ_REDIS_ZCOUNT => 347
  | CMD_REQ_REDIS_ZDIFF => 348
  | CMD_REQ_REDIS_ZDIFFSTORE => 349
  | CMD_REQ_REDIS_ZINCRBY => 350
  | CMD_REQ_REDIS_ZINTER => 351
  | CMD_REQ_REDIS_ZINTERCARD => 352
  | CMD_REQ_REDIS_ZINTERSTORE => 353
  | CMD_REQ_REDIS_ZLEXCOUNT => 354
  | CMD_REQ_REDIS_ZMPOP => 355
  | CMD_REQ_REDIS_ZMSCORE => 356
  | CMD_REQ_REDIS_ZPOPMAX => 357
  | CMD_REQ_REDIS_ZPOPMIN => 358
  | CMD_REQ_REDIS_ZRANDMEMBER => 359
  | CMD_REQ_REDIS_ZRANGE => 360
  | CMD_REQ_REDIS_ZRANGEBYLEX => 361
  | CMD_REQ_REDIS_ZRANGEBYSCORE => 362
  | CMD_REQ_REDIS_ZRANGESTORE => 363
  | CMD_REQ_REDIS_ZRANK => 364
  | CMD_REQ_REDIS_ZREM => 365
  | CMD_REQ_REDIS_ZREMRANGEBYLEX => 366
  | CMD_REQ_REDIS_ZREMRANGEBYRANK => 367
  | CMD_REQ_REDIS_ZREMRANGEBYSCORE => 368
  | CMD_REQ_REDIS_ZREVRANGE => 369
  | CMD_REQ_REDIS_ZREVRANGEBYLEX => 370
  | CMD_REQ_REDIS_ZREVRANGEBYSCORE => 371
  | CMD_REQ_REDIS_ZREVRANK => 372
  | CMD_REQ_REDIS_ZSCAN => 373
  | CMD_REQ_REDIS_ZSCORE => 374
  | CMD_REQ_REDIS_ZUNION => 375
  | CMD_REQ_REDIS_ZUNIONSTORE => 376
  | CMD_RSP_REDIS_STATUS => 377
  | CMD_RSP_REDIS_ERROR => 378
  | CMD_RSP_REDIS_INTEGER => 379
  | CMD_RSP_REDIS_BULK => 380
  | CMD_RSP_REDIS_MULTIBULK => 381
  | CMD_SENTINEL => 382
  end%nat.

Lemma cmd_type_code_lookup t : all_cmd_types !! cmd_type_code t = Some t.
Proof. destruct t; vm_compute; reflexivity. Qed.

#[global] Instance cmd_type_eq_dec : EqDecision cmd_type.
Proof.
  intros a b. destruct (decide (cmd_type_code a = cmd_type_code b)) as [E|E].
  - left. pose proof (cmd_type_code_lookup a) as Ha. rewrite E, cmd_type_code_lookup in Ha.
    by injection Ha.
  - right. by intros ->.
Defined.
