(* ===== verification/Lookup.v ===== *)
(** * command.c: command lookup

    [redis_lookup_cmd], the binary search of the command table, against a linear
    search for the entry with the upper-cased name. *)
From S2P Require Import Prelude Cmddef.
From Stdlib Require Import Sorting.Sorted.

#[local] Arguments Z.eqb : simpl never.
#[local] Arguments Z.ltb : simpl never.
#[local] Arguments Z.sub : simpl never.
#[local] Arguments Z.compare : simpl never.
#[local] Arguments Z.of_nat : simpl never.

(** [to_upper] on one byte and on a copied argument. *)
Definition upper_byte (b : byte) : byte :=
  if (97 <=? Z_of_byte b) && (Z_of_byte b <=? 122) then byte_of_Z (Z_of_byte b - 32) else b.
Definition to_upper (src : bytes) : bytes := upper_byte <$> src.

(** [strncmp(name, arg, arg_len)], made positive when the name only starts with the
    argument ("HGETALL" and "HGET"). *)
Definition name_cmp (name arg : bytes) : Z :=
  let cmp := strncmp name arg (length arg) in
  if (cmp =? 0) && (Z.of_nat (length arg) <? strlen name) then 1 else cmp.

(** The comparison with a table entry; [None] where the function returns NULL
    because a subcommand is needed and none was given. *)
Definition entry_cmp (cmd : bytes) (arg1 : option bytes) (c : cmddef) : option Z :=
  let cmp := name_cmp (cd_name c) cmd in
  if cmp =? 0 then
    match cd_subname c with
    | None => Some cmp
    | Some subname =>
        match arg1 with
        | None => None
        | Some a => Some (name_cmp subname (to_upper a))
        end
    end
  else Some cmp.

Fixpoint lookup_loop (fuel : nat) (cmd : bytes) (arg1 : option bytes) (left right : Z)
    : option cmddef :=
  match fuel with
  | O => None
  | S fuel' =>
      if left <=? right then
        let i := (left + right) / 2 in
        c ← redis_commands !! Z.to_nat i;
        cmp ← entry_cmp cmd arg1 c;
        if cmp <? 0 then lookup_loop fuel' cmd arg1 (i + 1) right
        else if 0 <? cmp then lookup_loop fuel' cmd arg1 left (i - 1)
        else Some c
      else None
  end.

Definition redis_lookup_cmd (arg0 : bytes) (arg1 : option bytes) : option cmddef :=
  let num_commands := Z.of_nat (length redis_commands) in
  lookup_loop (S (length redis_commands)) (to_upper arg0) arg1 0 (num_commands - 1).

(** ** The order of the table *)
Fixpoint bytes_compare (a b : bytes) : comparison :=
  match a, b with
  | [], [] => Eq
  | [], _ => Lt
  | _, [] => Gt
  | x :: a', y :: b' =>
      match Z_of_byte x ?= Z_of_byte y with Eq => bytes_compare a' b' | r => r end
  end.

Definition bytes_lt (a b : bytes) : Prop := bytes_compare a b = Lt.

Lemma bytes_compare_eq a b : bytes_compare a b = Eq <-> a = b.
Proof.
  revert b. induction a as [|x a IH]; intros [|y b]; simpl; try done.
  destruct (Z_of_byte x ?= Z_of_byte y) eqn:E.
  - apply Z.compare_eq, (inj Z_of_byte) in E as ->. rewrite IH. naive_solver.
  - split; [done|]. intros [= -> ->]. rewrite Z.compare_refl in E. done.
  - split; [done|]. intros [= -> ->]. rewrite Z.compare_refl in E. done.
Qed.

#[global] Instance bytes_lt_trans : Transitive bytes_lt.
Proof.
  unfold bytes_lt. intros a. induction a as [|x a IH]; intros [|y b] [|z c]; simpl; try done.
  destruct (Z.compare_spec (Z_of_byte x) (Z_of_byte y)) as [->|Hxy|]; try done;
    destruct (Z.compare_spec (Z_of_byte y) (Z_of_byte z)) as [Hyz|Hyz|]; try done; intros H1 H2.
  - by eapply IH.
  - rewrite <- Hyz. by replace (Z_of_byte x ?= Z_of_byte y) with Lt by (symmetry; apply Z.compare_lt_iff; lia).
  - by replace (Z_of_byte x ?= Z_of_byte z) with Lt by (symmetry; apply Z.compare_lt_iff; lia).
Qed.

Lemma bytes_lt_irr a : bytes_lt a a -> False.
Proof. unfold bytes_lt. by rewrite (proj2 (bytes_compare_eq a a) eq_refl). Qed.

Lemma ltb_of_nat_S (a b : nat) : (Z.of_nat (S a) <? Z.of_nat (S b)) = (Z.of_nat a <? Z.of_nat b).
Proof. apply eq_true_iff_eq. rewrite !Z.ltb_lt. lia. Qed.

(** [name_cmp] has the sign of the comparison with the argument's C string. *)
Lemma name_cmp_compare name arg :
  Byte.x00 ∉ name -> (name_cmp name arg ?= 0) = bytes_compare name (c_str arg).
Proof.
  unfold name_cmp, strlen. revert arg. induction name as [|x name IH]; intros arg Hn.
  - destruct arg as [|y arg]; [done|]. simpl. pose proof (Z_of_byte_range y).
    destruct (decide (y = Byte.x00)) as [->|Hy]; [done|].
    assert (Z_of_byte y <> 0). { intros H0. apply Hy, (inj Z_of_byte). by rewrite H0. }
    change (Z_of_byte "000") with 0. replace (0 =? Z_of_byte y) with false by lia. simpl.
    replace (0 - Z_of_byte y =? 0) with false by lia. simpl. apply Z.compare_lt_iff. lia.
  - apply not_elem_of_cons in Hn as [Hx Hn].
    assert (Hx0 : Z_of_byte x <> 0). { intros H0. apply Hx, (inj Z_of_byte). by rewrite H0. }
    pose proof (Z_of_byte_range x). simpl. rewrite decide_False by done.
    destruct arg as [|y arg].
    { change (strncmp (x :: name) [] (length [])) with 0. cbn [length]. rewrite Z.eqb_refl. cbn [andb]. by rewrite (proj2 (Z.ltb_lt (Z.of_nat 0) (Z.of_nat (S (length (c_str name)))))) by lia. }
    simpl. pose proof (Z_of_byte_range y). destruct (decide (y = Byte.x00)) as [->|Hy].
    { change (Z_of_byte "000") with 0. replace (Z_of_byte x =? 0) with false by lia. simpl.
      replace (Z_of_byte x - 0 =? 0) with false by lia. simpl. apply Z.compare_gt_iff. lia. }
    destruct (Z_of_byte x =? Z_of_byte y) eqn:E; simpl.
    + apply Z.eqb_eq in E. rewrite E, Z.compare_refl.
      replace (Z_of_byte y =? 0) with false by lia. rewrite <- IH by done.
      by rewrite ltb_of_nat_S.
    + replace (Z_of_byte x - Z_of_byte y =? 0) with false by lia. simpl.
      destruct (Z.compare_spec (Z_of_byte x) (Z_of_byte y)); [lia|apply Z.compare_lt_iff; lia|apply Z.compare_gt_iff; lia].
Qed.

Definition entry_lt (c d : cmddef) : Prop :=
  bytes_lt (cd_name c) (cd_name d) \/
  cd_name c = cd_name d /\ exists s t, cd_subname c = Some s /\ cd_subname d = Some t /\ bytes_lt s t.

Definition entry_ltb (c d : cmddef) : bool :=
  match bytes_compare (cd_name c) (cd_name d) with
  | Lt => true
  | Gt => false
  | Eq =>
      match cd_subname c, cd_subname d with
      | Some s, Some t => match bytes_compare s t with Lt => true | _ => false end
      | _, _ => false
      end
  end.

Lemma entry_ltb_lt c d : entry_ltb c d = true -> entry_lt c d.
Proof.
  unfold entry_ltb, entry_lt, bytes_lt. destruct (bytes_compare (cd_name c) (cd_name d)) eqn:E; try done.
  - apply bytes_compare_eq in E. destruct (cd_subname c) as [s|], (cd_subname d) as [t|]; try done.
    destruct (bytes_compare s t) eqn:E2; try done. eauto 10.
  - by left.
Qed.

#[global] Instance entry_lt_trans : Transitive entry_lt.
Proof.
  intros a b c [H1|(H1 & s & t & Hs & Ht & Hst)] [H2|(H2 & s' & t' & Hs' & Ht' & Hst')].
  - left. by etransitivity.
  - left. by rewrite <- H2.
  - left. by rewrite H1.
  - right. rewrite H1, H2. simplify_eq. split; [done|]. exists s, t'. split; [done|].
    split; [done|]. by etransitivity.
Qed.

Fixpoint adjacent {A} (f : A -> A -> bool) (l : list A) : bool :=
  match l with
  | a :: (b :: _) as l' => f a b && adjacent f l'
  | _ => true
  end.

Lemma adjacent_sorted {A} (f : A -> A -> bool) (R : A -> A -> Prop) l :
  (forall a b, f a b = true -> R a b) -> adjacent f l = true -> Sorted R l.
Proof.
  intros Hf. induction l as [|a l IH]; [constructor|]. intros H. destruct l as [|b l].
  - repeat constructor.
  - cbn [adjacent] in H. apply andb_prop in H as [Hab Hl]. constructor; [by apply IH|].
    constructor. by apply Hf.
Qed.

(** The table is strictly sorted, and its names are C strings. *)
Lemma redis_commands_sorted : StronglySorted entry_lt redis_commands.
Proof.
  apply Sorted_StronglySorted; [apply entry_lt_trans|].
  apply (adjacent_sorted entry_ltb); [apply entry_ltb_lt|]. vm_compute. reflexivity.
Qed.

Definition no_nul (s : bytes) : bool := forallb (fun b => negb (Byte.eqb b Byte.x00)) s.

Lemma no_nul_spec s : no_nul s = true -> Byte.x00 ∉ s.
Proof.
  unfold no_nul. rewrite forallb_forall. intros H Hin. apply list_elem_of_In in Hin.
  by specialize (H _ Hin).
Qed.

Definition entry_names_ok (c : cmddef) : bool :=
  no_nul (cd_name c) && match cd_subname c with Some s => no_nul s | None => true end.

Lemma redis_commands_names : forallb entry_names_ok redis_commands = true.
Proof. vm_compute. reflexivity. Qed.

(** ** The search *)

(** What the search looks for. *)
Definition cmd_matches (arg0 : bytes) (arg1 : option bytes) (c : cmddef) : bool :=
  bool_decide (cd_name c = c_str (to_upper arg0)) &&
  match cd_subname c, arg1 with
  | None, _ => true
  | Some s, Some a => bool_decide (s = c_str (to_upper a))
  | Some _, None => false
  end.

Section Search.
Variables (arg0 : bytes) (arg1 : option bytes).
Abbreviation cmd := (to_upper arg0).

(** An entry compares as its name and subname do. *)
Lemma entry_cmp_spec c : c ∈ redis_commands ->
  match entry_cmp cmd arg1 c with
  | Some r =>
      (r < 0 /\ (bytes_lt (cd_name c) (c_str cmd) \/
                 cd_name c = c_str cmd /\ exists s a, cd_subname c = Some s /\ arg1 = Some a /\
                   bytes_lt s (c_str (to_upper a)))) \/
      (0 < r /\ (bytes_compare (cd_name c) (c_str cmd) = Gt \/
                 cd_name c = c_str cmd /\ exists s a, cd_subname c = Some s /\ arg1 = Some a /\
                   bytes_compare s (c_str (to_upper a)) = Gt)) \/
      (r = 0 /\ cmd_matches arg0 arg1 c = true)
  | None => cd_name c = c_str cmd /\ is_Some (cd_subname c) /\ arg1 = None
  end.
Proof.
  intros Hc. pose proof redis_commands_names as Hn. rewrite forallb_forall in Hn.
  apply list_elem_of_In, Hn in Hc. unfold entry_names_ok in Hc. apply andb_prop in Hc as [Hc1 Hc2].
  apply no_nul_spec in Hc1. pose proof (name_cmp_compare _ cmd Hc1) as H1.
  unfold entry_cmp, cmd_matches, bytes_lt. destruct (Z.compare_spec (name_cmp (cd_name c) cmd) 0) as [E|E|E].
  - rewrite E, Z.eqb_refl. symmetry in H1. apply bytes_compare_eq in H1 as H1'.
    rewrite bool_decide_eq_true_2 by done.
    destruct (cd_subname c) as [s|]; [|naive_solver]. destruct arg1 as [a|]; [|by eauto].
    apply no_nul_spec in Hc2. pose proof (name_cmp_compare _ (to_upper a) Hc2) as H2.
    destruct (Z.compare_spec (name_cmp s (to_upper a)) 0) as [E2|E2|E2].
    + right. right. symmetry in H2. apply bytes_compare_eq in H2. by rewrite bool_decide_eq_true_2.
    + left. split; [done|]. right. eauto 10.
    + right. left. split; [done|]. right. eauto 10.
  - replace (name_cmp (cd_name c) cmd =? 0) with false by lia. left. eauto.
  - replace (name_cmp (cd_name c) cmd =? 0) with false by lia. right. left. eauto.
Qed.

Lemma cmd_matches_true c : cmd_matches arg0 arg1 c = true ->
  cd_name c = c_str cmd /\ forall s, cd_subname c = Some s -> exists a, arg1 = Some a /\ s = c_str (to_upper a).
Proof.
  unfold cmd_matches. intros [H1 H2]%andb_prop. apply bool_decide_eq_true in H1. split; [done|].
  intros s Hs. rewrite Hs in H2. destruct arg1 as [a|]; [|done]. apply bool_decide_eq_true in H2. eauto.
Qed.

Lemma bytes_compare_gt a b : bytes_compare a b = Gt -> bytes_lt b a.
Proof.
  unfold bytes_lt. revert b. induction a as [|x a IH]; intros [|y b]; simpl; try done.
  rewrite (Z.compare_antisym (Z_of_byte x) (Z_of_byte y)). destruct (Z_of_byte x ?= Z_of_byte y); simpl; [apply IH|done|done].
Qed.

(** An entry that compares unequal does not match. *)
Lemma nonzero_no_match c r : c ∈ redis_commands -> entry_cmp cmd arg1 c = Some r -> r <> 0 ->
  cmd_matches arg0 arg1 c = false.
Proof.
  intros Hc He Hr. destruct (cmd_matches arg0 arg1 c) eqn:Hm; [exfalso|done].
  apply cmd_matches_true in Hm as [Hn Hs]. pose proof (entry_cmp_spec c Hc) as H. rewrite He in H.
  destruct H as [[_ H]|[[_ H]|[? _]]]; [| |done]; rewrite Hn in H;
    destruct H as [H|(_ & s & a & Hcs & Ha & H)].
  - by apply bytes_lt_irr in H.
  - destruct (Hs _ Hcs) as (a' & Ha' & ->). simplify_eq. by apply bytes_lt_irr in H.
  - by rewrite (proj2 (bytes_compare_eq _ _) eq_refl) in H.
  - destruct (Hs _ Hcs) as (a' & Ha' & ->). simplify_eq.
    by rewrite (proj2 (bytes_compare_eq _ _) eq_refl) in H.
Qed.

(** Two entries of the table in order: the first does not match when the second
    is too small, nor the second when the first is too large. *)
Lemma below_no_match c d r : d ∈ redis_commands -> entry_lt c d ->
  entry_cmp cmd arg1 d = Some r -> r < 0 -> cmd_matches arg0 arg1 c = false.
Proof.
  intros Hd Hlt He Hr. destruct (cmd_matches arg0 arg1 c) eqn:Hm; [exfalso|done].
  apply cmd_matches_true in Hm as [Hn Hs]. pose proof (entry_cmp_spec d Hd) as H. rewrite He in H.
  destruct H as [[_ H]|[[? _]|[? _]]]; [|lia|lia]. unfold entry_lt in Hlt. rewrite Hn in Hlt.
  destruct Hlt as [Hlt|(Heq & s & t & Hcs & Hds & Hst)], H as [H|(H & s' & a & Hs' & -> & H')].
  - by apply (bytes_lt_irr (c_str cmd)); etransitivity.
  - rewrite H in Hlt. by apply bytes_lt_irr in Hlt.
  - rewrite <- Heq in H. by apply bytes_lt_irr in H.
  - destruct (Hs _ Hcs) as (a' & [= <-] & ->). simplify_eq.
    apply (bytes_lt_irr (c_str (to_upper a))). by etransitivity.
Qed.

Lemma above_no_match c d r : c ∈ redis_commands -> entry_lt c d ->
  entry_cmp cmd arg1 c = Some r -> 0 < r -> cmd_matches arg0 arg1 d = false.
Proof.
  intros Hc Hlt He Hr. destruct (cmd_matches arg0 arg1 d) eqn:Hm; [exfalso|done].
  apply cmd_matches_true in Hm as [Hn Hs]. pose proof (entry_cmp_spec c Hc) as H. rewrite He in H.
  destruct H as [[? _]|[[_ H]|[? _]]]; [lia| |lia]. unfold entry_lt in Hlt. rewrite Hn in Hlt.
  destruct Hlt as [Hlt|(Heq & s & t & Hcs & Hds & Hst)], H as [H|(H & s' & a & Hs' & -> & H')].
  - apply bytes_compare_gt in H. by apply (bytes_lt_irr (c_str cmd)); etransitivity.
  - rewrite H in Hlt. by apply bytes_lt_irr in Hlt.
  - apply bytes_compare_gt in H. rewrite Heq in H. by apply bytes_lt_irr in H.
  - apply bytes_compare_gt in H'. destruct (Hs _ Hds) as (a' & [= <-] & ->). simplify_eq.
    apply (bytes_lt_irr (c_str (to_upper a))). by etransitivity.
Qed.

(** Only one entry matches, and none when the subcommand is missing. *)
Lemma match_unique c d : entry_lt c d -> cmd_matches arg0 arg1 d = true -> cmd_matches arg0 arg1 c = false.
Proof.
  intros Hlt Hd. destruct (cmd_matches arg0 arg1 c) eqn:Hc; [exfalso|done].
  apply cmd_matches_true in Hc as [Hcn Hcs], Hd as [Hdn Hds].
  destruct Hlt as [Hlt|(Heq & s & t & Hs & Ht & Hst)].
  - rewrite Hcn, Hdn in Hlt. by apply bytes_lt_irr in Hlt.
  - destruct (Hcs _ Hs) as (a & -> & ->), (Hds _ Ht) as (a' & [= <-] & ->).
    by apply bytes_lt_irr in Hst.
Qed.

Lemma missing_sub_no_match c d : (entry_lt c d \/ entry_lt d c \/ c = d) ->
  entry_cmp cmd arg1 d = None -> d ∈ redis_commands -> cmd_matches arg0 arg1 c = false.
Proof.
  intros Hcd He Hd. pose proof (entry_cmp_spec d Hd) as H. rewrite He in H. destruct H as (Hn & [s Hs] & Ha).
  destruct (cmd_matches arg0 arg1 c) eqn:Hm; [exfalso|done]. apply cmd_matches_true in Hm as [Hcn Hcs].
  destruct Hcd as [[Hlt|(_ & t & u & Ht & _)]|[[Hlt|(_ & t & u & _ & Ht & _)]| ->]].
  - rewrite Hn, Hcn in Hlt. by apply bytes_lt_irr in Hlt.
  - destruct (Hcs _ Ht) as (? & ? & _). congruence.
  - rewrite Hn, Hcn in Hlt. by apply bytes_lt_irr in Hlt.
  - destruct (Hcs _ Ht) as (? & ? & _). congruence.
  - destruct (Hcs _ Hs) as (? & ? & _). congruence.
Qed.
End Search.

Lemma sorted_lookup {A} (R : A -> A -> Prop) l i j a b :
  StronglySorted R l -> l !! i = Some a -> l !! j = Some b -> (i < j)%nat -> R a b.
Proof.
  intros Hs. revert i j. induction Hs as [|x l Hs IH Hx]; intros i j Hi Hj Hij; [done|].
  destruct j as [|j]; [lia|]. simpl in Hj. destruct i as [|i]; simpl in Hi.
  - injection Hi as <-. rewrite List.Forall_forall in Hx. apply Hx, list_elem_of_In.
    by eapply list_elem_of_lookup_2.
  - eapply IH; [done|done|lia].
Qed.

(** The linear search the binary search is equivalent to. *)
Lemma find_first {A} (f : A -> bool) l i a :
  l !! i = Some a -> f a = true -> (forall j b, (j < i)%nat -> l !! j = Some b -> f b = false) ->
  List.find f l = Some a.
Proof.
  revert i. induction l as [|x l IH]; intros i Hi Ha Hj; [done|]. destruct i as [|i]; simpl in *.
  - injection Hi as ->. by rewrite Ha.
  - rewrite (Hj 0%nat x) by (lia || done). apply (IH i); [done|done|]. intros j b Hlt Hb.
    apply (Hj (S j)); [lia|done].
Qed.

Lemma find_none {A} (f : A -> bool) l :
  (forall j b, l !! j = Some b -> f b = false) -> List.find f l = None.
Proof.
  induction l as [|x l IH]; intros Hj; [done|]. simpl. rewrite (Hj 0%nat x) by done.
  apply IH. intros j b Hb. by apply (Hj (S j)).
Qed.

Lemma lookup_loop_find arg0 arg1 : forall fuel left right,
  0 <= left -> right < Z.of_nat (length redis_commands) -> right - left < Z.of_nat fuel ->
  (forall j b, Z.of_nat j < left -> redis_commands !! j = Some b -> cmd_matches arg0 arg1 b = false) ->
  (forall j b, right < Z.of_nat j -> redis_commands !! j = Some b -> cmd_matches arg0 arg1 b = false) ->
  lookup_loop fuel (to_upper arg0) arg1 left right = List.find (cmd_matches arg0 arg1) redis_commands.
Proof.
  induction fuel as [|fuel IH]; intros left right Hl Hr Hf Hlo Hhi.
  { symmetry. apply find_none. intros j b Hb. destruct (decide (Z.of_nat j < left)); [by eapply Hlo|].
    apply (Hhi j); [lia|done]. }
  cbn [lookup_loop]. destruct (left <=? right) eqn:E.
  2: { symmetry. apply find_none. intros j b Hb. destruct (decide (Z.of_nat j < left)); [by eapply Hlo|].
       apply (Hhi j); [lia|done]. }
  assert (Hmid : left <= (left + right) / 2 <= right) by zdiv.
  set (i := (left + right) / 2) in *. clearbody i.
  destruct (lookup_lt_is_Some_2 redis_commands (Z.to_nat i)) as [c Hc]; [lia|]. rewrite Hc. cbn [mbind option_bind].
  assert (Hin : c ∈ redis_commands) by (by eapply list_elem_of_lookup_2).
  assert (Hord : forall j b, redis_commands !! j = Some b ->
            (Z.of_nat j < i /\ entry_lt b c) \/ (i < Z.of_nat j /\ entry_lt c b) \/ (Z.of_nat j = i /\ b = c)).
  { intros j b Hb. destruct (Z.lt_trichotomy (Z.of_nat j) i) as [Hlt|[Heq|Hgt]].
    - left. split; [done|]. eapply sorted_lookup; [apply redis_commands_sorted|done|done|lia].
    - right. right. split; [done|]. replace j with (Z.to_nat i) in Hb by lia. by simplify_eq.
    - right. left. split; [done|]. eapply sorted_lookup; [apply redis_commands_sorted|done|done|lia]. }
  destruct (entry_cmp (to_upper arg0) arg1 c) as [r|] eqn:He; cbn [mbind option_bind].
  2: { symmetry. apply find_none. intros j b Hb. apply (missing_sub_no_match arg0 arg1 b c); [|done|done].
       destruct (Hord j b Hb) as [[_ ?]|[[_ ?]|[_ ?]]]; auto. }
  pose proof (entry_cmp_spec arg0 arg1 c Hin) as Hspec. rewrite He in Hspec.
  destruct Hspec as [[Hneg _]|[[Hpos _]|[-> Hm]]].
  - replace (r <? 0) with true by lia. apply IH; [lia|lia|lia| |done].
    intros j b Hj Hb. destruct (Hord j b Hb) as [[_ Hlt]|[[? _]|[_ ->]]]; [|lia|].
    + by eapply (below_no_match arg0 arg1 b c).
    + apply (nonzero_no_match arg0 arg1 c r); [done|done|lia].
  - replace (r <? 0) with false by lia. replace (0 <? r) with true by lia. apply IH; [lia|lia|lia|done|].
    intros j b Hj Hb. destruct (Hord j b Hb) as [[? _]|[[_ Hlt]|[_ ->]]]; [lia| |].
    + by eapply (above_no_match arg0 arg1 c b).
    + apply (nonzero_no_match arg0 arg1 c r); [done|done|lia].
  - change (0 <? 0) with false. cbv iota. symmetry. apply (find_first _ _ (Z.to_nat i)); [done|done|].
    intros j b Hj Hb. destruct (Hord j b Hb) as [[_ Hlt]|[[? _]|[? _]]]; [|lia|lia].
    by eapply match_unique.
Qed.

Lemma lookup_is_find arg0 arg1 :
  redis_lookup_cmd arg0 arg1 = List.find (cmd_matches arg0 arg1) redis_commands.
Proof.
  unfold redis_lookup_cmd. apply lookup_loop_find; [lia|lia|lia| |].
  - intros j b Hj. lia.
  - intros j b Hj Hb. apply lookup_lt_Some in Hb. lia.
Qed.

(** C30. The binary search of the command table ends and is the linear search for the
    entry whose name, and subname if it has one, is the upper-cased argument up
    to its first NUL; it finds at most one entry. *)
Theorem redis_lookup_cmd_correct (arg0 : bytes) (arg1 : option bytes) :
  redis_lookup_cmd arg0 arg1 = List.find (cmd_matches arg0 arg1) redis_commands /\
  forall c, c ∈ redis_commands -> cmd_matches arg0 arg1 c = true -> redis_lookup_cmd arg0 arg1 = Some c.
Proof.
  split; [apply lookup_is_find|]. intros c Hc Hm. rewrite lookup_is_find.
  apply list_elem_of_lookup in Hc as [i Hi]. apply (find_first _ _ i); [done|done|].
  intros j b Hlt Hb. eapply match_unique; [|done].
  eapply sorted_lookup; [apply redis_commands_sorted|done|done|lia].
Qed.

Lemma upper_byte_lower b : upper_byte (tolower b) = upper_byte b.
Proof. destruct b; vm_compute; reflexivity. Qed.

Lemma to_upper_lower s : to_upper (tolower <$> s) = to_upper s.
Proof.
  unfold to_upper. rewrite <- list_fmap_compose. apply list_fmap_ext. intros. apply upper_byte_lower.
Qed.

(** Lookup does not depend on the case of the arguments. *)
Theorem redis_lookup_cmd_case (arg0 : bytes) (arg1 : option bytes) :
  redis_lookup_cmd (tolower <$> arg0) ((fun a : bytes => tolower <$> a) <$> arg1)
    = redis_lookup_cmd arg0 arg1.
Proof.
  unfold redis_lookup_cmd. rewrite to_upper_lower. generalize (S (length redis_commands)) at 1 2.
  intros fuel. generalize 0, (Z.of_nat (length redis_commands) - 1).
  induction fuel as [|fuel IH]; intros left right; [done|]. cbn [lookup_loop].
  destruct (left <=? right); [|done]. destruct (redis_commands !! _) as [c|]; [|done].
  cbn [mbind option_bind]. assert (He : entry_cmp (to_upper arg0) ((fun a : bytes => tolower <$> a) <$> arg1) c
    = entry_cmp (to_upper arg0) arg1 c).
  { unfold entry_cmp. destruct arg1 as [a|]; [|done]. cbn [fmap option_fmap option_map].
    by rewrite to_upper_lower. }
  rewrite He. destruct (entry_cmp (to_upper arg0) arg1 c) as [r|]; [|done]. cbn [mbind option_bind].
  rewrite !IH. done.
Qed.

(** The comparison stops at a NUL, so bytes after one do not count. *)
Example lookup_ignores_after_nul :
  cd_type <$> redis_lookup_cmd (str "get" ++ [Byte.x00] ++ str "junk") None = Some CMD_REQ_REDIS_GET.
Proof. vm_compute. reflexivity. Qed.
