(* ===== verification/Command.v ===== *)
(** * command.c: parsing a command

    [struct cmd], its constructor, and [redis_parse_cmd], which finds the keys of a
    command in the wire format.  A [char *] into the command is an offset into
    [r->cmd]; the goto labels are those of the C function.  Whether an allocation
    succeeds is an argument: [realloc_ok n] for growing the key array at [n] keys,
    [malloc_ok] for the error string. *)
From S2P Require Import Prelude Hiarray Goto Hiredis Cmddef Lookup.

#[local] Set Warnings "-register-all".

Inductive cmd_parse_result :=
  | CMD_PARSE_OK | CMD_PARSE_ENOMEM | CMD_PARSE_ERROR | CMD_PARSE_REPAIR | CMD_PARSE_AGAIN.

#[global] Instance cmd_parse_result_eq_dec : EqDecision cmd_parse_result.
Proof. solve_decision. Defined.

Record keypos := mkKeypos {
  kp_start : nat;     (* key start pos *)
  kp_end : nat;       (* key end pos *)
  remain_len : Z      (* uint32_t *)
}.

(** [sizeof(struct keypos)] on a 64-bit platform. *)
Definition sizeof_keypos : Z := 24.

(** [struct cmd].  The sub commands are in list order (adlist.c); an element of
    [frag_seq] is a sub command, named by its slot. *)
Inductive cmd := mkCmd {
  c_id : Z;
  c_result : cmd_parse_result;
  c_errstr : option bytes;
  c_type : cmd_type;
  c_cmd : option bytes;
  c_clen : Z;                     (* uint32_t *)
  c_keys : hiarray keypos;
  c_narg : Z;                     (* uint32_t *)
  c_quit : bool;
  c_noforward : bool;
  c_slot_num : Z;
  c_node_addr : option bytes;
  c_frag_seq : option (list Z);
  c_reply : option redisReply;
  c_sub_commands : option (list cmd)
}.

Definition set_parse (r : cmd) (result : cmd_parse_result) (errstr : option bytes) : cmd :=
  mkCmd (c_id r) result errstr (c_type r) (c_cmd r) (c_clen r) (c_keys r) (c_narg r) (c_quit r)
    (c_noforward r) (c_slot_num r) (c_node_addr r) (c_frag_seq r) (c_reply r) (c_sub_commands r).
Definition set_type (r : cmd) (type : cmd_type) : cmd :=
  mkCmd (c_id r) (c_result r) (c_errstr r) type (c_cmd r) (c_clen r) (c_keys r) (c_narg r) (c_quit r)
    (c_noforward r) (c_slot_num r) (c_node_addr r) (c_frag_seq r) (c_reply r) (c_sub_commands r).
Definition set_cmd (r : cmd) (text : option bytes) (clen : Z) : cmd :=
  mkCmd (c_id r) (c_result r) (c_errstr r) (c_type r) text clen (c_keys r) (c_narg r) (c_quit r)
    (c_noforward r) (c_slot_num r) (c_node_addr r) (c_frag_seq r) (c_reply r) (c_sub_commands r).
Definition set_keys (r : cmd) (keys : hiarray keypos) (narg : Z) : cmd :=
  mkCmd (c_id r) (c_result r) (c_errstr r) (c_type r) (c_cmd r) (c_clen r) keys narg (c_quit r)
    (c_noforward r) (c_slot_num r) (c_node_addr r) (c_frag_seq r) (c_reply r) (c_sub_commands r).
Definition set_slot (r : cmd) (slot_num : Z) (frag_seq : option (list Z)) : cmd :=
  mkCmd (c_id r) (c_result r) (c_errstr r) (c_type r) (c_cmd r) (c_clen r) (c_keys r) (c_narg r) (c_quit r)
    (c_noforward r) slot_num (c_node_addr r) frag_seq (c_reply r) (c_sub_commands r).
Definition set_reply (r : cmd) (reply : option redisReply) : cmd :=
  mkCmd (c_id r) (c_result r) (c_errstr r) (c_type r) (c_cmd r) (c_clen r) (c_keys r) (c_narg r) (c_quit r)
    (c_noforward r) (c_slot_num r) (c_node_addr r) (c_frag_seq r) reply (c_sub_commands r).
Definition set_dest (r : cmd) (node_addr : option bytes) (sub_commands : option (list cmd)) : cmd :=
  mkCmd (c_id r) (c_result r) (c_errstr r) (c_type r) (c_cmd r) (c_clen r) (c_keys r) (c_narg r) (c_quit r)
    (c_noforward r) (c_slot_num r) node_addr (c_frag_seq r) (c_reply r) sub_commands.

(** [command_get]: [cmd_id] is the counter before the call; the two booleans are
    the success of its allocations. *)
Definition command_get (cmd_id : Z) (malloc_ok keys_ok keys_elem_ok : bool) : Z * option cmd :=
  if negb malloc_ok then (cmd_id, None)
  else
    let id := u64 (cmd_id + 1) in
    match hiarray_create keys_ok keys_elem_ok 1 sizeof_keypos with
    | None => (id, None)
    | Some keys =>
        (id, Some (mkCmd id CMD_PARSE_OK None CMD_UNKNOWN None 0 keys 0 false false (-1)
                     None None None None))
    end.

(** What a command owns, as [command_destroy] frees it, in its order: the list of sub
    commands by [listRelease], with [listCommandFree] for each of them. *)
Inductive cmd_part :=
  | own_text (text : bytes)
  | own_errstr (errstr : bytes)
  | own_keys (keys : hiarray keypos)
  | own_frag_seq (frag_seq : list Z)
  | own_reply (reply : redisReply)
  | own_sub_commands
  | own_node_addr (node_addr : bytes)
  | own_command (id : Z).

Definition held {A} (f : A -> cmd_part) (o : option A) : list cmd_part := match o with Some a => [f a] | None => [] end.

Fixpoint command_destroy (command : cmd) : list cmd_part :=
  held own_text (c_cmd command) ++
  held own_errstr (c_errstr command) ++
  [own_keys (c_keys command)] ++
  held own_frag_seq (c_frag_seq command) ++
  held own_reply (c_reply command) ++
  match c_sub_commands command with Some l => flat_map command_destroy l ++ [own_sub_commands] | None => [] end ++
  held own_node_addr (c_node_addr command) ++
  [own_command (c_id command)].

Definition listCommandFree (command : cmd) : list cmd_part := command_destroy command.

(** The replies of the sub commands go with their command. *)
Lemma command_destroy_replies command subs sub r : c_sub_commands command = Some subs -> sub ∈ subs -> c_reply sub = Some r ->
  own_reply r ∈ command_destroy command.
Proof.
  intros Hs Hin Hr. destruct command. cbn in Hs. subst. cbn [command_destroy c_sub_commands].
  do 5 (apply elem_of_app; right). apply elem_of_app. left. apply elem_of_app. left.
  apply list_elem_of_In, in_flat_map. exists sub. split; [by apply list_elem_of_In|]. apply list_elem_of_In.
  destruct sub. cbn in Hr. subst. cbn [command_destroy c_reply held].
  do 4 (apply elem_of_app; right). apply elem_of_app. left. by left.
Qed.

(** [redis_argx] and [redis_argkvx] *)
Definition redis_argx (r : cmd) : bool :=
  match c_type r with
  | CMD_REQ_REDIS_EXISTS | CMD_REQ_REDIS_MGET | CMD_REQ_REDIS_DEL => true
  | _ => false
  end.
Definition redis_argkvx (r : cmd) : bool :=
  match c_type r with CMD_REQ_REDIS_MSET => true | _ => false end.

(** ** Scanning the wire format *)

Definition byte_at (buf : bytes) (p : nat) : byte := nth p buf Byte.x00.

Definition CR : byte := "013".
Definition LF : byte := "010".

(** [while (p < end && *p >= '0' && *p <= '9') n = n * 10 + (uint32_t)( *p++ - '0');] *)
Fixpoint scan_number (fuel : nat) (buf : bytes) (p endp : nat) (n : Z) : nat * Z :=
  match fuel with
  | O => (p, n)
  | S fuel' =>
      if decide (p < endp)%nat then
        if isdigit (byte_at buf p)
        then scan_number fuel' buf (S p) endp (u32 (u32 (n * 10) + (Z_of_byte (byte_at buf p) - 48)))
        else (p, n)
      else (p, n)
  end.

(** [if (p >= end || *p++ != b) return NULL;] *)
Definition expect (buf : bytes) (p endp : nat) (b : byte) : option nat :=
  if decide (p < endp)%nat then
    if decide (byte_at buf p = b) then Some (S p) else None
  else None.

(** The remaining input, or [None] for NULL, and the string and length that were
    stored through [str] and [len], if the function got that far. *)
Definition redis_parse_bulk (buf : bytes) (p endp : nat) : option nat * option (nat * Z) :=
  match expect buf p endp "$"%byte with
  | None => (None, None)
  | Some p =>
      let '(p, length) := scan_number (endp - p) buf p endp 0 in
      match (p ← expect buf p endp CR; expect buf p endp LF) with
      | None => (None, None)
      | Some p =>
          let q := (p + Z.to_nat length)%nat in
          ((q ← expect buf q endp CR; expect buf q endp LF), Some (p, length))
      end
  end.

(** ** [redis_parse_cmd] *)
Inductive parse_label := p_error | p_oom | p_done.

(** The locals that the code at the labels reads. *)
Record pstate := mkPstate {
  ps_r : cmd;
  ps_info : option cmddef;
  ps_arg0 : option (nat * Z);
  ps_arg1 : option (nat * Z)
}.

Abbreviation P := (G pstate parse_label).

Definition ps_set_r (f : cmd -> cmd) (s : pstate) : pstate :=
  mkPstate (f (ps_r s)) (ps_info s) (ps_arg0 s) (ps_arg1 s).
Definition ps_set_info (info : cmddef) (s : pstate) : pstate :=
  mkPstate (ps_r s) (Some info) (ps_arg0 s) (ps_arg1 s).
Definition ps_set_arg0 (a : option (nat * Z)) (s : pstate) : pstate :=
  mkPstate (ps_r s) (ps_info s) a (ps_arg1 s).
Definition ps_set_arg1 (a : option (nat * Z)) (s : pstate) : pstate :=
  mkPstate (ps_r s) (ps_info s) (ps_arg0 s) a.

(** The bytes of an argument. *)
Definition arg_bytes (buf : bytes) (a : nat * Z) : bytes := take (Z.to_nat a.2) (drop a.1 buf).

Definition push_keypos (realloc_ok : Z -> bool) (r : cmd) (arg : nat * Z) : option (option cmd) :=
  match hiarray_push (realloc_ok (nelem (c_keys r))) (c_keys r) with
  | (_, None) => Some None
  | (keys, Some p) =>
      keys ← store keys p (mkKeypos arg.1 (arg.1 + Z.to_nat arg.2) 0);
      Some (Some (set_keys r keys (c_narg r)))
  end.

Section Parse.
Variables (realloc_ok : Z -> bool) (buf : bytes) (endp : nat).

(** [if ((p = redis_parse_bulk(p, end, &arg, &arglen)) == NULL) goto error;] *)
Definition p_bulk (p : nat) : P (nat * (nat * Z)) :=
  match redis_parse_bulk buf p endp with
  | (Some p, Some arg) => mret (p, arg)
  | _ => goto p_error
  end.

(** [if (!push_keypos(r, arg, arglen)) goto oom;] *)
Definition p_push (arg : nat * Z) : P () :=
  s ← gget;
  o ← gdef (push_keypos realloc_ok (ps_r s) arg);
  r ← gsome p_oom o;
  gmodify (ps_set_r (fun _ => r)).

(** The first two arguments; the pointers are set even when the rest of the bulk
    string is malformed. *)
Definition p_first (p : nat) (set : option (nat * Z) -> pstate -> pstate) : P nat :=
  let '(q, a) := redis_parse_bulk buf p endp in
  gmodify (set a);; gsome p_error q.

(** [while (argidx < (int)rnarg - 1)]: search for the keyword. *)
Fixpoint p_keyword (fuel : nat) (keyword : bytes) (startfrom : Z) (rnarg argidx : Z) (p : nat) : P () :=
  match fuel with
  | O => undefined
  | S fuel' =>
      if argidx <? i32 rnarg - 1 then
        '(p, arg) ← p_bulk p;
        if argidx <? startfrom then p_keyword fuel' keyword startfrom rnarg (argidx + 1) p
        else if strncasecmp keyword (drop arg.1 buf) (Z.to_nat arg.2) =? 0 then
          '(p, arg) ← p_bulk p;
          p_push arg;; goto p_done
        else p_keyword fuel' keyword startfrom rnarg (argidx + 1) p
      else goto p_error
  end.

(** [for (; argidx < info->firstkeypos; argidx++)] *)
Fixpoint p_skip (fuel : nat) (firstkeypos argidx : Z) (p : nat) (arg : nat * Z) : P (nat * (nat * Z)) :=
  match fuel with
  | O => undefined
  | S fuel' =>
      if argidx <? firstkeypos then
        '(p, arg) ← p_bulk p;
        p_skip fuel' firstkeypos (argidx + 1) p arg
      else mret (p, arg)
  end.

(** [for (uint32_t i = 2; i < rnarg; i++)]: the other keys. *)
Fixpoint p_more_keys (fuel : nat) (argkvx : bool) (rnarg i : Z) (p : nat) : P () :=
  match fuel with
  | O => undefined
  | S fuel' =>
      if i <? rnarg then
        '(p, arg) ← p_bulk p;
        (if argkvx && (i mod 2 =? 0) then mret () else p_push arg);;
        p_more_keys fuel' argkvx rnarg (i + 1) p
      else mret ()
  end.

(** From the [*] to the lookup: the number of arguments, the position after the
    first two arguments and the index of the last one read. *)
Definition p_header : P (Z * nat * Z) :=
  gwhen (negb (bool_decide (byte_at buf 0 = "*"%byte))) p_error;;
  let '(p, rnarg) := scan_number (endp - 1) buf 1 endp 0 in
  p ← gsome p_error (p ← expect buf p endp CR; expect buf p endp LF);
  gwhen (rnarg =? 0) p_error;;
  gmodify (ps_set_r (fun r => set_keys r (c_keys r) rnarg));;
  p ← p_first p ps_set_arg0;
  if 1 <? rnarg then
    p ← p_first p ps_set_arg1;
    mret (rnarg, p, 1)
  else mret (rnarg, p, 0).

(** The key is the argument at a position, or follows the count at it. *)
Definition p_indexed (info : cmddef) (rnarg : Z) (p : nat) (argidx : Z) (arg1 : nat * Z) : P () :=
  '(p, arg) ← p_skip (S (length buf)) (firstkeypos info) argidx p arg1;
  '(p, arg) ← (match firstkeymethod info with
               | KEYPOS_KEYNUM =>
                   gwhen (strncmp (str "0") (drop arg.1 buf) (Z.to_nat arg.2) =? 0) p_done;;
                   p_bulk p
               | _ => mret (p, arg)
               end);
  gwhen (bool_decide (cd_type info = CMD_REQ_REDIS_MIGRATE) && (arg.2 =? 0)
         && (match firstkeymethod info with KEYPOS_INDEX => true | _ => false end)
         && (firstkeypos info =? 3)) p_error;;
  p_push arg;;
  s ← gget;
  let r := ps_r s in
  if redis_argx r || redis_argkvx r then
    gwhen (redis_argkvx r && (rnarg mod 2 =? 0)) p_error;;
    p_more_keys (S (length buf)) (redis_argkvx r) rnarg 2 p
  else mret ().

Definition p_body : P () :=
  '(rnarg, p, argidx) ← p_header;
  s ← gget;
  arg0 ← gdef (ps_arg0 s);
  info ← gsome p_error (redis_lookup_cmd (arg_bytes buf arg0) (arg_bytes buf <$> ps_arg1 s));
  gmodify (ps_set_info info);;
  gmodify (ps_set_r (fun r => set_type r (cd_type info)));;
  gwhen ((0 <=? cd_arity info) && negb (i32 rnarg =? cd_arity info)
         || (cd_arity info <? 0) && (i32 rnarg <? - cd_arity info)) p_error;;
  match firstkeymethod info with
  | KEYPOS_NONE => goto p_done
  | _ =>
      arg1 ← gsome p_error (ps_arg1 s);
      match firstkeymethod info with
      | KEYPOS_UNKNOWN =>
          match cd_type info with
          | CMD_REQ_REDIS_XREAD =>
              p_keyword (S (length buf)) (str "STREAMS") 1 rnarg argidx p
          | CMD_REQ_REDIS_XREADGROUP =>
              p_keyword (S (length buf)) (str "STREAMS") 4 rnarg argidx p
          | _ => goto p_error
          end
      | _ => p_indexed info rnarg p argidx arg1
      end
  end.
End Parse.

(** [%.*s]: a negative precision counts as none. *)
Definition fmt_prec (buf : bytes) (a : nat * Z) : bytes :=
  let s := c_str (drop a.1 buf) in
  if i32 a.2 <? 0 then s else take (Z.to_nat (i32 a.2)) s.

(** [snprintf(errstr, errmaxlen, ...)] *)
Definition errmaxlen : nat := 100.
Definition parse_error_text (buf : bytes) (s : pstate) : bytes :=
  take (errmaxlen - 1)
    match ps_info s, ps_arg0 s, ps_arg1 s with
    | Some info, _, _ =>
        str "Failed to find keys of command " ++ cd_name info ++
        match cd_subname info with Some sub => str " " ++ sub | None => [] end
    | None, Some a0, Some a1 =>
        if decide (c_type (ps_r s) = CMD_UNKNOWN)
        then str "Unknown command " ++ fmt_prec buf a0 ++ str " " ++ fmt_prec buf a1
        else str "Command parse error"
    | None, Some a0, None =>
        if decide (c_type (ps_r s) = CMD_UNKNOWN)
        then str "Unknown command " ++ fmt_prec buf a0
        else str "Command parse error"
    | None, None, _ => str "Command parse error"
    end.

(** The code at the labels. *)
Definition parse_finish (malloc_ok : bool) (buf : bytes) (s : pstate) (o : outcome parse_label ())
    : option cmd :=
  let r := ps_r s in
  match o with
  | Undefined => None
  | Normal _ | At p_done => Some (set_parse r CMD_PARSE_OK (c_errstr r))
  | At p_oom => Some (set_parse r CMD_PARSE_ENOMEM (c_errstr r))
  | At p_error =>
      match c_errstr r with
      | None => if malloc_ok then Some (set_parse r CMD_PARSE_ERROR (Some (parse_error_text buf s)))
                else Some (set_parse r CMD_PARSE_ENOMEM None)
      | Some _ => Some (set_parse r CMD_PARSE_ERROR (Some (parse_error_text buf s)))
      end
  end.

Definition redis_parse_cmd (realloc_ok : Z -> bool) (malloc_ok : bool) (r : cmd) : option cmd :=
  buf ← c_cmd r;
  let '(s, o) := p_body realloc_ok buf (Z.to_nat (c_clen r)) (mkPstate r None None None) in
  parse_finish malloc_ok buf s o.

(** ** Bulk strings *)

Lemma byte_at_app pre b post : byte_at (pre ++ b :: post) (length pre) = b.
Proof. unfold byte_at. by rewrite app_nth2, Nat.sub_diag by lia. Qed.

Lemma expect_ok pre b post endp :
  (length pre < endp)%nat -> expect (pre ++ b :: post) (length pre) endp b = Some (S (length pre)).
Proof.
  intros H. unfold expect. rewrite decide_True by done. by rewrite byte_at_app, decide_True.
Qed.

Lemma expect_end buf p endp b : (endp <= p)%nat -> expect buf p endp b = None.
Proof. intros H. unfold expect. by rewrite decide_False by lia. Qed.

(** The decimal digits up to a byte that is none. *)
Lemma scan_number_digits ds : forall fuel pre b post endp n,
  Forall (fun c => isdigit c = true) ds -> isdigit b = false ->
  (length pre + length ds < endp)%nat -> (length ds < fuel)%nat -> 0 <= n ->
  dec_val n ds < 2 ^ 32 ->
  scan_number fuel (pre ++ ds ++ b :: post) (length pre) endp n
    = ((length pre + length ds)%nat, dec_val n ds).
Proof.
  induction ds as [|d ds IH]; intros fuel pre b post endp n Hd Hb Hp Hf Hn Hv.
  - destruct fuel as [|fuel]; [simpl in Hf; lia|]. cbn [scan_number app length] in *.
    rewrite decide_True by lia. by rewrite byte_at_app, Hb, Nat.add_0_r.
  - destruct fuel as [|fuel]; [simpl in Hf; lia|]. cbn [scan_number app length] in *.
    apply Forall_cons in Hd as [Hd0 Hd]. rewrite decide_True by lia. rewrite byte_at_app, Hd0.
    unfold isdigit in Hd0. unfold dec_val in *. cbn [fold_left] in Hv |- *.
    change (Z_of_byte d - 48) with (digit_val d).
    assert (0 <= digit_val d < 10) by (unfold digit_val; lia).
    assert (Hmono : n * 10 + digit_val d < 2 ^ 32).
    { eapply Z.le_lt_trans; [|exact Hv]. apply (dec_val_ge (n * 10 + digit_val d) ds); [lia|done]. }
    rewrite (wrapu_small 32 (n * 10)) by lia. rewrite wrapu_small by lia.
    replace (pre ++ d :: ds ++ b :: post) with ((pre ++ [d]) ++ ds ++ b :: post) by by rewrite <- app_assoc.
    replace (S (length pre)) with (length (pre ++ [d])) by (rewrite length_app; simpl; lia).
    rewrite IH; try done; try lia.
    + f_equal. rewrite length_app. simpl. lia.
    + rewrite length_app. simpl. lia.
Qed.

Lemma isdigit_CR : isdigit CR = false.
Proof. reflexivity. Qed.

(** Where the text of the first bulk string after [pre] is. *)
Definition bulk_loc (pre a : bytes) : nat * Z :=
  ((length pre + 1 + length (dec (Z.of_nat (length a))) + 2)%nat, Z.of_nat (length a)).

Lemma length_fmt_bulk a :
  length (fmt_bulk a) = (length (dec (Z.of_nat (length a))) + length a + 5)%nat.
Proof. unfold fmt_bulk. rewrite !length_app. simpl. lia. Qed.

(** Parsing what formatting wrote. *)
Lemma redis_parse_bulk_fmt pre a post endp :
  (length (pre ++ fmt_bulk a) <= endp)%nat -> Z.of_nat (length a) < 2 ^ 32 ->
  redis_parse_bulk (pre ++ fmt_bulk a ++ post) (length pre) endp
    = (Some (length (pre ++ fmt_bulk a)), Some (bulk_loc pre a)).
Proof.
  intros He Ha. rewrite length_app, length_fmt_bulk in *. set (n := Z.of_nat (length a)) in *.
  assert (Hbuf : pre ++ fmt_bulk a ++ post
    = pre ++ "$"%byte :: dec n ++ CR :: LF :: a ++ CR :: LF :: post).
  { unfold fmt_bulk. rewrite <- !app_assoc. done. }
  rewrite Hbuf. unfold redis_parse_bulk. rewrite expect_ok by lia.
  assert (L1 : length (pre ++ ["$"%byte]) = S (length pre)) by (rewrite length_app; simpl; lia).
  pose proof (dec_val_dec n ltac:(lia)) as Hdv.
  rewrite (app_cons_snoc pre), <- L1, (scan_number_digits (dec n));
    [|by apply dec_digits; lia|done|lia|lia|lia|lia].
  rewrite Hdv. rewrite <- length_app, app_assoc.
  set (q := (pre ++ ["$"%byte]) ++ dec n) in *.
  assert (Lq : length q = (length pre + 1 + length (dec n))%nat) by (unfold q; rewrite !length_app; simpl; lia).
  rewrite expect_ok by lia. cbn [mbind option_bind]. rewrite (app_cons_snoc q).
  replace (S (length q)) with (length (q ++ [CR])) by (rewrite length_app; simpl; lia).
  rewrite expect_ok by (rewrite length_app; simpl; lia). unfold n. rewrite Nat2Z.id.
  rewrite (app_cons_snoc (q ++ [CR])), (app_assoc _ a).
  replace (S (length (q ++ [CR])) + length a)%nat with (length (((q ++ [CR]) ++ [LF]) ++ a))
    by (rewrite !length_app; simpl; lia).
  rewrite expect_ok by (rewrite !length_app; simpl; lia). cbn [mbind option_bind].
  rewrite (app_cons_snoc _ CR).
  replace (S (length (((q ++ [CR]) ++ [LF]) ++ a))) with (length ((((q ++ [CR]) ++ [LF]) ++ a) ++ [CR]))
    by (rewrite !length_app; simpl; lia).
  rewrite expect_ok by (rewrite !length_app; simpl; lia).
  unfold bulk_loc. fold n. f_equal; f_equal; [|f_equal]; rewrite !length_app; simpl; lia.
Qed.

Lemma redis_parse_bulk_end buf p endp : (endp <= p)%nat -> redis_parse_bulk buf p endp = (None, None).
Proof. intros H. unfold redis_parse_bulk. by rewrite expect_end. Qed.

(** ** The specification, on the arguments themselves *)

(** The keyword search of XREAD and XREADGROUP as the code does it: arguments from
    index [i] on; one at an index not above [startfrom] is skipped; the keyword
    matches when the argument is a prefix of it. *)
Fixpoint find_keyword (keyword : bytes) (startfrom : Z) (i : nat) (args : list bytes) : option nat :=
  match args with
  | [] => None
  | a :: rest =>
      if Z.of_nat i <=? startfrom then find_keyword keyword startfrom (S i) rest
      else if strncasecmp keyword a (length a) =? 0
      then match rest with [] => None | _ => Some (S i) end
      else find_keyword keyword startfrom (S i) rest
  end.

Definition is_argx (t : cmd_type) : bool :=
  match t with CMD_REQ_REDIS_EXISTS | CMD_REQ_REDIS_MGET | CMD_REQ_REDIS_DEL => true | _ => false end.
Definition is_argkvx (t : cmd_type) : bool :=
  match t with CMD_REQ_REDIS_MSET => true | _ => false end.

(** The indices of the keys after the first. *)
Definition more_keys (argkvx : bool) (i n : nat) : list nat :=
  filter (fun j => negb (argkvx && (Z.of_nat j mod 2 =? 0)) = true) (seq i (n - i)).

Definition arity_error (info : cmddef) (n : Z) : bool :=
  (0 <=? cd_arity info) && negb (n =? cd_arity info) || (cd_arity info <? 0) && (n <? - cd_arity info).

(** The indices of the keys, when the command is well formed for its entry. *)
Definition key_indices (info : cmddef) (argv : list bytes) : option (list nat) :=
  let n := length argv in
  if arity_error info (Z.of_nat n) then None
  else
    match firstkeymethod info with
    | KEYPOS_NONE => Some []
    | KEYPOS_UNKNOWN =>
        match cd_type info with
        | CMD_REQ_REDIS_XREAD => k ← find_keyword (str "STREAMS") 1 2 (drop 2 argv); Some [k]
        | CMD_REQ_REDIS_XREADGROUP => k ← find_keyword (str "STREAMS") 4 2 (drop 2 argv); Some [k]
        | _ => None
        end
    | KEYPOS_INDEX =>
        if (n <=? 1)%nat then None else
        let k := Z.to_nat (Z.max 1 (firstkeypos info)) in
        a ← argv !! k;
        if bool_decide (cd_type info = CMD_REQ_REDIS_MIGRATE) && (Z.of_nat (length a) =? 0)
           && (firstkeypos info =? 3) then None
        else if is_argkvx (cd_type info) && (Z.of_nat n mod 2 =? 0) then None
        else if is_argx (cd_type info) || is_argkvx (cd_type info)
        then Some (k :: more_keys (is_argkvx (cd_type info)) 2 n)
        else Some [k]
    | KEYPOS_KEYNUM =>
        if (n <=? 1)%nat then None else
        let k := Z.to_nat (Z.max 1 (firstkeypos info)) in
        a ← argv !! k;
        if strncmp (str "0") a (length a) =? 0 then Some []
        else _ ← argv !! S k; Some [S k]
    end.

(** The outcome of parsing: the command's type and key indices, or the text of the
    error. *)
Definition parse_spec (argv : list bytes) : (cmd_type * list nat) + bytes :=
  let a0 := argv !!! 0%nat in
  match redis_lookup_cmd a0 (argv !! 1%nat) with
  | None =>
      inr (take (errmaxlen - 1)
             (str "Unknown command " ++ c_str a0 ++
              match argv !! 1%nat with Some a1 => str " " ++ c_str a1 | None => [] end))
  | Some info =>
      match key_indices info argv with
      | Some idx => inl (cd_type info, idx)
      | None =>
          inr (take (errmaxlen - 1)
                 (str "Failed to find keys of command " ++ cd_name info ++
                  match cd_subname info with Some sub => str " " ++ sub | None => [] end))
      end
  end.

(** ** Positions in a formatted command *)
Definition cmd_prefix (argv : list bytes) (i : nat) : bytes :=
  str "*" ++ dec (Z.of_nat (length argv)) ++ CRLF ++ concat (fmt_bulk <$> take i argv).
Definition arg_pos (argv : list bytes) (i : nat) : nat := length (cmd_prefix argv i).
Definition arg_loc (argv : list bytes) (i : nat) : nat * Z := bulk_loc (cmd_prefix argv i) (argv !!! i).
Definition arg_keypos (argv : list bytes) (i : nat) : keypos :=
  mkKeypos (arg_loc argv i).1 ((arg_loc argv i).1 + length (argv !!! i)) 0.
Definition key_text (buf : bytes) (kp : keypos) : bytes :=
  take (kp_end kp - kp_start kp) (drop (kp_start kp) buf).

Lemma cmd_prefix_S argv i a :
  argv !! i = Some a -> cmd_prefix argv (S i) = cmd_prefix argv i ++ fmt_bulk a.
Proof.
  intros Hi. unfold cmd_prefix. rewrite (take_S_r _ _ _ Hi), fmap_app, concat_app.
  simpl. rewrite app_nil_r, <- !app_assoc. done.
Qed.

Lemma fmt_cmd_split argv i a :
  argv !! i = Some a ->
  fmt_cmd argv = cmd_prefix argv i ++ fmt_bulk a ++ concat (fmt_bulk <$> drop (S i) argv).
Proof.
  intros Hi. unfold fmt_cmd, cmd_prefix. rewrite <- (take_drop_middle _ _ _ Hi) at 2.
  rewrite fmap_app, concat_app, fmap_cons. cbn [concat]. rewrite <- !app_assoc. done.
Qed.

Lemma cmd_prefix_all argv i : (length argv <= i)%nat -> cmd_prefix argv i = fmt_cmd argv.
Proof. intros H. unfold cmd_prefix, fmt_cmd. by rewrite take_ge. Qed.

Lemma fmt_bulk_text pre a post :
  drop (bulk_loc pre a).1 (pre ++ fmt_bulk a ++ post) = a ++ CRLF ++ post.
Proof.
  unfold bulk_loc, fmt_bulk. cbn [fst].
  assert (E : pre ++ (str "$" ++ dec (Z.of_nat (length a)) ++ CRLF ++ a ++ CRLF) ++ post
    = (pre ++ str "$" ++ dec (Z.of_nat (length a)) ++ CRLF) ++ a ++ CRLF ++ post)
    by (rewrite <- !app_assoc; done).
  rewrite E. apply drop_app_length'. rewrite !length_app. simpl. lia.
Qed.

(** Comparing at most the argument's length does not look past it. *)
Lemma strncmp_app a b t : strncmp a (b ++ t) (length b) = strncmp a b (length b).
Proof.
  revert a. induction b as [|y b IH]; intros a; [done|]. simpl. by rewrite IH.
Qed.
Lemma strncasecmp_app a b t : strncasecmp a (b ++ t) (length b) = strncasecmp a b (length b).
Proof.
  revert a. induction b as [|y b IH]; intros a; [done|]. simpl. by rewrite IH.
Qed.

Lemma take_c_str a t : take (length a) (c_str (a ++ t)) = c_str a.
Proof.
  induction a as [|b a IH]; [done|]. simpl. case_decide; [done|]. simpl. by rewrite IH.
Qed.

Section Formatted.
Variables (argv : list bytes) (rest : bytes) (realloc_ok : Z -> bool).
Abbreviation buf := (fmt_cmd argv ++ rest).
Abbreviation endp := (length (fmt_cmd argv)).
Abbreviation n := (Z.of_nat (length argv)).
Hypothesis small : Z.of_nat endp < 2 ^ 31.

Lemma arg_text i a : argv !! i = Some a ->
  drop (arg_loc argv i).1 buf = a ++ CRLF ++ concat (fmt_bulk <$> drop (S i) argv) ++ rest.
Proof.
  intros Hi. unfold arg_loc. rewrite (list_lookup_total_correct _ _ _ Hi), (fmt_cmd_split _ _ _ Hi).
  rewrite <- !app_assoc, fmt_bulk_text. done.
Qed.

Lemma arg_bytes_loc i a : argv !! i = Some a -> arg_bytes buf (arg_loc argv i) = a.
Proof.
  intros Hi. unfold arg_bytes. rewrite (arg_text i a Hi). unfold arg_loc, bulk_loc. cbn [snd].
  rewrite (list_lookup_total_correct _ _ _ Hi), Nat2Z.id. apply take_app_length.
Qed.

Lemma key_text_keypos i a : argv !! i = Some a -> key_text buf (arg_keypos argv i) = a.
Proof.
  intros Hi. unfold key_text, arg_keypos. cbn [kp_start kp_end].
  rewrite (list_lookup_total_correct _ _ _ Hi), (arg_text i a Hi).
  replace (_ - _)%nat with (length a) by lia. apply take_app_length.
Qed.

Lemma endp_split i a : argv !! i = Some a ->
  (arg_pos argv (S i) <= endp)%nat /\ (length a + 6 <= arg_pos argv (S i) - arg_pos argv i)%nat.
Proof.
  intros Hi. unfold arg_pos. rewrite (cmd_prefix_S _ _ _ Hi), (fmt_cmd_split _ _ _ Hi).
  rewrite !length_app, length_fmt_bulk. pose proof (dec_length_pos (Z.of_nat (length a))). lia.
Qed.

Lemma parse_bulk_at i a : argv !! i = Some a ->
  redis_parse_bulk buf (arg_pos argv i) endp = (Some (arg_pos argv (S i)), Some (arg_loc argv i)).
Proof.
  intros Hi. destruct (endp_split i a Hi) as [H1 H2]. unfold arg_pos in *.
  rewrite (cmd_prefix_S _ _ _ Hi) in *. unfold arg_loc. rewrite (list_lookup_total_correct _ _ _ Hi).
  rewrite (fmt_cmd_split _ _ _ Hi) at 1. rewrite <- !app_assoc.
  apply redis_parse_bulk_fmt; [done|lia].
Qed.

Lemma arg_pos_lower i : (i <= length argv)%nat -> (6 * i <= arg_pos argv i)%nat.
Proof.
  induction i as [|i IH]; intros Hi; [lia|].
  destruct (lookup_lt_is_Some_2 argv i) as [a Ha]; [lia|].
  destruct (endp_split i a Ha) as [_ H]. specialize (IH ltac:(lia)). lia.
Qed.

(** Every argument takes at least six bytes. *)
Lemma argc_bound : n < 2 ^ 29.
Proof.
  pose proof (arg_pos_lower (length argv) ltac:(lia)) as H. unfold arg_pos in H.
  rewrite cmd_prefix_all in H by done. lia.
Qed.

Lemma parse_bulk_past i : (length argv <= i)%nat -> redis_parse_bulk buf (arg_pos argv i) endp = (None, None).
Proof. intros H. unfold arg_pos. rewrite cmd_prefix_all by done. by apply redis_parse_bulk_end. Qed.

(** ** The loops *)
Abbreviation p_bulk' := (p_bulk buf endp).
Abbreviation p_push' := (p_push realloc_ok).

Lemma p_bulk_at i a s : argv !! i = Some a ->
  p_bulk' (arg_pos argv i) s = (s, Normal (arg_pos argv (S i), arg_loc argv i)).
Proof. intros Hi. unfold p_bulk. by rewrite (parse_bulk_at i a Hi). Qed.

Lemma p_bulk_past i s : (length argv <= i)%nat -> p_bulk' (arg_pos argv i) s = (s, At p_error).
Proof. intros Hi. unfold p_bulk. by rewrite parse_bulk_past. Qed.

Lemma gbind_p_bulk {B} i (f : nat * (nat * Z) -> P B) s :
  (p_bulk' (arg_pos argv i) ≫= f) s =
    if decide (i < length argv)%nat then f (arg_pos argv (S i), arg_loc argv i) s else (s, At p_error).
Proof.
  case_decide as H.
  - destruct (lookup_lt_is_Some_2 argv i H) as [a Ha]. by erewrite gbind_normal by by eapply p_bulk_at.
  - by erewrite gbind_at by (apply p_bulk_past; lia).
Qed.

Lemma p_keyword_spec kw sf : forall fuel i s,
  (length argv < fuel + i)%nat -> (1 <= i <= length argv)%nat ->
  p_keyword realloc_ok buf endp fuel kw sf n (Z.of_nat i - 1) (arg_pos argv i) s
    = match find_keyword kw sf i (drop i argv) with
      | Some k => (p_push' (arg_loc argv k);; goto p_done) s
      | None => (s, At p_error)
      end.
Proof.
  pose proof argc_bound as Hn.
  induction fuel as [|fuel IH]; intros i s Hf Hi.
  - lia.
  - cbn [p_keyword]. rewrite i32_small by (unfold INT_MIN, INT_MAX; lia).
    destruct (argv !! i) as [a|] eqn:Ha.
    + pose proof (lookup_lt_Some _ _ _ Ha). replace (Z.of_nat i - 1 <? n - 1) with true by lia.
      rewrite gbind_p_bulk, decide_True by done. rewrite (drop_S _ _ _ Ha). cbn [find_keyword].
      replace (Z.of_nat i - 1 <? sf) with (Z.of_nat i <=? sf) by (apply eq_true_iff_eq; lia).
      replace (Z.of_nat i - 1 + 1) with (Z.of_nat (S i) - 1) by lia.
      destruct (Z.of_nat i <=? sf); [apply IH; lia|]. cbn [fst snd].
      rewrite (arg_text i a Ha). unfold arg_loc at 1, bulk_loc. cbn [snd].
      rewrite (list_lookup_total_correct _ _ _ Ha), Nat2Z.id, strncasecmp_app.
      destruct (strncasecmp kw a (length a) =? 0); [|apply IH; lia].
      rewrite gbind_p_bulk. destruct (drop (S i) argv) as [|b l] eqn:Hd.
      * rewrite decide_False; [done|]. apply (f_equal length) in Hd. rewrite length_drop in Hd. simpl in Hd. lia.
      * rewrite decide_True; [done|]. apply (f_equal length) in Hd. rewrite length_drop in Hd. simpl in Hd. lia.
    + apply lookup_ge_None in Ha. replace (Z.of_nat i - 1 <? n - 1) with false by lia.
      by rewrite drop_ge by lia.
Qed.

Lemma p_skip_spec fkp : forall fuel j s,
  (length argv < fuel + j)%nat -> (j < length argv)%nat ->
  p_skip buf endp fuel fkp (Z.of_nat j) (arg_pos argv (S j)) (arg_loc argv j) s
    = let k := Nat.max j (Z.to_nat fkp) in
      if decide (j = k \/ k < length argv)%nat then (s, Normal (arg_pos argv (S k), arg_loc argv k))
      else (s, At p_error).
Proof.
  induction fuel as [|fuel IH]; intros j s Hf Hj0; [lia|]. cbn [p_skip].
  destruct (Z.of_nat j <? fkp) eqn:E.
  - rewrite gbind_p_bulk. case_decide as Hj.
    + replace (Z.of_nat j + 1) with (Z.of_nat (S j)) by lia. rewrite IH by lia. cbn zeta.
      replace (Nat.max (S j) (Z.to_nat fkp)) with (Nat.max j (Z.to_nat fkp)) by lia.
      repeat case_decide; try done; lia.
    + cbn zeta. rewrite decide_False by lia. done.
  - cbn zeta. replace (Nat.max j (Z.to_nat fkp)) with j by lia. by rewrite decide_True by lia.
Qed.

(** Pushing several keys. *)
Fixpoint p_push_all (args : list (nat * Z)) : P () :=
  match args with
  | [] => mret ()
  | a :: args' => p_push' a;; p_push_all args'
  end.

Lemma more_keys_cons kvx i : (i < length argv)%nat ->
  more_keys kvx i (length argv)
    = (if kvx && (Z.of_nat i mod 2 =? 0) then [] else [i]) ++ more_keys kvx (S i) (length argv).
Proof.
  intros Hi. unfold more_keys. replace (length argv - i)%nat with (S (length argv - S i)) by lia.
  cbn [seq]. rewrite filter_cons. destruct (kvx && (Z.of_nat i mod 2 =? 0)); simpl; done.
Qed.

Lemma p_more_keys_spec kvx : forall fuel i s,
  (length argv < fuel + i)%nat -> (i <= length argv)%nat ->
  p_more_keys realloc_ok buf endp fuel kvx n (Z.of_nat i) (arg_pos argv i) s
    = p_push_all (arg_loc argv <$> more_keys kvx i (length argv)) s.
Proof.
  induction fuel as [|fuel IH]; intros i s Hf Hi0.
  - lia.
  - cbn [p_more_keys]. destruct (decide (i < length argv)%nat) as [Hi|Hi].
    + replace (Z.of_nat i <? n) with true by lia. rewrite gbind_p_bulk, decide_True by done.
      rewrite more_keys_cons by done. replace (Z.of_nat i + 1) with (Z.of_nat (S i)) by lia.
      destruct (kvx && (Z.of_nat i mod 2 =? 0)); cbn [app fmap list_fmap p_push_all].
      * rewrite gbind_ret. apply IH; lia.
      * unfold mbind, g_bind. destruct (p_push' (arg_loc argv i) s) as [s' [[]|l|]]; [|done|done].
        apply IH; lia.
    + replace (Z.of_nat i <? n) with false by lia. unfold more_keys.
      by replace (length argv - i)%nat with 0%nat by lia.
Qed.

(** ** Pushing keys *)
Definition kp_of (a : nat * Z) : keypos := mkKeypos a.1 (a.1 + Z.to_nat a.2) 0.
Definition upd (keys : hiarray keypos) (s : pstate) : pstate :=
  ps_set_r (fun r => set_keys r keys (c_narg r)) s.

Lemma upd_same s : upd (c_keys (ps_r s)) s = s.
Proof. by destruct s as [[] ? ? ?]. Qed.

Definition some_alloc_fails : Prop := exists k, realloc_ok k = false.

Lemma p_push_spec a l s :
  holds (c_keys (ps_r s)) l -> Z.of_nat (length l) < 2 ^ 30 ->
  (exists keys, p_push' a s = (upd keys s, Normal ()) /\ holds keys (l ++ [kp_of a])) \/
  (p_push' a s = (s, At p_oom) /\ some_alloc_fails).
Proof.
  intros Hh Hl. pose proof (hiarray_push_holds (realloc_ok (nelem (c_keys (ps_r s)))) _ _ (kp_of a) Hh Hl) as H.
  unfold p_push, push_keypos, mbind, g_bind, gget. cbn beta iota.
  destruct (hiarray_push _ _) as [keys [p|]].
  - destruct H as (keys' & Hs & Hh'). left. exists keys'. unfold kp_of in Hs. rewrite Hs. done.
  - destruct H as [_ Hf]. right. split; [done|]. by eexists.
Qed.

Lemma p_push_all_spec args : forall l s,
  holds (c_keys (ps_r s)) l -> Z.of_nat (length l + length args) <= 2 ^ 30 ->
  exists keys,
    (p_push_all args s = (upd keys s, Normal ()) /\ holds keys (l ++ (kp_of <$> args))) \/
    (p_push_all args s = (upd keys s, At p_oom) /\ some_alloc_fails).
Proof.
  induction args as [|a args IH]; intros l s Hh Hl.
  - exists (c_keys (ps_r s)). left. rewrite upd_same, app_nil_r. done.
  - cbn [length] in Hl. cbn [p_push_all]. destruct (p_push_spec a l s Hh) as [(keys & Hp & Hh')|[Hp Hf]]; [lia| |].
    + erewrite gbind_normal by done. destruct (IH (l ++ [kp_of a]) (upd keys s) Hh') as (keys' & H);
        [rewrite length_app; simpl; lia|].
      exists keys'. rewrite <- app_assoc in H. exact H.
    + exists (c_keys (ps_r s)). right. rewrite upd_same. by erewrite gbind_at.
Qed.

Lemma kp_of_loc i : kp_of (arg_loc argv i) = arg_keypos argv i.
Proof. unfold kp_of, arg_keypos, arg_loc, bulk_loc. cbn [fst snd]. by rewrite Nat2Z.id. Qed.

Lemma kp_of_locs (l : list nat) : kp_of <$> (arg_loc argv <$> l) = arg_keypos argv <$> l.
Proof. rewrite <- list_fmap_compose. apply list_fmap_ext. intros. apply kp_of_loc. Qed.

(** ** The header *)
Lemma endp_ge : (length argv <= length buf)%nat.
Proof.
  pose proof (arg_pos_lower (length argv) ltac:(lia)) as H. unfold arg_pos in H.
  rewrite cmd_prefix_all in H by done. rewrite length_app. lia.
Qed.

Lemma p_header_spec s a0 : argv !! 0%nat = Some a0 ->
  p_header buf endp s
    = (mkPstate (set_keys (ps_r s) (c_keys (ps_r s)) n) (ps_info s) (Some (arg_loc argv 0))
         (if 1 <? n then Some (arg_loc argv 1) else ps_arg1 s),
       Normal (n, arg_pos argv (Nat.min 2 (length argv)), if 1 <? n then 1 else 0)).
Proof.
  intros H0. pose proof argc_bound as Hn. pose proof (lookup_lt_Some _ _ _ H0) as Hpos.
  set (tl := concat (fmt_bulk <$> argv) ++ rest).
  assert (Hbuf : buf = ["*"%byte] ++ dec n ++ CR :: LF :: tl).
  { unfold fmt_cmd, tl. rewrite <- !app_assoc. done. }
  assert (Hpre : arg_pos argv 0 = (length (dec n) + 3)%nat).
  { unfold arg_pos, cmd_prefix. rewrite !length_app. simpl. lia. }
  destruct (endp_split 0 a0 H0) as [He1 He2].
  assert (Hstar : byte_at buf 0 = "*"%byte) by by rewrite Hbuf.
  assert (Hscan : scan_number (endp - 1) buf 1 endp 0 = (S (length (dec n)), n)).
  { rewrite Hbuf. rewrite (scan_number_digits (dec n) _ ["*"%byte]);
      [|by apply dec_digits; lia|done|cbn [length]; lia|cbn [length]; lia|lia|rewrite dec_val_dec by lia; lia].
    by rewrite dec_val_dec by lia. }
  assert (Hcrlf : (p ← expect buf (S (length (dec n))) endp CR; expect buf p endp LF) = Some (arg_pos argv 0)).
  { rewrite Hbuf, app_assoc. change (S (length (dec n))) with (length (["*"%byte] ++ dec n)).
    rewrite expect_ok by (rewrite length_app; cbn [length]; lia). cbn [mbind option_bind]. rewrite app_cons_snoc.
    replace (S (length (["*"%byte] ++ dec n))) with (length ((["*"%byte] ++ dec n) ++ [CR]))
      by (rewrite !length_app; cbn [length]; lia).
    rewrite expect_ok by (rewrite !length_app; cbn [length]; lia). f_equal. rewrite !length_app. cbn [length]. lia. }
  unfold p_header. rewrite gbind_when, Hstar, bool_decide_eq_true_2 by done. cbn [negb].
  rewrite Hscan, Hcrlf. cbn [gsome]. rewrite gbind_ret, gbind_when.
  replace (n =? 0) with false by lia. rewrite gbind_modify.
  unfold p_first. rewrite (parse_bulk_at 0 a0 H0). rewrite gbind_assoc, gbind_modify. cbn [gsome]. rewrite gbind_ret.
  destruct (1 <? n) eqn:E1.
  - destruct (lookup_lt_is_Some_2 argv 1) as [a1 H1]; [lia|].
    rewrite (parse_bulk_at 1 a1 H1). rewrite gbind_assoc, gbind_modify. cbn [gsome]. rewrite gbind_ret.
    replace (Nat.min 2 (length argv)) with 2%nat by lia. reflexivity.
  - replace (Nat.min 2 (length argv)) with 1%nat by lia. reflexivity.
Qed.

(** ** The body *)

(** The multi-key commands have their first key at index 1. *)
Definition entry_multi_ok (c : cmddef) : bool :=
  if is_argx (cd_type c) || is_argkvx (cd_type c)
  then (match firstkeymethod c with KEYPOS_INDEX => true | _ => false end) && (firstkeypos c =? 1)
  else true.

Lemma redis_commands_multi : forallb entry_multi_ok redis_commands = true.
Proof. vm_compute. reflexivity. Qed.

(** How the search for the keys ends, from a state [s] where the entry is known. *)
Definition keys_outcome (info : cmddef) (s : pstate) (res : pstate * outcome parse_label ()) : Prop :=
  exists keys, res.1 = upd keys s /\
    ((exists idx, key_indices info argv = Some idx /\ (res.2 = Normal () \/ res.2 = At p_done) /\
        holds keys (arg_keypos argv <$> idx)) \/
     (key_indices info argv = None /\ res.2 = At p_error) \/
     (res.2 = At p_oom /\ some_alloc_fails)).

Section Body.
Variables (info : cmddef) (s : pstate).
Hypotheses (Hin : info ∈ redis_commands) (Hkeys : holds (c_keys (ps_r s)) [])
  (Htype : c_type (ps_r s) = cd_type info) (Harity : arity_error info n = false).

Lemma keys_error : key_indices info argv = None -> keys_outcome info s (s, At p_error).
Proof. intros H. exists (c_keys (ps_r s)). rewrite upd_same. auto. Qed.

Lemma keys_push_one i (m : () -> P ()) (o : outcome parse_label ()) :
  key_indices info argv = Some [i] -> (forall s', m () s' = (s', o)) -> o = Normal () \/ o = At p_done ->
  keys_outcome info s ((p_push' (arg_loc argv i) ≫= m) s).
Proof.
  intros Hk Hm Ho. destruct (p_push_spec (arg_loc argv i) [] s Hkeys) as [(keys & Hp & Hh)|[Hp Hf]]; [simpl; lia| |].
  - erewrite gbind_normal by done. rewrite Hm. exists keys. split; [done|]. left. exists [i].
    rewrite kp_of_loc in Hh. done.
  - erewrite gbind_at by done. exists (c_keys (ps_r s)). rewrite upd_same. auto.
Qed.

Lemma keyword_outcome sf : (1 < length argv)%nat ->
  key_indices info argv = (k ← find_keyword (str "STREAMS") sf 2 (drop 2 argv); Some [k]) ->
  keys_outcome info s
    (p_keyword realloc_ok buf endp (S (length buf)) (str "STREAMS") sf n 1 (arg_pos argv 2) s).
Proof.
  intros H1 Hk. pose proof endp_ge.
  pose proof (p_keyword_spec (str "STREAMS") sf (S (length buf)) 2 s) as Hspec.
  change (Z.of_nat 2 - 1) with 1 in Hspec. rewrite Hspec by lia. destruct (find_keyword (str "STREAMS") sf 2 (drop 2 argv)) as [k|].
  - eapply keys_push_one; [exact Hk|intros; reflexivity|by right].
  - by apply keys_error.
Qed.

(** What follows once the argument at [k] is known to be the first key. *)
Lemma indexed_push k : (k < length argv)%nat -> (is_argx (cd_type info) || is_argkvx (cd_type info) = true -> k = 1%nat) ->
  key_indices info argv
    = (if is_argkvx (cd_type info) && (n mod 2 =? 0) then None
       else if is_argx (cd_type info) || is_argkvx (cd_type info)
       then Some (k :: more_keys (is_argkvx (cd_type info)) 2 (length argv)) else Some [k]) ->
  keys_outcome info s
    ((p_push' (arg_loc argv k);;
      s ← gget;
      let r := ps_r s in
      if redis_argx r || redis_argkvx r then
        gwhen (redis_argkvx r && (n mod 2 =? 0)) p_error;;
        p_more_keys realloc_ok buf endp (S (length buf)) (redis_argkvx r) n 2 (arg_pos argv (S k))
      else mret ()) s).
Proof.
  intros Hk Hk1 Hspec. pose proof endp_ge as Hbuf. pose proof argc_bound as Hn.
  destruct (p_push_spec (arg_loc argv k) [] s Hkeys) as [(keys & Hp & Hh)|[Hp Hf]]; [simpl; lia| |].
  2: { erewrite gbind_at by done. exists (c_keys (ps_r s)). rewrite upd_same. auto. }
  erewrite gbind_normal by done. rewrite gbind_get. cbn zeta. rewrite kp_of_loc in Hh. simpl in Hh.
  assert (Hx : redis_argx (ps_r (upd keys s)) = is_argx (cd_type info))
    by (unfold redis_argx; cbn; by rewrite Htype).
  assert (Hkv : redis_argkvx (ps_r (upd keys s)) = is_argkvx (cd_type info))
    by (unfold redis_argkvx; cbn; by rewrite Htype).
  rewrite Hx, Hkv. destruct (is_argx (cd_type info) || is_argkvx (cd_type info)) eqn:Em.
  - rewrite gbind_when. destruct (is_argkvx (cd_type info) && (n mod 2 =? 0)).
    + exists keys. split; [done|]. right. left. done.
    + rewrite (Hk1 eq_refl) in *. 
      pose proof (p_more_keys_spec (is_argkvx (cd_type info)) (S (length buf)) 2 (upd keys s)) as Hmore.
      change (Z.of_nat 2) with 2 in Hmore. rewrite Hmore by lia.
      assert (Hlen : (length (more_keys (is_argkvx (cd_type info)) 2 (length argv)) <= length argv)%nat).
      { unfold more_keys. etransitivity; [apply length_filter|]. rewrite length_seq. lia. }
      destruct (p_push_all_spec (arg_loc argv <$> more_keys (is_argkvx (cd_type info)) 2 (length argv))
        [arg_keypos argv 1] (upd keys s) Hh) as (keys' & H); [simpl; rewrite length_fmap; lia|].
      exists keys'. destruct H as [[-> Hh']|[-> Hf]]; (split; [done|]); [|auto].
      left. eexists. split; [exact Hspec|]. split; [by left|]. by rewrite kp_of_locs in Hh'.
  - exists keys. split; [done|]. left. eexists.
    assert (is_argkvx (cd_type info) = false) as E by by destruct (is_argx (cd_type info)), (is_argkvx (cd_type info)).
    rewrite E in Hspec. split; [exact Hspec|]. split; [by left|done].
Qed.

Lemma multi_first : is_argx (cd_type info) || is_argkvx (cd_type info) = true ->
  firstkeymethod info = KEYPOS_INDEX /\ firstkeypos info = 1.
Proof.
  intros H. pose proof redis_commands_multi as Ht. rewrite forallb_forall in Ht.
  apply list_elem_of_In, Ht in Hin as He. unfold entry_multi_ok in He. rewrite H in He.
  apply andb_prop in He as [H1 H2]. destruct (firstkeymethod info); try done. split; [done|lia].
Qed.

Lemma indexed_outcome : (1 < length argv)%nat ->
  firstkeymethod info = KEYPOS_INDEX \/ firstkeymethod info = KEYPOS_KEYNUM ->
  keys_outcome info s (p_indexed realloc_ok buf endp info n (arg_pos argv 2) 1 (arg_loc argv 1) s).
Proof.
  intros H1 Hm. pose proof endp_ge. pose proof argc_bound. unfold p_indexed.
  pose proof (p_skip_spec (firstkeypos info) (S (length buf)) 1 s) as Hskip.
  change (Z.of_nat 1) with 1 in Hskip. unfold mbind at 1, g_bind at 1. rewrite Hskip by lia. cbn zeta.
  pose proof eq_refl (key_indices info argv) as Hspec. unfold key_indices at 2 in Hspec.
  rewrite Harity in Hspec. rewrite (proj2 (Nat.leb_gt (length argv) 1)) in Hspec by lia.
  replace (Z.to_nat (Z.max 1 (firstkeypos info))) with (Nat.max 1 (Z.to_nat (firstkeypos info))) in Hspec by lia.
  set (k := Nat.max 1 (Z.to_nat (firstkeypos info))) in *. cbn zeta in Hspec.
  destruct (decide (1%nat = k \/ (k < length argv)%nat)) as [Hk|Hk].
  2: { assert (argv !! k = None) as E by (apply lookup_ge_None; lia). rewrite E in Hspec.
       apply keys_error. rewrite Hspec. by destruct Hm as [-> | ->]. }
  destruct (lookup_lt_is_Some_2 argv k) as [a Ha]; [lia|]. rewrite Ha in Hspec. cbn [mbind option_bind] in Hspec.
  assert (Hlen : (arg_loc argv k).2 = Z.of_nat (length a)).
  { unfold arg_loc, bulk_loc. cbn [snd]. by rewrite (list_lookup_total_correct _ _ _ Ha). }
  destruct Hm as [Hm|Hm]; rewrite Hm in Hspec |- *.
  - rewrite gbind_ret, gbind_when. rewrite Hlen, andb_true_r.
    destruct (bool_decide (cd_type info = CMD_REQ_REDIS_MIGRATE) && (Z.of_nat (length a) =? 0) && (firstkeypos info =? 3));
      [by apply keys_error|].
    apply indexed_push; [lia| |done]. intros E. apply multi_first in E as [_ E]. lia.
  - rewrite gbind_assoc, gbind_when. rewrite (arg_text k a Ha), Hlen, Nat2Z.id, strncmp_app.
    destruct (strncmp (str "0") a (length a) =? 0).
    + exists (c_keys (ps_r s)). rewrite upd_same. split; [done|]. left. exists []. split; [done|]. split; [by right|done].
    + rewrite gbind_p_bulk. destruct (decide (S k < length argv)%nat) as [HSk|HSk].
      * destruct (lookup_lt_is_Some_2 argv (S k) HSk) as [b Hb]. rewrite Hb in Hspec. cbn [mbind option_bind] in Hspec.
        rewrite gbind_when. rewrite andb_false_r, andb_false_l.
        assert (Hno : is_argx (cd_type info) || is_argkvx (cd_type info) = false).
        { destruct (is_argx (cd_type info) || is_argkvx (cd_type info)) eqn:E; [|done].
          apply multi_first in E as [E _]. congruence. }
        apply indexed_push; [lia|by rewrite Hno|]. rewrite Hno.
        assert (is_argkvx (cd_type info) = false) as -> by by destruct (is_argx (cd_type info)), (is_argkvx (cd_type info)).
        done.
      * apply keys_error. rewrite Hspec. assert (argv !! S k = None) as -> by (apply lookup_ge_None; lia). done.
Qed.
End Body.

(** The state after the lookup. *)
Definition found_state (r : cmd) (info : cmddef) : pstate :=
  mkPstate (set_type (set_keys r (c_keys r) n) (cd_type info)) (Some info) (Some (arg_loc argv 0))
    (if 1 <? n then Some (arg_loc argv 1) else None).

Lemma p_body_found r info : argv <> [] -> holds (c_keys r) [] ->
  redis_lookup_cmd (argv !!! 0%nat) (argv !! 1%nat) = Some info ->
  keys_outcome info (found_state r info) (p_body realloc_ok buf endp (mkPstate r None None None)).
Proof.
  intros Hne Hk Hl. pose proof argc_bound. destruct (lookup_lt_is_Some_2 argv 0) as [a0 H0];
    [by destruct argv; [|simpl; lia]|].
  assert (Hin : info ∈ redis_commands).
  { rewrite lookup_is_find in Hl. apply List.find_some in Hl as [Hl _]. by apply list_elem_of_In. }
  unfold p_body. erewrite gbind_normal by by eapply p_header_spec. cbv beta iota. rewrite gbind_get.
  cbn [ps_arg0 ps_arg1 ps_info ps_r gdef]. rewrite gbind_ret, (arg_bytes_loc 0 a0 H0).
  rewrite (list_lookup_total_correct _ _ _ H0) in Hl.
  assert (Ha1 : arg_bytes buf <$> (if 1 <? n then Some (arg_loc argv 1) else None) = argv !! 1%nat).
  { destruct (argv !! 1%nat) as [a1|] eqn:E1.
    - pose proof (lookup_lt_Some _ _ _ E1). replace (1 <? n) with true by lia. cbn [fmap option_fmap option_map].
      by rewrite (arg_bytes_loc 1 a1 E1).
    - apply lookup_ge_None in E1. by replace (1 <? n) with false by lia. }
  rewrite Ha1, Hl. cbn [gsome]. rewrite gbind_ret, !gbind_modify, gbind_when.
  rewrite i32_small by (unfold INT_MIN, INT_MAX; lia). fold (arity_error info n).
  change (ps_set_r _ (ps_set_info info _)) with (found_state r info).
  assert (Hk' : holds (c_keys (ps_r (found_state r info))) []) by done.
  assert (Ht' : c_type (ps_r (found_state r info)) = cd_type info) by done.
  destruct (arity_error info n) eqn:Ear.
  { apply keys_error. unfold key_indices. by rewrite Ear. }
  assert (Hone : firstkeymethod info <> KEYPOS_NONE -> ~ (1 < length argv)%nat -> key_indices info argv = None).
  { intros Hm Hn1. unfold key_indices. rewrite Ear, (proj2 (Nat.leb_le (length argv) 1)) by lia.
    destruct (firstkeymethod info); try done. rewrite !drop_ge by lia. by destruct (cd_type info). }
  destruct (decide (1 < length argv)%nat) as [Hn1|Hn1].
  - replace (1 <? n) with true by lia. replace (Nat.min 2 (length argv)) with 2%nat by lia. cbn [gsome].
    destruct (firstkeymethod info) eqn:Em; rewrite ?gbind_ret.
    + exists (c_keys r). split; [done|]. left. exists []. unfold key_indices. rewrite Ear, Em. naive_solver.
    + assert (Hkx : cd_type info = CMD_REQ_REDIS_XREAD \/ cd_type info = CMD_REQ_REDIS_XREADGROUP \/
        key_indices info argv = None /\ (match cd_type info with CMD_REQ_REDIS_XREAD | CMD_REQ_REDIS_XREADGROUP => false | _ => true end) = true).
      { unfold key_indices. rewrite Ear, Em. destruct (cd_type info); auto. }
      destruct Hkx as [E|[E|[E E2]]].
      * rewrite E. apply keyword_outcome; try done. unfold key_indices. by rewrite Ear, Em, E.
      * rewrite E. apply keyword_outcome; try done. unfold key_indices. by rewrite Ear, Em, E.
      * destruct (cd_type info); try done; by apply keys_error.
    + apply indexed_outcome; auto.
    + apply indexed_outcome; auto.
  - replace (1 <? n) with false by lia. cbn [gsome].
    destruct (firstkeymethod info) eqn:Em; try (apply keys_error; by apply Hone).
    exists (c_keys r). split; [done|]. left. exists []. unfold key_indices. rewrite Ear, Em. naive_solver.
Qed.

(** The state when there is no such command. *)
Definition unknown_state (r : cmd) : pstate :=
  mkPstate (set_keys r (c_keys r) n) None (Some (arg_loc argv 0))
    (if 1 <? n then Some (arg_loc argv 1) else None).

Lemma second_arg : arg_bytes buf <$> (if 1 <? n then Some (arg_loc argv 1) else None) = argv !! 1%nat.
Proof.
  destruct (argv !! 1%nat) as [a1|] eqn:E1.
  - pose proof (lookup_lt_Some _ _ _ E1). replace (1 <? n) with true by lia.
    cbn [fmap option_fmap option_map]. by rewrite (arg_bytes_loc 1 a1 E1).
  - apply lookup_ge_None in E1. by replace (1 <? n) with false by lia.
Qed.

Lemma p_body_unknown r : argv <> [] ->
  redis_lookup_cmd (argv !!! 0%nat) (argv !! 1%nat) = None ->
  p_body realloc_ok buf endp (mkPstate r None None None) = (unknown_state r, At p_error).
Proof.
  intros Hne Hl. destruct (lookup_lt_is_Some_2 argv 0) as [a0 H0]; [by destruct argv; [|simpl; lia]|].
  unfold p_body. erewrite gbind_normal by by eapply p_header_spec. cbv beta iota. rewrite gbind_get.
  cbn [ps_arg0 ps_arg1 ps_info ps_r gdef]. rewrite gbind_ret, (arg_bytes_loc 0 a0 H0).
  rewrite (list_lookup_total_correct _ _ _ H0) in Hl. by rewrite second_arg, Hl.
Qed.

Lemma fmt_prec_loc i a : argv !! i = Some a -> fmt_prec buf (arg_loc argv i) = c_str a.
Proof.
  intros Hi. unfold fmt_prec. rewrite (arg_text i a Hi). destruct (endp_split i a Hi).
  assert (Hl : (arg_loc argv i).2 = Z.of_nat (length a)).
  { unfold arg_loc, bulk_loc. cbn [snd]. by rewrite (list_lookup_total_correct _ _ _ Hi). }
  rewrite Hl, i32_small by (unfold INT_MIN, INT_MAX; lia).
  replace (Z.of_nat (length a) <? 0) with false by lia. rewrite Nat2Z.id. apply take_c_str.
Qed.

Lemma unknown_text r : argv <> [] -> c_type r = CMD_UNKNOWN ->
  parse_error_text buf (unknown_state r)
    = take (errmaxlen - 1)
        (str "Unknown command " ++ c_str (argv !!! 0%nat) ++
         match argv !! 1%nat with Some a1 => str " " ++ c_str a1 | None => [] end).
Proof.
  intros Hne Ht. destruct (lookup_lt_is_Some_2 argv 0) as [a0 H0]; [by destruct argv; [|simpl; lia]|].
  unfold parse_error_text, unknown_state. cbn [ps_info ps_arg0 ps_arg1 ps_r].
  rewrite (list_lookup_total_correct _ _ _ H0). destruct (argv !! 1%nat) as [a1|] eqn:E1.
  - pose proof (lookup_lt_Some _ _ _ E1). replace (1 <? n) with true by lia.
    rewrite decide_True by done. by rewrite (fmt_prec_loc 0 a0 H0), (fmt_prec_loc 1 a1 E1).
  - apply lookup_ge_None in E1. replace (1 <? n) with false by lia.
    rewrite decide_True by done. by rewrite (fmt_prec_loc 0 a0 H0), app_nil_r.
Qed.
End Formatted.

(** A command as [command_get] and the formatting functions leave it. *)
Definition formatted_cmd (r : cmd) (argv : list bytes) (rest : bytes) : Prop :=
  argv <> [] /\ c_cmd r = Some (fmt_cmd argv ++ rest) /\
  c_clen r = Z.of_nat (length (fmt_cmd argv)) /\ c_clen r < 2 ^ 31 /\
  holds (c_keys r) [] /\ c_type r = CMD_UNKNOWN /\ c_errstr r = None.

(** What parsing leaves in the command: for an accepted one its type and the array of
    its keys' positions, for a rejected one the error text. *)
Definition parsed (argv : list bytes) (r r' : cmd) : Prop :=
  c_cmd r' = c_cmd r /\ c_clen r' = c_clen r /\
  match parse_spec argv with
  | inl (t, idx) =>
      c_result r' = CMD_PARSE_OK /\ c_type r' = t /\ c_narg r' = Z.of_nat (length argv) /\
      holds (c_keys r') (arg_keypos argv <$> idx)
  | inr msg => c_result r' = CMD_PARSE_ERROR /\ c_errstr r' = Some msg
  end.

Lemma redis_parse_cmd_parsed realloc_ok malloc_ok r argv rest :
  formatted_cmd r argv rest ->
  exists r', redis_parse_cmd realloc_ok malloc_ok r = Some r' /\
    (parsed argv r r' \/
     (c_result r' = CMD_PARSE_ENOMEM /\ (malloc_ok = false \/ some_alloc_fails realloc_ok))).
Proof.
  intros (Hne & Hcmd & Hclen & Hsmall & Hkeys & Htype & Herr). rewrite Hclen in Hsmall.
  unfold redis_parse_cmd. rewrite Hcmd, Hclen, Nat2Z.id. cbn [mbind option_bind].
  unfold parsed, parse_spec. cbn zeta.
  destruct (redis_lookup_cmd (argv !!! 0%nat) (argv !! 1%nat)) as [info|] eqn:Hl.
  - destruct (p_body_found argv rest realloc_ok Hsmall r info Hne Hkeys Hl) as (keys & Hs & Ho).
    destruct (p_body realloc_ok _ _ _) as [s o]. cbn [fst snd] in Hs, Ho. subst s.
    destruct Ho as [(idx & -> & Ho & Hh)|[[-> ->]|[-> Hf]]].
    + eexists. split; [by destruct Ho as [-> | ->]|]. left. by destruct r.
    + unfold parse_finish. cbn [found_state upd ps_set_r ps_r]. destruct r. cbn in Herr. rewrite Herr. cbn.
      destruct malloc_ok; eexists; (split; [reflexivity|]); [left|right]; cbn; auto.
    + eexists. split; [reflexivity|]. right. cbn. auto.
  - rewrite (p_body_unknown argv rest realloc_ok Hsmall r Hne Hl). unfold parse_finish.
    rewrite (unknown_text argv rest Hsmall r Hne Htype). destruct r. cbn in Herr. rewrite Herr. cbn.
    destruct malloc_ok; eexists; (split; [reflexivity|]); [left|right]; cbn; auto.
Qed.

Lemma find_keyword_bound kw sf : forall args i k,
  find_keyword kw sf i args = Some k -> (k < i + length args)%nat.
Proof.
  induction args as [|a args IH]; intros i k; simpl; [done|].
  destruct (Z.of_nat i <=? sf); [|destruct (strncasecmp kw a (length a) =? 0); [|]].
  - intros H%IH. lia.
  - destruct args; [done|]. intros [= <-]. simpl. lia.
  - intros H%IH. lia.
Qed.

(** The keys are among the arguments. *)
Lemma key_indices_bound info argv idx :
  key_indices info argv = Some idx -> Forall (fun i => i < length argv)%nat idx.
Proof.
  unfold key_indices. destruct (arity_error _ _); [done|].
  assert (Hkw : forall sf k, find_keyword (str "STREAMS") sf 2 (drop 2 argv) = Some k -> (k < length argv)%nat).
  { intros sf k Hk. pose proof (find_keyword_bound _ _ _ _ _ Hk) as Hb. rewrite length_drop in Hb.
    destruct (decide (2 <= length argv)%nat); [lia|]. by rewrite drop_ge in Hk by lia. }
  destruct (firstkeymethod info).
  - intros [= <-]. constructor.
  - destruct (cd_type info); try done; intros (k & Hk & [= <-])%bind_Some; eauto.
  - destruct (length argv <=? 1)%nat; [done|]. intros (a & Ha & H)%bind_Some. apply lookup_lt_Some in Ha.
    destruct (_ && _ && _); [done|]. destruct (_ && _); [done|].
    destruct (_ || _); injection H as <-; constructor; auto.
    unfold more_keys. apply Forall_forall. intros i Hi. apply list_elem_of_filter in Hi as [_ Hi].
    apply elem_of_seq in Hi. lia.
  - destruct (length argv <=? 1)%nat; [done|]. intros (a & Ha & H)%bind_Some.
    destruct (_ =? 0); [injection H as <-; constructor|]. apply bind_Some in H as (b & Hb & [= <-]).
    apply lookup_lt_Some in Hb. constructor; auto.
Qed.

Lemma parse_spec_bound argv t idx :
  parse_spec argv = inl (t, idx) -> Forall (fun i => i < length argv)%nat idx.
Proof.
  unfold parse_spec. cbn zeta. destruct (redis_lookup_cmd _ _) as [info|]; [|done].
  destruct (key_indices info argv) eqn:E; [|done]. intros [= <- <-]. by eapply key_indices_bound.
Qed.

Lemma key_texts argv rest idx : Forall (fun i => i < length argv)%nat idx ->
  key_text (fmt_cmd argv ++ rest) <$> (arg_keypos argv <$> idx) = (fun i => argv !!! i) <$> idx.
Proof.
  intros H. induction H as [|i idx Hi H IH]; [done|]. rewrite !fmap_cons, IH. f_equal.
  destruct (lookup_lt_is_Some_2 _ _ Hi) as [a Ha].
  by rewrite (key_text_keypos argv rest i a Ha), (list_lookup_total_correct _ _ _ Ha).
Qed.


(** The keyword of XREAD is not looked for at argument 1: whatever that argument
    is, STREAMS included, the command is rejected when no later argument matches,
    so [XREAD STREAMS key id] is refused. *)
Theorem xread_keyword_unseen (a : bytes) (args : list bytes) :
  (2 <= length args)%nat ->
  Forall (fun x => strncasecmp (str "STREAMS") x (length x) <> 0) args ->
  parse_spec (str "XREAD" :: a :: args) = inr (str "Failed to find keys of command XREAD").
Proof.
  intros Hl Hno. unfold parse_spec. cbn [lookup_total list_lookup_total lookup list_lookup].
  assert (E : redis_lookup_cmd (str "XREAD") (Some a)
    = Some (COMMAND CMD_REQ_REDIS_XREAD "XREAD" None (-4) KEYPOS_UNKNOWN 0)).
  { rewrite lookup_is_find. vm_compute. reflexivity. }
  rewrite E. unfold key_indices. cbn [COMMAND cd_arity firstkeymethod cd_type].
  assert (Ha : arity_error (COMMAND CMD_REQ_REDIS_XREAD "XREAD" None (-4) KEYPOS_UNKNOWN 0)
    (Z.of_nat (length (str "XREAD" :: a :: args))) = false).
  { unfold arity_error. cbn [COMMAND cd_arity length].
    rewrite (proj2 (Z.ltb_ge _ (- -4))) by lia. done. }
  rewrite Ha. cbn [drop]. assert (Hk : forall i, (2 <= i)%nat -> find_keyword (str "STREAMS") 1 i args = None).
  { clear Hl Ha E. induction Hno as [|x args Hx Hno IH]; intros i Hi; [done|].
    cbn [find_keyword]. rewrite (proj2 (Z.leb_gt (Z.of_nat i) 1)) by lia.
    rewrite (proj2 (Z.eqb_neq _ 0) Hx). apply IH. lia. }
  rewrite Hk by lia. reflexivity.
Qed.

Definition ex_cmd (argv : list bytes) : cmd :=
  mkCmd 1 CMD_PARSE_OK None CMD_UNKNOWN (Some (fmt_cmd argv)) (Z.of_nat (length (fmt_cmd argv)))
    (mkHiarray 0 (Some (mkBlock 24 ∅)) 24 1) 0 false false (-1) None None None None.

Lemma ex_cmd_formatted argv : argv <> [] -> Z.of_nat (length (fmt_cmd argv)) < 2 ^ 31 ->
  formatted_cmd (ex_cmd argv) argv [].
Proof.
  intros Hne Hl. unfold formatted_cmd. rewrite app_nil_r. cbn. split_and!; try done.
  destruct (hiarray_create_holds (A := keypos) sizeof_keypos) as (a & Ha & Hh); [unfold sizeof_keypos; lia|].
  vm_compute in Ha. injection Ha as <-. exact Hh.
Qed.

Definition ex_mset : list bytes := [str "mset"; str "foo"; str "1"; str "bar"; str "2"].


Example ex_mset_spec : parse_spec ex_mset = inl (CMD_REQ_REDIS_MSET, [1; 3]%nat).
Proof. vm_compute. reflexivity. Qed.

Lemma xread_keyword_unseen_witness :
  parse_spec (str "XREAD" :: str "STREAMS" :: [str "mystream"; str "0"])
    = inr (str "Failed to find keys of command XREAD").
Proof.
  apply (xread_keyword_unseen (str "STREAMS") [str "mystream"; str "0"]); [simpl; lia|].
  repeat constructor; vm_compute; discriminate.
Defined.

(** ** Safety on arbitrary input *)

Lemma scan_number_bounds buf endp : forall fuel p m,
  (p <= endp)%nat -> 0 <= m < 2 ^ 32 ->
  (p <= (scan_number fuel buf p endp m).1 <= endp)%nat /\ 0 <= (scan_number fuel buf p endp m).2 < 2 ^ 32.
Proof.
  induction fuel as [|fuel IH]; intros p m Hp Hm; [done|]. cbn [scan_number].
  case_decide; [|done]. destruct (isdigit _); [|done].
  destruct (IH (S p) (u32 (u32 (m * 10) + (Z_of_byte (byte_at buf p) - 48)))); [lia|apply wrapu_range; lia|].
  split; [lia|done].
Qed.

Lemma expect_Some buf p endp b q : expect buf p endp b = Some q -> q = S p /\ (q <= endp)%nat.
Proof. unfold expect. repeat case_decide; try done. intros [= <-]. lia. Qed.

Lemma redis_parse_bulk_bounds buf p endp q a :
  redis_parse_bulk buf p endp = (Some q, a) ->
  exists off len, a = Some (off, len) /\ (p + 5 <= q <= endp)%nat /\ (p < off)%nat /\
    (off + Z.to_nat len <= q)%nat.
Proof.
  unfold redis_parse_bulk. destruct (expect buf p endp "$"%byte) as [p1|] eqn:E1; [|done].
  apply expect_Some in E1 as [-> Hp1].
  destruct (scan_number_bounds buf endp (endp - S p) (S p) 0) as [H1 H2]; [lia|lia|].
  destruct (scan_number _ _ _ _ _) as [p2 len]. cbn [fst snd] in *.
  destruct (p ← expect buf p2 endp CR; expect buf p endp LF) as [p3|] eqn:E2; [|done].
  apply bind_Some in E2 as (x & Ex & E2). apply expect_Some in Ex as [-> ?]. apply expect_Some in E2 as [-> ?].
  intros [= E3 <-]. apply bind_Some in E3 as (y & Ey & E3).
  apply expect_Some in Ey as [-> ?]. apply expect_Some in E3 as [-> ?].
  eexists _, _. split; [reflexivity|]. lia.
Qed.

Section Safety.
Variables (realloc_ok : Z -> bool) (buf : bytes) (endp : nat).
Hypotheses (inside : (endp <= length buf)%nat) (small : Z.of_nat endp < 2 ^ 32).

(** Every key lies inside the command. *)
Definition key_inside (kp : keypos) : Prop := (kp_start kp <= kp_end kp <= endp)%nat.

(** The keys found up to position [p]. *)
Definition keys_at (p : nat) (s : pstate) : Prop :=
  exists l, holds (c_keys (ps_r s)) l /\ Forall key_inside l /\ (5 * length l <= p)%nat.

Definition keys_safe (s : pstate) : Prop :=
  exists l, holds (c_keys (ps_r s)) l /\ Forall key_inside l.

Lemma keys_at_safe p s : keys_at p s -> keys_safe s.
Proof. intros (l & H1 & H2 & _). by exists l. Qed.

Lemma keys_at_mono p q s : keys_at p s -> (p <= q)%nat -> keys_at q s.
Proof. intros (l & H1 & H2 & H3) Hq. exists l. split_and!; [done|done|lia]. Qed.

Abbreviation safe m s Q := (gspec m s Q (fun s _ => keys_safe s)).

Lemma p_bulk_safe p s : keys_at p s ->
  safe (p_bulk buf endp p) s (fun s' '(q, a) => s' = s /\ (p + 5 <= q <= endp)%nat /\ (a.1 + Z.to_nat a.2 <= q)%nat).
Proof.
  intros Hk. unfold p_bulk. destruct (redis_parse_bulk buf p endp) as [[q|] a] eqn:E.
  - apply redis_parse_bulk_bounds in E as (off & len & -> & H1 & H2 & H3). apply gspec_ret. done.
  - apply gspec_goto. by eapply keys_at_safe.
Qed.

Lemma p_push_safe p q a s : keys_at p s -> (p + 5 <= q <= endp)%nat -> (a.1 + Z.to_nat a.2 <= endp)%nat ->
  safe (p_push realloc_ok a) s (fun s' _ => keys_at q s').
Proof.
  intros (l & Hh & Hl & Hp) Hq Ha. unfold gspec.
  destruct (p_push_spec realloc_ok a l s Hh) as [(keys & -> & Hh')|[-> _]]; [lia| |].
  - exists (l ++ [kp_of a]). split; [done|]. split.
    + apply Forall_app. split; [done|]. constructor; [|constructor]. unfold key_inside, kp_of. cbn. lia.
    + rewrite length_app. simpl. lia.
  - by exists l.
Qed.

Lemma p_keyword_safe kw sf rnarg : forall fuel argidx p s,
  keys_at p s -> (p <= endp)%nat -> (endp - p < fuel)%nat ->
  safe (p_keyword realloc_ok buf endp fuel kw sf rnarg argidx p) s (fun s' _ => keys_safe s').
Proof.
  induction fuel as [|fuel IH]; intros argidx p s Hk Hp Hf; [lia|]. cbn [p_keyword].
  destruct (argidx <? i32 rnarg - 1); [|apply gspec_goto; by eapply keys_at_safe].
  eapply gspec_bind; [by apply p_bulk_safe|]. intros s' [q a] (-> & Hq & Ha). cbn [fst snd] in *.
  destruct (argidx <? sf); [apply IH; [(eapply keys_at_mono; [done|lia])|lia|lia]|].
  destruct (strncasecmp _ _ _ =? 0); [|apply IH; [(eapply keys_at_mono; [done|lia])|lia|lia]].
  eapply gspec_bind; [apply p_bulk_safe; (eapply keys_at_mono; [done|lia])|].
  intros s' [q' a'] (-> & Hq' & Ha'). cbn [fst snd] in *.
  eapply gspec_bind; [apply (p_push_safe q q'); [(eapply keys_at_mono; [done|lia])|lia|lia]|].
  intros s' [] Hs'. apply gspec_goto. by eapply keys_at_safe.
Qed.

Lemma p_skip_safe fkp : forall fuel argidx p a s,
  keys_at 0 s -> (5 <= p <= endp)%nat -> (endp - p < fuel)%nat -> (a.1 + Z.to_nat a.2 <= endp)%nat ->
  safe (p_skip buf endp fuel fkp argidx p a) s
    (fun s' '(q, a) => s' = s /\ (5 <= q <= endp)%nat /\ (a.1 + Z.to_nat a.2 <= endp)%nat).
Proof.
  induction fuel as [|fuel IH]; intros argidx p a s Hk Hp Hf Ha; [lia|]. cbn [p_skip].
  destruct (argidx <? fkp); [|by apply gspec_ret].
  eapply gspec_bind; [apply (p_bulk_safe p); (eapply keys_at_mono; [done|lia])|].
  intros s' [q b] (-> & Hq & Hb). apply IH; [done|lia|lia|lia].
Qed.

Lemma p_more_keys_safe kvx rnarg : forall fuel i p s,
  keys_at p s -> (p <= endp)%nat -> (endp - p < fuel)%nat ->
  safe (p_more_keys realloc_ok buf endp fuel kvx rnarg i p) s (fun s' _ => keys_safe s').
Proof.
  induction fuel as [|fuel IH]; intros i p s Hk Hp Hf; [lia|]. cbn [p_more_keys].
  destruct (i <? rnarg); [|apply gspec_ret; by eapply keys_at_safe].
  eapply gspec_bind; [by apply p_bulk_safe|]. intros s' [q a] (-> & Hq & Ha).
  eapply (gspec_bind _ _ _ _ _ (fun s' _ => keys_at q s')).
  - destruct (kvx && _); [apply gspec_ret; (eapply keys_at_mono; [done|lia])|].
    apply (p_push_safe p q); [done|lia|lia].
  - intros s' [] Hs'. apply IH; [done|lia|lia].
Qed.

Lemma p_indexed_safe info rnarg p a s :
  keys_at 0 s -> (5 <= p <= endp)%nat -> (a.1 + Z.to_nat a.2 <= endp)%nat ->
  safe (p_indexed realloc_ok buf endp info rnarg p 1 a) s (fun s' _ => keys_safe s').
Proof.
  intros Hk Hp Ha. pose proof (keys_at_safe _ _ Hk) as Hks. unfold p_indexed.
  eapply gspec_bind; [apply (p_skip_safe _ _ _ p); [done|lia|lia|lia]|]. intros s1 [q b] (-> & Hq & Hb).
  eapply (gspec_bind _ _ _ _ _ (fun s' '(q, a) => s' = s /\ (5 <= q <= endp)%nat /\ (a.1 + Z.to_nat a.2 <= endp)%nat)).
  { destruct (firstkeymethod info); try (by apply gspec_ret).
    eapply (gspec_bind _ _ _ _ _ (fun s' _ => s' = s)); [by apply gspec_when|]. intros s' [] ->.
    eapply gspec_mono; [apply p_bulk_safe; (eapply keys_at_mono; [done|lia])| |done].
    intros s' [q' c] (-> & Hq' & Hc). split_and!; try done; lia. }
  intros s1 [q1 b1] (-> & Hq1 & Hb1).
  eapply (gspec_bind _ _ _ _ _ (fun s' _ => s' = s)); [by apply gspec_when|]. intros s' [] ->.
  eapply gspec_bind; [apply (p_push_safe 0 q1); [done|lia|lia]|]. intros s1 [] Hk1.
  eapply (gspec_bind _ _ _ _ _ (fun s' _ => keys_at q1 s')); [done|]. intros s2 r Hk2. cbn zeta.
  destruct (_ || _); [|apply gspec_ret; by eapply keys_at_safe].
  eapply (gspec_bind _ _ _ _ _ (fun s' _ => keys_at q1 s')).
  { apply gspec_when; [intros; by eapply keys_at_safe|done]. }
  intros s3 [] Hk3. apply p_more_keys_safe; [done|lia|lia].
Qed.

Definition arg_in (a : option (nat * Z)) : Prop :=
  exists x, a = Some x /\ (x.1 + Z.to_nat x.2 <= endp)%nat.

Lemma p_first_safe p set s :
  keys_at 0 s -> (forall a s, c_keys (ps_r (set a s)) = c_keys (ps_r s)) ->
  safe (p_first buf endp p set) s
    (fun s' q => (5 <= q <= endp)%nat /\ exists a, arg_in a /\ s' = set a s).
Proof.
  intros (l & Hh & Hl & _) Hset. unfold p_first.
  destruct (redis_parse_bulk buf p endp) as [[q|] a] eqn:E; unfold gspec, gmodify, gputs, mbind, g_bind; cbn.
  - apply redis_parse_bulk_bounds in E as (off & len & -> & H1 & H2 & H3). split; [lia|].
    eexists. split; [|reflexivity]. eexists. split; [reflexivity|]. cbn. lia.
  - exists l. by rewrite Hset.
Qed.

Lemma p_header_safe s : (0 < endp)%nat -> keys_at 0 s ->
  safe (p_header buf endp) s
    (fun s' '(rnarg, p, argidx) => keys_at 0 s' /\ arg_in (ps_arg0 s') /\ (5 <= p <= endp)%nat /\
       (ps_arg1 s' = ps_arg1 s \/ arg_in (ps_arg1 s') /\ argidx = 1)).
Proof.
  intros Hpos Hk. pose proof (keys_at_safe _ _ Hk) as Hks. unfold p_header.
  eapply (gspec_bind _ _ _ _ _ (fun s' _ => s' = s)); [by apply gspec_when|]. intros s' [] ->.
  destruct (scan_number _ _ _ _ _) as [p rnarg].
  destruct (p ← expect buf p endp CR; expect buf p endp LF) as [p1|]; [|by apply gspec_goto].
  cbn [gsome]. unfold gspec. rewrite gbind_ret. fold (gspec (S := pstate) (L := parse_label) (A := Z * nat * Z)).
  eapply (gspec_bind _ _ _ _ _ (fun s' _ => s' = s)); [by apply gspec_when|]. intros s' [] ->.
  eapply (gspec_bind _ _ _ _ _ (fun s' _ => keys_at 0 s' /\ ps_arg1 s' = ps_arg1 s)); [done|].
  intros s1 [] [Hk1 Ha1].
  eapply gspec_bind; [by apply p_first_safe|]. intros s2 q (Hq & a & Ha & ->).
  destruct (1 <? rnarg).
  - eapply gspec_bind; [by apply p_first_safe|]. intros s3 q' (Hq' & b & Hb & ->).
    apply gspec_ret. do 3 (split; [done|]). auto.
  - apply gspec_ret. do 3 (split; [done|]). auto.
Qed.

Lemma p_body_safe s : (0 < endp)%nat -> keys_at 0 s -> ps_arg1 s = None ->
  safe (p_body realloc_ok buf endp) s (fun s' _ => keys_safe s').
Proof.
  intros Hpos Hk Hnone. unfold p_body. eapply gspec_bind; [by apply p_header_safe|].
  intros s1 [[rnarg p] argidx] (Hk1 & (a0 & Ha0 & _) & Hp & Ha1). pose proof (keys_at_safe _ _ Hk1) as Hks.
  eapply (gspec_bind _ _ _ _ _ (fun s' r => s' = s1 /\ r = s1)); [done|]. intros s2 r [-> ->].
  rewrite Ha0. cbn [gdef].
  eapply (gspec_bind _ _ _ _ _ (fun s' _ => s' = s1)); [done|]. intros s2 x ->.
  eapply (gspec_bind _ _ _ _ _ (fun s' _ => s' = s1)); [by destruct (redis_lookup_cmd _ _)|]. intros s2 info ->.
  eapply (gspec_bind _ _ _ _ _ (fun s' _ => keys_at 0 s')); [done|]. intros s2 [] Hk2.
  eapply (gspec_bind _ _ _ _ _ (fun s' _ => keys_at 0 s')); [done|]. intros s3 [] Hk3.
  pose proof (keys_at_safe _ _ Hk3) as Hks3.
  eapply (gspec_bind _ _ _ _ _ (fun s' _ => s' = s3)); [by apply gspec_when|]. intros s4 [] ->.
  assert (Hfin : forall m : nat * Z -> P (),
    (forall a, (a.1 + Z.to_nat a.2 <= endp)%nat -> argidx = 1 -> safe (m a) s3 (fun s' _ => keys_safe s')) ->
    safe (arg1 ← gsome p_error (ps_arg1 s1); m arg1) s3 (fun s' _ => keys_safe s')).
  { intros m Hm. destruct Ha1 as [Ha1|[(a & Ha & Hain) Hidx]]; [rewrite Ha1, Hnone; done|].
    rewrite Ha. cbn [gsome]. by apply Hm. }
  destruct (firstkeymethod info); [done|..]; apply Hfin; intros a Ha Hidx; subst argidx.
  - destruct (cd_type info); try done; (apply p_keyword_safe; [(eapply keys_at_mono; [done|lia])|lia|lia]).
  - apply p_indexed_safe; [done|lia|done].
  - apply p_indexed_safe; [done|lia|done].
Qed.
End Safety.

Lemma parse_finish_total malloc_ok buf s o :
  o <> Undefined -> exists r', parse_finish malloc_ok buf s o = Some r' /\ c_keys r' = c_keys (ps_r s).
Proof.
  intros Ho. unfold parse_finish. destruct o as [?|[]|]; try done; try (eexists; split; [reflexivity|done]).
  destruct (c_errstr (ps_r s)); [|destruct malloc_ok]; eexists; (split; [reflexivity|done]).
Qed.


(** A command whose bulk length runs past its end. *)
Definition ex_truncated : bytes :=
  str "*2" ++ CRLF ++ str "$3" ++ CRLF ++ str "get" ++ CRLF ++ str "$900" ++ CRLF ++ str "foo".

