(* ===== verification/Context.v ===== *)
(** * hircluster.h: the state of the cluster client

    The records of hircluster.h, the hiredis operations the library calls (a
    parameter), and the state every function of hircluster.c threads.  Nodes are
    heap objects, shared by the nodes dict, the slot table and the slave lists, so
    they live in a heap by address; a slot range belongs to its node's list and is
    stored there. *)
From S2P Require Import Prelude Crc16 Hiarray Dict Goto Hiredis Command.

Abbreviation loc := positive.
Abbreviation conn := positive.

Definition REDIS_ROLE_NULL : Z := 0.
Definition REDIS_ROLE_MASTER : Z := 1.
Definition REDIS_ROLE_SLAVE : Z := 2.
Definition HIRCLUSTER_FLAG_NULL : Z := 0x0.
Definition HIRCLUSTER_FLAG_ADD_SLAVE : Z := 0x1000.
Definition HIRCLUSTER_FLAG_ADD_OPENSLOT : Z := 0x2000.
Definition HIRCLUSTER_FLAG_ROUTE_USE_SLOTS : Z := 0x4000.
Definition HIRCLUSTER_FLAG_SHUTDOWN : Z := 0x8000.
Definition REDIS_ERR_CLUSTER_TOO_MANY_RETRIES : Z := 100.
Definition CLUSTER_DEFAULT_MAX_RETRY_COUNT : Z := 5.

Record timeval := mkTimeval { tv_sec : Z; tv_usec : Z }.
#[global] Instance timeval_eq_dec : EqDecision timeval.
Proof. solve_decision. Defined.

(** [cluster_slot]: the back pointer is the node that owns it, NULL until then. *)
Record cluster_slot := mkSlot {
  sl_start : Z;        (* uint32_t *)
  sl_end : Z;          (* uint32_t *)
  sl_node : option loc
}.

Record copen_slot := mkOpenSlot {
  os_slot_num : Z;     (* uint32_t *)
  os_migrate : bool;
  os_remote_name : bytes;
  os_node : option loc
}.

(** A list of nodes (adlist.c) and whether its [free] method is set, which makes the
    list own its nodes. *)
Record node_list := mkNodeList { nl_free : bool; nl_items : list loc }.

Record redisClusterNode := mkClusterNode {
  n_name : option bytes;
  n_addr : option bytes;
  n_host : option bytes;
  n_port : Z;                          (* uint16_t *)
  n_role : Z;                          (* uint8_t *)
  n_failure_count : Z;
  n_con : option conn;
  n_acon : option conn;
  n_lastConnectionAttempt : Z;
  n_slots : option (list cluster_slot);
  n_slaves : option node_list;
  n_migrating : option (list copen_slot);
  n_importing : option (list copen_slot)
}.

Record redisClusterContext := mkContext {
  cc_err : Z;
  cc_errstr : bytes;
  cc_flags : Z;
  cc_connect_timeout : option timeval;
  cc_command_timeout : option timeval;
  cc_max_retry_count : Z;
  cc_username : option bytes;
  cc_password : option bytes;
  cc_nodes : option (dict bytes loc);
  cc_route_version : Z;                (* uint64_t *)
  cc_table : option (gmap Z loc);      (* by slot; absent is NULL *)
  cc_requests : option (list cmd);
  cc_retry_count : Z;
  cc_need_update_route : Z;
  cc_ssl : bool;                       (* ssl != NULL, and ssl_init_fn with it *)
  cc_on_connect : bool;                (* the callback is set *)
  cc_event_callback : bool
}.

(** What the library tells its user through callbacks, in order. *)
Inductive event :=
  | SLOTMAP_UPDATED
  | READY
  | FREE_CONTEXT
  | ON_CONNECT (c : conn) (status : Z).

(** ** hiredis

    The contexts of hiredis and the network behind them are a state [W]; a
    [redisContext *] is the name of a context in it. *)
Class HiredisOps (W : Type) := {
  redisConnectWithOptions : W -> bytes -> Z -> option timeval -> option timeval -> W * option conn;
  redisReconnect : W -> conn -> W;
  redisFree : W -> conn -> W;
  ctx_err : W -> conn -> Z;
  ctx_errstr : W -> conn -> bytes;
  ctx_tcp_host : W -> conn -> option bytes;
  ssl_init_fn : W -> conn -> W * Z;
  redisCommand : W -> conn -> list bytes -> W * option redisReply;
  redisAppendCommand : W -> conn -> list bytes -> W * Z;
  redisAppendFormattedCommand : W -> conn -> bytes -> W * Z;
  redisBufferWrite : W -> conn -> W * (Z * bool);    (* the status, *done *)
  redisGetReply : W -> conn -> W * (Z * option redisReply);
  redisSetTimeout : W -> conn -> timeval -> W;
  redisAsyncSetTimeout : W -> conn -> timeval -> W;
  redisAsyncFree : W -> conn -> W;
  set_acon_data : W -> conn -> option loc -> W    (* ac->data = ... *)
}.

(** The string functions of hiredis (sds). *)
Class SdsOps := {
  sdsnew : bytes -> bytes;
  sdsnewlen : bytes -> nat -> bytes;
  sdscatfmt_port : bytes -> Z -> bytes;            (* sdscatfmt(s, ":%i", port) *)
  sdsrange : bytes -> Z -> Z -> bytes;
  sdssplitlen : bytes -> bytes -> list bytes       (* sep is not empty *)
}.

(** ** The state *)
Record cstate (W : Type) := mkState {
  s_cc : redisClusterContext;
  s_heap : gmap loc redisClusterNode;
  s_world : W;
  s_allocs : list bool;      (* the answers of the next allocations; then success *)
  s_cmd_id : Z;              (* static uint64_t cmd_id of command.c *)
  s_events : list event
}.
Arguments mkState {W} _ _ _ _ _ _.
Arguments s_cc {W} _.
Arguments s_heap {W} _.
Arguments s_world {W} _.
Arguments s_allocs {W} _.
Arguments s_cmd_id {W} _.
Arguments s_events {W} _.

Section State.
Context {W : Type}.

Definition upd_cc (f : redisClusterContext -> redisClusterContext) (s : cstate W) : cstate W :=
  mkState (f (s_cc s)) (s_heap s) (s_world s) (s_allocs s) (s_cmd_id s) (s_events s).
Definition upd_heap (f : gmap loc redisClusterNode -> gmap loc redisClusterNode) (s : cstate W) : cstate W :=
  mkState (s_cc s) (f (s_heap s)) (s_world s) (s_allocs s) (s_cmd_id s) (s_events s).
Definition upd_world (f : W -> W) (s : cstate W) : cstate W :=
  mkState (s_cc s) (s_heap s) (f (s_world s)) (s_allocs s) (s_cmd_id s) (s_events s).
Definition upd_allocs (f : list bool -> list bool) (s : cstate W) : cstate W :=
  mkState (s_cc s) (s_heap s) (s_world s) (f (s_allocs s)) (s_cmd_id s) (s_events s).
Definition upd_cmd_id (f : Z -> Z) (s : cstate W) : cstate W :=
  mkState (s_cc s) (s_heap s) (s_world s) (s_allocs s) (f (s_cmd_id s)) (s_events s).
Definition upd_events (e : event) (s : cstate W) : cstate W :=
  mkState (s_cc s) (s_heap s) (s_world s) (s_allocs s) (s_cmd_id s) (s_events s ++ [e]).

Context {L : Type}.
Abbreviation M := (G (cstate W) L).

Definition get_cc : M redisClusterContext := fun s => (s, Normal (s_cc s)).
Definition mod_cc (f : redisClusterContext -> redisClusterContext) : M () := gmodify (upd_cc f).

(** One allocation: whether it succeeds. *)
Definition alloc : M bool := fun s => (upd_allocs tail s, Normal (default true (head (s_allocs s)))).

(** [if ((p = alloc()) == NULL) goto l;] *)
Definition alloc_or (l : L) : M () := ok ← alloc; gwhen (negb ok) l.

(** A call of hiredis. *)
Definition world (f : W -> W) : M () := gmodify (upd_world f).
Definition world_call {A} (f : W -> W * A) : M A := fun s =>
  let '(w, a) := f (s_world s) in (upd_world (fun _ => w) s, Normal a).
Definition world_get {A} (f : W -> A) : M A := fun s => (s, Normal (f (s_world s))).

Definition emit (e : event) : M () := gmodify (upd_events e).

(** Access through a node pointer: undefined when the node has been freed. *)
Definition get_node (p : loc) : M redisClusterNode := fun s =>
  (s, match s_heap s !! p with Some nd => Normal nd | None => Undefined end).
Definition put_node (p : loc) (f : redisClusterNode -> redisClusterNode) : M () :=
  nd ← get_node p; gmodify (upd_heap (<[p := f nd]>)).
End State.

(** Assignments to fields of the context. *)
Definition cc_set_error (err : Z) (errstr : bytes) (c : redisClusterContext) : redisClusterContext :=
  mkContext err errstr (cc_flags c) (cc_connect_timeout c) (cc_command_timeout c) (cc_max_retry_count c)
    (cc_username c) (cc_password c) (cc_nodes c) (cc_route_version c) (cc_table c) (cc_requests c)
    (cc_retry_count c) (cc_need_update_route c) (cc_ssl c) (cc_on_connect c) (cc_event_callback c).
Definition cc_set_flags (flags : Z) (c : redisClusterContext) : redisClusterContext :=
  mkContext (cc_err c) (cc_errstr c) flags (cc_connect_timeout c) (cc_command_timeout c) (cc_max_retry_count c)
    (cc_username c) (cc_password c) (cc_nodes c) (cc_route_version c) (cc_table c) (cc_requests c)
    (cc_retry_count c) (cc_need_update_route c) (cc_ssl c) (cc_on_connect c) (cc_event_callback c).
Definition cc_set_timeouts (connect command : option timeval) (c : redisClusterContext) : redisClusterContext :=
  mkContext (cc_err c) (cc_errstr c) (cc_flags c) connect command (cc_max_retry_count c)
    (cc_username c) (cc_password c) (cc_nodes c) (cc_route_version c) (cc_table c) (cc_requests c)
    (cc_retry_count c) (cc_need_update_route c) (cc_ssl c) (cc_on_connect c) (cc_event_callback c).
Definition cc_set_max_retry (max_retry_count : Z) (c : redisClusterContext) : redisClusterContext :=
  mkContext (cc_err c) (cc_errstr c) (cc_flags c) (cc_connect_timeout c) (cc_command_timeout c) max_retry_count
    (cc_username c) (cc_password c) (cc_nodes c) (cc_route_version c) (cc_table c) (cc_requests c)
    (cc_retry_count c) (cc_need_update_route c) (cc_ssl c) (cc_on_connect c) (cc_event_callback c).
Definition cc_set_auth (username password : option bytes) (c : redisClusterContext) : redisClusterContext :=
  mkContext (cc_err c) (cc_errstr c) (cc_flags c) (cc_connect_timeout c) (cc_command_timeout c) (cc_max_retry_count c)
    username password (cc_nodes c) (cc_route_version c) (cc_table c) (cc_requests c)
    (cc_retry_count c) (cc_need_update_route c) (cc_ssl c) (cc_on_connect c) (cc_event_callback c).
Definition cc_set_nodes (nodes : option (dict bytes loc)) (c : redisClusterContext) : redisClusterContext :=
  mkContext (cc_err c) (cc_errstr c) (cc_flags c) (cc_connect_timeout c) (cc_command_timeout c) (cc_max_retry_count c)
    (cc_username c) (cc_password c) nodes (cc_route_version c) (cc_table c) (cc_requests c)
    (cc_retry_count c) (cc_need_update_route c) (cc_ssl c) (cc_on_connect c) (cc_event_callback c).
Definition cc_set_route (route_version : Z) (table : option (gmap Z loc)) (c : redisClusterContext)
    : redisClusterContext :=
  mkContext (cc_err c) (cc_errstr c) (cc_flags c) (cc_connect_timeout c) (cc_command_timeout c) (cc_max_retry_count c)
    (cc_username c) (cc_password c) (cc_nodes c) route_version table (cc_requests c)
    (cc_retry_count c) (cc_need_update_route c) (cc_ssl c) (cc_on_connect c) (cc_event_callback c).
Definition cc_set_requests (requests : option (list cmd)) (c : redisClusterContext) : redisClusterContext :=
  mkContext (cc_err c) (cc_errstr c) (cc_flags c) (cc_connect_timeout c) (cc_command_timeout c) (cc_max_retry_count c)
    (cc_username c) (cc_password c) (cc_nodes c) (cc_route_version c) (cc_table c) requests
    (cc_retry_count c) (cc_need_update_route c) (cc_ssl c) (cc_on_connect c) (cc_event_callback c).
Definition cc_set_retry (retry_count need_update_route : Z) (c : redisClusterContext) : redisClusterContext :=
  mkContext (cc_err c) (cc_errstr c) (cc_flags c) (cc_connect_timeout c) (cc_command_timeout c) (cc_max_retry_count c)
    (cc_username c) (cc_password c) (cc_nodes c) (cc_route_version c) (cc_table c) (cc_requests c)
    retry_count need_update_route (cc_ssl c) (cc_on_connect c) (cc_event_callback c).
Definition cc_set_callbacks (ssl on_connect event_callback : bool) (c : redisClusterContext) : redisClusterContext :=
  mkContext (cc_err c) (cc_errstr c) (cc_flags c) (cc_connect_timeout c) (cc_command_timeout c) (cc_max_retry_count c)
    (cc_username c) (cc_password c) (cc_nodes c) (cc_route_version c) (cc_table c) (cc_requests c)
    (cc_retry_count c) (cc_need_update_route c) ssl on_connect event_callback.

(** Assignments to fields of a node. *)
Definition n_set_ident (name addr host : option bytes) (port role : Z) (n : redisClusterNode) : redisClusterNode :=
  mkClusterNode name addr host port role (n_failure_count n) (n_con n) (n_acon n) (n_lastConnectionAttempt n)
    (n_slots n) (n_slaves n) (n_migrating n) (n_importing n).
Definition n_set_con (con acon : option conn) (n : redisClusterNode) : redisClusterNode :=
  mkClusterNode (n_name n) (n_addr n) (n_host n) (n_port n) (n_role n) (n_failure_count n) con acon
    (n_lastConnectionAttempt n) (n_slots n) (n_slaves n) (n_migrating n) (n_importing n).
Definition n_set_slots (slots : option (list cluster_slot)) (n : redisClusterNode) : redisClusterNode :=
  mkClusterNode (n_name n) (n_addr n) (n_host n) (n_port n) (n_role n) (n_failure_count n) (n_con n) (n_acon n)
    (n_lastConnectionAttempt n) slots (n_slaves n) (n_migrating n) (n_importing n).
Definition n_set_slaves (slaves : option node_list) (n : redisClusterNode) : redisClusterNode :=
  mkClusterNode (n_name n) (n_addr n) (n_host n) (n_port n) (n_role n) (n_failure_count n) (n_con n) (n_acon n)
    (n_lastConnectionAttempt n) (n_slots n) slaves (n_migrating n) (n_importing n).
Definition n_set_open (migrating importing : option (list copen_slot)) (n : redisClusterNode) : redisClusterNode :=
  mkClusterNode (n_name n) (n_addr n) (n_host n) (n_port n) (n_role n) (n_failure_count n) (n_con n) (n_acon n)
    (n_lastConnectionAttempt n) (n_slots n) (n_slaves n) migrating importing.

(** ** Errors and replies *)

(** [__redisClusterSetError]: the description, cut to the buffer.  Every call passes
    one. *)
Definition redisClusterSetError (type : Z) (str : bytes) (c : redisClusterContext) : redisClusterContext :=
  cc_set_error type (take (ERRSTR_SIZE - 1) (c_str str)) c.

Definition set_error {W L} (type : Z) (s : bytes) : G (cstate W) L () := mod_cc (redisClusterSetError type s).

Inductive CLUSTER_ERR_TYPE :=
  | CLUSTER_NOT_ERR | CLUSTER_ERR_MOVED | CLUSTER_ERR_ASK | CLUSTER_ERR_TRYAGAIN
  | CLUSTER_ERR_CLUSTERDOWN | CLUSTER_ERR_SENTINEL.
#[global] Instance cluster_err_type_eq_dec : EqDecision CLUSTER_ERR_TYPE.
Proof. solve_decision. Defined.

(** [(int)strlen(prefix) < reply->len && memcmp(reply->str, prefix, strlen(prefix)) == 0] *)
Definition err_prefix (prefix s : bytes) : bool :=
  (Z.of_nat (length prefix) <? Z.of_nat (length s)) && memeq s prefix (length prefix).

(** [cluster_reply_error_type] of a reply; the NULL reply gives [REDIS_ERR], which is
    none of the enumerators. *)
Definition cluster_reply_error_type (reply : option redisReply) : option CLUSTER_ERR_TYPE :=
  match reply with
  | None => None
  | Some (REDIS_REPLY_ERROR s) =>
      Some (if err_prefix (str "MOVED") s then CLUSTER_ERR_MOVED
            else if err_prefix (str "ASK") s then CLUSTER_ERR_ASK
            else if err_prefix (str "TRYAGAIN") s then CLUSTER_ERR_TRYAGAIN
            else if err_prefix (str "CLUSTERDOWN") s then CLUSTER_ERR_CLUSTERDOWN
            else CLUSTER_ERR_SENTINEL)
  | Some _ => Some CLUSTER_NOT_ERR
  end.

(** The context [redisClusterContextInit] makes, in a state whose allocations all
    succeed: the start of the examples. *)
Definition cc_init : redisClusterContext :=
  mkContext 0 [] HIRCLUSTER_FLAG_NULL None None CLUSTER_DEFAULT_MAX_RETRY_COUNT None None None 0 None None 0 0
    false false false.
Definition ex_state {W} (cc : redisClusterContext) (w : W) : cstate W := mkState cc ∅ w [] 0 [].
