(* ===== verification/Sds.v ===== *)
(** * The string functions of hiredis: what the client relies on

    sds.c of hiredis is a separate library.  [SdsLaws] states the documented behaviour
    of the functions the client calls, and [sds_ref] is an instance that satisfies it. *)
From S2P Require Import Prelude Context.

(** The fields of a string between separators, at least one. *)
Fixpoint fields (sep : byte) (s : bytes) : list bytes :=
  match s with
  | [] => [[]]
  | b :: s' =>
      if decide (b = sep) then [] :: fields sep s'
      else match fields sep s' with [] => [[b]] | f :: rest => (b :: f) :: rest end
  end.

(** [sdssplitlen] gives no fields for an empty string. *)
Definition split_ref (s : bytes) (sep : byte) : list bytes := match s with [] => [] | _ => fields sep s end.

(** [sdsrange]: inclusive bounds, a negative one counts from the end. *)
Definition range_ref (s : bytes) (start end_ : Z) : bytes :=
  let len := Z.of_nat (length s) in
  let norm i := if i <? 0 then Z.max 0 (len + i) else i in
  let a := norm start in
  let b := norm end_ in
  if b <? a then [] else take (Z.to_nat (b - a + 1)) (drop (Z.to_nat a) s).

Class SdsLaws (ops : SdsOps) : Prop := {
  sdsnew_law s : sdsnew s = c_str s;
  sdsnewlen_law s n : (n <= length s)%nat -> sdsnewlen s n = take n s;
  sdscatfmt_law s port : 0 <= port <= INT_MAX -> sdscatfmt_port s port = s ++ str ":" ++ dec port;
  sdsrange_law s a b : sdsrange s a b = range_ref s a b;
  sdssplitlen_law s sep : sdssplitlen s [sep] = split_ref s sep
}.

Definition sds_ref : SdsOps := {|
  sdsnew := c_str;
  sdsnewlen := fun s n => take n s;
  sdscatfmt_port := fun s port => s ++ str ":" ++ dec port;
  sdsrange := range_ref;
  sdssplitlen := fun s sep => match sep with [c] => split_ref s c | _ => [s] end
|}.

#[global] Instance sds_ref_laws : SdsLaws sds_ref.
Proof. by constructor. Qed.

Lemma fields_no_sep sep s : sep ∉ s -> fields sep s = [s].
Proof.
  induction s as [|b s IH]; [done|]. intros [Hb Hs]%not_elem_of_cons. cbn [fields].
  rewrite decide_False by congruence. by rewrite IH.
Qed.

Lemma fields_app sep s t : sep ∉ s -> fields sep (s ++ sep :: t) = s :: fields sep t.
Proof.
  induction s as [|b s IH]; intros Hs; cbn [fields app].
  - by rewrite decide_True.
  - apply not_elem_of_cons in Hs as [Hb Hs]. rewrite decide_False by congruence. by rewrite IH.
Qed.

Section Sds.
Context {sds : SdsOps} {laws : SdsLaws sds}.

Lemma sdsnew_text s : Byte.x00 ∉ s -> sdsnew s = s.
Proof. intros. by rewrite sdsnew_law, c_str_no_nul. Qed.

Lemma sdsnewlen_all s : sdsnewlen s (length s) = s.
Proof. by rewrite sdsnewlen_law, firstn_all. Qed.

Lemma sdssplitlen_3 sep a b c : sep ∉ a -> sep ∉ b -> sep ∉ c -> 
  sdssplitlen (a ++ sep :: b ++ sep :: c) [sep] = [a; b; c].
Proof.
  intros Ha Hb Hc. rewrite sdssplitlen_law. unfold split_ref.
  destruct (a ++ sep :: b ++ sep :: c) eqn:E; [by destruct a|]. rewrite <- E.
  by rewrite !fields_app, fields_no_sep.
Qed.
End Sds.

(** ** Addresses *)

(** [host:port] as the client writes it. *)
Definition address (host : bytes) (port : Z) : bytes := host ++ str ":" ++ dec port.

Lemma digits_no b s : Forall (fun b => isdigit b = true) s -> isdigit b = false -> b ∉ s.
Proof. intros Hs Hb Hin. rewrite Forall_forall in Hs. specialize (Hs b Hin). congruence. Qed.

Lemma dec_no b z : 0 <= z -> isdigit b = false -> b ∉ dec z.
Proof. intros Hz. by apply digits_no, dec_digits. Qed.

Lemma find_last_byte_app c s t : c ∉ t -> find_last_byte c (s ++ c :: t) = Some (length s).
Proof.
  intros Ht. assert (Hn : find_last_byte c t = None).
  { clear s. induction t as [|b t IH]; [done|]. apply not_elem_of_cons in Ht as [Hb Ht]. cbn [find_last_byte].
    rewrite IH by done. by rewrite decide_False by congruence. }
  induction s as [|b s IH]; cbn [find_last_byte app length].
  - rewrite Hn. by rewrite decide_True.
  - by rewrite IH.
Qed.

Section Address.
Context (host : bytes) (port : Z).
Hypothesis (Hport : 0 <= port).

Lemma address_no b : b ∉ host -> b ≠ ":"%byte -> isdigit b = false -> b ∉ address host port.
Proof.
  intros Hh Hb Hd. unfold address. rewrite !not_elem_of_app. split; [done|]. split.
  - intros [|[]%not_elem_of_nil]%elem_of_cons. done.
  - by apply dec_no.
Qed.

Lemma address_colon : Byte.x00 ∉ host -> strrchr (address host port) ":" = Some (length host).
Proof.
  intros Hh. unfold strrchr. rewrite c_str_no_nul by (by apply address_no).
  unfold address. apply find_last_byte_app. by apply dec_no.
Qed.

Lemma address_port : Byte.x00 ∉ host -> port <= INT_MAX ->
  c_str (drop (S (length host)) (address host port)) = dec port.
Proof.
  intros Hh Hp. unfold address. change (host ++ str ":" ++ dec port) with (host ++ ":"%byte :: dec port).
  rewrite app_cons_snoc. rewrite drop_app_length' by (rewrite length_app; cbn; lia).
  apply c_str_no_nul. by apply dec_no.
Qed.

Lemma address_host : take (length host) (address host port) = host.
Proof. unfold address. by rewrite take_app_length. Qed.

Lemma address_long : (length host <= length (address host port))%nat.
Proof. unfold address. rewrite length_app. lia. Qed.
End Address.
