(* ===== verification/Fragment.v ===== *)
(** * hircluster.c: splitting a multi-key command by slot

    [command_pre_fragment] makes one sub command per slot of the keys,
    [command_post_fragment] puts their replies together.  The sub commands live in
    an array indexed by slot ([sub_commands], here a finite map) until they are
    appended to the list; a pointer in [frag_seq] is named by that slot, [-1] is
    NULL.  A write or read outside a buffer is undefined. *)
From S2P Require Import Prelude Hiutil Crc16 Hiarray Goto Hiredis Cmddef Command Context.

Inductive frag_label := f_oom | f_done.

Record fstate (W : Type) := mkFstate {
  fs_st : cstate W;
  fs_command : cmd;
  fs_commands : list cmd;
  fs_sub : gmap Z cmd;          (* sub_commands *)
  fs_num_str : bytes;           (* char num_str[12] *)
  fs_slot_num : Z
}.
Arguments mkFstate {W} _ _ _ _ _ _.
Arguments fs_st {W} _.
Arguments fs_command {W} _.
Arguments fs_commands {W} _.
Arguments fs_sub {W} _.
Arguments fs_num_str {W} _.
Arguments fs_slot_num {W} _.

(** [buf[idx..] = src]: a [memcpy] into a buffer of known size. *)
Definition buf_write (buf : bytes) (idx : nat) (src : bytes) : option bytes :=
  if decide (idx + length src <= length buf)%nat
  then Some (take idx buf ++ src ++ drop (idx + length src) buf) else None.

(** [memcpy] from the parent's buffer. *)
Definition buf_read (buf : bytes) (off n : nat) : option bytes :=
  if decide (off + n <= length buf)%nat then Some (take n (drop off buf)) else None.

(** [strlen(num_str)]: undefined without a terminator in the array. *)
Definition num_str_text (num_str : bytes) : option bytes :=
  if decide (Byte.x00 ∈ num_str) then Some (c_str num_str) else None.

(** The scan of MSET for the length of a key's value: skip to the first digit after
    the key, read the number, and count what follows the key in the command. *)
Fixpoint skip_nondigits (fuel : nat) (buf : bytes) (p : nat) : option nat :=
  match fuel with
  | O => None
  | S fuel' =>
      b ← buf !! p;
      if isdigit b then Some p else skip_nondigits fuel' buf (S p)
  end.

Fixpoint read_len (fuel : nat) (buf : bytes) (p : nat) (len : Z) : option (nat * Z) :=
  match fuel with
  | O => None
  | S fuel' =>
      b ← buf !! p;
      if isdigit b
      then read_len fuel' buf (S p) (u32 (u32 (len * 10) + (Z_of_byte b - 48)))
      else Some (p, len)
  end.

Definition mset_remain (buf : bytes) (kend : nat) : option Z :=
  p ← skip_nondigits (S (length buf)) buf (kend + 1);
  '(p, len) ← read_len (S (length buf)) buf p 0;
  let len := u32 (len + 2 * 2) in
  Some (u32 (len + Z.of_nat (p - kend))).

(** What the branches of the header loop differ in: bytes of framing per key, and
    the fixed text after the argument count. *)
Definition frag_format (t : cmd_type) : option (Z * bytes) :=
  match t with
  | CMD_REQ_REDIS_MGET => Some (5, CRLF ++ str "$4" ++ CRLF ++ str "mget" ++ CRLF)
  | CMD_REQ_REDIS_DEL => Some (5, CRLF ++ str "$3" ++ CRLF ++ str "del" ++ CRLF)
  | CMD_REQ_REDIS_EXISTS => Some (5, CRLF ++ str "$6" ++ CRLF ++ str "exists" ++ CRLF)
  | CMD_REQ_REDIS_MSET => Some (3, CRLF ++ str "$4" ++ CRLF ++ str "mset" ++ CRLF)
  | _ => None
  end.

Definition is_mset (t : cmd_type) : bool :=
  match t with CMD_REQ_REDIS_MSET => true | _ => false end.

(** [command_get()] with the allocations and the command counter of the state. *)
Definition m_command_get {W L} : G (cstate W) L (option cmd) :=
  malloc_ok ← alloc;
  keys_ok ← (if malloc_ok : bool then alloc else mret false);
  elem_ok ← (if keys_ok : bool then alloc else mret false);
  s ← gget;
  let '(id, c) := command_get (s_cmd_id s) malloc_ok keys_ok elem_ok in
  gmodify (upd_cmd_id (fun _ => id));; mret c.

Section Fragment.
Context {W : Type}.
Abbreviation F := (G (fstate W) frag_label).

Definition f_lift {A} (m : G (cstate W) frag_label A) : F A := fun s =>
  match m (fs_st s) with
  | (st, o) => (mkFstate st (fs_command s) (fs_commands s) (fs_sub s) (fs_num_str s) (fs_slot_num s), o)
  end.
Definition f_set_command (f : cmd -> cmd) : F () := gmodify (fun s =>
  mkFstate (fs_st s) (f (fs_command s)) (fs_commands s) (fs_sub s) (fs_num_str s) (fs_slot_num s)).
Definition f_set_commands (f : list cmd -> list cmd) : F () := gmodify (fun s =>
  mkFstate (fs_st s) (fs_command s) (f (fs_commands s)) (fs_sub s) (fs_num_str s) (fs_slot_num s)).
Definition f_set_sub (f : gmap Z cmd -> gmap Z cmd) : F () := gmodify (fun s =>
  mkFstate (fs_st s) (fs_command s) (fs_commands s) (f (fs_sub s)) (fs_num_str s) (fs_slot_num s)).
Definition f_set_num_str (num_str : bytes) : F () := gmodify (fun s =>
  mkFstate (fs_st s) (fs_command s) (fs_commands s) (fs_sub s) num_str (fs_slot_num s)).
Definition f_set_slot_num (slot_num : Z) : F () := gmodify (fun s =>
  mkFstate (fs_st s) (fs_command s) (fs_commands s) (fs_sub s) (fs_num_str s) slot_num).

(** [command_get()] *)
Definition f_command_get : F (option cmd) := f_lift m_command_get.

(** [hi_itoa(num_str, n); num_str_len = (uint8_t)strlen(num_str);] *)
Definition f_itoa (n : Z) : F bytes :=
  s ← gget;
  num_str ← gdef (hi_itoa (fs_num_str s) (i32 n));
  f_set_num_str num_str;;
  gdef (num_str_text num_str).

(** [if (sub_commands[slot_num] == NULL) sub_commands[slot_num] = command_get();] *)
Definition f_get_sub (slot : Z) : F () :=
  s ← gget;
  match fs_sub s !! slot with
  | Some _ => mret ()
  | None => c ← f_command_get; c ← gsome f_oom c; f_set_sub (<[slot := c]>)
  end.

(** The first loop: one key is put into the sub command of its slot. *)
Definition f_fill_key (buf : bytes) (i : nat) : F () :=
  s ← gget;
  let command := fs_command s in
  kp ← gdef (load (c_keys command) (hiarray_get (c_keys command) (Z.of_nat i)));
  key ← gdef (buf_read buf (kp_start kp) (kp_end kp - kp_start kp));
  let slot_num := keyHashSlot key in
  f_set_slot_num slot_num;;
  if (slot_num <? 0) || (REDIS_CLUSTER_SLOTS <=? slot_num) then
    f_lift (set_error REDIS_ERR_OTHER (str "keyHashSlot return error"));;
    goto f_done
  else
    f_get_sub slot_num;;
    f_set_command (fun c => set_slot c (c_slot_num c) ((<[i := slot_num]>) <$> c_frag_seq c));;
    s ← gget;
    sub ← gdef (fs_sub s !! slot_num);
    grow_ok ← (if nelem (c_keys sub) =? nalloc (c_keys sub) then f_lift alloc else mret true);
    let '(keys, p) := hiarray_push grow_ok (c_keys sub) in
    let sub := set_keys sub keys (u32 (c_narg sub + 1)) in
    f_set_sub (<[slot_num := sub]>);;
    p ← gsome f_oom p;
    let key_len := u32 (Z.of_nat (kp_end kp - kp_start kp)) in
    let clen := u32 (c_clen sub + u32 (key_len + uint_len key_len)) in
    remain ← (if is_mset (c_type command) then gdef (mset_remain buf (kp_end kp)) else mret 0);
    keys ← gdef (store keys p (mkKeypos (kp_start kp) (kp_end kp) remain));
    f_set_sub (<[slot_num := set_slot (set_cmd (set_keys sub keys (c_narg sub)) (c_cmd sub) (u32 (clen + remain)))
                               slot_num (c_frag_seq sub)]>).

Fixpoint f_fill (fuel : nat) (buf : bytes) (i : nat) : F () :=
  match fuel with
  | O => mret ()
  | S fuel' => f_fill_key buf i;; f_fill fuel' buf (S i)
  end.

(** A write at [idx] of the new buffer. *)
Definition f_put (out : bytes * nat) (src : bytes) : F (bytes * nat) :=
  b ← gdef (buf_write out.1 out.2 src);
  mret (b, (out.2 + length src)%nat).

(** One key of the sub command, with its value for MSET. *)
Definition f_put_key (mset : bool) (buf : bytes) (keys : hiarray keypos) (j : nat) (out : bytes * nat)
    : F (bytes * nat) :=
  kp ← gdef (load keys (hiarray_get keys (Z.of_nat j)));
  let key_len := u32 (Z.of_nat (kp_end kp - kp_start kp)) in
  num_str ← f_itoa key_len;
  out ← f_put out (str "$");
  out ← f_put out num_str;
  out ← f_put out CRLF;
  if mset then
    src ← gdef (buf_read buf (kp_start kp) (Z.to_nat (u32 (key_len + remain_len kp))));
    f_put out src
  else
    src ← gdef (buf_read buf (kp_start kp) (Z.to_nat key_len));
    out ← f_put out src;
    f_put out CRLF.

Fixpoint f_put_keys (fuel : nat) (mset : bool) (buf : bytes) (keys : hiarray keypos) (j : nat)
    (out : bytes * nat) : F (bytes * nat) :=
  match fuel with
  | O => mret out
  | S fuel' => out ← f_put_key mset buf keys j out; f_put_keys fuel' mset buf keys (S j) out
  end.

(** The second loop, for one sub command: its header, its text and the list. *)
Definition f_build (buf : bytes) (sub : cmd) : F cmd :=
  s ← gget;
  match frag_format (c_type (fs_command s)) with
  | None => mret sub      (* NOT_REACHED() is empty *)
  | Some (per_key, name) =>
      let mset := is_mset (c_type (fs_command s)) in
      let clen := u32 (c_clen sub + u32 (per_key * c_narg sub)) in
      let narg := u32 ((if mset then u32 (c_narg sub * 2) else c_narg sub) + 1) in
      num_str ← f_itoa narg;
      let clen := u32 (clen + (1 + Z.of_nat (length name) + Z.of_nat (length num_str))) in
      f_lift (alloc_or f_oom);;
      let out := (replicate (Z.to_nat clen) Byte.x00, 0%nat) in
      out ← f_put out (str "*");
      out ← f_put out num_str;
      out ← f_put out name;
      out ← f_put_keys (Z.to_nat (nelem (c_keys sub))) mset buf (c_keys sub) 0 out;
      mret (set_cmd (set_keys sub (c_keys sub) narg) (Some out.1) clen)
  end.

Definition f_emit (buf : bytes) (i : Z) : F () :=
  s ← gget;
  match fs_sub s !! i with
  | None => mret ()
  | Some sub =>
      sub ← f_build buf sub;
      let sub := set_type sub (c_type (fs_command s)) in
      f_set_sub (<[i := sub]>);;
      f_lift (alloc_or f_oom);;
      f_set_commands (fun cs => cs ++ [sub]);;
      f_set_sub (delete i)
  end.

Fixpoint f_emit_all (buf : bytes) (slots : list Z) : F () :=
  match slots with
  | [] => mret ()
  | i :: slots' => f_emit buf i;; f_emit_all buf slots'
  end.

Definition all_slots : list Z := Z.of_nat <$> seq 0 (Z.to_nat REDIS_CLUSTER_SLOTS).

Definition f_body : F () :=
  s ← gget;
  let key_count := hiarray_n (c_keys (fs_command s)) in
  f_lift (alloc_or f_oom);;                                  (* sub_commands *)
  f_lift (alloc_or f_oom);;                                  (* frag_seq *)
  f_set_command (fun c => set_slot c (c_slot_num c) (Some (replicate (Z.to_nat key_count) (-1))));;
  buf ← gdef (c_cmd (fs_command s));
  f_fill (Z.to_nat key_count) buf 0;;
  f_emit_all buf all_slots.

(** [num_str] is not initialised: its contents are an argument.  The result is the
    slot number, the command and the list of sub commands. *)
Definition command_pre_fragment (num_str : bytes) (command : cmd) (commands : list cmd) (st : cstate W)
    : option (cstate W * Z * cmd * list cmd) :=
  let '(s, o) := f_body (mkFstate st command commands ∅ num_str (-1)) in
  match o with
  | Undefined => None
  | At f_oom =>
      Some (upd_cc (redisClusterSetError REDIS_ERR_OOM (str "Out of memory")) (fs_st s), -1,
            fs_command s, fs_commands s)
  | Normal _ | At f_done =>
      let slot_num := fs_slot_num s in
      if (0 <=? slot_num) && (Z.of_nat (length (fs_commands s)) =? 1)
      then Some (fs_st s, slot_num, set_slot (fs_command s) slot_num None, [])
      else Some (fs_st s, slot_num, fs_command s, fs_commands s)
  end.

(** ** Putting the replies together *)

(** The check of the sub replies, in list order: NULL to return at once, an error
    reply to return, or the sum of the integers. *)
Inductive sub_check := SubNull (msg : option bytes) | SubError (r : redisReply) | SubOk (count : Z).

Fixpoint check_replies (t : cmd_type) (commands : list cmd) (count : Z) : sub_check :=
  match commands with
  | [] => SubOk count
  | sub :: rest =>
      match c_reply sub with
      | None => SubNull None
      | Some (REDIS_REPLY_ERROR e) => SubError (REDIS_REPLY_ERROR e)
      | Some reply =>
          match t with
          | CMD_REQ_REDIS_MGET =>
              match reply with
              | REDIS_REPLY_ARRAY _ => check_replies t rest count
              | _ => SubNull (Some (str "reply type error"))
              end
          | CMD_REQ_REDIS_DEL | CMD_REQ_REDIS_EXISTS =>
              match reply with
              | REDIS_REPLY_INTEGER i => check_replies t rest (i64 (count + i))
              | _ => SubNull (Some (str "reply type error"))
              end
          | CMD_REQ_REDIS_MSET =>
              match reply with
              | REDIS_REPLY_STATUS s =>
                  if bool_decide (s = str "OK") then check_replies t rest count
                  else SubNull (Some (str "reply type error"))
              | _ => SubNull (Some (str "reply type error"))
              end
          | _ => check_replies t rest count
          end
      end
  end.

(** The sub command a [frag_seq] entry points to. *)
Definition find_sub (commands : list cmd) (slot : Z) : option (nat * cmd) :=
  list_find (fun c => c_slot_num c = slot) commands.

(** [for (i = key_count - 1; i >= 0; i--)]: the last element of the sub reply of key
    [i] moves to [element[i]].  The sub commands come back with their shortened
    replies; an error message ends it. *)
Fixpoint gather (frag_rev : list Z) (commands : list cmd) (acc : list redisReply)
    : option ((list redisReply + bytes) * list cmd) :=
  match frag_rev with
  | [] => Some (inl acc, commands)
  | slot :: frag' =>
      '(k, sub) ← find_sub commands slot;
      match c_reply sub with
      | None => Some (inr (str "sub reply is null"), commands)
      | Some (REDIS_REPLY_STRING s) => gather frag' commands (REDIS_REPLY_STRING s :: acc)
      | Some (REDIS_REPLY_ARRAY l) =>
          match reverse l with
          | [] => Some (inr (str "sub reply elements error"), commands)
          | e :: l' =>
              gather frag' (<[k := set_reply sub (Some (REDIS_REPLY_ARRAY (reverse l')))]> commands) (e :: acc)
          end
      | Some _ => None      (* an element left NULL *)
      end
  end.

Definition command_post_fragment (command : cmd) (commands : list cmd)
    : G (cstate W) Empty_set (option redisReply * list cmd) :=
  let t := c_type command in
  match check_replies t commands 0 with
  | SubNull None => mret (None, commands)
  | SubNull (Some msg) => set_error REDIS_ERR_OTHER msg;; mret (None, commands)
  | SubError r => mret (Some r, commands)
  | SubOk count =>
      ok ← alloc;
      if negb ok then set_error REDIS_ERR_OOM (str "Out of memory");; mret (None, commands)
      else
        match t with
        | CMD_REQ_REDIS_MGET =>
            ok ← alloc;
            if negb ok then set_error REDIS_ERR_OOM (str "Out of memory");; mret (None, commands)
            else
              frag ← gdef (c_frag_seq command);
              '(r, commands) ← gdef (gather (reverse frag) commands []);
              match r with
              | inl l => mret (Some (REDIS_REPLY_ARRAY l), commands)
              | inr msg => set_error REDIS_ERR_OTHER msg;; mret (None, commands)
              end
        | CMD_REQ_REDIS_DEL | CMD_REQ_REDIS_EXISTS => mret (Some (REDIS_REPLY_INTEGER count), commands)
        | CMD_REQ_REDIS_MSET =>
            ok ← alloc;
            if negb ok then set_error REDIS_ERR_OOM (str "Out of memory");; mret (None, commands)
            else mret (Some (REDIS_REPLY_STATUS (str "OK")), commands)
        | _ => mret (Some (REDIS_REPLY_OTHER 0 []), commands)   (* NOT_REACHED() is empty *)
        end
  end.

(** [command_format_by_slot]: the parser's allocations are arguments. *)
Definition command_format_by_slot (realloc_ok : Z -> bool) (errstr_ok : bool) (num_str : bytes)
    (command : cmd) (commands : list cmd) (st : cstate W) : option (cstate W * Z * cmd * list cmd) :=
  let fail c (type : Z) (msg : bytes) :=
    Some (upd_cc (redisClusterSetError type msg) st, -1, c, commands) in
  match c_cmd command with
  | None => Some (st, -1, command, commands)
  | Some buf =>
      if c_clen command <=? 0 then Some (st, -1, command, commands)
      else
        command ← redis_parse_cmd realloc_ok errstr_ok command;
        match c_result command with
        | CMD_PARSE_ENOMEM => fail command REDIS_ERR_OOM (str "Out of memory")
        | CMD_PARSE_OK =>
            let key_count := i32 (hiarray_n (c_keys command)) in
            if key_count <=? 0 then
              fail command REDIS_ERR_OTHER
                (str "No keys in command(must have keys for redis cluster mode)")
            else if key_count =? 1 then
              kp ← load (c_keys command) (hiarray_get (c_keys command) 0);
              key ← buf_read buf (kp_start kp) (kp_end kp - kp_start kp);
              let slot_num := keyHashSlot key in
              Some (st, slot_num, set_slot command slot_num (c_frag_seq command), commands)
            else command_pre_fragment num_str command commands st
        | _ => fail command REDIS_ERR_PROTOCOL (default [] (c_errstr command))
        end
  end.
End Fragment.

(** ** Correctness of the split *)

(** The text of a key in the parent's buffer, its slot, and what it costs in the
    sub command's length. *)
Definition kp_len (kp : keypos) : Z := Z.of_nat (kp_end kp - kp_start kp).
Definition slot_of (buf : bytes) (kp : keypos) : Z := keyHashSlot (key_text buf kp).
Definition kp_cost (kp : keypos) : Z := kp_len kp + uint_len (kp_len kp) + remain_len kp.
Definition cost (l : list keypos) : Z := foldr (fun kp z => kp_cost kp + z) 0 l.

(** A key position as the first loop stores it. *)
Definition annotate (mset : bool) (buf : bytes) (kp : keypos) : keypos :=
  mkKeypos (kp_start kp) (kp_end kp) (if mset then default 0 (mset_remain buf (kp_end kp)) else 0).

(** The bytes written for a key: the bulk string, and for MSET what followed it in the
    parent. *)
Definition kp_text (mset : bool) (buf : bytes) (kp : keypos) : bytes :=
  str "$" ++ dec (kp_len kp) ++ CRLF ++
  take (Z.to_nat (kp_len kp + remain_len kp)) (drop (kp_start kp) buf) ++
  (if mset then [] else CRLF).

Definition group (buf : bytes) (slot : Z) (l : list keypos) : list keypos :=
  filter (fun kp => slot_of buf kp = slot) l.

(** A key the split can handle: inside the buffer, not empty, and for MSET followed by
    a value. *)
Definition kp_good (mset : bool) (buf : bytes) (kp : keypos) : Prop :=
  (kp_start kp < kp_end kp)%nat /\ 0 <= remain_len (annotate mset buf kp) /\
  Z.of_nat (kp_start kp) + kp_len kp + remain_len (annotate mset buf kp) <= Z.of_nat (length buf) /\
  (mset = true -> is_Some (mset_remain buf (kp_end kp))).

Lemma uint_len_pos z : 0 <= z < 2 ^ 32 -> uint_len z = Z.of_nat (length (dec z)) /\ 1 <= uint_len z <= 10.
Proof.
  intros Hz. rewrite uint_len_dec. change (2 ^ 32) with 4294967296 in Hz. rewrite u32_small by lia.
  split; [done|]. pose proof (dec_length_pos z ltac:(lia)).
  pose proof (dec_length_le 10 z ltac:(simpl; lia)). lia.
Qed.

Lemma cost_app l1 l2 : cost (l1 ++ l2) = cost l1 + cost l2.
Proof. induction l1 as [|kp l1 IH]; simpl; [done|]. rewrite IH. lia. Qed.

Lemma cost_nonneg l : Forall (fun kp => 0 <= kp_cost kp) l -> 0 <= cost l.
Proof. induction 1; simpl; lia. Qed.

Lemma cost_group buf slot l : Forall (fun kp => 0 <= kp_cost kp) l -> cost (group buf slot l) <= cost l.
Proof.
  unfold group. induction 1 as [|kp l Hk Hl IH]; [done|]. rewrite filter_cons.
  case_decide; simpl; lia.
Qed.

Lemma group_snoc buf slot l kp :
  group buf slot (l ++ [kp]) = group buf slot l ++ (if decide (slot_of buf kp = slot) then [kp] else []).
Proof. unfold group. rewrite filter_app. by rewrite filter_cons, filter_nil. Qed.

Lemma group_length buf slot l : (length (group buf slot l) <= length l)%nat.
Proof. apply length_filter. Qed.

Lemma all_slots_nodup : NoDup all_slots.
Proof. unfold all_slots. apply NoDup_fmap; [apply _|]. apply NoDup_seq. Qed.

Lemma elem_of_all_slots slot : slot ∈ all_slots <-> 0 <= slot < REDIS_CLUSTER_SLOTS.
Proof.
  unfold all_slots. rewrite list_elem_of_fmap. unfold REDIS_CLUSTER_SLOTS. split.
  - intros (x & -> & Hx%elem_of_seq). lia.
  - intros H. exists (Z.to_nat slot). split; [lia|]. apply elem_of_seq. lia.
Qed.

Section Split.
Context {W : Type}.
Variables (buf : bytes) (command : cmd) (kps : list keypos) (st0 : cstate W).
Abbreviation mset := (is_mset (c_type command)).
Abbreviation akps := (annotate mset buf <$> kps).
Hypotheses (Hbuf : c_cmd command = Some buf) (Hkeys : holds (c_keys command) kps)
  (Hgood : Forall (kp_good mset buf) kps) (Hallocs : s_allocs st0 = [])
  (Hsize : cost akps + 8 * Z.of_nat (length kps) < 2 ^ 31).

Lemma good_cost kp : kp_good mset buf kp ->
  0 < kp_len kp < 2 ^ 31 -> 2 <= kp_cost (annotate mset buf kp).
Proof.
  intros (H1 & H2 & H3 & _) Hl. unfold kp_cost. change (kp_len (annotate mset buf kp)) with (kp_len kp).
  pose proof (uint_len_pos (kp_len kp) ltac:(lia)). lia.
Qed.

Lemma akps_low : Forall (fun kp => 0 < kp_len kp /\ 0 <= kp_len kp + remain_len kp <= kp_cost kp) akps.
Proof.
  apply Forall_fmap. eapply Forall_impl; [exact Hgood|]. intros x (H1 & H2 & _). cbn beta.
  unfold compose, kp_cost. change (kp_len (annotate mset buf x)) with (kp_len x).
  assert (0 < kp_len x) by (unfold kp_len; lia). rewrite uint_len_dec. lia.
Qed.

Lemma akps_nonneg : Forall (fun kp => 0 <= kp_cost kp) akps.
Proof. eapply Forall_impl; [apply akps_low|]. simpl. lia. Qed.

Lemma kp_len_small kp : kp ∈ kps -> 0 < kp_len kp < 2 ^ 31 /\ 2 <= kp_cost (annotate mset buf kp) < 2 ^ 31.
Proof.
  intros Hin. pose proof akps_low as Hlow. pose proof akps_nonneg as Hnn.
  apply (list_elem_of_fmap_2 (annotate mset buf)) in Hin as Hin'.
  apply list_elem_of_split in Hin' as (l1 & l2 & E). pose proof Hnn as Hnn'. pose proof Hsize as Hs.
  rewrite E in Hnn', Hs, Hlow. rewrite cost_app in Hs. simpl in Hs.
  apply Forall_app in Hnn' as [H1 H2]. apply Forall_cons in H2 as [H2 H3].
  apply cost_nonneg in H1, H3. apply Forall_app in Hlow as [_ [Hlow _]%Forall_cons].
  rewrite Forall_forall in Hgood. pose proof (Hgood _ Hin) as (_ & Hr & _).
  change (kp_len (annotate mset buf kp)) with (kp_len kp) in Hlow.
  assert (0 < kp_len kp < 2 ^ 31) by lia. pose proof (good_cost kp (Hgood _ Hin) ltac:(lia)).
  split; lia.
Qed.
(** ** The first loop *)

(** A sub command that holds the keys [l]. *)
Definition sub_pre (l : list keypos) (sub : cmd) : Prop :=
  holds (c_keys sub) l /\ c_narg sub = Z.of_nat (length l) /\ c_clen sub = cost l /\
  c_cmd sub = None /\ c_reply sub = None /\ c_sub_commands sub = None.
Definition sub_ok (slot : Z) (l : list keypos) (sub : cmd) : Prop :=
  l <> [] /\ sub_pre l sub /\ c_slot_num sub = slot.

Definition frag_of (done : list keypos) : list Z :=
  (slot_of buf <$> done) ++ replicate (length kps - length done) (-1).

(** What never changes while the loops run. *)
Definition same_env (s : fstate W) : Prop := s_allocs (fs_st s) = [] /\ s_cc (fs_st s) = s_cc st0.

Record fill_inv (done : list keypos) (s : fstate W) : Prop := {
  fi_env : same_env s;
  fi_command : fs_command s = set_slot command (c_slot_num command) (Some (frag_of done));
  fi_commands : fs_commands s = [];
  fi_num_str : length (fs_num_str s) = 12%nat;
  fi_slot_num : fs_slot_num s = default (-1) (last (slot_of buf <$> done));
  fi_sub slot : match fs_sub s !! slot with
                | Some sub => sub_ok slot (group buf slot done) sub
                | None => group buf slot done = []
                end
}.

Lemma f_lift_alloc (s : fstate W) : s_allocs (fs_st s) = [] -> f_lift alloc s = (s, Normal true).
Proof. destruct s as [[] ? ? ? ? ?]. simpl. by intros ->. Qed.

Lemma f_lift_alloc_or l (s : fstate W) : s_allocs (fs_st s) = [] -> f_lift (alloc_or l) s = (s, Normal ()).
Proof. destruct s as [[] ? ? ? ? ?]. simpl. by intros ->. Qed.

Lemma f_command_get_ok s : same_env s ->
  exists st c, f_command_get s = (mkFstate st (fs_command s) (fs_commands s) (fs_sub s) (fs_num_str s) (fs_slot_num s), Normal (Some c)) /\
    s_allocs st = [] /\ s_cc st = s_cc (fs_st s) /\ sub_pre [] c.
Proof.
  intros [Ha _]. destruct s as [[cc h w al id ev] ? ? ? ? ?]. simpl in Ha. subst al.
  eexists _, _. split; [reflexivity|]. split; [done|]. split; [done|].
  destruct (hiarray_create_holds (A := keypos) sizeof_keypos) as (a & Hc & Hh); [unfold sizeof_keypos; lia|].
  unfold hiarray_create in Hc. cbn in Hc. injection Hc as <-. unfold sub_pre. cbn. split_and!; done.
Qed.

Lemma f_get_sub_ok done slot s : same_env s ->
  match fs_sub s !! slot with
  | Some sub => sub_ok slot (group buf slot done) sub | None => group buf slot done = []
  end ->
  exists st sub,
    f_get_sub slot s = (mkFstate st (fs_command s) (fs_commands s) (<[slot := sub]> (fs_sub s)) (fs_num_str s) (fs_slot_num s), Normal ()) /\
    s_allocs st = [] /\ s_cc st = s_cc st0 /\ sub_pre (group buf slot done) sub.
Proof.
  intros Henv Hs. pose proof Henv as [Ha Hcc]. unfold f_get_sub. rewrite gbind_get. destruct (fs_sub s !! slot) as [sub|] eqn:E.
  - exists (fs_st s), sub. rewrite insert_id by done. split; [by destruct s|]. destruct Hs as (_ & Hp & _). done.
  - destruct (f_command_get_ok s Henv) as (st & c & Hc & H1 & H2 & H3).
    erewrite gbind_normal by exact Hc. cbn [gsome]. rewrite gbind_ret. exists st, c.
    split; [reflexivity|]. split; [done|]. split; [by rewrite H2|]. by rewrite Hs.
Qed.

Lemma take_snoc_akps i kp : kps !! i = Some kp ->
  take (S i) akps = take i akps ++ [annotate mset buf kp].
Proof. intros Hi. apply take_S_r. by rewrite list_lookup_fmap, Hi. Qed.

Lemma frag_of_set i kp : kps !! i = Some kp ->
  <[i := slot_of buf kp]> (frag_of (take i akps)) = frag_of (take (S i) akps).
Proof.
  intros Hi. pose proof (lookup_lt_Some _ _ _ Hi) as Hl. unfold frag_of. rewrite (take_snoc_akps i kp Hi).
  rewrite fmap_app, !length_app. simpl.
  assert (Hlen : length (slot_of buf <$> take i akps) = i).
  { rewrite length_fmap, length_take, length_fmap. lia. }
  rewrite length_fmap in Hlen. rewrite insert_app_r_alt by (rewrite length_fmap; lia).
  rewrite length_fmap, Hlen, Nat.sub_diag. replace (length kps - i)%nat with (S (length kps - (i + 1))) by lia.
  simpl. by rewrite <- app_assoc.
Qed.

Lemma cost_take i : cost (take i akps) <= cost akps.
Proof.
  rewrite <- (take_drop i akps) at 2. rewrite cost_app.
  assert (0 <= cost (drop i akps)); [|lia]. apply cost_nonneg. apply Forall_drop.
  apply akps_nonneg.
Qed.

(** The sub command after one more key. *)
Lemma sub_push slot l kp sub n :
  sub_pre l sub -> kp ∈ kps -> cost l + kp_cost (annotate mset buf kp) < 2 ^ 31 -> 0 <= cost l ->
  Z.of_nat (length l) < 2 ^ 28 -> n = kp_len kp ->
  exists keys p keys',
    hiarray_push true (c_keys sub) = (keys, Some p) /\
    store keys p (annotate mset buf kp) = Some keys' /\
    let clen := u32 (c_clen sub + u32 (u32 n + uint_len (u32 n))) in
    sub_pre (l ++ [annotate mset buf kp])
      (set_slot (set_cmd (set_keys (set_keys sub keys (u32 (c_narg sub + 1))) keys' (u32 (c_narg sub + 1))) (c_cmd sub)
                   (u32 (clen + remain_len (annotate mset buf kp)))) slot (c_frag_seq sub)).
Proof.
  intros (Hh & Hn & Hc & H4 & H5 & H6) Hin Hcost Hl0 Hlen ->.
  destruct (kp_len_small kp Hin) as (Hk & Hkc).
  pose proof (hiarray_push_holds true _ _ (annotate mset buf kp) Hh ltac:(lia)) as Hp.
  destruct (hiarray_push true (c_keys sub)) as [keys [p|]]; [|by destruct Hp].
  destruct Hp as (keys' & Hs & Hh'). exists keys, p, keys'. split; [done|]. split; [done|]. cbn zeta.
  pose proof (uint_len_pos (kp_len kp) ltac:(lia)) as [_ Hu].
  assert (0 <= remain_len (annotate mset buf kp)).
  { rewrite Forall_forall in Hgood. by destruct (Hgood _ Hin) as (_ & ? & _). }
  assert (Hkl : kp_len (annotate mset buf kp) = kp_len kp) by done.
  set (akp := annotate mset buf kp) in *. clearbody akp.
  unfold kp_cost in Hcost, Hkc. rewrite Hkl in Hcost, Hkc.
  rewrite (u32_small (kp_len kp)) by lia. rewrite Hc, Hn.
  rewrite (u32_small (kp_len kp + uint_len (kp_len kp))) by lia.
  rewrite (u32_small (cost l + _)) by lia. rewrite u32_small by lia.
  unfold sub_pre. cbn. split_and!; try done.
  - rewrite length_app. simpl. lia.
  - rewrite cost_app. cbn [cost foldr]. unfold kp_cost. rewrite Hkl, u32_small by lia. lia.
Qed.

Lemma grow_alloc (b : bool) (s : fstate W) : same_env s ->
  (if b then f_lift alloc else mret true) s = (s, Normal true).
Proof. intros [Ha _]. destruct b; [by apply f_lift_alloc|done]. Qed.

Lemma holds_repr {A} (a : hiarray A) l : holds a l -> repr a l.
Proof. by intros [? _]. Qed.

Lemma key_read kp : kp ∈ kps -> buf_read buf (kp_start kp) (kp_end kp - kp_start kp) = Some (key_text buf kp).
Proof.
  intros Hin. rewrite Forall_forall in Hgood. destruct (Hgood _ Hin) as (H1 & H2 & H3 & _).
  unfold buf_read. rewrite decide_True; [done|]. unfold kp_len in H3. lia.
Qed.

(** One iteration of the first loop. *)
Lemma f_fill_key_ok i kp s :
  kps !! i = Some kp -> fill_inv (take i akps) s ->
  exists s', f_fill_key buf i s = (s', Normal ()) /\ fill_inv (take (S i) akps) s'.
Proof.
  intros Hkp Hi. assert (Hin : kp ∈ kps) by (by eapply list_elem_of_lookup_2).
  destruct (kp_len_small kp Hin) as (Hlen & Hcost).
  unfold f_fill_key. rewrite gbind_get. cbn zeta. rewrite (fi_command _ _ Hi). cbn [set_slot c_keys c_type].
  rewrite (load_get _ kps i kp (holds_repr _ _ Hkeys) Hkp). cbn [gdef]. rewrite gbind_ret.
  rewrite (key_read kp Hin). cbn [gdef]. rewrite gbind_ret. fold (slot_of buf kp).
  pose proof (keyHashSlot_bounds (key_text buf kp)) as Hslot. fold (slot_of buf kp) in Hslot.
  set (slot := slot_of buf kp) in *. unfold f_set_slot_num, f_set_command, f_set_sub. rewrite gbind_modify.
  replace (slot <? 0) with false by lia. replace (REDIS_CLUSTER_SLOTS <=? slot) with false by lia. cbn [orb].
  set (s1 := mkFstate _ _ _ _ _ slot).
  destruct (f_get_sub_ok (take i akps) slot s1) as (st & sub & Hg & Ha & Hcc & Hpre);
    [apply (fi_env _ _ Hi)|apply (fi_sub _ _ Hi slot)|].
  erewrite gbind_normal by exact Hg. rewrite gbind_modify, gbind_get. cbn [fs_sub]. rewrite lookup_insert_eq.
  cbn [gdef]. rewrite gbind_ret. erewrite gbind_normal by (apply grow_alloc; by split).
  pose proof (cost_take (S i)) as Hct. rewrite (take_snoc_akps i kp Hkp), cost_app in Hct.
  cbn [cost foldr] in Hct. rewrite Z.add_0_r in Hct.
  assert (Hnn : Forall (fun kp => 0 <= kp_cost kp) (take i akps)) by (apply Forall_take, akps_nonneg).
  pose proof (cost_group buf slot _ Hnn) as Hcg. pose proof (group_length buf slot (take i akps)) as Hgl.
  assert (Hg0 : 0 <= cost (group buf slot (take i akps))).
  { apply cost_nonneg. apply Forall_forall. intros x [_ Hx]%list_elem_of_filter. rewrite Forall_forall in Hnn. by apply Hnn. }
  rewrite length_take, length_fmap in Hgl. pose proof (lookup_lt_Some _ _ _ Hkp) as Hil.
  destruct (sub_push slot _ kp sub (Z.of_nat (kp_end kp - kp_start kp)) Hpre Hin ltac:(lia) Hg0 ltac:(lia) eq_refl)
    as (keys & p & keys' & Hpush & Hstore & Hpre').
  rewrite Hpush. rewrite gbind_modify. cbn [gsome]. rewrite gbind_ret.
  assert (Hrem : forall s, (if mset then gdef (mset_remain buf (kp_end kp)) else mret 0) s
      = (s, Normal (remain_len (annotate mset buf kp))) :> fstate W * outcome frag_label Z).
  { intros s2. rewrite Forall_forall in Hgood. destruct (Hgood _ Hin) as (_ & _ & _ & Hr). unfold annotate. cbn [remain_len].
    destruct mset; [|done]. destruct (Hr eq_refl) as [r ->]. done. }
  erewrite gbind_normal by apply Hrem. cbn zeta. cbn [set_keys c_keys] in Hstore |- *.
  change (mkKeypos (kp_start kp) (kp_end kp) (remain_len (annotate mset buf kp))) with (annotate mset buf kp).
  cbn [c_keys set_keys]. rewrite Hstore. cbn [gdef]. rewrite gbind_ret.
  eexists. split; [reflexivity|]. destruct Hi. constructor.
  - split; [done|]. cbn. by rewrite Hcc.
  - subst s1. cbn [fs_command]. rewrite fi_command0. unfold set_slot. cbn.
    subst slot. do 2 f_equal. apply (frag_of_set i kp Hkp).
  - done.
  - done.
  - subst s1. cbn [fs_slot_num]. rewrite (take_snoc_akps i kp Hkp), fmap_app.
    change (slot_of buf <$> [annotate mset buf kp]) with [slot]. by rewrite last_snoc.
  - intros sl. cbn [fs_sub]. rewrite (take_snoc_akps i kp Hkp), group_snoc.
    change (slot_of buf (annotate mset buf kp)) with slot.
    destruct (decide (slot = sl)) as [<-|Hne].
    + rewrite lookup_insert_eq. split; [by destruct (group _ _ _)|]. split; [|done]. apply Hpre'.
    + rewrite !lookup_insert_ne, app_nil_r by done. apply fi_sub0.
Qed.

Lemma f_fill_ok n i s : (i + n)%nat = length kps -> fill_inv (take i akps) s ->
  exists s', f_fill n buf i s = (s', Normal ()) /\ fill_inv akps s'.
Proof.
  revert i s. induction n as [|n IH]; intros i s Hn Hi.
  - exists s. split; [done|]. rewrite take_ge in Hi by (rewrite length_fmap; lia). done.
  - destruct (lookup_lt_is_Some_2 kps i) as [kp Hkp]; [lia|].
    destruct (f_fill_key_ok i kp s Hkp Hi) as (s1 & H1 & Hi1). cbn [f_fill].
    erewrite gbind_normal by exact H1. apply (IH (S i)); [lia|done].
Qed.

(** ** The second loop *)

Definition with_num (s : fstate W) (num_str : bytes) : fstate W :=
  mkFstate (fs_st s) (fs_command s) (fs_commands s) (fs_sub s) num_str (fs_slot_num s).

Lemma f_itoa_ok n s : 0 < n < 2 ^ 31 -> length (fs_num_str s) = 12%nat ->
  exists ns, f_itoa n s = (with_num s ns, Normal (dec n)) /\ length ns = 12%nat.
Proof.
  intros Hn Hl. unfold f_itoa. rewrite gbind_get. rewrite i32_small by (unfold INT_MIN, INT_MAX; lia).
  rewrite hi_itoa_run by (unfold INT_MIN, INT_MAX; lia). cbn [gdef]. rewrite gbind_ret.
  assert (Ht : itoa_text n = dec n).
  { unfold itoa_text. replace (n <? 0) with false by lia. by rewrite Z.abs_eq by lia. }
  pose proof (itoa_length (fs_num_str s) n ltac:(lia) ltac:(unfold INT_MIN, INT_MAX; lia)) as Hlen.
  pose proof (itoa_text_no_nul n) as Hnul. rewrite Ht in *.
  eexists. unfold f_set_num_str. rewrite gbind_modify. split; [|rewrite Hlen; exact Hl].
  unfold num_str_text. rewrite decide_True by set_solver. by rewrite c_str_app_nul.
Qed.

(** [d] is written at the front of a buffer of [n] bytes. *)
Definition out_at (out : bytes * nat) (d : bytes) (n : nat) : Prop :=
  out.2 = length d /\ length out.1 = n /\ take out.2 out.1 = d.

Lemma f_put_ok out d n src (s : fstate W) : out_at out d n -> (length d + length src <= n)%nat ->
  exists out', f_put out src s = (s, Normal out') /\ out_at out' (d ++ src) n.
Proof.
  intros (H1 & H2 & H3) Hl. unfold f_put, buf_write. rewrite decide_True by lia. cbn [gdef].
  rewrite gbind_ret. eexists. split; [reflexivity|]. destruct out as [b i]. cbn [fst snd] in *. subst i n.
  unfold out_at. cbn [fst snd]. rewrite !length_app, length_drop, H3. split_and!; [done|lia|].
  rewrite app_assoc. rewrite take_app_length' by (rewrite length_app; lia). done.
Qed.

Lemma out_full out d n : out_at out d n -> length d = n -> out.1 = d.
Proof. intros (H1 & H2 & H3) Hl. rewrite <- H3. rewrite take_ge; [done|lia]. Qed.

Lemma kp_text_length kp : kp ∈ kps -> let akp := annotate mset buf kp in
  Z.of_nat (length (kp_text mset buf akp)) = kp_cost akp + (if mset then 3 else 5).
Proof.
  intros Hin akp. destruct (kp_len_small kp Hin) as [Hl _].
  rewrite Forall_forall in Hgood. destruct (Hgood _ Hin) as (H1 & H2 & H3 & _).
  destruct (uint_len_pos (kp_len kp) ltac:(lia)) as [Hu _].
  unfold kp_text, kp_cost. subst akp. change (kp_len (annotate mset buf kp)) with (kp_len kp).
  change (kp_start (annotate mset buf kp)) with (kp_start kp). rewrite Hu.
  rewrite !length_app, length_take, length_drop. change (length CRLF) with 2%nat. change (length (str "$")) with 1%nat.
  set (r := remain_len _) in *. clearbody r. destruct mset.
  - change (length (@nil byte)) with 0%nat. lia.
  - change (length CRLF) with 2%nat. lia.
Qed.

(** Reading a key of the sub command. *)
Lemma f_put_key_ok keys l j kp d n s out :
  holds keys (annotate mset buf <$> l) -> l ⊆ kps -> l !! j = Some kp ->
  length (fs_num_str s) = 12%nat -> out_at out d n ->
  (length d + length (kp_text mset buf (annotate mset buf kp)) <= n)%nat ->
  exists ns out', f_put_key mset buf keys j out s = (with_num s ns, Normal out') /\ length ns = 12%nat /\
    out_at out' (d ++ kp_text mset buf (annotate mset buf kp)) n.
Proof.
  intros Hh Hsub Hj Hns Hout Hn. assert (Hin : kp ∈ kps) by (apply Hsub; by eapply list_elem_of_lookup_2).
  destruct (kp_len_small kp Hin) as [Hl Hc].
  pose proof Hgood as Hg. rewrite Forall_forall in Hg. destruct (Hg _ Hin) as (H1 & H2 & H3 & _).
  set (akp := annotate mset buf kp) in *. unfold f_put_key.
  assert (Hlk : (annotate mset buf <$> l) !! j = Some akp) by (by rewrite list_lookup_fmap, Hj).
  rewrite (load_get _ _ _ _ (holds_repr _ _ Hh) Hlk). cbn [gdef]. rewrite gbind_ret. cbn zeta.
  change (Z.of_nat (kp_end akp - kp_start akp)) with (kp_len kp).
  assert (Hr : remain_len akp < 2 ^ 31).
  { unfold kp_cost in Hc. change (kp_len akp) with (kp_len kp) in Hc. pose proof (uint_len_pos (kp_len kp) ltac:(lia)). lia. }
  rewrite (u32_small (kp_len kp)) by lia. unfold kp_text in Hn |- *. rewrite !length_app in Hn.
  change (kp_len akp) with (kp_len kp) in *. change (kp_start akp) with (kp_start kp) in *.
  destruct (f_itoa_ok (kp_len kp) s ltac:(lia) Hns) as (ns & Hi & Hns'). exists ns.
  erewrite gbind_normal by exact Hi. clear Hi. set (s2 := with_num s ns). clearbody s2. clear s Hns. rename s2 into s.
  destruct (f_put_ok out d n (str "$") s Hout ltac:(lia)) as (o1 & Hp1 & Ho1). erewrite gbind_normal by exact Hp1.
  destruct (f_put_ok _ _ _ (dec (kp_len kp)) s Ho1 ltac:(rewrite !length_app; lia)) as (o2 & Hp2 & Ho2).
  erewrite gbind_normal by exact Hp2.
  destruct (f_put_ok _ _ _ CRLF s Ho2 ltac:(rewrite !length_app; lia)) as (o3 & Hp3 & Ho3).
  erewrite gbind_normal by exact Hp3. rewrite <- !app_assoc in Ho3.
  unfold buf_read. destruct mset eqn:Em.
  - rewrite u32_small by lia. rewrite decide_True by lia. cbn [gdef]. rewrite gbind_ret.
    destruct (f_put_ok _ _ n (take (Z.to_nat (kp_len kp + remain_len akp)) (drop (kp_start kp) buf)) s Ho3) as (o4 & Hp4 & Ho4).
    { rewrite !length_app. lia. }
    exists o4. split; [done|]. split; [done|]. rewrite app_nil_r. rewrite <- !app_assoc in Ho4. exact Ho4.
  - assert (Hz : remain_len akp = 0) by (subst akp; unfold annotate; cbn; by rewrite ?Em). rewrite Hz, Z.add_0_r in *.
    rewrite decide_True by lia. cbn [gdef]. rewrite gbind_ret.
    destruct (f_put_ok _ _ n (take (Z.to_nat (kp_len kp)) (drop (kp_start kp) buf)) s Ho3) as (o4 & Hp4 & Ho4).
    { rewrite !length_app. lia. }
    erewrite gbind_normal by exact Hp4.
    destruct (f_put_ok _ _ n CRLF s Ho4) as (o5 & Hp5 & Ho5). { rewrite !length_app. lia. }
    exists o5. split; [done|]. split; [done|]. rewrite <- !app_assoc in Ho5. exact Ho5.
Qed.

Lemma with_num_twice s a b : with_num (with_num s a) b = with_num s b.
Proof. done. Qed.

Abbreviation texts l := (concat (kp_text mset buf <$> (annotate mset buf <$> l))).

Lemma f_put_keys_ok keys l n : holds keys (annotate mset buf <$> l) -> l ⊆ kps ->
  forall m j d s out,
  (j + m)%nat = length l -> length (fs_num_str s) = 12%nat -> out_at out d n ->
  (length d + length (texts (drop j l)) <= n)%nat ->
  exists ns out', f_put_keys m mset buf keys j out s = (with_num s ns, Normal out') /\ length ns = 12%nat /\
    out_at out' (d ++ texts (drop j l)) n.
Proof.
  intros Hh Hsub. induction m as [|m IH]; intros j d s out Hj Hns Hout Hn.
  - exists (fs_num_str s), out. split; [by destruct s|]. split; [done|].
    rewrite drop_ge by lia. by rewrite app_nil_r.
  - destruct (lookup_lt_is_Some_2 l j) as [kp Hkp]; [lia|]. rewrite (drop_S l kp j Hkp) in Hn |- *.
    cbn [fmap list_fmap concat] in Hn |- *. rewrite length_app in Hn.
    destruct (f_put_key_ok keys l j kp d n s out Hh Hsub Hkp Hns Hout ltac:(lia)) as (ns & o1 & H1 & Hns1 & Ho1).
    cbn [f_put_keys]. erewrite gbind_normal by exact H1.
    destruct (IH (S j) _ (with_num s ns) o1 ltac:(lia) Hns1 Ho1) as (ns2 & o2 & H2 & Hns2 & Ho2).
    { rewrite length_app. lia. }
    exists ns2, o2. split; [exact H2|]. split; [done|]. by rewrite <- app_assoc in Ho2.
Qed.

Lemma group_annotate slot : group buf slot akps = annotate mset buf <$> group buf slot kps.
Proof.
  unfold group. clear. induction kps as [|kp l IH]; [done|]. cbn [fmap list_fmap]. rewrite !filter_cons.
  change (slot_of buf (annotate mset buf kp)) with (slot_of buf kp).
  case_decide; cbn [fmap list_fmap]; by rewrite IH.
Qed.

Lemma texts_length l : l ⊆ kps ->
  Z.of_nat (length (texts l))
    = cost (annotate mset buf <$> l) + (if mset then 3 else 5) * Z.of_nat (length l).
Proof.
  induction l as [|kp l IH]; intros Hl; [cbn; lia|]. cbn [fmap list_fmap concat cost foldr].
  rewrite length_app, Nat2Z.inj_add, IH by set_solver. rewrite (kp_text_length kp) by set_solver.
  fold (cost (annotate mset buf <$> l)). cbn [length]. lia.
Qed.

Variables (per_key : Z) (name : bytes).
Hypothesis Hformat : frag_format (c_type command) = Some (per_key, name).

(** The text of the sub command for the keys [l]. *)
Definition sub_text (l : list keypos) : bytes :=
  str "*" ++ dec ((if mset then 2 else 1) * Z.of_nat (length l) + 1) ++ name ++ texts l.

Definition sub_built (slot : Z) (sub : cmd) : Prop :=
  c_cmd sub = Some (sub_text (group buf slot kps)) /\
  c_clen sub = Z.of_nat (length (sub_text (group buf slot kps))) /\
  c_type sub = c_type command /\ c_slot_num sub = slot /\
  holds (c_keys sub) (annotate mset buf <$> group buf slot kps) /\
  c_reply sub = None /\ c_sub_commands sub = None.

Lemma format_facts : per_key = (if mset then 3 else 5) /\ (length name <= 20)%nat.
Proof.
  unfold frag_format in Hformat. destruct (c_type command); try done; injection Hformat as <- <-; cbn; lia.
Qed.

Lemma f_build_ok slot sub s : same_env s -> length (fs_num_str s) = 12%nat ->
  c_type (fs_command s) = c_type command ->
  sub_ok slot (group buf slot akps) sub ->
  exists ns sub', f_build buf sub s = (with_num s ns, Normal sub') /\ length ns = 12%nat /\
    sub_built slot (set_type sub' (c_type command)).
Proof.
  intros Henv Hns Hty (Hne & (Hh & Hnarg & Hclen & Hcmd & Hrep & Hsc) & Hslot).
  rewrite group_annotate in *. set (l := group buf slot kps) in *.
  destruct format_facts as [Hpk Hname].
  assert (Hl : l ⊆ kps) by (intros x [_ Hx]%list_elem_of_filter; done).
  assert (Hll : (length l <= length kps)%nat) by apply group_length.
  assert (Hl0 : (0 < length l)%nat) by (destruct l; [done|simpl; lia]).
  assert (Hc : 0 <= cost (annotate mset buf <$> l) <= cost akps).
  { subst l. rewrite <- group_annotate. split; [|apply cost_group, akps_nonneg].
    apply cost_nonneg, Forall_forall. intros x [_ Hx]%list_elem_of_filter.
    pose proof akps_nonneg as Hn. rewrite Forall_forall in Hn. by apply Hn. }
  pose proof (texts_length l Hl) as Htl. rewrite length_fmap in Hnarg.
  set (narg := (if mset then 2 else 1) * Z.of_nat (length l) + 1).
  assert (Hna : u32 ((if mset then u32 (c_narg sub * 2) else c_narg sub) + 1) = narg /\ 0 < narg < 2 ^ 31).
  { subst narg. rewrite Hnarg. destruct mset; [rewrite (u32_small (_ * 2)) by lia|]; rewrite u32_small by lia; lia. }
  destruct Hna as [Hna Hnarg'].
  unfold f_build. rewrite gbind_get, Hty, Hformat. cbn zeta. rewrite Hna.
  destruct (f_itoa_ok narg s Hnarg' Hns) as (ns & Hi & Hns'). erewrite gbind_normal by exact Hi.
  assert (Hdl : (length (dec narg) <= 10)%nat) by (apply dec_length_le; simpl; lia).
  erewrite gbind_normal by (apply f_lift_alloc_or, Henv).
  assert (Hlen : u32 (u32 (c_clen sub + u32 (per_key * c_narg sub)) + (1 + Z.of_nat (length name) + Z.of_nat (length (dec narg))))
      = Z.of_nat (length (sub_text l))).
  { unfold sub_text. fold narg. rewrite !length_app, Hclen, Hnarg, !Nat2Z.inj_add, Htl.
    change (length (str "*")) with 1%nat. subst per_key.
    destruct mset; rewrite (u32_small (_ * _)) by lia; rewrite (u32_small (cost _ + _)) by lia; rewrite u32_small; lia. }
  rewrite Hlen, Nat2Z.id. set (n := length (sub_text l)) in *.
  assert (Hn : (length (str "*" ++ dec narg ++ name ++ texts l) = n)%nat) by done.
  rewrite !length_app in Hn. clear Hi. set (s1 := with_num s ns).
  assert (Ho0 : out_at (replicate n Byte.x00, 0%nat) [] n) by (split_and!; [done|apply length_replicate|done]).
  destruct (f_put_ok _ _ _ (str "*") s1 Ho0) as (o1 & Hp1 & Ho1); [simpl in *; lia|]. erewrite gbind_normal by exact Hp1.
  destruct (f_put_ok _ _ _ (dec narg) s1 Ho1) as (o2 & Hp2 & Ho2); [rewrite ?length_app; simpl in *; lia|].
  erewrite gbind_normal by exact Hp2.
  destruct (f_put_ok _ _ _ name s1 Ho2) as (o3 & Hp3 & Ho3); [rewrite ?length_app; simpl in *; lia|].
  erewrite gbind_normal by exact Hp3.
  destruct (f_put_keys_ok (c_keys sub) l n Hh Hl (Z.to_nat (nelem (c_keys sub))) 0
    ((([] ++ str "*") ++ dec narg) ++ name) s1 o3) as (ns2 & o4 & Hp4 & Hns2 & Ho4).
  { destruct Hh as [Hr _]. destruct Hr as (_ & Hr & _). rewrite length_fmap in Hr. lia. }
  { done. } { exact Ho3. } { rewrite drop_0, !length_app. simpl in *. lia. }
  erewrite gbind_normal by exact Hp4. eexists ns2, _. split; [reflexivity|]. split; [done|].
  rewrite drop_0 in Ho4. apply out_full in Ho4; [|rewrite !length_app; simpl in *; lia].
  unfold sub_built. fold l. cbn. rewrite Ho4. rewrite <- !app_assoc. split_and!; done.
Qed.

(** The sub command of a slot when the second loop starts. *)
Definition sub_at (s : fstate W) (slot : Z) : Prop :=
  match fs_sub s !! slot with
  | Some sub => sub_ok slot (group buf slot akps) sub
  | None => group buf slot akps = []
  end.

Definition used (slots : list Z) : list Z := filter (fun slot => group buf slot kps <> []) slots.

Lemma f_emit_ok slot s : same_env s -> length (fs_num_str s) = 12%nat ->
  c_type (fs_command s) = c_type command -> sub_at s slot ->
  exists s' cs, f_emit buf slot s = (s', Normal ()) /\ fs_commands s' = fs_commands s ++ cs /\
    Forall2 sub_built (used [slot]) cs /\ same_env s' /\ fs_command s' = fs_command s /\
    fs_slot_num s' = fs_slot_num s /\ length (fs_num_str s') = 12%nat /\
    forall sl, sl <> slot -> fs_sub s' !! sl = fs_sub s !! sl.
Proof.
  intros Henv Hns Hty Hat. unfold f_emit, sub_at, used in *. rewrite gbind_get.
  destruct (fs_sub s !! slot) as [sub|] eqn:E.
  - destruct (f_build_ok slot sub s Henv Hns Hty Hat) as (ns & sub' & Hb & Hns' & Hbuilt).
    erewrite gbind_normal by exact Hb. rewrite Hty. unfold f_set_sub. rewrite gbind_modify.
    erewrite gbind_normal by (apply f_lift_alloc_or, Henv). unfold f_set_commands. rewrite gbind_modify.
    eexists _, [_]. split; [reflexivity|]. cbn. split; [reflexivity|]. split.
    { case_decide as Hd; [constructor; [exact Hbuilt|constructor]|].
      destruct Hat as [Hne _]. rewrite group_annotate in Hne. exfalso. apply Hne. by rewrite Hd. }
    do 4 (split; [done|]). intros sl Hsl. rewrite lookup_delete_ne by done. by apply lookup_insert_ne.
  - exists s, []. rewrite app_nil_r, group_annotate in *. apply fmap_nil_inv in Hat.
    split; [done|]. split; [done|]. split; [|done]. rewrite filter_cons, decide_False by auto. constructor.
Qed.

Lemma f_emit_all_ok slots : NoDup slots -> forall s, same_env s -> length (fs_num_str s) = 12%nat ->
  c_type (fs_command s) = c_type command -> (forall slot, slot ∈ slots -> sub_at s slot) ->
  exists s' cs, f_emit_all buf slots s = (s', Normal ()) /\ fs_commands s' = fs_commands s ++ cs /\
    Forall2 sub_built (used slots) cs /\ same_env s' /\ fs_command s' = fs_command s /\
    fs_slot_num s' = fs_slot_num s.
Proof.
  induction 1 as [|slot slots Hnin Hnd IH]; intros s Henv Hns Hty Hat.
  - exists s, []. rewrite app_nil_r. split_and!; try done.
  - destruct (f_emit_ok slot s Henv Hns Hty) as (s1 & c1 & H1 & Hc1 & Hf1 & He1 & Hcmd1 & Hsn1 & Hns1 & Hsub1).
    { apply Hat. left. }
    cbn [f_emit_all]. erewrite gbind_normal by exact H1.
    destruct (IH s1 He1 Hns1) as (s2 & c2 & H2 & Hc2 & Hf2 & He2 & Hcmd2 & Hsn2).
    { by rewrite Hcmd1. }
    { intros sl Hsl. unfold sub_at. rewrite Hsub1; [apply Hat; by right|]. intros ->. done. }
    exists s2, (c1 ++ c2). split; [exact H2|]. rewrite Hc2, Hc1, <- app_assoc. split; [done|]. split.
    { change (slot :: slots) with ([slot] ++ slots). unfold used in *. rewrite filter_app. by apply Forall2_app. }
    split; [done|]. by rewrite Hcmd2, Hsn2, Hcmd1, Hsn1.
Qed.

Lemma fill_start st num_str : length num_str = 12%nat -> s_allocs st = [] -> s_cc st = s_cc st0 ->
  fill_inv (take 0 akps)
    (mkFstate st (set_slot command (c_slot_num command) (Some (replicate (length kps) (-1)))) [] ∅ num_str (-1)).
Proof.
  intros Hl Ha Hcc. rewrite take_0. constructor; try done.
  - cbn. unfold frag_of. simpl. by rewrite Nat.sub_0_r.
Qed.

Lemma f_body_ok num_str : length num_str = 12%nat ->
  exists s, f_body (mkFstate st0 command [] ∅ num_str (-1)) = (s, Normal ()) /\ same_env s /\
    Forall2 sub_built (used all_slots) (fs_commands s) /\
    fs_command s = set_slot command (c_slot_num command) (Some (slot_of buf <$> kps)) /\
    fs_slot_num s = default (-1) (last (slot_of buf <$> kps)).
Proof.
  intros Hns. unfold f_body. rewrite gbind_get. cbn [fs_command]. unfold hiarray_n.
  destruct Hkeys as [(_ & Hn & _) _]. rewrite Hn, Nat2Z.id.
  erewrite gbind_normal by (by apply f_lift_alloc_or). erewrite gbind_normal by (by apply f_lift_alloc_or).
  unfold f_set_command. rewrite gbind_modify. cbn [fs_command fs_st fs_commands fs_sub fs_num_str fs_slot_num].
  rewrite Hbuf. cbn [gdef]. rewrite gbind_ret.
  destruct (f_fill_ok (length kps) 0 _ eq_refl (fill_start st0 num_str Hns Hallocs eq_refl)) as (s1 & H1 & Hi).
  erewrite gbind_normal by exact H1. destruct Hi.
  destruct (f_emit_all_ok all_slots all_slots_nodup s1) as (s2 & cs & H2 & Hcs & Hf & He & Hcmd & Hsn); try done.
  { by rewrite fi_command0. }
  { intros slot _. apply fi_sub0. }
  assert (Hs : slot_of buf <$> akps = slot_of buf <$> kps) by (rewrite <- list_fmap_compose; done).
  exists s2. rewrite fi_commands0 in Hcs. simpl in Hcs. rewrite Hcs, Hcmd, Hsn, fi_command0, fi_slot_num0, Hs.
  split; [done|]. split; [done|]. split; [done|]. split; [|done]. unfold frag_of.
  rewrite Hs, length_fmap, Nat.sub_diag. simpl. by rewrite app_nil_r.
Qed.

Lemma pre_fragment_keypos num_str : length num_str = 12%nat ->
  exists st cs, s_allocs st = [] /\ s_cc st = s_cc st0 /\ Forall2 sub_built (used all_slots) cs /\
    let slot_num := default (-1) (last (slot_of buf <$> kps)) in
    command_pre_fragment num_str command [] st0
      = Some (if Z.of_nat (length cs) =? 1
              then (st, slot_num, set_slot command slot_num None, [])
              else (st, slot_num,
                    set_slot command (c_slot_num command) (Some (slot_of buf <$> kps)), cs)).
Proof.
  intros Hns. destruct (f_body_ok num_str Hns) as (s & Hb & [He1 He2] & Hf & Hc & Hsn).
  exists (fs_st s), (fs_commands s). split; [done|]. split; [done|]. split; [done|]. cbn zeta.
  unfold command_pre_fragment. rewrite Hb. cbn zeta. rewrite Hc, Hsn.
  destruct (Z.of_nat (length (fs_commands s)) =? 1) eqn:E; [|by rewrite andb_false_r].
  destruct (last (slot_of buf <$> kps)) as [sl|] eqn:El; cbn [default from_option id].
  - rewrite last_lookup, list_lookup_fmap in El. apply fmap_Some in El as (kp & _ & ->).
    pose proof (keyHashSlot_bounds (key_text buf kp)). replace (0 <=? slot_of buf kp) with true; [done|].
    symmetry. apply Z.leb_le. unfold slot_of. lia.
  - apply last_None, fmap_nil_inv in El. apply Forall2_length in Hf.
    assert (Hu : used all_slots = []); [|rewrite Hu in Hf; simpl in Hf; lia].
    clear Hf. unfold used. rewrite El. unfold group. induction all_slots as [|x l IH]; [done|].
    rewrite filter_cons. rewrite decide_False by auto. exact IH.
Qed.
End Split.
