(* ===== verification/Split.v ===== *)
(** * What splitting a command by slot gives, in terms of its arguments

    [Fragment.v] shows what the loops of [command_pre_fragment] write for any array
    of key positions; here the positions are those the parser finds in a formatted
    command, and the texts are those of formatted sub commands. *)
From S2P Require Import Prelude Hiutil Crc16 Hiarray Goto Hiredis Cmddef Lookup Command Context Fragment.

(** The name written in the sub commands. *)
Definition frag_word (t : cmd_type) : bytes :=
  match t with
  | CMD_REQ_REDIS_MGET => str "mget"
  | CMD_REQ_REDIS_DEL => str "del"
  | CMD_REQ_REDIS_EXISTS => str "exists"
  | _ => str "mset"
  end.

(** The arguments that belong to the key at index [i], and its slot. *)
Definition key_args (t : cmd_type) (argv : list bytes) (i : nat) : list bytes :=
  if is_mset t then [argv !!! i; argv !!! S i] else [argv !!! i].
Definition key_slot (argv : list bytes) (i : nat) : Z := keyHashSlot (argv !!! i).

(** The sub command of a slot. *)
Definition split_argv (t : cmd_type) (argv : list bytes) (idx : list nat) (slot : Z) : list bytes :=
  frag_word t :: concat (key_args t argv <$> filter (fun i => key_slot argv i = slot) idx).

(** The slots that get one, in order. *)
Definition split_slots (argv : list bytes) (idx : list nat) : list Z :=
  filter (fun slot => slot ∈ key_slot argv <$> idx) all_slots.

(** ** The length of a value *)

Lemma skip_nondigits_spec pre : forall fuel buf p d post,
  drop p buf = pre ++ d :: post -> Forall (fun c => isdigit c = false) pre -> isdigit d = true ->
  (length pre < fuel)%nat -> skip_nondigits fuel buf p = Some (p + length pre)%nat.
Proof.
  induction pre as [|b pre IH]; intros fuel buf p d post E Hpre Hd Hf;
    (destruct fuel as [|fuel]; [lia|]); cbn [skip_nondigits].
  - assert (Hb : buf !! p = Some d) by (rewrite <- (Nat.add_0_r p), <- lookup_drop, E; done).
    rewrite Hb. cbn [mbind option_bind]. rewrite Hd. by rewrite Nat.add_0_r.
  - assert (Hb : buf !! p = Some b) by (rewrite <- (Nat.add_0_r p), <- lookup_drop, E; done).
    rewrite Hb. cbn [mbind option_bind]. apply Forall_cons in Hpre as [-> Hpre].
    rewrite (drop_S buf b p Hb) in E. injection E as E. simpl in Hf.
    rewrite (IH fuel buf (S p) d post E Hpre Hd ltac:(lia)). f_equal. simpl. lia.
Qed.

Lemma read_len_spec ds : forall fuel buf p b post n,
  drop p buf = ds ++ b :: post -> Forall (fun c => isdigit c = true) ds -> isdigit b = false ->
  (length ds < fuel)%nat -> 0 <= n -> dec_val n ds < 2 ^ 32 ->
  read_len fuel buf p n = Some ((p + length ds)%nat, dec_val n ds).
Proof.
  induction ds as [|d ds IH]; intros fuel buf p b post n E Hd Hb Hf Hn Hv;
    (destruct fuel as [|fuel]; [simpl in Hf; lia|]); cbn [read_len].
  - assert (Hl : buf !! p = Some b) by (rewrite <- (Nat.add_0_r p), <- lookup_drop, E; done).
    rewrite Hl. cbn [mbind option_bind]. rewrite Hb. by rewrite Nat.add_0_r.
  - assert (Hl : buf !! p = Some d) by (rewrite <- (Nat.add_0_r p), <- lookup_drop, E; done).
    rewrite Hl. cbn [mbind option_bind]. apply Forall_cons in Hd as [Hd0 Hd]. rewrite Hd0.
    rewrite (drop_S buf d p Hl) in E. injection E as E. unfold isdigit in Hd0. unfold dec_val in *.
    cbn [fold_left length] in *. change (Z_of_byte d - 48) with (digit_val d).
    assert (0 <= digit_val d < 10) by (unfold digit_val; lia).
    assert (Hmono : n * 10 + digit_val d < 2 ^ 32).
    { eapply Z.le_lt_trans; [|exact Hv]. apply (dec_val_ge (n * 10 + digit_val d) ds); [lia|done]. }
    rewrite (wrapu_small 32 (n * 10)) by lia. rewrite wrapu_small by lia.
    rewrite (IH fuel buf (S p) b post (n * 10 + digit_val d) E Hd Hb ltac:(lia) ltac:(lia) Hv). f_equal. f_equal. lia.
Qed.

Lemma mset_remain_spec buf kend v post :
  drop kend buf = CRLF ++ fmt_bulk v ++ post -> Z.of_nat (length v) < 2 ^ 31 ->
  mset_remain buf kend = Some (2 + Z.of_nat (length (fmt_bulk v))).
Proof.
  intros E Hv. unfold mset_remain. pose proof (dec_digits (Z.of_nat (length v)) ltac:(lia)) as Hd.
  pose proof (dec_length_pos (Z.of_nat (length v)) ltac:(lia)) as Hpos.
  pose proof (dec_length_le 10 (Z.of_nat (length v)) ltac:(simpl; lia) ltac:(lia)) as Hle.
  pose proof (dec_val_dec (Z.of_nat (length v)) ltac:(lia)) as Hval.
  assert (Hlen : length (drop kend buf) = (2 + length (fmt_bulk v) + length post)%nat).
  { rewrite E, !length_app. simpl. lia. }
  pose proof (length_fmt_bulk v) as Hfb. rewrite length_drop in Hlen. unfold fmt_bulk in E.
  set (ds := dec (Z.of_nat (length v))) in *.
  assert (E1 : drop (kend + 1) buf = [LF; "$"%byte] ++ ds ++ CR :: LF :: v ++ CRLF ++ post).
  { rewrite <- drop_drop, E, <- !app_assoc. done. }
  destruct ds as [|d ds'] eqn:Eds; [simpl in Hpos; lia|].
  assert (Hd0 : isdigit d = true) by (by apply Forall_cons in Hd as [? _]).
  erewrite (skip_nondigits_spec [LF; "$"%byte]); [|exact E1|by repeat constructor|exact Hd0|simpl; lia].
  cbn [mbind option_bind]. rewrite <- Eds in *.
  assert (E2 : drop (kend + 1 + length [LF; "$"%byte]) buf = ds ++ CR :: LF :: v ++ CRLF ++ post).
  { rewrite <- drop_drop, E1, Eds. done. }
  erewrite (read_len_spec ds); [|exact E2|done|done|simpl in *; lia|lia|rewrite Hval; lia].
  cbn [mbind option_bind]. rewrite Hval, Hfb.
  rewrite (u32_small (_ + 2 * 2)) by lia. rewrite u32_small by (simpl in *; lia). f_equal. simpl in *. lia.
Qed.

(** ** Keys of a formatted command *)

Section Formatted.
Variables (argv : list bytes) (rest : bytes) (t : cmd_type).
Abbreviation buf := (fmt_cmd argv ++ rest).
Abbreviation mset := (is_mset t).
Hypothesis small : Z.of_nat (length (fmt_cmd argv)) < 2 ^ 30.

(** How many arguments belong to a key. *)
Definition span : nat := if mset then 2 else 1.

(** Indices that leave room for their arguments, from [lo] on. *)
Fixpoint spaced (lo : nat) (idx : list nat) : Prop :=
  match idx with
  | [] => True
  | i :: idx' => (lo <= i)%nat /\ (i + span <= length argv)%nat /\ spaced (i + span) idx'
  end.

Lemma spaced_room lo idx i : spaced lo idx -> i ∈ idx -> (i + span <= length argv)%nat.
Proof.
  revert lo. induction idx as [|j idx IH]; intros lo Hs Hi; [by apply not_elem_of_nil in Hi|].
  destruct Hs as (_ & H1 & Hs). apply elem_of_cons in Hi as [->|Hi]; [done|by eapply IH].
Qed.

Lemma kend_text i k : argv !! i = Some k ->
  drop (kp_end (arg_keypos argv i)) buf = CRLF ++ concat (fmt_bulk <$> drop (S i) argv) ++ rest.
Proof.
  intros Hi. unfold arg_keypos. cbn [kp_end]. rewrite (list_lookup_total_correct _ _ _ Hi).
  rewrite <- drop_drop. rewrite (arg_text argv rest i k Hi). by rewrite drop_app_length.
Qed.

Lemma arg_short i a : argv !! i = Some a -> Z.of_nat (length a) < 2 ^ 30.
Proof.
  intros Hi. pose proof (endp_split argv i a Hi). unfold arg_pos in *. lia.
Qed.

Lemma kp_len_arg i k : argv !! i = Some k -> kp_len (arg_keypos argv i) = Z.of_nat (length k).
Proof.
  intros Hi. unfold kp_len, arg_keypos. cbn [kp_start kp_end]. rewrite (list_lookup_total_correct _ _ _ Hi). lia.
Qed.

Lemma slot_of_arg i k : argv !! i = Some k -> slot_of buf (arg_keypos argv i) = key_slot argv i.
Proof.
  intros Hi. unfold slot_of, key_slot. by rewrite (key_text_keypos argv rest i k Hi), (list_lookup_total_correct _ _ _ Hi).
Qed.

(** What the scan of MSET finds for a key. *)
Lemma remain_arg i k : argv !! i = Some k -> (i + span <= length argv)%nat ->
  (mset = true -> is_Some (mset_remain buf (kp_end (arg_keypos argv i)))) /\
  remain_len (annotate mset buf (arg_keypos argv i))
    = if mset then 2 + Z.of_nat (length (fmt_bulk (argv !!! S i))) else 0.
Proof.
  intros Hi Hr. unfold annotate, span in *. cbn [remain_len]. destruct mset; [|done].
  destruct (lookup_lt_is_Some_2 argv (S i)) as [v Hv]; [lia|].
  pose proof (kend_text i k Hi) as E. rewrite (drop_S _ v _ Hv) in E. cbn [fmap list_fmap concat] in E.
  rewrite <- app_assoc in E. pose proof (arg_short _ _ Hv).
  rewrite (mset_remain_spec _ _ _ _ E) by lia. rewrite (list_lookup_total_correct _ _ _ Hv). done.
Qed.

(** The text of a key in a sub command is its formatted arguments. *)
Lemma kp_text_arg i k : argv !! i = Some k -> (i + span <= length argv)%nat ->
  kp_text mset buf (annotate mset buf (arg_keypos argv i)) = concat (fmt_bulk <$> key_args t argv i).
Proof.
  intros Hi Hr. unfold kp_text. destruct (remain_arg i k Hi Hr) as [_ ->].
  change (kp_len (annotate mset buf (arg_keypos argv i))) with (kp_len (arg_keypos argv i)).
  change (kp_start (annotate mset buf (arg_keypos argv i))) with (arg_loc argv i).1.
  rewrite (kp_len_arg i k Hi), (arg_text argv rest i k Hi). unfold key_args, span in *.
  destruct mset.
  - destruct (lookup_lt_is_Some_2 argv (S i)) as [v Hv]; [lia|]. rewrite (drop_S _ v _ Hv).
    rewrite (list_lookup_total_correct _ _ _ Hi), (list_lookup_total_correct _ _ _ Hv).
    cbn [fmap list_fmap concat]. rewrite !app_nil_r.
    change (fmt_bulk k) with (str "$" ++ dec (Z.of_nat (length k)) ++ CRLF ++ k ++ CRLF). rewrite <- !app_assoc. do 3 f_equal.
    rewrite (app_assoc CRLF), (app_assoc k). apply take_app_length'. rewrite !length_app.
    change (length CRLF) with 2%nat. lia.
  - rewrite (list_lookup_total_correct _ _ _ Hi). cbn [fmap list_fmap concat]. rewrite app_nil_r.
    change (fmt_bulk k) with (str "$" ++ dec (Z.of_nat (length k)) ++ CRLF ++ k ++ CRLF). do 3 f_equal. rewrite Z.add_0_r, Nat2Z.id. by rewrite take_app_length.
Qed.

Lemma kp_good_arg i k : argv !! i = Some k -> k <> [] -> (i + span <= length argv)%nat ->
  kp_good mset buf (arg_keypos argv i).
Proof.
  intros Hi Hk Hr. destruct (remain_arg i k Hi Hr) as [H1 H2]. unfold kp_good. rewrite H2, (kp_len_arg i k Hi).
  assert (length k <> 0)%nat by (by destruct k).
  pose proof (arg_text argv rest i k Hi) as E. apply (f_equal length) in E.
  rewrite length_drop, !length_app in E. change (length CRLF) with 2%nat in E.
  clear H2. unfold arg_keypos in H1 |- *. cbn [kp_start kp_end] in H1 |- *.
  rewrite (list_lookup_total_correct _ _ _ Hi) in H1 |- *. split; [lia|]. unfold span in *.
  split; [destruct mset; lia|]. split; [|exact H1]. clear H1. destruct mset.
  - destruct (lookup_lt_is_Some_2 argv (S i)) as [v Hv]; [lia|]. rewrite (drop_S _ v _ Hv) in E.
    cbn [fmap list_fmap concat] in E. rewrite length_app in E. rewrite (list_lookup_total_correct _ _ _ Hv).
    rewrite length_app. lia.
  - rewrite length_app. lia.
Qed.

(** The sizes that the first loop adds up are bounded by the command's own. *)
Lemma arg_pos_mono i j : (i <= j)%nat -> (j <= length argv)%nat -> (arg_pos argv i <= arg_pos argv j)%nat.
Proof.
  intros Hij Hj. induction Hij as [|j Hij IH]; [done|]. destruct (lookup_lt_is_Some_2 argv j) as [a Ha]; [lia|].
  destruct (endp_split argv j a Ha) as [_ H]. specialize (IH ltac:(lia)). lia.
Qed.

Lemma arg_pos_S i a : argv !! i = Some a -> arg_pos argv (S i) = (arg_pos argv i + length (fmt_bulk a))%nat.
Proof. intros Hi. unfold arg_pos. by rewrite (cmd_prefix_S _ _ _ Hi), length_app. Qed.

Lemma kp_cost_arg i k : argv !! i = Some k -> (i + span <= length argv)%nat ->
  kp_cost (annotate mset buf (arg_keypos argv i)) + 8 <= 2 * Z.of_nat (arg_pos argv (i + span) - arg_pos argv i).
Proof.
  intros Hi Hr. unfold kp_cost. destruct (remain_arg i k Hi Hr) as [_ ->].
  change (kp_len (annotate mset buf (arg_keypos argv i))) with (kp_len (arg_keypos argv i)).
  rewrite (kp_len_arg i k Hi). pose proof (arg_short i k Hi).
  destruct (uint_len_pos (Z.of_nat (length k)) ltac:(lia)) as [-> _].
  pose proof (length_fmt_bulk k) as Hk. pose proof (arg_pos_S i k Hi) as Hp.
  pose proof (dec_length_pos (Z.of_nat (length k)) ltac:(lia)). unfold span in *. destruct mset.
  - destruct (lookup_lt_is_Some_2 argv (S i)) as [v Hv]; [lia|]. rewrite (list_lookup_total_correct _ _ _ Hv).
    pose proof (arg_pos_S _ v Hv) as Hp'. replace (i + 2)%nat with (S (S i)) by lia.
    pose proof (length_fmt_bulk v). lia.
  - replace (i + 1)%nat with (S i) by lia. lia.
Qed.

Lemma cost_bound idx : forall lo, (lo <= length argv)%nat -> spaced lo idx ->
  cost (annotate mset buf <$> (arg_keypos argv <$> idx)) + 8 * Z.of_nat (length idx)
    <= 2 * Z.of_nat (length (fmt_cmd argv) - arg_pos argv lo).
Proof.
  induction idx as [|i idx IH]; intros lo Hlo Hs; [cbn; lia|]. destruct Hs as (Hi & Hr & Hs).
  destruct (lookup_lt_is_Some_2 argv i) as [k Hk]; [unfold span in *; destruct mset; lia|].
  cbn [fmap list_fmap cost foldr length]. fold (cost (annotate mset buf <$> (arg_keypos argv <$> idx))).
  pose proof (kp_cost_arg i k Hk Hr). specialize (IH _ Hr Hs).
  pose proof (arg_pos_mono lo i Hi ltac:(lia)). pose proof (arg_pos_mono i (i + span) ltac:(lia) Hr).
  pose proof (arg_pos_mono (i + span) (length argv) Hr ltac:(lia)) as Hm.
  assert (Hend : arg_pos argv (length argv) = length (fmt_cmd argv)).
  { unfold arg_pos. by rewrite cmd_prefix_all. }
  lia.
Qed.

Lemma spaced_length idx : forall lo, spaced lo idx -> (lo <= length argv)%nat -> (lo + length idx <= length argv)%nat.
Proof.
  induction idx as [|i idx IH]; intros lo Hs Hlo; [simpl; lia|]. destruct Hs as (H1 & H2 & H3).
  specialize (IH _ H3 H2). unfold span in *. simpl. destruct mset; lia.
Qed.

Lemma spaced_lookup lo idx : spaced lo idx -> Forall (fun i => exists k, argv !! i = Some k /\ (i + span <= length argv)%nat) idx.
Proof.
  intros Hs. apply Forall_forall. intros i Hi. pose proof (spaced_room lo idx i Hs Hi) as Hr.
  destruct (lookup_lt_is_Some_2 argv i) as [k Hk]; [unfold span in *; destruct mset; lia|]. eauto.
Qed.

(** The group of a slot, through the arguments. *)
Lemma group_arg slot lo idx : spaced lo idx ->
  group buf slot (arg_keypos argv <$> idx) = arg_keypos argv <$> filter (fun i => key_slot argv i = slot) idx.
Proof.
  intros Hs%spaced_lookup. unfold group. induction Hs as [|i idx (k & Hk & _) Hs IH]; [done|].
  cbn [fmap list_fmap]. rewrite !filter_cons, (slot_of_arg i k Hk). case_decide; cbn [fmap list_fmap]; by rewrite IH.
Qed.

Lemma texts_arg l : Forall (fun i => exists k, argv !! i = Some k /\ (i + span <= length argv)%nat) l ->
  concat (kp_text mset buf <$> (annotate mset buf <$> (arg_keypos argv <$> l)))
    = concat (fmt_bulk <$> concat (key_args t argv <$> l)) /\
  length (concat (key_args t argv <$> l)) = (span * length l)%nat.
Proof.
  induction 1 as [|i l (k & Hk & Hr) Hl [IH1 IH2]]; [unfold span; by destruct mset|].
  cbn [fmap list_fmap concat]. rewrite (kp_text_arg i k Hk Hr). rewrite IH1, fmap_app, concat_app. split; [done|].
  rewrite length_app, IH2. unfold key_args, span. destruct mset; simpl; lia.
Qed.

Lemma slots_arg lo idx : spaced lo idx -> slot_of buf <$> (arg_keypos argv <$> idx) = key_slot argv <$> idx.
Proof.
  intros Hs%spaced_lookup. induction Hs as [|i idx (k & Hk & _) Hs IH]; [done|].
  cbn [fmap list_fmap]. by rewrite (slot_of_arg i k Hk), IH.
Qed.

Lemma used_arg lo idx : spaced lo idx -> used buf (arg_keypos argv <$> idx) all_slots = split_slots argv idx.
Proof.
  intros Hs. unfold used, split_slots. apply list_filter_iff. intros slot. rewrite (group_arg slot lo idx Hs).
  rewrite list_elem_of_fmap. split.
  - intros Hne. destruct (filter _ idx) as [|i l] eqn:E; [done|].
    assert (Hi : i ∈ filter (fun i => key_slot argv i = slot) idx) by (rewrite E; left).
    apply list_elem_of_filter in Hi as [<- Hi]. eauto.
  - intros (i & -> & Hi) E. apply fmap_nil_inv in E.
    assert (Hin : i ∈ filter (fun j => key_slot argv j = key_slot argv i) idx) by by apply list_elem_of_filter.
    rewrite E in Hin. by apply not_elem_of_nil in Hin.
Qed.
End Formatted.

(** ** The indices the parser finds for a command with several keys *)

Lemma more_keys_spaced argv t (kvx := is_mset t) : forall m i, (i + m)%nat = length argv ->
  (kvx = true -> Z.of_nat (length argv) mod 2 = 1) ->
  spaced argv t (if kvx && (Z.of_nat i mod 2 =? 0) then S i else i) (more_keys kvx i (length argv)).
Proof.
  induction m as [|m IH]; intros i Hm Hodd.
  - unfold more_keys. by replace (length argv - i)%nat with 0%nat by lia.
  - rewrite more_keys_cons by lia. specialize (IH (S i) ltac:(lia) Hodd). unfold span in IH |- *. fold kvx in IH |- *.
    destruct kvx eqn:Ek; cbn [andb] in IH |- *.
    + specialize (Hodd eq_refl). assert (Hp : Z.of_nat (S i) mod 2 = 1 - Z.of_nat i mod 2) by zdiv.
      destruct (Z.of_nat i mod 2 =? 0) eqn:E; cbn [app].
      * apply Z.eqb_eq in E. rewrite Hp, E in IH. exact IH.
      * apply Z.eqb_neq in E. assert (E1 : Z.of_nat i mod 2 = 1) by zdiv. rewrite Hp, E1 in IH. cbn [spaced]. unfold span. fold kvx. rewrite Ek.
        split; [done|]. split; [zdiv|]. by replace (i + 2)%nat with (S (S i)) by lia.
    + cbn [app spaced]. unfold span. fold kvx. rewrite Ek. split; [done|]. split; [lia|].
      by replace (i + 1)%nat with (S i) by lia.
Qed.

Definition splits (t : cmd_type) : bool := is_argx t || is_argkvx t.

Lemma splits_first_key info : info ∈ redis_commands -> splits (cd_type info) = true -> firstkeypos info <= 1.
Proof.
  assert (H : forallb (fun d => negb (splits (cd_type d)) || (firstkeypos d <=? 1)) redis_commands = true)
    by (vm_compute; reflexivity).
  rewrite forallb_forall in H. intros Hin%list_elem_of_In Hs. specialize (H _ Hin). rewrite Hs in H. simpl in H. lia.
Qed.

Lemma parse_spec_spaced argv t idx : parse_spec argv = inl (t, idx) -> (1 < length idx)%nat ->
  splits t = true /\ spaced argv t 1 idx.
Proof.
  unfold parse_spec. cbn zeta. destruct (redis_lookup_cmd _ _) as [info|] eqn:El; [|done].
  rewrite lookup_is_find in El. apply List.find_some in El as [Hin%list_elem_of_In _].
  destruct (key_indices info argv) as [idx'|] eqn:E; [|done]. intros [= <- <-] Hl. revert E. unfold key_indices.
  destruct (arity_error _ _); [done|]. destruct (firstkeymethod info).
  - intros [= <-]. simpl in Hl. lia.
  - destruct (cd_type info); try done; intros (k & _ & E)%bind_Some; injection E as <-; simpl in Hl; lia.
  - destruct (length argv <=? 1)%nat eqn:En; [done|]. apply Nat.leb_gt in En. cbn zeta.
    intros (a & _ & E)%bind_Some. revert E. destruct (_ && _ && _); [done|].
    destruct (is_argkvx (cd_type info) && _) eqn:Eodd; [done|].
    destruct (is_argx _ || _) eqn:Es; [|intros [= <-]; simpl in Hl; lia]. intros [= <-]. split; [exact Es|].
    pose proof (splits_first_key info Hin Es). replace (Z.to_nat (Z.max 1 (firstkeypos info))) with 1%nat by lia.
    change (is_argkvx (cd_type info)) with (is_mset (cd_type info)) in *.
    assert (Hodd : is_mset (cd_type info) = true -> Z.of_nat (length argv) mod 2 = 1).
    { intros Hm. rewrite Hm in Eodd. simpl in Eodd. zdiv. }
    pose proof (more_keys_spaced argv (cd_type info) (length argv - 2) 2 ltac:(lia) Hodd) as Hsp.
    cbn [spaced]. unfold span in *. destruct (is_mset (cd_type info)).
    + specialize (Hodd eq_refl). split; [done|]. split; [zdiv|exact Hsp].
    + split; [done|]. split; [lia|exact Hsp].
  - destruct (length argv <=? 1)%nat; [done|]. cbn zeta. intros (a & _ & E)%bind_Some. revert E.
    destruct (_ =? 0); [intros [= <-]; simpl in Hl; lia|]. intros (b & _ & E)%bind_Some.
    injection E as <-. simpl in Hl. lia.
Qed.

(** ** The split *)

(** The command as the parser leaves it. *)
Lemma parse_formatted command argv rest :
  formatted_cmd command argv rest ->
  exists r', redis_parse_cmd (fun _ => true) true command = Some r' /\ parsed argv command r'.
Proof.
  intros Hf. destruct (redis_parse_cmd_parsed (fun _ => true) true command argv rest Hf) as (r' & Hr & [Hp|[_ Hn]]).
  - by exists r'.
  - destruct Hn as [Hn|[k Hk]]; discriminate.
Qed.

Section Format.
Context {W : Type}.
Variables (command : cmd) (argv : list bytes) (rest num_str : bytes) (st : cstate W).
Hypotheses (Hcmd : formatted_cmd command argv rest) (Hnum : length num_str = 12%nat) (Halloc : s_allocs st = []).

(** What a sub command must be. *)
Definition is_sub (t : cmd_type) (idx : list nat) (slot : Z) (sub : cmd) : Prop :=
  c_slot_num sub = slot /\ c_type sub = t /\ c_reply sub = None /\
  c_cmd sub = Some (fmt_cmd (split_argv t argv idx slot)) /\
  c_clen sub = Z.of_nat (length (fmt_cmd (split_argv t argv idx slot))).

Lemma splits_format t : splits t = true ->
  frag_format t = Some (if is_mset t then 3 else 5, CRLF ++ fmt_bulk (frag_word t)).
Proof. by destruct t. Qed.

Lemma built_is_sub t idx r' slot sub :
  splits t = true -> spaced argv t 1 idx -> Z.of_nat (length (fmt_cmd argv)) < 2 ^ 30 -> c_type r' = t ->
  sub_built (fmt_cmd argv ++ rest) r' (arg_keypos argv <$> idx) (CRLF ++ fmt_bulk (frag_word t)) slot sub ->
  is_sub t idx slot sub.
Proof.
  intros Hs Hsp Hlen Ht (H1 & H2 & H3 & H4 & _ & H6 & _). rewrite (group_arg argv rest t slot 1 idx Hsp) in H1, H2.
  set (l := filter _ idx) in *.
  assert (Hl : Forall (fun i => exists k, argv !! i = Some k /\ (i + span t <= length argv)%nat) l).
  { pose proof (spaced_lookup argv t 1 idx Hsp) as Ha. rewrite Forall_forall in Ha. apply Forall_forall.
    intros i [_ Hi]%list_elem_of_filter. by apply Ha. }
  destruct (texts_arg argv rest t Hlen l Hl) as [E1 E2].
  assert (E : sub_text (fmt_cmd argv ++ rest) r' (CRLF ++ fmt_bulk (frag_word t)) (arg_keypos argv <$> l)
    = fmt_cmd (split_argv t argv idx slot)).
  { unfold sub_text. rewrite Ht, E1. unfold split_argv, fmt_cmd. fold l. rewrite fmap_cons. cbn [concat length].
    rewrite E2, length_fmap, <- !app_assoc. do 3 f_equal. unfold span. destruct (is_mset t); lia. }
  rewrite E in H1, H2. rewrite Ht in H3. done.
Qed.

Lemma split_parsed t idx r' : parse_spec argv = inl (t, idx) -> (1 < length idx)%nat ->
  Forall (fun i => argv !!! i <> []) idx -> Z.of_nat (length (fmt_cmd argv)) < 2 ^ 30 ->
  parsed argv command r' ->
  exists st' subs, s_cc st' = s_cc st /\ s_allocs st' = [] /\ Forall2 (is_sub t idx) (split_slots argv idx) subs /\
    let slot_num := default (-1) (last (key_slot argv <$> idx)) in
    command_pre_fragment num_str r' [] st
      = Some (if Z.of_nat (length subs) =? 1
              then (st', slot_num, set_slot r' slot_num None, [])
              else (st', slot_num, set_slot r' (c_slot_num r') (Some (key_slot argv <$> idx)), subs)).
Proof.
  intros Hps Hl Hne Hlen (P1 & P2 & P3). rewrite Hps in P3. destruct P3 as (_ & Ht & _ & Hk).
  destruct Hcmd as (_ & Hc & _). rewrite Hc in P1.
  destruct (parse_spec_spaced argv t idx Hps Hl) as [Hs Hsp].
  assert (Hgood : Forall (kp_good (is_mset (c_type r')) (fmt_cmd argv ++ rest)) (arg_keypos argv <$> idx)).
  { rewrite Ht. apply Forall_fmap. pose proof (spaced_lookup argv t 1 idx Hsp) as Ha. rewrite Forall_forall in Ha, Hne.
    apply Forall_forall. intros i Hi. destruct (Ha i Hi) as (k & Hki & Hr). apply (kp_good_arg argv rest t Hlen i k Hki); [|done].
    specialize (Hne i Hi). by rewrite (list_lookup_total_correct _ _ _ Hki) in Hne. }
  pose proof (cost_bound argv rest t Hlen idx 1) as Hcost.
  assert (1 <= length argv)%nat by (destruct Hcmd as (Hn & _); destruct argv; [done|simpl; lia]).
  destruct (pre_fragment_keypos (fmt_cmd argv ++ rest) r' (arg_keypos argv <$> idx) st P1 Hk Hgood Halloc)
    with (per_key := if is_mset t then 3 else 5) (name := CRLF ++ fmt_bulk (frag_word t)) (num_str := num_str)
    as (st' & subs & Hal & Hcc & Hf & Hpre).
  { rewrite Ht, length_fmap. specialize (Hcost ltac:(lia) Hsp). lia. }
  { rewrite Ht. by apply splits_format. }
  { done. }
  exists st', subs. split; [done|]. split; [done|]. rewrite (used_arg argv rest t 1 idx Hsp) in Hf.
  rewrite (slots_arg argv rest t 1 idx Hsp) in Hpre. split; [|exact Hpre].
  eapply Forall2_impl; [exact Hf|]. intros slot sub. by apply built_is_sub.
Qed.
End Format.

(** The groups of the slots are a partition of the keys. *)
Lemma split_slots_partition argv idx :
  concat ((fun slot => filter (fun i => key_slot argv i = slot) idx) <$> split_slots argv idx) ≡ₚ idx.
Proof.
  apply filter_partition.
  - unfold split_slots. apply NoDup_filter, all_slots_nodup.
  - apply Forall_forall. intros i Hi. unfold split_slots. apply list_elem_of_filter. split; [by apply list_elem_of_fmap_2|].
    apply elem_of_all_slots. unfold key_slot. exact (keyHashSlot_bounds (argv !!! i)).
Qed.

(** What the split gives, with the state it leaves. *)
Lemma format_splits {W} (command : cmd) (argv : list bytes) (rest num_str : bytes)
    (st : cstate W) (t : cmd_type) (idx : list nat) :
  formatted_cmd command argv rest -> Z.of_nat (length (fmt_cmd argv)) < 2 ^ 30 ->
  length num_str = 12%nat -> s_allocs st = [] ->
  parse_spec argv = inl (t, idx) -> (1 < length idx)%nat -> Forall (fun i => argv !!! i <> []) idx ->
  exists st' slot_num command' subs,
    command_format_by_slot (fun _ => true) true num_str command [] st = Some (st', slot_num, command', subs) /\
    s_cc st' = s_cc st /\ s_allocs st' = [] /\ c_clen command' = c_clen command /\
    c_cmd command' = c_cmd command /\ c_type command' = t /\
    concat ((fun slot => filter (fun i => key_slot argv i = slot) idx) <$> split_slots argv idx) ≡ₚ idx /\
    last (key_slot argv <$> idx) = Some slot_num /\
    if (length (split_slots argv idx) =? 1)%nat
    then subs = [] /\ c_slot_num command' = slot_num /\ c_frag_seq command' = None
    else Forall2 (is_sub argv t idx) (split_slots argv idx) subs /\
         c_frag_seq command' = Some (key_slot argv <$> idx).
Proof.
  intros Hf Hlen Hnum Ha Hps Hl Hne. destruct (parse_formatted command argv rest Hf) as (r' & Hr & Hp).
  destruct (split_parsed command argv rest num_str st Hf Hnum Ha t idx r' Hps Hl Hne Hlen Hp)
    as (st' & subs & Hcc & Hal & Hsubs & Hpre).
  destruct Hp as (P1 & P2 & P3). rewrite Hps in P3. destruct P3 as (Hres & Ht & _ & Hk).
  destruct Hf as (Hn & Hc & Hclen & Hsm & _). unfold command_format_by_slot. rewrite Hc, Hr. cbn [mbind option_bind].
  pose proof (arg_pos_lower argv (length argv) ltac:(lia)) as Hpl. unfold arg_pos in Hpl.
  rewrite cmd_prefix_all in Hpl by lia.
  assert (0 < length argv)%nat by (destruct argv; [done|simpl; lia]).
  replace (c_clen command <=? 0) with false by lia. rewrite Hres.
  destruct Hk as [(_ & Hnel & Hcap & _ & Hbig & _) _]. rewrite length_fmap in Hnel. unfold hiarray_n. rewrite Hnel.
  pose proof (parse_spec_spaced argv t idx Hps Hl) as [_ Hsp].
  pose proof (spaced_length argv t idx 1 Hsp ltac:(lia)) as Hil.
  rewrite i32_small by (unfold INT_MIN, INT_MAX; lia).
  replace (Z.of_nat (length idx) <=? 0) with false by lia. replace (Z.of_nat (length idx) =? 1) with false by lia.
  rewrite Hpre. pose proof (Forall2_length _ _ _ Hsubs) as Hlen2.
  assert (Hlast : last (key_slot argv <$> idx) = Some (default (-1) (last (key_slot argv <$> idx)))).
  { destruct (last _) eqn:E; [done|]. apply last_None, fmap_nil_inv in E. subst idx. simpl in Hl. lia. }
  pose proof (split_slots_partition argv idx) as Hpart. set (sn := default (-1) (last (key_slot argv <$> idx))) in *.
  rewrite Hlen2. destruct (Z.of_nat (length subs) =? 1) eqn:E.
  - exists st', sn, (set_slot r' sn None), []. replace (length subs =? 1)%nat with true by (symmetry; apply Nat.eqb_eq; lia).
    split_and!; try done. cbn. by rewrite P1.
  - exists st', sn, (set_slot r' (c_slot_num r') (Some (key_slot argv <$> idx))), subs.
    replace (length subs =? 1)%nat with false by (symmetry; apply Nat.eqb_neq; lia).
    split_and!; try done. cbn. by rewrite P1.
Qed.

(** C1. A formatted command with several keys, none empty, is split by slot: there is a
    sub command for each slot of its keys, in the order of the slots, whose text is
    exactly the formatted command of that slot's keys (with their values for MSET) in
    their order, [clen] its exact length; together they hold every key once.
    [frag_seq] records for each key the slot of its sub command.  Keys of one slot
    leave the command whole. *)
Theorem command_format_by_slot_splits {W} (command : cmd) (argv : list bytes) (rest num_str : bytes)
    (st : cstate W) (t : cmd_type) (idx : list nat) :
  formatted_cmd command argv rest -> Z.of_nat (length (fmt_cmd argv)) < 2 ^ 30 ->
  length num_str = 12%nat -> s_allocs st = [] ->
  parse_spec argv = inl (t, idx) -> (1 < length idx)%nat -> Forall (fun i => argv !!! i <> []) idx ->
  exists st' slot_num command' subs,
    command_format_by_slot (fun _ => true) true num_str command [] st = Some (st', slot_num, command', subs) /\
    s_cc st' = s_cc st /\ c_cmd command' = c_cmd command /\ c_type command' = t /\
    concat ((fun slot => filter (fun i => key_slot argv i = slot) idx) <$> split_slots argv idx) ≡ₚ idx /\
    last (key_slot argv <$> idx) = Some slot_num /\
    if (length (split_slots argv idx) =? 1)%nat
    then subs = [] /\ c_slot_num command' = slot_num /\ c_frag_seq command' = None
    else Forall2 (is_sub argv t idx) (split_slots argv idx) subs /\
         c_frag_seq command' = Some (key_slot argv <$> idx).
Proof.
  intros Hf Hlen Hnum Ha Hps Hl Hne.
  destruct (format_splits command argv rest num_str st t idx Hf Hlen Hnum Ha Hps Hl Hne)
    as (st' & slot_num & command' & subs & E & Hcc & _ & _ & H). by exists st', slot_num, command', subs.
Qed.

(** ** Every other branch of [command_format_by_slot] *)

(** A command with one key is not split: its slot is that of the key.  One without
    keys, and one the parser rejects, end with -1 and the error in the context, which
    is the parser's message for the latter. *)
Theorem command_format_by_slot_unsplit {W} (command : cmd) (argv : list bytes) (rest num_str : bytes)
    (commands : list cmd) (st : cstate W) :
  formatted_cmd command argv rest ->
  let fail type msg := upd_cc (redisClusterSetError type msg) st in
  match parse_spec argv with
  | inr msg =>
      exists c, command_format_by_slot (fun _ => true) true num_str command commands st
        = Some (fail REDIS_ERR_PROTOCOL msg, -1, c, commands)
  | inl (t, []) =>
      exists c, command_format_by_slot (fun _ => true) true num_str command commands st
        = Some (fail REDIS_ERR_OTHER (str "No keys in command(must have keys for redis cluster mode)"), -1, c, commands)
  | inl (t, [i]) =>
      exists c, command_format_by_slot (fun _ => true) true num_str command commands st
        = Some (st, key_slot argv i, c, commands) /\
        c_slot_num c = key_slot argv i /\ c_cmd c = c_cmd command /\ c_clen c = c_clen command
  | inl (t, _) => True
  end.
Proof.
  intros Hf fail. destruct (parse_formatted command argv rest Hf) as (r' & Hr & P1 & P2 & P3).
  destruct Hf as (Hn & Hc & Hclen & Hsm & _). unfold command_format_by_slot. rewrite Hc, Hr. cbn [mbind option_bind].
  pose proof (arg_pos_lower argv (length argv) ltac:(lia)) as Hpl. unfold arg_pos in Hpl.
  rewrite cmd_prefix_all in Hpl by lia.
  assert (0 < length argv)%nat by (destruct argv; [done|simpl; lia]).
  replace (c_clen command <=? 0) with false by lia.
  destruct (parse_spec argv) as [[t idx]|msg] eqn:Hps.
  - destruct P3 as (Hres & Ht & _ & Hk). rewrite Hres. pose proof Hk as [(_ & Hnel & _) _].
    rewrite length_fmap in Hnel. unfold hiarray_n. rewrite Hnel.
    destruct idx as [|i [|j idx]]; [eexists; reflexivity| |done]. cbn [length fmap list_fmap] in *.
    pose proof (parse_spec_bound argv t [i] Hps) as Hi. apply Forall_cons in Hi as [Hi _].
    destruct (lookup_lt_is_Some_2 argv i Hi) as [k Hki].
    rewrite (load_get _ _ 0 (arg_keypos argv i) (holds_repr _ _ Hk) eq_refl : load (c_keys r') (hiarray_get (c_keys r') 0) = _).
    cbn [mbind option_bind]. pose proof (key_text_keypos argv rest i k Hki) as Htext.
    change (i32 (Z.of_nat 1) <=? 0) with false. change (i32 (Z.of_nat 1) =? 1) with true. cbv iota. unfold buf_read.
    assert (Hin : (kp_start (arg_keypos argv i) + (kp_end (arg_keypos argv i) - kp_start (arg_keypos argv i))
                   <= length (fmt_cmd argv ++ rest))%nat).
    { pose proof (arg_text argv rest i k Hki) as E. apply (f_equal length) in E.
      rewrite length_drop, !length_app in E. change (length CRLF) with 2%nat in E. rewrite length_app.
      unfold arg_keypos. cbn [kp_start kp_end]. rewrite (list_lookup_total_correct _ _ _ Hki). lia. }
    rewrite decide_True by exact Hin. cbn [mbind option_bind]. fold (key_text (fmt_cmd argv ++ rest) (arg_keypos argv i)).
    rewrite Htext. unfold key_slot. rewrite (list_lookup_total_correct _ _ _ Hki).
    eexists. split; [reflexivity|]. split; [done|]. cbn. by rewrite P1, P2.
  - destruct P3 as [-> ->]. eexists. reflexivity.
Qed.

(** ** Putting the replies together *)

(** The reply type that a sub command of each kind must have. *)
Definition reply_good (t : cmd_type) (r : redisReply) : bool :=
  match r with
  | REDIS_REPLY_ERROR _ => false
  | _ =>
      match t with
      | CMD_REQ_REDIS_MGET => match r with REDIS_REPLY_ARRAY _ => true | _ => false end
      | CMD_REQ_REDIS_DEL | CMD_REQ_REDIS_EXISTS => match r with REDIS_REPLY_INTEGER _ => true | _ => false end
      | CMD_REQ_REDIS_MSET => match r with REDIS_REPLY_STATUS s => bool_decide (s = str "OK") | _ => false end
      | _ => true
      end
  end.

Definition reply_int (r : redisReply) : Z := match r with REDIS_REPLY_INTEGER i => i | _ => 0 end.

Definition counts (t : cmd_type) : bool :=
  match t with CMD_REQ_REDIS_DEL | CMD_REQ_REDIS_EXISTS => true | _ => false end.

(** The replies of a list of sub commands. *)
Definition replied (subs : list cmd) (rs : list redisReply) : Prop := c_reply <$> subs = Some <$> rs.

Definition sum_replies (t : cmd_type) (rs : list redisReply) (z : Z) : Z :=
  if counts t then foldl (fun a r => i64 (a + reply_int r)) z rs else z.

Lemma check_replies_good t subs rs tl : forall z,
  replied subs rs -> Forall (fun r => reply_good t r = true) rs ->
  check_replies t (subs ++ tl) z = check_replies t tl (sum_replies t rs z).
Proof.
  unfold sum_replies. revert rs. induction subs as [|sub subs IH]; intros rs z Hr Hg.
  - destruct rs; [|done]. by destruct (counts t).
  - destruct rs as [|r rs]; [done|]. injection Hr as Hr1 Hr2. apply Forall_cons in Hg as [Hg1 Hg2].
    cbn [check_replies app foldl]. rewrite Hr1. specialize (IH rs).
    destruct r; try done; destruct t; cbn in Hg1 |- *; try done; try (by apply IH).
    by rewrite Hg1; apply IH.
Qed.

Lemma i64_add_l a b : i64 (i64 a + b) = i64 (a + b).
Proof.
  unfold wraps. f_equal. set (h := 2 ^ (64 - 1)). set (m := 2 ^ 64).
  replace ((a + h) mod m - h + b + h) with ((a + h) mod m + b) by lia.
  rewrite Zplus_mod_idemp_l. f_equal. lia.
Qed.

(** Adding modulo 2^64 step by step is adding once. *)
Lemma sum_replies_i64 t rs z : counts t = true ->
  sum_replies t rs (i64 z) = i64 (z + foldr Z.add 0 (reply_int <$> rs)).
Proof.
  intros Ht. unfold sum_replies. rewrite Ht. revert z. induction rs as [|r rs IH]; intros z.
  - simpl. by rewrite Z.add_0_r.
  - cbn [foldl fmap list_fmap foldr].
    rewrite i64_add_l, IH. f_equal. lia.
Qed.

(** C36. The reply of DEL and EXISTS is the sum of the sub replies' integers (modulo
    2^64), that of MSET is the status OK; with allocation failing it is NULL and the
    context says out of memory. *)
Theorem command_post_fragment_sums {W} (command : cmd) (subs : list cmd) (rs : list redisReply) (st : cstate W) :
  (counts (c_type command) = true \/ c_type command = CMD_REQ_REDIS_MSET) ->
  replied subs rs -> Forall (fun r => reply_good (c_type command) r = true) rs ->
  (s_allocs st = [] ->
   command_post_fragment command subs st
     = (st, Normal (Some (if counts (c_type command)
                          then REDIS_REPLY_INTEGER (i64 (foldr Z.add 0 (reply_int <$> rs)))
                          else REDIS_REPLY_STATUS (str "OK")), subs))) /\
  (forall al, s_allocs st = false :: al -> exists st',
     command_post_fragment command subs st = (st', Normal (None, subs)) /\
     s_cc st' = redisClusterSetError REDIS_ERR_OOM (str "Out of memory") (s_cc st)).
Proof.
  intros Ht Hr Hg. pose proof (check_replies_good _ _ _ [] 0 Hr Hg) as Hc. rewrite app_nil_r in Hc.
  unfold command_post_fragment. rewrite Hc. cbn [check_replies]. clear Hc.
  destruct st as [cc h w al id ev]. cbn [s_allocs]. split.
  - intros ->. destruct Ht as [Ht| ->]; [|done]. rewrite Ht. pose proof (sum_replies_i64 (c_type command) rs 0 Ht) as E.
    change (i64 0) with 0 in E. rewrite Z.add_0_l in E. rewrite E. by destruct (c_type command).
  - intros al' ->. eexists. split; [reflexivity|done].
Qed.

(** C37. A sub command without a reply, with an error reply or with a reply of the wrong
    type ends the merge at the first one in list order: NULL without an error, the
    error reply itself, and NULL with the error "reply type error". *)
Theorem command_post_fragment_fails {W} (command : cmd) (subs tl : list cmd) (bad : cmd) (rs : list redisReply)
    (st : cstate W) :
  replied subs rs -> Forall (fun r => reply_good (c_type command) r = true) rs ->
  (match c_reply bad with Some r => reply_good (c_type command) r = false | None => True end) ->
  command_post_fragment command (subs ++ bad :: tl) st
    = match c_reply bad with
      | None => (st, Normal (None, subs ++ bad :: tl))
      | Some (REDIS_REPLY_ERROR e) => (st, Normal (Some (REDIS_REPLY_ERROR e), subs ++ bad :: tl))
      | Some _ => (upd_cc (redisClusterSetError REDIS_ERR_OTHER (str "reply type error")) st,
                   Normal (None, subs ++ bad :: tl))
      end.
Proof.
  intros Hr Hg Hb. unfold command_post_fragment. rewrite (check_replies_good _ _ _ _ 0 Hr Hg).
  cbn [check_replies]. destruct (c_reply bad) as [r|]; [|done].
  destruct r; try done; destruct (c_type command); cbn in Hb |- *; try done; by rewrite Hb.
Qed.

(** ** MGET *)
Section Mget.
Variables (f : nat -> Z) (ans : nat -> redisReply) (slots : list Z).
Hypothesis Hnd : NoDup slots.

(** Every sub command holds the answers for its keys among [p], in order. *)
Definition holds_answers (p : list nat) (subs : list cmd) : Prop :=
  c_slot_num <$> subs = slots /\
  Forall (fun c => c_reply c = Some (REDIS_REPLY_ARRAY (ans <$> filter (fun i => f i = c_slot_num c) p))) subs.

Lemma find_sub_spec subs slot : c_slot_num <$> subs = slots -> slot ∈ slots ->
  exists k sub, find_sub subs slot = Some (k, sub) /\ subs !! k = Some sub /\ c_slot_num sub = slot.
Proof.
  intros Hs Hin. rewrite <- Hs in Hin. apply list_elem_of_fmap in Hin as (c & -> & Hc).
  destruct (list_find_elem_of (fun d => c_slot_num d = c_slot_num c) subs c Hc eq_refl) as [[k sub] Hk].
  exists k, sub. split; [exact Hk|]. apply list_find_Some in Hk as (H1 & H2 & _). done.
Qed.

(** Taking the last answer of one sub command. *)
Lemma holds_answers_take p i subs k sub :
  holds_answers (p ++ [i]) subs -> subs !! k = Some sub -> c_slot_num sub = f i ->
  c_reply sub = Some (REDIS_REPLY_ARRAY ((ans <$> filter (fun j => f j = f i) p) ++ [ans i])) /\
  holds_answers p (<[k := set_reply sub (Some (REDIS_REPLY_ARRAY (ans <$> filter (fun j => f j = f i) p)))]> subs).
Proof.
  intros [Hs Ha] Hk Hf. rewrite Forall_lookup in Ha. split.
  { rewrite (Ha k sub Hk), Hf, filter_app, fmap_app, filter_cons, decide_True by done. done. }
  split.
  - rewrite list_fmap_insert. cbn [c_slot_num set_reply]. rewrite list_insert_id; [done|].
    by rewrite list_lookup_fmap, Hk.
  - apply Forall_lookup. intros k' c Hc. destruct (decide (k = k')) as [<-|Hne].
    + rewrite list_lookup_insert_eq in Hc by (by eapply lookup_lt_Some). injection Hc as <-. cbn. by rewrite Hf.
    + rewrite list_lookup_insert_ne in Hc by done. rewrite (Ha k' c Hc), filter_app, filter_cons, filter_nil.
      rewrite decide_False, app_nil_r; [done|]. intros E. apply Hne. rewrite <- Hs in Hnd.
      apply (NoDup_lookup _ _ _ (f i) Hnd); rewrite list_lookup_fmap; [by rewrite Hk; cbn; rewrite Hf|].
      by rewrite Hc, E.
Qed.

Lemma gather_spec idx : forall subs acc, Forall (fun i => f i ∈ slots) idx -> holds_answers idx subs ->
  exists subs', gather (reverse (f <$> idx)) subs acc = Some (inl ((ans <$> idx) ++ acc), subs').
Proof.
  induction idx as [|i p IH] using rev_ind; intros subs acc Hin Ha; [by exists subs|].
  apply Forall_app in Hin as [Hin Hi]. apply Forall_cons in Hi as [Hi _].
  destruct (find_sub_spec subs (f i) (proj1 Ha) Hi) as (k & sub & Hfind & Hk & Hf).
  destruct (holds_answers_take p i subs k sub Ha Hk Hf) as [Hr Ha'].
  rewrite !fmap_app. cbn [fmap list_fmap]. rewrite reverse_snoc. cbn [gather]. rewrite Hfind. cbn [mbind option_bind].
  rewrite Hr, reverse_snoc. rewrite reverse_involutive.
  destruct (IH _ (ans i :: acc) Hin Ha') as (subs' & E). exists subs'. rewrite E. by rewrite <- app_assoc.
Qed.

Lemma holds_answers_good idx subs : holds_answers idx subs ->
  check_replies CMD_REQ_REDIS_MGET subs 0 = SubOk 0.
Proof.
  intros [_ H]. induction H as [|c l Hc H IH]; [done|]. cbn [check_replies]. by rewrite Hc.
Qed.
End Mget.

(** The reply of MGET: when each sub command's reply is the array of the answers for
    its keys in order, the merged reply is the array of the answers in the order of the
    keys in the command, whatever the slots. *)
Theorem command_post_fragment_mget {W} (command : cmd) (idx : list nat) (f : nat -> Z) (ans : nat -> redisReply)
    (slots : list Z) (subs : list cmd) (st : cstate W) :
  c_type command = CMD_REQ_REDIS_MGET -> c_frag_seq command = Some (f <$> idx) ->
  NoDup slots -> Forall (fun i => f i ∈ slots) idx -> holds_answers f ans slots idx subs -> s_allocs st = [] ->
  exists subs', command_post_fragment command subs st
    = (st, Normal (Some (REDIS_REPLY_ARRAY (ans <$> idx)), subs')).
Proof.
  intros Ht Hf Hnd Hin Ha Hal. destruct (gather_spec f ans slots Hnd idx subs [] Hin Ha) as (subs' & E).
  exists subs'. unfold command_post_fragment. rewrite Ht, (holds_answers_good f ans slots idx subs Ha), Hf.
  destruct st. simpl in Hal. subst. rewrite app_nil_r in E. unfold mbind, g_bind. cbn -[gather reverse]. by rewrite E.
Qed.

(** ** Examples *)

Definition ex_mget : list bytes := [str "MGET"; str "foo"; str "bar"; str "{foo}x"].
Definition ex_num_str : bytes := replicate 12 Byte.x00.

Lemma command_format_by_slot_splits_witness :
  exists st' slot_num command' subs,
    command_format_by_slot (fun _ => true) true ex_num_str (ex_cmd ex_mget) [] (ex_state cc_init ())
      = Some (st', slot_num, command', subs) /\
    s_cc st' = cc_init /\ c_cmd command' = c_cmd (ex_cmd ex_mget) /\ c_type command' = CMD_REQ_REDIS_MGET /\
    concat ((fun slot => filter (fun i => key_slot ex_mget i = slot) [1; 2; 3]%nat) <$> split_slots ex_mget [1; 2; 3]%nat)
      ≡ₚ [1; 2; 3]%nat /\
    last (key_slot ex_mget <$> [1; 2; 3]%nat) = Some slot_num /\
    if (length (split_slots ex_mget [1; 2; 3]%nat) =? 1)%nat
    then subs = [] /\ c_slot_num command' = slot_num /\ c_frag_seq command' = None
    else Forall2 (is_sub ex_mget CMD_REQ_REDIS_MGET [1; 2; 3]%nat) (split_slots ex_mget [1; 2; 3]%nat) subs /\
         c_frag_seq command' = Some (key_slot ex_mget <$> [1; 2; 3]%nat).
Proof.
  refine (command_format_by_slot_splits (ex_cmd ex_mget) ex_mget [] ex_num_str (ex_state cc_init ())
            CMD_REQ_REDIS_MGET [1; 2; 3]%nat _ _ _ _ _ _ _).
  - apply ex_cmd_formatted; [discriminate | vm_compute; reflexivity].
  - vm_compute. reflexivity.
  - reflexivity.
  - reflexivity.
  - vm_compute. reflexivity.
  - simpl. lia.
  - repeat constructor; discriminate.
Defined.

Example ex_mget_split :
  split_argv CMD_REQ_REDIS_MGET ex_mget [1; 2; 3]%nat (keyHashSlot (str "foo")) = [str "mget"; str "foo"; str "{foo}x"].
Proof. vm_compute. reflexivity. Qed.

Lemma command_format_by_slot_unsplit_witness :
  exists c, command_format_by_slot (fun _ => true) true ex_num_str (ex_cmd [str "GET"; str "foo"]) [] (ex_state cc_init ())
    = Some (ex_state cc_init (), key_slot [str "GET"; str "foo"] 1, c, []) /\
    c_slot_num c = key_slot [str "GET"; str "foo"] 1 /\ c_cmd c = c_cmd (ex_cmd [str "GET"; str "foo"]) /\
    c_clen c = c_clen (ex_cmd [str "GET"; str "foo"]).
Proof.
  assert (H : formatted_cmd (ex_cmd [str "GET"; str "foo"]) [str "GET"; str "foo"] []).
  { apply ex_cmd_formatted; [discriminate | vm_compute; reflexivity]. }
  pose proof (command_format_by_slot_unsplit _ _ _ ex_num_str [] (ex_state cc_init ()) H) as Hu.
  assert (E : parse_spec [str "GET"; str "foo"] = inl (CMD_REQ_REDIS_GET, [1]%nat)) by (vm_compute; reflexivity).
  cbv zeta in Hu. rewrite E in Hu. exact Hu.
Defined.

(** With an empty key the split can run past its buffers: [hi_itoa] of zero leaves
    what [num_str] held after the first digit, so that a sub command of ten empty keys, whose
    argument count "11" comes first, has the text "$01" written for each of them where its length counts
    "$0", and the copy overruns the allocated command. *)
Theorem command_pre_fragment_overflow :
  command_format_by_slot (fun _ => true) true ex_num_str (ex_cmd (str "DEL" :: replicate 10 [])) []
    (ex_state cc_init ()) = None /\
  parse_spec (str "DEL" :: replicate 10 []) = inl (CMD_REQ_REDIS_DEL, seq 1 10).
Proof. split; vm_compute; reflexivity. Qed.

(** Sub commands with replies, for the merge. *)
Definition ex_sub (slot : Z) (r : redisReply) : cmd := set_slot (set_reply (ex_cmd []) (Some r)) slot None.
Definition ex_parent (t : cmd_type) (frag : list Z) : cmd := set_slot (set_type (ex_cmd []) t) (-1) (Some frag).
Definition ex_ans (i : nat) : redisReply := REDIS_REPLY_STRING (dec (Z.of_nat i)).

Lemma command_post_fragment_sums_witness :
  let st := ex_state cc_init () in
  let subs := [ex_sub 3 (REDIS_REPLY_INTEGER 2); ex_sub 7 (REDIS_REPLY_INTEGER 1)] in
  (s_allocs st = [] ->
   command_post_fragment (ex_parent CMD_REQ_REDIS_DEL [3; 7; 3]) subs st
     = (st, Normal (Some (REDIS_REPLY_INTEGER 3), subs))) /\
  (forall al, s_allocs st = false :: al -> exists st',
     command_post_fragment (ex_parent CMD_REQ_REDIS_DEL [3; 7; 3]) subs st = (st', Normal (None, subs)) /\
     s_cc st' = redisClusterSetError REDIS_ERR_OOM (str "Out of memory") (s_cc st)).
Proof.
  apply (command_post_fragment_sums (ex_parent CMD_REQ_REDIS_DEL [3; 7; 3]) _ [REDIS_REPLY_INTEGER 2; REDIS_REPLY_INTEGER 1]).
  - left. reflexivity.
  - reflexivity.
  - repeat constructor.
Defined.

Lemma command_post_fragment_fails_witness :
  let st := ex_state cc_init () in
  let subs := [ex_sub 3 (REDIS_REPLY_INTEGER 2); ex_sub 7 (REDIS_REPLY_ERROR (str "ERR no"))] in
  command_post_fragment (ex_parent CMD_REQ_REDIS_DEL [3; 7]) subs st
    = (st, Normal (Some (REDIS_REPLY_ERROR (str "ERR no")), subs)).
Proof.
  apply (command_post_fragment_fails (ex_parent CMD_REQ_REDIS_DEL [3; 7]) [ex_sub 3 (REDIS_REPLY_INTEGER 2)] []
           (ex_sub 7 (REDIS_REPLY_ERROR (str "ERR no"))) [REDIS_REPLY_INTEGER 2]).
  - reflexivity.
  - repeat constructor.
  - reflexivity.
Defined.

Lemma command_post_fragment_mget_witness :
  exists subs', command_post_fragment (ex_parent CMD_REQ_REDIS_MGET [7; 3; 7])
      [ex_sub 3 (REDIS_REPLY_ARRAY [ex_ans 1]); ex_sub 7 (REDIS_REPLY_ARRAY [ex_ans 0; ex_ans 2])]
      (ex_state cc_init ())
    = (ex_state cc_init (), Normal (Some (REDIS_REPLY_ARRAY [ex_ans 0; ex_ans 1; ex_ans 2]), subs')).
Proof.
  apply (command_post_fragment_mget (ex_parent CMD_REQ_REDIS_MGET [7; 3; 7]) [0; 1; 2]%nat
           (fun i => if (i =? 1)%nat then 3 else 7) ex_ans [3; 7]).
  - reflexivity.
  - reflexivity.
  - apply (bool_decide_unpack _). vm_compute. exact I.
  - apply (bool_decide_unpack _). vm_compute. exact I.
  - split; [reflexivity|]. repeat constructor.
  - reflexivity.
Defined.
