(* ===== verification/Nodes.v ===== *)
(** * hircluster.c: cluster nodes, slot ranges and the nodes dict

    Creation and release of nodes and of what they own, the two ways a node is made
    from a reply, the mapping of slaves to masters, and the exchange of connections
    between two node dicts.  A function that goes to [oom] or [error] inside itself
    uses the labels of [n_label]; to its caller it returns NULL or an error code. *)
From S2P Require Import Prelude Hiutil Dict Goto Hiredis Context.

Inductive n_label := n_oom | n_error.

Definition PORT_CPORT_SEPARATOR : byte := "@".
Definition IP_PORT_SEPARATOR : byte := ":".

(** [dictSdsHash], [dictSdsKeyCompare] *)
Definition dictSdsHash (key : bytes) : Z := dictGenHashFunction key.
Definition dictSdsKeyCompare (key1 key2 : bytes) : bool :=
  if negb (length key1 =? length key2)%nat then false else memeq key1 key2 (length key1).

Section Nodes.
Context {W : Type} `{HiredisOps W} {sds : SdsOps} {L : Type}.
Abbreviation M := (G (cstate W) L).
Abbreviation N := (G (cstate W) n_label).

(** [freeRedisClusterNode]: the node's connections are closed, its slaves freed when
    their list owns them, and the node itself.  [None] is a use after free; the fuel
    bounds the nesting of slave lists by the number of nodes. *)
Fixpoint free_node (fuel : nat) (node : loc) (s : cstate W) : option (cstate W) :=
  match fuel with
  | O => None
  | S fuel' =>
      nd ← s_heap s !! node;
      let s := match n_con nd with
               | Some c => upd_world (fun w => redisFree w c) s | None => s end in
      let s := match n_acon nd with
               | Some ac => upd_world (fun w => redisAsyncFree (set_acon_data w ac None) ac) s
               | None => s end in
      s ← match n_slaves nd with
          | Some l => if nl_free l then foldl (fun os p => s ← os; free_node fuel' p s) (Some s) (nl_items l)
                      else Some s
          | None => Some s
          end;
      Some (upd_heap (delete node) s)
  end.

Definition freeRedisClusterNode (node : loc) (s : cstate W) : option (cstate W) :=
  free_node (S (size (s_heap s))) node s.

Definition m_freeRedisClusterNode (node : loc) : M () := fun s =>
  match freeRedisClusterNode node s with Some s => (s, Normal ()) | None => (s, Undefined) end.

(** The dict types of hircluster.c: the first owns its nodes, the second does not.  The
    state the destructors act on is undefined after a second free. *)
Definition clusterNodesDictType : dictType bytes loc (option (cstate W)) :=
  mkDictType dictSdsHash None None (Some dictSdsKeyCompare) (Some (fun _ s => s))
    (Some (fun node os => s ← os; freeRedisClusterNode node s)).
Definition clusterNodesRefDictType : dictType bytes loc (option (cstate W)) :=
  mkDictType dictSdsHash None None (Some dictSdsKeyCompare) (Some (fun _ s => s)) None.

(** [dictRelease] of a dict that owns its nodes. *)
Definition m_dictRelease (nodes : dict bytes loc) : M () := fun s =>
  match dictRelease clusterNodesDictType nodes (Some s) with
  | Some s => (s, Normal ()) | None => (s, Undefined) end.

(** [dictCreate], [dictAdd] and [dictFind] with the allocations of the state. *)
Definition m_dictCreate : M (option (dict bytes loc)) := ok ← alloc; mret (dictCreate ok).
Definition m_dictAdd (nodes : dict bytes loc) (key : bytes) (node : loc) : M (dict bytes loc * Z) :=
  calloc_ok ← alloc;
  malloc_ok ← alloc;
  gdef (dictAdd clusterNodesDictType calloc_ok malloc_ok nodes key node).
Definition m_dictFind (nodes : dict bytes loc) (key : bytes) : M (option loc) :=
  e ← gdef (dictFind clusterNodesDictType nodes key); mret (snd <$> e).

(** [createRedisClusterNode]: zeroed memory at a new address. *)
Definition zero_node : redisClusterNode :=
  mkClusterNode None None None 0 REDIS_ROLE_NULL 0 None None 0 None None None None.

Definition createRedisClusterNode : M (option loc) :=
  ok ← alloc;
  if ok : bool then
    s ← gget;
    let node := fresh (dom (s_heap s)) in
    gmodify (upd_heap (<[node := zero_node]>));; mret (Some node)
  else mret None.

(** A slot range that belongs to no node yet. *)
Definition cluster_slot_create_free : M (option cluster_slot) :=
  ok ← alloc; mret (if ok : bool then Some (mkSlot 0 0 None) else None).

(** [if (node->slots == NULL) node->slots = listCreate();], then [listAddNodeTail]:
    whether both succeed. *)
Definition add_slot (node : loc) (slot : cluster_slot) : M bool :=
  nd ← get_node node;
  ok ← (match n_slots nd with
        | Some _ => mret true
        | None =>
            ok ← alloc;
            if ok : bool then put_node node (n_set_slots (Some []));; mret true else mret false
        end);
  if ok : bool then
    ok ← alloc;
    if ok : bool then
      nd ← get_node node;
      put_node node (n_set_slots ((fun l => l ++ [slot]) <$> n_slots nd));; mret true
    else mret false
  else mret false.

(** [cluster_slot_create] of a node: an empty range at the end of its list. *)
Definition cluster_slot_create (node : loc) : M (option cluster_slot) :=
  ok ← alloc;
  if ok : bool then
    let slot := mkSlot 0 0 (Some node) in
    added ← add_slot node slot;
    mret (if added : bool then Some slot else None)
  else mret None.

(** [slot->start = start; slot->end = end;] for the range made last. *)
Definition set_last_slot (start end_ : Z) (slots : list cluster_slot) : list cluster_slot :=
  match reverse slots with
  | [] => []
  | slot :: rest => reverse (mkSlot start end_ (sl_node slot) :: rest)
  end.

Definition cluster_slot_ref_node (slot : cluster_slot) (node : loc) : M Z :=
  nd ← get_node node;
  if negb (n_role nd =? REDIS_ROLE_MASTER) then mret REDIS_ERR
  else
    added ← add_slot node (mkSlot (sl_start slot) (sl_end slot) (Some node));
    mret (if added : bool then REDIS_OK else REDIS_ERR).

Definition cluster_open_slot_create (slot_num : Z) (migrate : bool) (remote_name : bytes) (node : loc)
    : M (option copen_slot) :=
  ok ← alloc;
  dup_ok ← (if ok : bool then alloc else mret false);
  mret (if dup_ok : bool then Some (mkOpenSlot (u32 slot_num) migrate remote_name (Some node)) else None).

(** [authenticate] *)
Definition authenticate (c : conn) : M Z :=
  cc ← get_cc;
  match cc_password cc with
  | None => mret REDIS_OK
  | Some password =>
      let args := match cc_username cc with
                  | Some username => [str "AUTH"; username; password]
                  | None => [str "AUTH"; password]
                  end in
      reply ← world_call (fun w => redisCommand w c args);
      match reply with
      | None => set_error REDIS_ERR_OTHER (str "Command AUTH reply error (NULL)");; mret REDIS_ERR
      | Some (REDIS_REPLY_ERROR s) => set_error REDIS_ERR_OTHER s;; mret REDIS_ERR
      | Some _ => mret REDIS_OK
      end
  end.

(** [sdsnew], [sdscatfmt] and [sdsnewlen], which can fail. *)
Definition sds_or (s : bytes) : N bytes := ok ← alloc; if ok : bool then mret s else goto n_oom.

Definition node_get_with_slots (host : bytes) (port : Z) (role : Z) : M (option loc) :=
  node ← createRedisClusterNode;
  match node with
  | None => set_error REDIS_ERR_OOM (str "Out of memory");; mret None
  | Some node =>
      gcatch (
        (if role =? REDIS_ROLE_MASTER
         then alloc_or n_oom;; put_node node (n_set_slots (Some [])) else mret ());;
        addr ← sds_or (sdsnew host);
        addr ← sds_or (sdscatfmt_port addr port);
        h ← sds_or (sdsnew host);
        put_node node (n_set_ident None (Some addr) (Some h) (u16 port) role);;
        mret (Some node) : N (option loc))
        (fun _ => set_error REDIS_ERR_OOM (str "Out of memory");;
                  gmodify (upd_heap (delete node));; mret None)
  end.

(** The fields of a line of CLUSTER NODES: [<id> <ip:port@cport> ...]. *)
Definition node_get_with_nodes (c : conn) (node_infos : list bytes) (role : Z) : M (option loc) :=
  if (Z.of_nat (length node_infos) <? 8) then mret None
  else
    node ← createRedisClusterNode;
    match node with
    | None => set_error REDIS_ERR_OOM (str "Out of memory");; mret None
    | Some node =>
        gcatch (
          put_node node (n_set_ident None None None 0 role);;
          (if role =? REDIS_ROLE_MASTER
           then alloc_or n_oom;; put_node node (n_set_slots (Some [])) else mret ());;
          let name := Some (node_infos !!! 0%nat) in
          put_node node (n_set_ident name None None 0 role);;
          let field := node_infos !!! 1%nat in
          let field := match strchr field PORT_CPORT_SEPARATOR with
                       | Some p => sdsrange field 0 (Z.of_nat p - 1)
                       | None => field
                       end in
          match strrchr field IP_PORT_SEPARATOR with
          | None =>
              set_error REDIS_ERR_OTHER (str "server address is incorrect, port separator missing.");;
              goto n_error
          | Some p =>
              let port := hi_atoi (c_str (drop (S p) field)) in
              if (port <? 1) || (UINT16_MAX <? port) then
                set_error REDIS_ERR_OTHER (str "Invalid port");; goto n_error
              else
                put_node node (n_set_ident name None None (u16 port) role);;
                if negb (p =? 0)%nat then
                  put_node node (n_set_ident name (Some field) None (u16 port) role);;
                  host ← sds_or (sdsnewlen field p);
                  put_node node (n_set_ident name (Some field) (Some host) (u16 port) role);;
                  mret (Some node)
                else
                  tcp_host ← world_get (fun w => ctx_tcp_host w c);
                  host ← sds_or (sdsnew (default [] tcp_host));
                  put_node node (n_set_ident name None (Some host) (u16 port) role);;
                  addr ← sds_or (sdsnew host);
                  addr ← sds_or (sdscatfmt_port addr (u16 port));
                  put_node node (n_set_ident name (Some addr) (Some host) (u16 port) role);;
                  mret (Some node)
          end : N (option loc))
          (fun l =>
             match l with
             | n_oom => set_error REDIS_ERR_OOM (str "Out of memory")
             | n_error => mret ()
             end;;
             m_freeRedisClusterNode node;; mret None)
    end.

(** The body of the loop of [cluster_nodes_swap_ctx]: connections move to the new node of
    the same address. *)
Definition swap_ctx (node_f node_t : loc) : M () :=
  f ← get_node node_f;
  match n_con f with
  | Some c =>
      t ← get_node node_t;
      put_node node_f (fun n => n_set_con (n_con t) (n_acon n) n);;
      put_node node_t (fun n => n_set_con (Some c) (n_acon n) n)
  | None => mret ()
  end;;
  f ← get_node node_f;
  match n_acon f with
  | Some ac =>
      t ← get_node node_t;
      put_node node_f (fun n => n_set_con (n_con n) (n_acon t) n);;
      put_node node_t (fun n => n_set_con (n_con n) (Some ac) n);;
      world (fun w => set_acon_data w ac (Some node_t));;
      f ← get_node node_f;
      match n_acon f with
      | Some ac' => world (fun w => set_acon_data w ac' (Some node_f))
      | None => mret ()
      end
  | None => mret ()
  end.

Fixpoint swap_ctx_loop (nodes_f : dict bytes loc) (entries : list (bytes * loc)) : M () :=
  match entries with
  | [] => mret ()
  | (_, node_t) :: rest =>
      t ← get_node node_t;
      addr ← gdef (n_addr t);
      de_f ← m_dictFind nodes_f addr;
      match de_f with Some node_f => swap_ctx node_f node_t | None => mret () end;;
      swap_ctx_loop nodes_f rest
  end.

Definition cluster_nodes_swap_ctx (nodes_f nodes_t : option (dict bytes loc)) : M () :=
  match nodes_f, nodes_t with
  | Some nodes_f, Some nodes_t =>
      entries ← gdef (dict_entries nodes_t); swap_ctx_loop nodes_f entries
  | _, _ => mret ()
  end.

(** [node->slaves = listCreate()] when it is NULL; the list owns its nodes. *)
Definition ensure_slaves (node : loc) : M bool :=
  nd ← get_node node;
  match n_slaves nd with
  | Some _ => mret true
  | None =>
      ok ← alloc;
      if ok : bool then put_node node (n_set_slaves (Some (mkNodeList true [])));; mret true else mret false
  end.

(** [listAddNodeTail] and [listAddNodeHead] on [node->slaves]. *)
Definition add_slave (head : bool) (node slave : loc) : M bool :=
  ok ← alloc;
  if ok : bool then
    nd ← get_node node;
    l ← gdef (n_slaves nd);
    put_node node (n_set_slaves (Some (mkNodeList (nl_free l)
      (if head then slave :: nl_items l else nl_items l ++ [slave]))));;
    mret true
  else mret false.

(** The slaves found before their master move to it, one by one: each is added to the
    master's list, then unlinked from the old one, which no longer owns them. *)
Fixpoint move_slaves (old node : loc) (slaves : list loc) : M bool :=
  match slaves with
  | [] => mret true
  | slave :: rest =>
      ok ← add_slave true node slave;
      if ok : bool then
        put_node old (n_set_slaves (Some (mkNodeList false rest)));;
        move_slaves old node rest
      else mret false
  end.

Definition oom_error {A} (a : A) : M A := set_error REDIS_ERR_OOM (str "Out of memory");; mret a.

(** [cluster_master_slave_mapping_with_name]: [*nodes] is returned as it is left. *)
Definition cluster_master_slave_mapping_with_name (nodes : option (dict bytes loc)) (node : loc)
    (master_name : option bytes) : M (Z * option (dict bytes loc)) :=
  match master_name with
  | None => mret (REDIS_ERR, nodes)
  | Some master_name =>
      nodes ← (match nodes with Some d => mret (Some d) | None => m_dictCreate end);
      match nodes with
      | None => oom_error (REDIS_ERR, None)
      | Some d =>
          di ← m_dictFind d master_name;
          match di with
          | None =>
              ok ← alloc;
              if negb ok then oom_error (REDIS_ERR, Some d)
              else
                '(d, ret) ← m_dictAdd d (sdsnewlen master_name (length master_name)) node;
                if negb (ret =? DICT_OK) then oom_error (REDIS_ERR, Some d) else mret (REDIS_OK, Some d)
          | Some node_old =>
              nd ← get_node node;
              nd_old ← get_node node_old;
              if (n_role nd =? REDIS_ROLE_MASTER) && (n_role nd_old =? REDIS_ROLE_MASTER) then
                set_error REDIS_ERR_OTHER (str "two masters have the same name");; mret (REDIS_ERR, Some d)
              else if (n_role nd =? REDIS_ROLE_MASTER) && (n_role nd_old =? REDIS_ROLE_SLAVE) then
                ok ← ensure_slaves node;
                if negb ok then oom_error (REDIS_ERR, Some d)
                else
                  moved ← (match n_slaves nd_old with
                           | None => mret true
                           | Some l =>
                               put_node node_old (n_set_slaves (Some (mkNodeList false (nl_items l))));;
                               moved ← move_slaves node_old node (nl_items l);
                               if moved : bool then put_node node_old (n_set_slaves None);; mret true
                               else mret false
                           end);
                  if negb moved then oom_error (REDIS_ERR, Some d)
                  else
                    ok ← add_slave true node node_old;
                    if negb ok then oom_error (REDIS_ERR, Some d)
                    else
                      d ← gdef (dictSetFoundVal clusterNodesRefDictType d master_name node);
                      mret (REDIS_OK, Some d)
              else if n_role nd =? REDIS_ROLE_SLAVE then
                ok ← ensure_slaves node_old;
                if negb ok then oom_error (REDIS_ERR, Some d)
                else
                  ok ← add_slave false node_old node;
                  if negb ok then oom_error (REDIS_ERR, Some d) else mret (REDIS_OK, Some d)
              else mret (REDIS_OK, Some d)    (* NOT_REACHED() is empty *)
          end
      end
  end.
End Nodes.
