(* ===== verification/Topology.v ===== *)
(** * hircluster.c: from a CLUSTER SLOTS or CLUSTER NODES reply to the slot table

    The two parsers build a dict of new nodes; [updateNodesAndSlotmap] installs it:
    it builds the slot table, moves the connections to the new nodes and frees the
    old ones.  The local variables of a parser are a record that its loops thread. *)
From S2P Require Import Prelude Hiutil Crc16 Dict Goto Hiredis Context Nodes.

Definition flag_set (flags f : Z) : bool := negb (Z.land flags f =? 0).

Record tstate (W : Type) := mkTstate {
  ts_st : cstate W;
  ts_nodes : dict bytes loc;
  ts_names : option (dict bytes loc);   (* nodes_name *)
  ts_slot : option cluster_slot;        (* the range under construction *)
  ts_master : option loc;
  ts_found : Z                          (* int slot_ranges_found *)
}.
Arguments mkTstate {W} _ _ _ _ _ _.
Arguments ts_st {W} _.
Arguments ts_nodes {W} _.
Arguments ts_names {W} _.
Arguments ts_slot {W} _.
Arguments ts_master {W} _.
Arguments ts_found {W} _.

Section Topology.
Context {W : Type} `{HiredisOps W} {sds : SdsOps}.
Abbreviation T := (G (tstate W) n_label).

Definition t_lift {A} (m : G (cstate W) n_label A) : T A := fun s =>
  match m (ts_st s) with
  | (st, o) => (mkTstate st (ts_nodes s) (ts_names s) (ts_slot s) (ts_master s) (ts_found s), o)
  end.
Definition t_set_nodes (nodes : dict bytes loc) : T () := gmodify (fun s =>
  mkTstate (ts_st s) nodes (ts_names s) (ts_slot s) (ts_master s) (ts_found s)).
Definition t_set_names (names : option (dict bytes loc)) : T () := gmodify (fun s =>
  mkTstate (ts_st s) (ts_nodes s) names (ts_slot s) (ts_master s) (ts_found s)).
Definition t_set_slot (slot : option cluster_slot) : T () := gmodify (fun s =>
  mkTstate (ts_st s) (ts_nodes s) (ts_names s) slot (ts_master s) (ts_found s)).
Definition t_set_master (master : option loc) : T () := gmodify (fun s =>
  mkTstate (ts_st s) (ts_nodes s) (ts_names s) (ts_slot s) master (ts_found s)).
Definition t_found : T () := gmodify (fun s =>
  mkTstate (ts_st s) (ts_nodes s) (ts_names s) (ts_slot s) (ts_master s) (i32 (ts_found s + 1))).

(** [__redisClusterSetError(cc, REDIS_ERR_OTHER, msg); goto error;] *)
Definition t_error {A} (msg : bytes) : T A := t_lift (set_error REDIS_ERR_OTHER msg);; goto n_error.
Definition t_sds (s : bytes) : T bytes := t_lift (sds_or s).

(** [sds key = sdsnewlen(master->addr, ...); dictAdd(nodes, key, master);]: the code of
    [dictAdd]; a failed copy of the key frees the node. *)
Definition t_add_node (master : loc) : T Z :=
  nd ← t_lift (get_node master);
  addr ← gdef (n_addr nd);
  ok ← t_lift alloc;
  if negb ok then t_lift (m_freeRedisClusterNode master);; goto n_oom
  else
    s ← gget;
    '(nodes, ret) ← t_lift (m_dictAdd (ts_nodes s) (sdsnewlen addr (length addr)) master);
    t_set_nodes nodes;; mret ret.

(** ** CLUSTER SLOTS *)

(** [cluster_slot_ref_node(slot, master)], then [slot = NULL]. *)
Definition t_ref_slot (master : loc) : T () :=
  s ← gget;
  slot ← gdef (ts_slot s);
  ret ← t_lift (cluster_slot_ref_node slot master);
  if negb (ret =? REDIS_OK) then goto n_oom else t_set_slot None.

(** The first node of a region: its master.  [true] is the [break] to the next region. *)
Definition t_master (host : bytes) (port : Z) : T bool :=
  address ← t_sds (sdsnew host);
  address ← t_sds (sdscatfmt_port address port);
  s ← gget;
  den ← t_lift (m_dictFind (ts_nodes s) address);
  match den with
  | Some master => t_set_master (Some master);; t_ref_slot master;; mret true
  | None =>
      node ← t_lift (node_get_with_slots host port REDIS_ROLE_MASTER);
      t_set_master node;;
      master ← gsome n_error node;
      ret ← t_add_node master;
      if negb (ret =? DICT_OK) then t_lift (m_freeRedisClusterNode master);; goto n_oom
      else t_ref_slot master;; mret false
  end.

(** A further node of the region, kept only with the flag. *)
Definition t_slave (host : bytes) (port : Z) : T bool :=
  slave ← t_lift (node_get_with_slots host port REDIS_ROLE_SLAVE);
  slave ← gsome n_error slave;
  s ← gget;
  master ← gdef (ts_master s);
  ok ← t_lift (ensure_slaves master);
  if negb ok then t_lift (m_freeRedisClusterNode slave);; goto n_oom
  else
    ok ← t_lift (add_slave false master slave);
    if negb ok then t_lift (m_freeRedisClusterNode slave);; goto n_oom
    else mret false.

(** The host string of a node: the received one, or the address the command was sent
    to. *)
Definition slots_host (c : conn) (w : W) (elem_ip : redisReply) : option bytes :=
  match elem_ip with
  | REDIS_REPLY_STRING s => if 0 <? Z.of_nat (length s) then Some s else ctx_tcp_host w c
  | _ => ctx_tcp_host w c
  end.

Definition is_ip (r : redisReply) : bool :=
  match r with REDIS_REPLY_STRING _ | REDIS_REPLY_NIL => true | _ => false end.

Definition t_node (c : conn) (idx : nat) (elem : redisReply) : T bool :=
  match elem with
  | REDIS_REPLY_ARRAY (elem_ip :: elem_port :: _) =>
      match elem_port with
      | REDIS_REPLY_INTEGER port =>
          if negb (is_ip elem_ip && hi_valid_port (i32 port)) then
            t_error (str "Command(cluster slots) reply error: node ip or port is not correct.")
          else
            s ← gget;
            host ← gsome n_oom (slots_host c (s_world (ts_st s)) elem_ip);
            let port := i32 port in
            if (idx =? 2)%nat then t_master host port
            else if flag_set (cc_flags (s_cc (ts_st s))) HIRCLUSTER_FLAG_ADD_SLAVE then t_slave host port
            else mret false
      | _ => t_error (str "Command(cluster slots) reply error: node ip or port is not correct.")
      end
  | _ => t_error (str "Command(cluster slots) reply error: nodes sub_reply is not an correct array.")
  end.

Definition t_elem (c : conn) (idx : nat) (elem : redisReply) : T bool :=
  match idx with
  | 0%nat =>
      match elem with
      | REDIS_REPLY_INTEGER v =>
          s ← gget; slot ← gdef (ts_slot s);
          t_set_slot (Some (mkSlot (u32 (i32 v)) (sl_end slot) (sl_node slot)));; mret false
      | _ => t_error (str "Command(cluster slots) reply error: slot begin is not an integer.")
      end
  | 1%nat =>
      match elem with
      | REDIS_REPLY_INTEGER v =>
          s ← gget; slot ← gdef (ts_slot s);
          t_set_slot (Some (mkSlot (sl_start slot) (u32 (i32 v)) (sl_node slot)));;
          if u32 (i32 v) <? sl_start slot
          then t_error (str "Command(cluster slots) reply error: slot begin is bigger than slot end.")
          else mret false
      | _ => t_error (str "Command(cluster slots) reply error: slot end is not an integer.")
      end
  | _ => t_node c idx elem
  end.

Fixpoint t_region (c : conn) (idx : nat) (elems : list redisReply) : T () :=
  match elems with
  | [] => mret ()
  | e :: rest =>
      break ← t_elem c idx e;
      if break : bool then mret () else t_region c (S idx) rest
  end.

Fixpoint t_regions (c : conn) (elements : list redisReply) : T () :=
  match elements with
  | [] => mret ()
  | elem_slots :: rest =>
      match elem_slots with
      | REDIS_REPLY_ARRAY elems =>
          if Z.of_nat (length elems) <? 3
          then t_error (str "Command(cluster slots) reply error: first sub_reply is not an array.")
          else
            slot ← t_lift cluster_slot_create_free;
            t_set_slot slot;;
            _ ← gsome n_oom slot;
            t_region c 0 elems;;
            t_regions c rest
      | _ => t_error (str "Command(cluster slots) reply error: first sub_reply is not an array.")
      end
  end.

(** What a parser does where it lands: the dict, or NULL after releasing it. *)
Definition t_run {L} (body : T ()) (nodes : dict bytes loc) : G (cstate W) L (option (dict bytes loc)) := fun st =>
  match body (mkTstate st nodes None None None 0) with
  | (s, Normal _) => (ts_st s, Normal (Some (ts_nodes s)))
  | (s, At l) =>
      ((match l with n_oom => set_error REDIS_ERR_OOM (str "Out of memory") | n_error => mret () end);;
       m_dictRelease (ts_nodes s);; mret None) (ts_st s)
  | (s, Undefined) => (ts_st s, Undefined)
  end.

Definition t_finish {L} (body : T ()) : G (cstate W) L (option (dict bytes loc)) :=
  nodes ← m_dictCreate;
  match nodes with
  | None => set_error REDIS_ERR_OOM (str "Out of memory");; mret None
  | Some nodes => t_run body nodes
  end.

Definition parse_cluster_slots {L} (c : conn) (reply : option redisReply)
    : G (cstate W) L (option (dict bytes loc)) :=
  match reply with
  | None => mret None
  | Some reply =>
      t_finish
        match reply with
        | REDIS_REPLY_ARRAY (e :: es) => t_regions c (e :: es)
        | _ => t_error (str "Command(cluster slots) reply error: reply is not an array.")
        end
  end.
(** ** CLUSTER NODES *)

(** [sdssplitlen], NULL when out of memory. *)
Definition t_split (s sep : bytes) : T (list bytes) :=
  ok ← t_lift alloc; if ok : bool then mret (sdssplitlen s sep) else goto n_oom.

(** An open slot at the end of [master->migrating] or [master->importing]. *)
Definition t_add_open (migrate : bool) (slot_num : Z) (remote_name : bytes) (master : loc) : T () :=
  oslot ← t_lift (cluster_open_slot_create slot_num migrate remote_name master);
  match oslot with
  | None => t_error (str "create open slot error")
  | Some oslot =>
      nd ← t_lift (get_node master);
      let old := if migrate then n_migrating nd else n_importing nd in
      (match old with Some _ => mret () | None => t_lift (alloc_or n_oom;; alloc_or n_oom) end);;  (* hiarray_create *)
      t_lift (alloc_or n_oom);;                                              (* hiarray_push *)
      let oslots := Some (default [] old ++ [oslot]) in
      t_lift (put_node master (fun nd =>
        if migrate then n_set_open oslots (n_importing nd) nd else n_set_open (n_migrating nd) oslots nd))
  end.

(** [[93-<-name]] or [[93->-name]] as the three parts of a field split at dashes. *)
Definition t_open_slot (parts : list bytes) (master : loc) : T () :=
  s ← gget;
  match parts with
  | [a; d; r] =>
      if flag_set (cc_flags (s_cc (ts_st s))) HIRCLUSTER_FLAG_ADD_OPENSLOT
         && (1 <? length a)%nat && (length d =? 1)%nat && (1 <? length r)%nat
         && bool_decide (head a = Some "["%byte) && bool_decide (last r = Some "]"%byte)
      then
        let a := sdsrange a 1 (-1) in
        let r := sdsrange r 0 (-2) in
        if bool_decide (head d = Some ">"%byte) then t_add_open true (hi_atoi a) r master
        else if bool_decide (head d = Some "<"%byte) then t_add_open false (hi_atoi a) r master
        else mret ()
      else mret ()
  | _ => mret ()
  end.

(** One field after the eighth: a slot, a range of slots or an open slot. *)
Definition t_slot_field (master : loc) (field : bytes) : T () :=
  slot_start_end ← t_split field (str "-");
  range ← (match slot_start_end with
           | [a] => mret (hi_atoi a, hi_atoi a)
           | [a; b] => mret (hi_atoi a, hi_atoi b)
           | parts => t_open_slot parts master;; mret (-1, -1)
           end);
  let '(slot_start, slot_end) := range in
  if (slot_start <? 0) || (slot_end <? 0) || (slot_end <? slot_start) || (REDIS_CLUSTER_SLOTS <=? slot_end)
  then mret ()
  else
    t_found;;
    slot ← t_lift (cluster_slot_create master);
    _ ← gsome n_oom slot;
    t_lift (put_node master (fun nd =>
      n_set_slots (set_last_slot (u32 slot_start) (u32 slot_end) <$> n_slots nd) nd)).

Fixpoint t_slot_fields (master : loc) (fields : list bytes) : T () :=
  match fields with
  | [] => mret ()
  | f :: rest => t_slot_field master f;; t_slot_fields master rest
  end.

(** [cluster_master_slave_mapping_with_name(cc, &nodes_name, node, name)] *)
Definition t_mapping (node : loc) (name : option bytes) : T () :=
  s ← gget;
  '(ret, names) ← t_lift (cluster_master_slave_mapping_with_name (ts_names s) node name);
  t_set_names names;;
  if negb (ret =? REDIS_OK) then t_lift (m_freeRedisClusterNode node);; goto n_error else mret ().

Definition t_master_line (c : conn) (part : list bytes) : T () :=
  master ← t_lift (node_get_with_nodes c part REDIS_ROLE_MASTER);
  master ← gsome n_error master;
  ret ← t_add_node master;
  if negb (ret =? DICT_OK) then
    t_lift (set_error REDIS_ERR_OTHER (str "The address already exists in the nodes"));;
    t_lift (m_freeRedisClusterNode master);; goto n_error
  else
    s ← gget;
    (if flag_set (cc_flags (s_cc (ts_st s))) HIRCLUSTER_FLAG_ADD_SLAVE
     then nd ← t_lift (get_node master); t_mapping master (n_name nd) else mret ());;
    t_slot_fields master (drop 8 part).

Definition t_slave_line (c : conn) (part : list bytes) : T () :=
  slave ← t_lift (node_get_with_nodes c part REDIS_ROLE_SLAVE);
  slave ← gsome n_error slave;
  t_mapping slave (part !! 3%nat).

Definition starts_with (s prefix : bytes) : bool :=
  (length prefix <=? length s)%nat && memeq s prefix (length prefix).

(** The role of a node in its flags, after "myself,". *)
Definition line_role (flags : bytes) : bytes :=
  if starts_with flags (str "myself,") then drop 7 flags else flags.

Definition t_line (c : conn) (line : bytes) : T () :=
  part ← t_split line (str " ");
  if Z.of_nat (length part) <? 8 then t_error (str "split cluster nodes error")
  else if starts_with (part !!! 1%nat) (str ":0") then mret ()
  else
    let role := line_role (part !!! 2%nat) in
    s ← gget;
    if starts_with role (str "master") then t_master_line c part
    else if flag_set (cc_flags (s_cc (ts_st s))) HIRCLUSTER_FLAG_ADD_SLAVE && starts_with role (str "slave")
    then t_slave_line c part
    else mret ().

(** The loop over the text: a line ends at a newline at or after [pos].  After a line,
    [pos] is the start of the next one and is incremented once more by the loop. *)
Fixpoint t_lines (fuel : nat) (c : conn) (text : bytes) (line_start pos : nat) : T () :=
  match fuel with
  | O => undefined
  | S fuel' =>
      match find_byte "010"%byte (drop pos text) with
      | None => mret ()
      | Some n =>
          let line_end := (pos + n)%nat in
          t_line c (take (line_end - line_start) (drop line_start text));;
          t_lines fuel' c text (S line_end) (S (S line_end))
      end
  end.

Definition parse_cluster_nodes {L} (c : conn) (text : bytes) : G (cstate W) L (option (dict bytes loc)) :=
  t_finish (
    t_lines (S (length text)) c text 0 0;;
    s ← gget;
    if ts_found s =? 0 then t_error (str "No slot information") else mret ()).

(** ** Installing the new nodes *)

(** [for (i = slot->start; i <= slot->end; i++)]: [None] when a slot has a node already. *)
Fixpoint fill_range (n : nat) (i : Z) (master : loc) (table : gmap Z loc) : option (gmap Z loc) :=
  match n with
  | O => Some table
  | S n' =>
      match table !! i with
      | Some _ => None
      | None => fill_range n' (i + 1) master (<[i := master]> table)
      end
  end.

Definition err_region : bytes := str "Slot region for node is invalid".
Definition err_same_slot : bytes := str "Different node holds same slot".
Definition err_role : bytes := str "Node role must be master".

Fixpoint fill_slots (slots : list cluster_slot) (master : loc) (table : gmap Z loc) : bytes + gmap Z loc :=
  match slots with
  | [] => inr table
  | slot :: rest =>
      if (sl_end slot <? sl_start slot) || (REDIS_CLUSTER_SLOTS <=? sl_end slot) then inl err_region
      else
        match fill_range (Z.to_nat (sl_end slot - sl_start slot + 1)) (sl_start slot) master table with
        | None => inl err_same_slot
        | Some table => fill_slots rest master table
        end
  end.

Fixpoint fill_table (heap : gmap loc redisClusterNode) (entries : list (bytes * loc)) (table : gmap Z loc)
    : option (bytes + gmap Z loc) :=
  match entries with
  | [] => Some (inr table)
  | (_, p) :: rest =>
      master ← heap !! p;
      if negb (n_role master =? REDIS_ROLE_MASTER) then Some (inl err_role)
      else
        match fill_slots (default [] (n_slots master)) p table with
        | inl e => Some (inl e)
        | inr table => fill_table heap rest table
        end
  end.

Definition updateNodesAndSlotmap {L} (nodes : option (dict bytes loc)) : G (cstate W) L Z :=
  match nodes with
  | None => mret REDIS_ERR
  | Some nodes =>
      ok ← alloc;
      if negb ok then
        set_error REDIS_ERR_OOM (str "Out of memory");; m_dictRelease nodes;; mret REDIS_ERR
      else
        s ← gget;
        entries ← gdef (dict_entries nodes);
        table ← gdef (fill_table (s_heap s) entries ∅);
        match table with
        | inl msg => set_error REDIS_ERR_OTHER msg;; m_dictRelease nodes;; mret REDIS_ERR
        | inr table =>
            cc ← get_cc;
            mod_cc (cc_set_route (u64 (cc_route_version cc + 1)) (Some table));;
            cluster_nodes_swap_ctx (cc_nodes cc) (Some nodes);;
            mod_cc (cc_set_nodes (Some nodes));;
            match cc_nodes cc with Some oldnodes => m_dictRelease oldnodes | None => mret () end;;
            cc ← get_cc;
            (if cc_event_callback cc then
               emit SLOTMAP_UPDATED;;
               (if cc_route_version cc =? 1 then emit READY else mret ())
             else mret ());;
            mod_cc (fun cc => cc_set_retry (cc_retry_count cc) 0 cc);;
            mret REDIS_OK
        end
  end.
End Topology.
