(* ===== verification/Route.v ===== *)
(** * hircluster.c: connections and the update of the slot map

    [ctx_get_by_node] gives the connection of a node, [node_get_by_table] the node of
    a slot, and [redisClusterUpdateSlotmap] asks the known nodes in turn for the
    cluster's layout until one answers. *)
From S2P Require Import Prelude Crc16 Dict Goto Hiredis Context Nodes Topology.

Section Route.
Context {W : Type} `{HiredisOps W} {sds : SdsOps} {L : Type}.
Abbreviation M := (G (cstate W) L).

(** [__redisClusterSetError(cc, c->err, c->errstr)] *)
Definition set_ctx_error (c : conn) : M () :=
  err ← world_get (fun w => (ctx_err w c, ctx_errstr w c));
  set_error err.1 err.2.

(** [if (cc->on_connect) cc->on_connect(c, c->err ? REDIS_ERR : REDIS_OK);] *)
Definition call_on_connect (c : conn) : M () :=
  cc ← get_cc;
  err ← world_get (fun w => ctx_err w c);
  if cc_on_connect cc then emit (ON_CONNECT c (if negb (err =? 0) then REDIS_ERR else REDIS_OK)) else mret ().

(** [cc->ssl && cc->ssl_init_fn(c, cc->ssl) != REDIS_OK] *)
Definition ssl_fails (c : conn) : M bool :=
  cc ← get_cc;
  if cc_ssl cc then r ← world_call (fun w => ssl_init_fn w c); mret (negb (r =? REDIS_OK)) else mret false.

Definition m_connect (host : bytes) (port : Z) : M (option conn) :=
  cc ← get_cc;
  world_call (fun w => redisConnectWithOptions w host port (cc_connect_timeout cc) (cc_command_timeout cc)).

(** The end of a function that closes its connection: [redisFree(c); return r;]. *)
Definition free_ret {A} (c : conn) (r : A) : M A := world (fun w => redisFree w c);; mret r.

Definition use_slots (cc : redisClusterContext) : bool := flag_set (cc_flags cc) HIRCLUSTER_FLAG_ROUTE_USE_SLOTS.

Definition clusterUpdateRouteSendCommand (c : conn) : M Z :=
  cc ← get_cc;
  let cmd := if use_slots cc then [str "CLUSTER"; str "SLOTS"] else [str "CLUSTER"; str "NODES"] in
  r ← world_call (fun w => redisAppendCommand w c cmd);
  if negb (r =? REDIS_OK) then
    let msg := if use_slots cc then str "Command (cluster slots) send error."
               else str "Command (cluster nodes) send error." in
    err ← world_get (fun w => ctx_err w c);
    set_error err msg;; mret REDIS_ERR
  else
    r ← world_call (fun w => redisBufferWrite w c);
    if r.1 =? REDIS_ERR then mret REDIS_ERR else mret REDIS_OK.

(** The start of both handlers: the reply, or the error of receiving it. *)
Definition route_reply (c : conn) (timeout null : bytes) : M (option redisReply) :=
  '(result, reply) ← world_call (fun w => redisGetReply w c);
  if negb (result =? REDIS_OK) then
    err ← world_get (fun w => ctx_err w c);
    (if err =? REDIS_ERR_TIMEOUT then set_error err timeout else set_error REDIS_ERR_OTHER null);;
    mret None
  else reply ← gdef reply; mret (Some reply).

Definition handleClusterSlotsReply (c : conn) : M Z :=
  reply ← route_reply c (str "Command (cluster slots) reply error (socket timeout)")
            (str "Command (cluster slots) reply error (NULL).");
  match reply with
  | None => mret REDIS_ERR
  | Some (REDIS_REPLY_ARRAY _ as reply) =>
      nodes ← parse_cluster_slots c (Some reply); updateNodesAndSlotmap nodes
  | Some (REDIS_REPLY_ERROR s) => set_error REDIS_ERR_OTHER s;; mret REDIS_ERR
  | Some _ =>
      set_error REDIS_ERR_OTHER (str "Command (cluster slots) reply error: type is not array.");; mret REDIS_ERR
  end.

Definition handleClusterNodesReply (c : conn) : M Z :=
  reply ← route_reply c (str "Command (cluster nodes) reply error (socket timeout)")
            (str "Command (cluster nodes) reply error (NULL).");
  match reply with
  | None => mret REDIS_ERR
  | Some (REDIS_REPLY_STRING text) => nodes ← parse_cluster_nodes c text; updateNodesAndSlotmap nodes
  | Some (REDIS_REPLY_ERROR s) => set_error REDIS_ERR_OTHER s;; mret REDIS_ERR
  | Some _ =>
      set_error REDIS_ERR_OTHER (str "Command(cluster nodes) reply error: type is not string.");; mret REDIS_ERR
  end.

Definition clusterUpdateRouteHandleReply (c : conn) : M Z :=
  cc ← get_cc;
  if use_slots cc then handleClusterSlotsReply c else handleClusterNodesReply c.

Definition cluster_update_route_by_addr (ip : bytes) (port : Z) : M Z :=
  if port <=? 0 then set_error REDIS_ERR_OTHER (str "Ip or port error!");; mret REDIS_ERR
  else
    c ← m_connect ip port;
    match c with
    | None => set_error REDIS_ERR_OOM (str "Out of memory");; mret REDIS_ERR
    | Some c =>
        call_on_connect c;;
        err ← world_get (fun w => ctx_err w c);
        if negb (err =? 0) then set_ctx_error c;; free_ret c REDIS_ERR
        else
          fails ← ssl_fails c;
          if fails : bool then set_ctx_error c;; free_ret c REDIS_ERR
          else
            r ← authenticate c;
            if negb (r =? REDIS_OK) then free_ret c REDIS_ERR
            else
              r ← clusterUpdateRouteSendCommand c;
              if negb (r =? REDIS_OK) then free_ret c REDIS_ERR
              else
                r ← clusterUpdateRouteHandleReply c;
                if negb (r =? REDIS_OK) then free_ret c REDIS_ERR else free_ret c REDIS_OK
    end.

(** The loop over the nodes: [tried] says that some node had an address. *)
Fixpoint update_slotmap_loop (entries : list (bytes * loc)) (tried : bool) : M Z :=
  match entries with
  | [] =>
      (if tried then mret () else set_error REDIS_ERR_OTHER (str "no valid server address"));; mret REDIS_ERR
  | (_, p) :: rest =>
      node ← get_node p;
      match n_host node with
      | None => update_slotmap_loop rest tried
      | Some host =>
          ret ← cluster_update_route_by_addr host (n_port node);
          if ret =? REDIS_OK then
            cc ← get_cc;
            (if negb (cc_err cc =? 0) then mod_cc (cc_set_error 0 []) else mret ());; mret REDIS_OK
          else update_slotmap_loop rest true
      end
  end.

Definition redisClusterUpdateSlotmap : M Z :=
  cc ← get_cc;
  match cc_nodes cc with
  | None => set_error REDIS_ERR_OTHER (str "no server address");; mret REDIS_ERR
  | Some nodes => entries ← gdef (dict_entries nodes); update_slotmap_loop entries false
  end.

(** [ctx_get_by_node]: the open connection, reconnected if it has failed, or a new
    one.  The last steps of a reconnection do not decide the result. *)
Definition ctx_get_by_node (p : loc) : M (option conn) :=
  node ← get_node p;
  match n_con node with
  | Some c =>
      err ← world_get (fun w => ctx_err w c);
      (if negb (err =? 0) then
         world (fun w => redisReconnect w c);;
         call_on_connect c;;
         fails ← ssl_fails c;
         (if fails : bool then set_ctx_error c else mret ());;
         authenticate c;; mret ()
       else mret ());;
      mret (Some c)
  | None =>
      match n_host node with
      | None => mret None
      | Some host =>
          if n_port node <=? 0 then mret None
          else
            c ← m_connect host (n_port node);
            match c with
            | None => set_error REDIS_ERR_OOM (str "Out of memory");; mret None
            | Some c =>
                call_on_connect c;;
                err ← world_get (fun w => ctx_err w c);
                if negb (err =? 0) then set_ctx_error c;; free_ret c None
                else
                  fails ← ssl_fails c;
                  if fails : bool then set_ctx_error c;; free_ret c None
                  else
                    r ← authenticate c;
                    if negb (r =? REDIS_OK) then free_ret c None
                    else put_node p (fun n => n_set_con (Some c) (n_acon n) n);; mret (Some c)
            end
      end
  end.

(** The argument is converted to an unsigned number. *)
Definition node_get_by_table (slot_num : Z) : M (option loc) :=
  cc ← get_cc;
  let slot_num := u32 slot_num in
  if REDIS_CLUSTER_SLOTS <=? slot_num then set_error REDIS_ERR_OTHER (str "invalid slot");; mret None
  else
    match cc_table cc with
    | None => set_error REDIS_ERR_OTHER (str "slotmap not available");; mret None
    | Some table =>
        match table !! slot_num with
        | None => set_error REDIS_ERR_OTHER (str "slot not served by any node");; mret None
        | Some p => mret (Some p)
        end
    end.
End Route.
