(* ===== verification/Options.v ===== *)
(** * hircluster.c: creating, configuring and freeing a context

    The functions a user calls before the first command.  The context is the one of the
    state; the arguments that are C strings are byte strings read up to their
    terminator, NULL is [None]. *)
From S2P Require Import Prelude Hiutil Crc16 Dict Goto Hiredis Command Context Nodes Topology Route.

Section Options.
Context {W : Type} `{HiredisOps W} {sds : SdsOps} {L : Type}.
Abbreviation M := (G (cstate W) L).
Abbreviation N := (G (cstate W) n_label).

(** [redisClusterContextInit]: whether there is a context. *)
Definition redisClusterContextInit : M bool :=
  ok ← alloc;
  if ok : bool then mod_cc (fun _ => cc_init);; mret true else mret false.

(** [redisClusterFree]: the memory of the context itself is freed last, its fields are
    left as they are then. *)
Definition redisClusterFree : M () :=
  cc ← get_cc;
  (if cc_event_callback cc then emit FREE_CONTEXT else mret ());;
  mod_cc (cc_set_timeouts None None);;
  mod_cc (fun cc => cc_set_route (cc_route_version cc) None cc);;
  match cc_nodes cc with
  | Some nodes => mod_cc (cc_set_nodes None);; m_dictRelease nodes
  | None => mret ()
  end;;
  mod_cc (cc_set_requests None);;
  mod_cc (cc_set_auth None None).

(** The node of [redisClusterSetOptionAddNode]: [host] is the text before the last
    colon. *)
Definition add_node_body (addr : bytes) : N Z :=
  cc ← get_cc;
  nodes ← (match cc_nodes cc with
           | Some nodes => mret nodes
           | None =>
               nodes ← m_dictCreate;
               nodes ← gsome n_oom nodes;
               mod_cc (cc_set_nodes (Some nodes));; mret nodes
           end);
  addr_sds ← sds_or (sdsnew addr);
  node_entry ← m_dictFind nodes addr_sds;
  match node_entry with
  | Some _ => mret REDIS_OK
  | None =>
      match strrchr addr IP_PORT_SEPARATOR with
      | None =>
          set_error REDIS_ERR_OTHER (str "server address is incorrect, port separator missing.");;
          mret REDIS_ERR
      | Some 0%nat =>
          set_error REDIS_ERR_OTHER (str "server address is incorrect, address part missing.");;
          mret REDIS_ERR
      | Some p =>
          ip ← sds_or (sdsnewlen addr p);
          let text := c_str (drop (S p) addr) in
          if (length text =? 0)%nat then
            set_error REDIS_ERR_OTHER (str "server address is incorrect, port part missing.");; goto n_error
          else
            let port := hi_atoi text in
            if port <=? 0 then set_error REDIS_ERR_OTHER (str "server port is incorrect");; goto n_error
            else
              node ← createRedisClusterNode;
              node ← gsome n_oom node;
              gcatch (
                a ← sds_or (sdsnew addr);
                put_node node (n_set_ident None (Some a) (Some ip) (u16 port) REDIS_ROLE_NULL);;
                key ← sds_or (sdsnewlen a (length a));
                '(nodes, ret) ← m_dictAdd nodes key node;
                mod_cc (cc_set_nodes (Some nodes));;
                if negb (ret =? DICT_OK) then goto n_oom else mret REDIS_OK)
                (fun l => gmodify (upd_heap (delete node));; goto l)
      end
  end.

Definition redisClusterSetOptionAddNode (addr : bytes) : M Z :=
  gcatch (add_node_body addr) (fun l =>
    match l with n_oom => set_error REDIS_ERR_OOM (str "Out of memory") | n_error => mret () end;;
    mret REDIS_ERR).

Fixpoint add_nodes_loop (addresses : list bytes) : M Z :=
  match addresses with
  | [] => mret REDIS_OK
  | a :: rest =>
      ret ← redisClusterSetOptionAddNode a;
      if negb (ret =? REDIS_OK) then mret REDIS_ERR else add_nodes_loop rest
  end.

Definition redisClusterSetOptionAddNodes (addrs : bytes) : M Z :=
  ok ← alloc;
  if negb ok then set_error REDIS_ERR_OOM (str "Out of memory");; mret REDIS_ERR
  else
    match sdssplitlen (c_str addrs) (str ",") with
    | [] =>
        set_error REDIS_ERR_OTHER
          (str "invalid server addresses (example format: 127.0.0.1:1234,127.0.0.2:5678)");;
        mret REDIS_ERR
    | addresses => add_nodes_loop addresses
    end.

(** Deprecated, without effect. *)
Definition redisClusterSetOptionConnectBlock : M Z := mret REDIS_OK.
Definition redisClusterSetOptionConnectNonBlock : M Z := mret REDIS_OK.

(** [str == NULL || str[0] == '\0'] *)
Definition disabling (s : option bytes) : bool :=
  match s with None => true | Some s => (length (c_str s) =? 0)%nat end.

Definition redisClusterSetOptionUsername (username : option bytes) : M Z :=
  cc ← get_cc;
  if disabling username then mod_cc (cc_set_auth None (cc_password cc));; mret REDIS_OK
  else
    ok ← alloc;
    if ok : bool then mod_cc (cc_set_auth (c_str <$> username) (cc_password cc));; mret REDIS_OK
    else mod_cc (cc_set_auth None (cc_password cc));; mret REDIS_ERR.

Definition redisClusterSetOptionPassword (password : option bytes) : M Z :=
  cc ← get_cc;
  if disabling password then mod_cc (cc_set_auth (cc_username cc) None);; mret REDIS_OK
  else
    ok ← alloc;
    if ok : bool then mod_cc (cc_set_auth (cc_username cc) (c_str <$> password));; mret REDIS_OK
    else mod_cc (cc_set_auth (cc_username cc) None);; mret REDIS_ERR.

Definition set_flag (f : Z) : M Z :=
  mod_cc (fun cc => cc_set_flags (Z.lor (cc_flags cc) f) cc);; mret REDIS_OK.
Definition redisClusterSetOptionParseSlaves : M Z := set_flag HIRCLUSTER_FLAG_ADD_SLAVE.
Definition redisClusterSetOptionParseOpenSlots : M Z := set_flag HIRCLUSTER_FLAG_ADD_OPENSLOT.
Definition redisClusterSetOptionRouteUseSlots : M Z := set_flag HIRCLUSTER_FLAG_ROUTE_USE_SLOTS.

Definition redisClusterSetOptionConnectTimeout (tv : timeval) : M Z :=
  cc ← get_cc;
  ok ← (match cc_connect_timeout cc with Some _ => mret true | None => alloc end);
  if negb ok then set_error REDIS_ERR_OOM (str "Out of memory");; mret REDIS_ERR
  else mod_cc (fun cc => cc_set_timeouts (Some tv) (cc_command_timeout cc) cc);; mret REDIS_OK.

(** The timeout of the connections of one node. *)
Definition set_node_timeout (tv : timeval) (p : loc) : M () :=
  node ← get_node p;
  match n_acon node with Some ac => world (fun w => redisAsyncSetTimeout w ac tv) | None => mret () end;;
  match n_con node with
  | Some c =>
      err ← world_get (fun w => ctx_err w c);
      if err =? 0 then world (fun w => redisSetTimeout w c tv) else mret ()
  | None => mret ()
  end.

Fixpoint set_nodes_timeout (tv : timeval) (ps : list loc) : M () :=
  match ps with [] => mret () | p :: rest => set_node_timeout tv p;; set_nodes_timeout tv rest end.

Fixpoint set_masters_timeout (tv : timeval) (entries : list (bytes * loc)) : M () :=
  match entries with
  | [] => mret ()
  | (_, p) :: rest =>
      set_node_timeout tv p;;
      node ← get_node p;
      match n_slaves node with Some l => set_nodes_timeout tv (nl_items l) | None => mret () end;;
      set_masters_timeout tv rest
  end.

Definition redisClusterSetOptionTimeout (tv : timeval) : M Z :=
  cc ← get_cc;
  if bool_decide (cc_command_timeout cc = Some tv) then mret REDIS_OK
  else
    ok ← (match cc_command_timeout cc with Some _ => mret true | None => alloc end);
    if negb ok then set_error REDIS_ERR_OOM (str "Out of memory");; mret REDIS_ERR
    else
      mod_cc (fun cc => cc_set_timeouts (cc_connect_timeout cc) (Some tv) cc);;
      match cc_nodes cc with
      | Some nodes => entries ← gdef (dict_entries nodes); set_masters_timeout tv entries
      | None => mret ()
      end;;
      mret REDIS_OK.

Definition redisClusterSetOptionMaxRetry (max_retry_count : Z) : M Z :=
  if max_retry_count <=? 0 then mret REDIS_ERR
  else mod_cc (cc_set_max_retry max_retry_count);; mret REDIS_OK.

Definition redisClusterSetMaxRedirect (max_retry_count : Z) : M () :=
  if max_retry_count <=? 0 then mret () else mod_cc (cc_set_max_retry max_retry_count).

Definition redisClusterSetConnectCallback : M Z :=
  cc ← get_cc;
  if cc_on_connect cc then mret REDIS_ERR
  else mod_cc (cc_set_callbacks (cc_ssl cc) true (cc_event_callback cc));; mret REDIS_OK.

Definition redisClusterSetEventCallback : M Z :=
  cc ← get_cc;
  if cc_event_callback cc then mret REDIS_ERR
  else mod_cc (cc_set_callbacks (cc_ssl cc) (cc_on_connect cc) true);; mret REDIS_OK.

(** hircluster_ssl.c: [ssl] tells that the SSL context is not NULL.  [ssl_init_fn] is the
    operation of that name of [HiredisOps]. *)
Definition redisClusterSetOptionEnableSSL (ssl : bool) : M Z :=
  if negb ssl then mret REDIS_ERR
  else mod_cc (fun cc => cc_set_callbacks true (cc_on_connect cc) (cc_event_callback cc) cc);; mret REDIS_OK.

(** [_redisClusterConnect2] *)
Definition clusterConnect2 : M Z :=
  cc ← get_cc;
  match cc_nodes cc with
  | Some nodes =>
      if d_used nodes =? 0 then set_error REDIS_ERR_OTHER (str "servers address does not set up");; mret REDIS_ERR
      else redisClusterUpdateSlotmap
  | None => set_error REDIS_ERR_OTHER (str "servers address does not set up");; mret REDIS_ERR
  end.

Definition redisClusterConnect2 : M Z :=
  mod_cc (fun cc => cc_set_flags (Z.land (cc_flags cc) (Z.lnot HIRCLUSTER_FLAG_SHUTDOWN)) cc);;
  clusterConnect2.

(** [_redisClusterConnect] *)
Definition clusterConnect (addrs : bytes) : M () :=
  ret ← redisClusterSetOptionAddNodes addrs;
  if negb (ret =? REDIS_OK) then mret () else redisClusterUpdateSlotmap;; mret ().

Definition redisClusterConnect (addrs : bytes) (flags : Z) : M bool :=
  ok ← redisClusterContextInit;
  if negb ok then mret false
  else mod_cc (cc_set_flags flags);; clusterConnect addrs;; mret true.

Definition redisClusterConnectWithTimeout (addrs : bytes) (tv : timeval) (flags : Z) : M bool :=
  ok ← redisClusterContextInit;
  if negb ok then mret false
  else
    mod_cc (cc_set_flags flags);;
    ok ← alloc;
    if negb ok then mret false      (* the new context is not freed *)
    else
      mod_cc (fun cc => cc_set_timeouts (Some tv) (cc_command_timeout cc) cc);;
      clusterConnect addrs;; mret true.
End Options.
