(* ===== verification/Execute.v ===== *)
(** * hircluster.c: executing a command on the cluster

    [redis_cluster_command_execute] sends a command to the node of its slot and follows
    the cluster's redirections.  One attempt is a step of a loop: it ends the loop, starts
    over at the label [retry], or goes on at [moved_retry] with another connection.
    The loop has fuel; running out of it is an outcome of its own, [x_fuel]. *)
From S2P Require Import Prelude Hiutil Crc16 Dict Goto Hiredis Command Context Fragment Nodes Topology Route.

Inductive x_label := x_error | x_fuel.

Record xstate (W : Type) := mkXstate {
  xs_st : cstate W;
  xs_updating : option conn      (* c_updating_route *)
}.
Arguments mkXstate {W} _ _.
Arguments xs_st {W} _.
Arguments xs_updating {W} _.

Inductive x_next :=
  | X_retry                         (* goto retry *)
  | X_again (c : conn)              (* goto moved_retry, goto ask_retry *)
  | X_done (reply : option redisReply).

Section Execute.
Context {W : Type} `{HiredisOps W} {sds : SdsOps}.
Abbreviation X := (G (xstate W) x_label).

(** [getNodeFromRedirectReply]: the node and, when asked for, the slot (-1 as the caller
    initialised it, when it is not reached). *)
Definition getNodeFromRedirectReply {L} (reply : bytes) (want_slot : bool) : G (cstate W) L (option loc * Z) :=
  split_ok ← alloc;
  if negb split_ok then set_error REDIS_ERR_OOM (str "Out of memory");; mret (None, -1)
  else
    match sdssplitlen reply (str " ") with
    | [_; part1; part2] =>
        let slot := if want_slot then hi_atoi part1 else -1 in
        match strrchr part2 IP_PORT_SEPARATOR with
        | None => set_error REDIS_ERR_OTHER (str "port separator missing in redirect");; mret (None, slot)
        | Some 0%nat => set_error REDIS_ERR_OTHER (str "endpoint missing in redirect");; mret (None, slot)
        | Some p =>
            cc ← get_cc;
            nodes ← gdef (cc_nodes cc);
            de ← m_dictFind nodes part2;
            match de with
            | Some node => mret (Some node, slot)
            | None =>
                node ← createRedisClusterNode;
                match node with
                | None => set_error REDIS_ERR_OOM (str "Out of memory");; mret (None, slot)
                | Some node =>
                    put_node node (n_set_ident None (Some part2) None 0 REDIS_ROLE_MASTER);;
                    host_ok ← alloc;
                    key_ok ← (if host_ok : bool then alloc else mret false);
                    if negb key_ok then
                      set_error REDIS_ERR_OOM (str "Out of memory");;
                      gmodify (upd_heap (delete node));; mret (None, slot)
                    else
                      put_node node (n_set_ident None (Some part2) (Some (sdsnewlen part2 p))
                                       (u16 (hi_atoi (c_str (drop (S p) part2)))) REDIS_ROLE_MASTER);;
                      '(nodes, ret) ← m_dictAdd nodes (sdsnewlen part2 (length part2)) node;
                      mod_cc (cc_set_nodes (Some nodes));;
                      if negb (ret =? DICT_OK) then
                        set_error REDIS_ERR_OOM (str "Out of memory");;
                        gmodify (upd_heap (delete node));; mret (None, slot)
                      else mret (Some node, slot)
                end
            end
        end
    | _ => set_error REDIS_ERR_OTHER (str "failed to parse redirect");; mret (None, -1)
    end.

Definition x_lift {A} (m : G (cstate W) x_label A) : X A := fun s =>
  match m (xs_st s) with (st, o) => (mkXstate st (xs_updating s), o) end.
Definition x_set_updating (c : option conn) : X () := gmodify (fun s => mkXstate (xs_st s) c).

(** [if (r != REDIS_OK) goto error;] *)
Definition x_ok (m : G (cstate W) x_label Z) : X () :=
  r ← x_lift m; gwhen (negb (r =? REDIS_OK)) x_error.

(** [c = ctx_get_by_node(cc, node)]: an error without a connection, or with its error in
    the context when it has one. *)
Definition x_conn (node : loc) : X conn :=
  c ← x_lift (ctx_get_by_node node);
  c ← gsome x_error c;
  err ← x_lift (world_get (fun w => ctx_err w c));
  if negb (err =? 0) then x_lift (set_ctx_error c);; goto x_error else mret c.

(** From [retry] to [moved_retry]: the connection of the slot's node, with an update of
    the slot map when the slot is not served or the node cannot be reached. *)
Definition x_get_conn (slot_num : Z) : X conn :=
  node ← x_lift (node_get_by_table slot_num);
  node ← (match node with
          | Some node => mret node
          | None =>
              x_ok redisClusterUpdateSlotmap;;
              node ← x_lift (node_get_by_table slot_num);
              gsome x_error node
          end);
  c ← x_lift (ctx_get_by_node node);
  failed ← (match c with
            | None => mret true
            | Some c => err ← x_lift (world_get (fun w => ctx_err w c)); mret (negb (err =? 0))
            end);
  if failed : bool then
    x_ok redisClusterUpdateSlotmap;;
    node ← x_lift (node_get_by_table slot_num);
    node ← gsome x_error node;
    x_conn node
  else gsome x_error c.

(** The deferred update of the slot map is sent on [c]; whether that worked. *)
Definition x_send_update (c : conn) : X bool :=
  r ← x_lift (clusterUpdateRouteSendCommand c);
  if r =? REDIS_OK then x_set_updating (Some c);; mret true else mret false.

(** [cc->table[slot] = node] *)
Definition x_set_table (slot : Z) (node : loc) : X () :=
  cc ← x_lift get_cc;
  if 0 <=? slot then
    table ← gdef (cc_table cc);
    if REDIS_CLUSTER_SLOTS <=? slot then undefined
    else x_lift (mod_cc (cc_set_route (cc_route_version cc) (Some (<[slot := node]> table))))
  else mret ().

Definition x_moved (c : conn) (reply : bytes) : X x_next :=
  '(node, slot) ← x_lift (getNodeFromRedirectReply reply true);
  node ← gsome x_error node;
  x_set_table slot node;;
  s ← gget;
  (match xs_updating s with
   | Some _ => mret ()
   | None =>
       sent ← x_send_update c;
       if sent : bool then mret ()
       else x_ok redisClusterUpdateSlotmap;; x_lift (mod_cc (cc_set_error 0 []))
   end);;
  c ← x_conn node;
  mret (X_again c).

Definition x_ask (reply : bytes) : X x_next :=
  '(node, _) ← x_lift (getNodeFromRedirectReply reply false);
  node ← gsome x_error node;
  c ← x_conn node;
  reply ← x_lift (world_call (fun w => redisCommand w c [str "ASKING"]));
  match reply with
  | None => x_lift (set_ctx_error c);; goto x_error
  | Some _ => mret (X_again c)
  end.

(** The text of an error reply. *)
Definition reply_str (reply : option redisReply) : bytes :=
  match reply with Some (REDIS_REPLY_ERROR s) => s | _ => [] end.

(** [cc->retry_count++; if (cc->retry_count > cc->max_retry_count) goto error;] *)
Definition x_count_retry : X () :=
  cc ← x_lift get_cc;
  let n := i32 (cc_retry_count cc + 1) in
  x_lift (mod_cc (cc_set_retry n (cc_need_update_route cc)));;
  if cc_max_retry_count cc <? n then
    x_lift (set_error REDIS_ERR_CLUSTER_TOO_MANY_RETRIES (str "too many cluster retries"));; goto x_error
  else mret ().

(** The bytes that are sent: [command->cmd, command->clen]. *)
Definition cmd_bytes (command : cmd) : option bytes :=
  text ← c_cmd command; Some (take (Z.to_nat (c_clen command)) text).

(** From [moved_retry] on. *)
Definition x_try (command : cmd) (c : conn) : X x_next :=
  text ← gdef (cmd_bytes command);
  r ← x_lift (world_call (fun w => redisAppendFormattedCommand w c text));
  if negb (r =? REDIS_OK) then x_lift (set_ctx_error c);; goto x_error
  else
    cc ← x_lift get_cc;
    s ← gget;
    (match xs_updating s with
     | None => if negb (cc_need_update_route cc =? 0) then x_send_update c;; mret () else mret ()
     | Some _ => mret ()
     end);;
    '(r, reply) ← x_lift (world_call (fun w => redisGetReply w c));
    if negb (r =? REDIS_OK) then
      x_lift (set_ctx_error c);;
      err ← x_lift (world_get (fun w => ctx_err w c));
      (if negb (err =? REDIS_ERR_OOM)
       then x_lift (mod_cc (fun cc => cc_set_retry (cc_retry_count cc) 1 cc)) else mret ());;
      goto x_error
    else
      match cluster_reply_error_type reply with
      | Some CLUSTER_ERR_MOVED => x_count_retry;; x_moved c (reply_str reply)
      | Some CLUSTER_ERR_ASK => x_count_retry;; x_ask (reply_str reply)
      | Some CLUSTER_ERR_TRYAGAIN | Some CLUSTER_ERR_CLUSTERDOWN => x_count_retry;; mret X_retry
      | _ => mret (X_done reply)
      end.

(** The loop: [at_] is the connection to go on with, none at [retry]. *)
Fixpoint x_loop (fuel : nat) (command : cmd) (at_ : option conn) : X (option redisReply) :=
  match fuel with
  | O => goto x_fuel
  | S fuel' =>
      c ← (match at_ with Some c => mret c | None => x_get_conn (c_slot_num command) end);
      next ← x_try command c;
      match next with
      | X_retry => x_loop fuel' command None
      | X_again c => x_loop fuel' command (Some c)
      | X_done reply => mret reply
      end
  end.

(** [done:] the reply of a deferred update is read and handled. *)
Definition x_finish {L} (updating : option conn) (reply : option redisReply)
    : G (cstate W) L (option redisReply) :=
  match updating with
  | None => mret reply
  | Some c =>
      r ← clusterUpdateRouteHandleReply c;
      if negb (r =? REDIS_OK) then
        mod_cc (cc_set_error 0 []);;
        r ← redisClusterUpdateSlotmap;
        mret (if negb (r =? REDIS_OK) then None else reply)
      else mret reply
  end.

(** The attempts that the retry counter leaves, and one. *)
Definition x_fuel_of (cc : redisClusterContext) : nat :=
  S (S (Z.to_nat (cc_max_retry_count cc - cc_retry_count cc))).

Definition redis_cluster_command_execute {L} (command : cmd) : G (cstate W) L (option redisReply) := fun st =>
  match x_loop (x_fuel_of (s_cc st)) command None (mkXstate st None) with
  | (s, Normal reply) => x_finish (xs_updating s) reply (xs_st s)
  | (s, At x_error) => x_finish (xs_updating s) None (xs_st s)
  | (s, At x_fuel) => (xs_st s, Undefined)
  | (s, Undefined) => (xs_st s, Undefined)
  end.
End Execute.
