(* ===== verification/NodeProps.v ===== *)
(** * Lemmas on the nodes dict and on the state

    The callbacks of the node dicts are those of a map, so [Dict]'s contract applies;
    [m_dictFind] and [m_dictAdd] by that contract, the allocations that succeed, and
    what releasing nodes does. *)
From S2P Require Import Prelude Hiutil Dict Goto Hiredis Context Sds Nodes.

Section NodeProps.
Context {W : Type} `{HiredisOps W} {sds : SdsOps}.

Lemma dictSdsKeyCompare_eq a b : dictSdsKeyCompare a b = bool_decide (a = b).
Proof.
  unfold dictSdsKeyCompare, memeq. destruct (length a =? length b)%nat eqn:E; cbn [negb].
  - apply Nat.eqb_eq in E. rewrite firstn_all. rewrite E, firstn_all. done.
  - apply Nat.eqb_neq in E. symmetry. apply bool_decide_false. by intros ->.
Qed.

#[export] Instance nodes_laws : DictLaws (clusterNodesDictType (W := W)).
Proof.
  constructor; try done.
  - intros k. apply dictGenHashFunction_range.
  - intros a b. apply dictSdsKeyCompare_eq.
Qed.

(** The well-formed dicts of nodes. *)
Definition nodes_ok (d : dict bytes loc) : Prop := dict_wf (clusterNodesDictType (W := W)) d /\ dict_small d.

Context {L : Type}.
Implicit Types (st : cstate W).

Lemma alloc_ok st : s_allocs st = [] -> alloc (L := L) st = (st, Normal true).
Proof. intros E. unfold alloc. rewrite E. cbn. unfold upd_allocs. rewrite E. cbn. destruct st. cbn in E. by subst. Qed.

Lemma alloc_or_ok st (l : L) : s_allocs st = [] -> alloc_or l st = (st, Normal ()).
Proof. intros E. unfold alloc_or. by rewrite (gbind_normal _ _ _ _ _ (alloc_ok st E)). Qed.

Lemma m_dictFind_ok st d key : nodes_ok d -> m_dictFind (L := L) d key st = (st, Normal (to_map d !! key)).
Proof.
  intros [Hwf _]. unfold m_dictFind. rewrite (dictFind_ok _ d key Hwf). cbn. by destruct (to_map d !! key).
Qed.

(** With memory, a new key is added and a known one refused. *)
Lemma m_dictAdd_ok st d key p : nodes_ok d -> s_allocs st = [] ->
  exists d' r, m_dictAdd (L := L) d key p st = (st, Normal (d', r)) /\ dict_wf (clusterNodesDictType (W := W)) d' /\
    (r = DICT_OK /\ to_map d !! key = None /\ to_map d' = <[key := p]> (to_map d) \/
     r = DICT_ERR /\ to_map d' = to_map d /\ is_Some (to_map d !! key)).
Proof.
  intros [Hwf Hs] Ha. unfold m_dictAdd.
  rewrite (gbind_normal _ _ _ _ _ (alloc_ok st Ha)), (gbind_normal _ _ _ _ _ (alloc_ok st Ha)).
  destruct (dictAdd_ok (clusterNodesDictType (W := W)) true true d key p Hwf Hs) as (d' & r & E & Hwf' & Hr).
  exists d', r. rewrite E. cbn [gdef]. split; [done|]. split; [done|].
  destruct Hr as [Hr|(-> & Hm & [?|[?|Hi]])]; [by left|done|done|]. by right.
Qed.

Lemma m_dictAdd_new st d key p : nodes_ok d -> s_allocs st = [] -> to_map d !! key = None ->
  exists d', m_dictAdd (L := L) d key p st = (st, Normal (d', DICT_OK)) /\
    dict_wf (clusterNodesDictType (W := W)) d' /\ to_map d' = <[key := p]> (to_map d).
Proof.
  intros Hd Ha Hk. destruct (m_dictAdd_ok st d key p Hd Ha) as (d' & r & E & Hwf & [(-> & _ & Hm)|(_ & _ & [x Hx])]).
  - by exists d'.
  - congruence.
Qed.

(** A new node is at an address that was not in use. *)
Lemma createNode_ok st : s_allocs st = [] -> exists p, s_heap st !! p = None /\
  createRedisClusterNode (L := L) st = (upd_heap (<[p := zero_node]>) st, Normal (Some p)).
Proof.
  intros Ha. exists (fresh (dom (s_heap st))). split; [apply not_elem_of_dom, is_fresh|].
  unfold createRedisClusterNode. by rewrite (gbind_normal _ _ _ _ _ (alloc_ok st Ha)).
Qed.

Lemma put_node_ok st p f nd : s_heap st !! p = Some nd ->
  put_node (L := L) p f st = (upd_heap (<[p := f nd]>) st, Normal ()).
Proof. intros E. unfold put_node, mbind, g_bind, get_node. by rewrite E. Qed.

(** Consecutive writes of the same node. *)
Lemma upd_heap_insert st p a b : upd_heap (<[p := a]>) (upd_heap (<[p := b]>) st) = upd_heap (<[p := a]>) st.
Proof. unfold upd_heap. cbn. by rewrite insert_insert_eq. Qed.

Lemma put_node_ins st p f nd :
  put_node (L := L) p f (upd_heap (<[p := nd]>) st) = (upd_heap (<[p := f nd]>) st, Normal ()).
Proof. rewrite (put_node_ok _ _ _ nd) by apply lookup_insert_eq. by rewrite upd_heap_insert. Qed.
End NodeProps.

Lemma sds_or_ok {W} (st : cstate W) b : s_allocs st = [] -> sds_or b st = (st, Normal b).
Proof. intros Ha. unfold sds_or. by rewrite (gbind_normal _ _ _ _ _ (alloc_ok st Ha)). Qed.
