(* ===== verification/Ownership.v ===== *)
(** * Ownership of cluster nodes

    A dict of nodes owns its nodes, and a node owns the nodes of its slave list when the
    list has its [free] method set.  Releasing a dict frees exactly what it owns. *)
From S2P Require Import Prelude Hiutil Dict Goto Hiredis Context Sds Nodes NodeProps.

#[local] Set Warnings "-register-all".

(** The nodes a node frees with itself. *)
Definition owned_slaves (nd : redisClusterNode) : list loc :=
  match n_slaves nd with Some l => if nl_free l then nl_items l else [] | None => [] end.

Abbreviation nheap := (gmap loc redisClusterNode).

(** [owns h p qs]: the tree below [p] in the heap, in preorder. *)
Inductive owns (h : nheap) : loc -> list loc -> Prop :=
  | owns_node p nd qss : h !! p = Some nd -> Forall2 (owns h) (owned_slaves nd) qss -> owns h p (p :: concat qss).

(** The trees below several nodes. *)
Definition forest (h : nheap) (ps qs : list loc) : Prop := exists qss, Forall2 (owns h) ps qss /\ qs = concat qss.

Definition delete_all (qs : list loc) (h : nheap) : nheap := foldr delete h qs.

Lemma lookup_delete_all qs h p : delete_all qs h !! p = if decide (p ∈ qs) then None else h !! p.
Proof.
  induction qs as [|q qs IH]; cbn [delete_all foldr].
  - by rewrite decide_False by apply not_elem_of_nil.
  - destruct (decide (p = q)) as [->|Hne].
    + rewrite lookup_delete_eq, decide_True; [done|]. left.
    + rewrite lookup_delete_ne by done. change (foldr delete h qs) with (delete_all qs h). rewrite IH. destruct (decide (p ∈ qs)).
      * by rewrite decide_True by (by right).
      * rewrite decide_False; [done|]. by rewrite elem_of_cons; intros [|].
Qed.

Lemma delete_all_app qs1 qs2 h : delete_all (qs1 ++ qs2) h = delete_all qs2 (delete_all qs1 h).
Proof.
  apply map_eq. intros p. rewrite !lookup_delete_all. repeat case_decide; try done; set_solver.
Qed.

Lemma owns_ind' (h : nheap) (P : loc -> list loc -> Prop) :
  (forall p nd qss, h !! p = Some nd -> Forall2 (owns h) (owned_slaves nd) qss ->
     Forall2 P (owned_slaves nd) qss -> P p (p :: concat qss)) ->
  forall p qs, owns h p qs -> P p qs.
Proof.
  intros Hs. fix IH 3. intros p qs [p' nd qss Hp Hq]. apply (Hs p' nd); [done|done|].
  induction Hq as [|q qs' l1 l2 Ho Hq IHq]; constructor; [by apply IH|done].
Qed.

(** Ownership only looks at the slave lists of the nodes in the tree. *)
Lemma owns_frame (h h' : nheap) p qs : owns h p qs ->
  (forall q nd, q ∈ qs -> h !! q = Some nd -> exists nd', h' !! q = Some nd' /\ owned_slaves nd' = owned_slaves nd) ->
  owns h' p qs.
Proof.
  revert p qs. apply (owns_ind' h (fun p qs => _ -> owns h' p qs)). intros p nd qss Hp _ IH Hf.
  destruct (Hf p nd) as (nd' & Hp' & Ho); [left|done|]. econstructor; [done|]. rewrite Ho.
  assert (Hall : forall q n, q ∈ concat qss -> h !! q = Some n -> exists n', h' !! q = Some n' /\ owned_slaves n' = owned_slaves n).
  { intros q n Hq. apply Hf. by right. }
  clear -IH Hall. induction IH as [|q qs l1 l2 Hq IHq IH]; constructor.
  - apply Hq. intros x n Hx. apply Hall. cbn. apply elem_of_app. by left.
  - apply IH. intros x n Hx. apply Hall. cbn. apply elem_of_app. by right.
Qed.

Lemma owns_list_frame (h h' : nheap) ps qss : Forall2 (owns h) ps qss ->
  (forall q nd, q ∈ concat qss -> h !! q = Some nd -> exists nd', h' !! q = Some nd' /\ owned_slaves nd' = owned_slaves nd) ->
  Forall2 (owns h') ps qss.
Proof.
  intros Hf Hall. induction Hf as [|p qs ps qss Ho Hf IH]; constructor.
  - apply (owns_frame h); [done|]. intros q n Hq. apply Hall. cbn. apply elem_of_app. by left.
  - apply IH. intros q n Hq. apply Hall. cbn. apply elem_of_app. by right.
Qed.

Lemma forest_frame (h h' : nheap) ps qs : forest h ps qs ->
  (forall q nd, q ∈ qs -> h !! q = Some nd -> exists nd', h' !! q = Some nd' /\ owned_slaves nd' = owned_slaves nd) ->
  forest h' ps qs.
Proof. intros (qss & Hf & ->) Hall. exists qss. split; [by apply (owns_list_frame h)|done]. Qed.

Lemma owns_list_delete (h : nheap) ps qss ds : Forall2 (owns h) ps qss -> (forall q, q ∈ concat qss -> q ∉ ds) ->
  Forall2 (owns (delete_all ds h)) ps qss.
Proof.
  intros Ho Hd. apply (owns_list_frame h); [done|]. intros q nd Hq Hn. exists nd. split; [|done].
  rewrite lookup_delete_all, decide_False; [done|]. by apply Hd.
Qed.

Lemma owns_in (h : nheap) p qs : owns h p qs -> Forall (fun q => is_Some (h !! q)) qs.
Proof.
  revert p qs. apply (owns_ind' h (fun p qs => Forall (fun q => is_Some (h !! q)) qs)). intros p nd qss Hp _ IH. constructor; [by eexists|].
  apply Forall_concat. clear Hp. induction IH; by constructor.
Qed.

Section Free.
Context {W : Type} `{HiredisOps W} {sds : SdsOps}.
Implicit Types (s : cstate W).

(** [redisFree(node->con)], and [node->acon->data = NULL; redisAsyncFree(node->acon)] *)
Definition close_conns (nd : redisClusterNode) (w : W) : W :=
  let w := match n_con nd with Some c => redisFree w c | None => w end in
  match n_acon nd with Some ac => redisAsyncFree (set_acon_data w ac None) ac | None => w end.

Definition close_node (h : nheap) (w : W) (p : loc) : W :=
  match h !! p with Some nd => close_conns nd w | None => w end.

(** The state after the nodes of [qs] have been freed. *)
Definition freed (qs : list loc) s : cstate W :=
  mkState (s_cc s) (delete_all qs (s_heap s)) (foldl (close_node (s_heap s)) (s_world s) qs) (s_allocs s) (s_cmd_id s)
    (s_events s).

Lemma freed_nil s : freed [] s = s.
Proof. by destruct s. Qed.

Lemma foldl_close h h' w qs : (forall q, q ∈ qs -> h !! q = h' !! q) -> foldl (close_node h) w qs = foldl (close_node h') w qs.
Proof.
  revert w. induction qs as [|q qs IH]; intros w Hq; cbn; [done|]. unfold close_node at 2 4.
  rewrite Hq by left. apply IH. intros x Hx. apply Hq. by right.
Qed.

Lemma freed_app qs1 qs2 s : NoDup (qs1 ++ qs2) -> freed qs2 (freed qs1 s) = freed (qs1 ++ qs2) s.
Proof.
  intros Hn. unfold freed. cbn. rewrite delete_all_app, foldl_app. f_equal. apply foldl_close.
  intros q Hq. rewrite lookup_delete_all, decide_False; [done|]. apply NoDup_app in Hn. set_solver.
Qed.

Lemma free_node_unfold fuel p s nd : s_heap s !! p = Some nd ->
  free_node (S fuel) p s =
    s' ← foldl (fun os q => s ← os; free_node fuel q s) (Some (upd_world (close_conns nd) s)) (owned_slaves nd);
    Some (upd_heap (delete p) s').
Proof.
  intros Hp. cbn [free_node]. rewrite Hp. cbn [mbind option_bind]. unfold owned_slaves, close_conns.
  destruct (n_con nd), (n_acon nd), (n_slaves nd) as [[[] items]|]; destruct s; reflexivity.
Qed.

Definition frees (fuel : nat) : Prop := forall p qs s,
  owns (s_heap s) p qs -> NoDup qs -> (length qs <= fuel)%nat -> free_node fuel p s = Some (freed qs s).

Lemma free_slaves fuel : frees fuel -> forall ps qss s, Forall2 (owns (s_heap s)) ps qss -> NoDup (concat qss) ->
  (length (concat qss) <= fuel)%nat ->
  foldl (fun os q => s ← os; free_node fuel q s) (Some s) ps = Some (freed (concat qss) s).
Proof.
  intros IH ps. induction ps as [|p ps IHp]; intros qss s Hf Hn Hl.
  { apply Forall2_nil_inv_l in Hf as ->. cbn. by rewrite freed_nil. }
  apply Forall2_cons_inv_l in Hf as (qs & qss' & Ho & Hf & ->). cbn [concat] in *. rewrite length_app in Hl.
  pose proof Hn as (Hn1 & Hd & Hn2)%NoDup_app. cbn [foldl mbind option_bind]. rewrite (IH p qs) by (done || lia).
  rewrite (IHp qss'); [|..|done|lia].
  - by rewrite freed_app.
  - apply owns_list_delete; [done|]. intros q Hq1 Hq2. by apply (Hd q).
Qed.

Lemma free_node_ok fuel : forall p qs s, owns (s_heap s) p qs -> NoDup qs -> (length qs <= fuel)%nat ->
  free_node fuel p s = Some (freed qs s).
Proof.
  induction fuel as [|fuel IH]; intros p qs s Ho Hn Hl.
  { destruct Ho. cbn in Hl. lia. }
  destruct Ho as [p nd qss Hp Hqs]. apply NoDup_cons in Hn as [Hpn Hn]. rewrite (free_node_unfold _ _ _ nd Hp).
  cbn [length] in Hl.
  rewrite (free_slaves fuel) with (qss := qss) by (done || lia). cbn [mbind option_bind].
  unfold freed, upd_heap. cbn [s_cc s_heap s_world s_allocs s_cmd_id s_events upd_world foldl].
  unfold close_node at 3. by rewrite Hp.
Qed.

Lemma freeNode_ok p qs s : owns (s_heap s) p qs -> NoDup qs -> freeRedisClusterNode p s = Some (freed qs s).
Proof.
  intros Ho Hn. apply free_node_ok; [done|done|]. pose proof (owns_in _ _ _ Ho) as Hin.
  assert (length qs <= size (s_heap s))%nat; [|lia].
  rewrite <- size_dom, <- (size_list_to_set (C := gset loc) qs) by done. apply subseteq_size.
  intros q Hq%elem_of_list_to_set. rewrite Forall_forall in Hin. by apply elem_of_dom, Hin.
Qed.

(** What a dict of nodes owns. *)
Definition dict_owns s (d : dict bytes loc) (qs : list loc) : Prop :=
  nodes_ok (W := W) d /\ forest (s_heap s) (dict_pairs d).*2 qs.

Lemma release_pairs (es : list (bytes * loc)) : forall s qss, Forall2 (owns (s_heap s)) es.*2 qss -> NoDup (concat qss) ->
  fold_left (flip (dictFreeEntry clusterNodesDictType)) es (Some s) = Some (freed (concat qss) s).
Proof.
  induction es as [|[k p] es IH]; intros s qss Hf Hn; cbn [fmap list_fmap snd] in Hf.
  { apply Forall2_nil_inv_l in Hf as ->. cbn. by rewrite freed_nil. }
  apply Forall2_cons_inv_l in Hf as (qs & qss' & Ho & Hf & ->). cbn [concat] in *.
  pose proof Hn as (Hn1 & Hd & Hn2)%NoDup_app. cbn [fold_left flip].
  unfold dictFreeEntry at 2. cbn [keyDestructor valDestructor clusterNodesDictType snd mbind option_bind].
  rewrite (freeNode_ok p qs) by done. rewrite (IH _ qss'); [by rewrite freed_app| |done].
  apply owns_list_delete; [done|]. intros q Hq1 Hq2. by apply (Hd q).
Qed.

Lemma m_dictRelease_ok {L} s d qs : dict_owns s d qs -> NoDup qs ->
  m_dictRelease (L := L) d s = (freed qs s, Normal ()).
Proof.
  intros ([Hwf Hs] & qss & Hf & ->) Hn. unfold m_dictRelease. unfold dict_small in Hs.
  rewrite dictRelease_ok by (done || lia). by rewrite (release_pairs _ _ qss).
Qed.
End Free.
