(* ===== verification/TopoProps.v ===== *)
(** * Properties of the slot table

    [updateNodesAndSlotmap] installs a dict of nodes exactly when their slot ranges are
    valid and disjoint, and then the table is the one the ranges describe. *)
From S2P Require Import Prelude Hiutil Crc16 Dict Goto Hiredis Context Sds Nodes Topology NodeProps Ownership.

(** ** The table of slot ranges *)

(** The slots of the ranges of nodes, in order, each with its node. *)
Definition slot_pairs (p : loc) (slot : cluster_slot) : list (Z * loc) :=
  (fun i => (i, p)) <$> seqZ (sl_start slot) (sl_end slot - sl_start slot + 1).
Definition node_pairs (p : loc) (slots : list cluster_slot) : list (Z * loc) := concat (slot_pairs p <$> slots).
Definition node_slots (nd : redisClusterNode) : list cluster_slot := default [] (n_slots nd).
Definition all_pairs (h : nheap) (ps : list loc) : list (Z * loc) :=
  concat ((fun p => node_pairs p (default [] (node_slots <$> h !! p))) <$> ps).

Definition range_ok (slot : cluster_slot) : Prop := sl_start slot <= sl_end slot < REDIS_CLUSTER_SLOTS.
Definition master_ok (h : nheap) (p : loc) : Prop := exists nd, h !! p = Some nd /\
  n_role nd = REDIS_ROLE_MASTER /\ Forall range_ok (node_slots nd).

(** What a slot map has to satisfy: masters with valid ranges, no slot twice. *)
Definition slotmap_ok (h : nheap) (ps : list loc) : Prop :=
  Forall (master_ok h) ps /\ NoDup (all_pairs h ps).*1.

#[global] Instance range_ok_dec slot : Decision (range_ok slot).
Proof. unfold range_ok. apply _. Defined.
#[global] Instance master_ok_dec h p : Decision (master_ok h p).
Proof.
  destruct (h !! p) as [nd|] eqn:E.
  - destruct (decide (n_role nd = REDIS_ROLE_MASTER /\ Forall range_ok (node_slots nd))) as [Hd|Hd].
    + left. by exists nd.
    + right. intros (nd' & E' & Hn). apply Hd. congruence.
  - right. intros (nd' & E' & _). congruence.
Defined.
#[global] Instance slotmap_ok_dec h ps : Decision (slotmap_ok h ps).
Proof. unfold slotmap_ok. apply _. Defined.

(** A node has the slot in one of its ranges. *)
Definition has_slot (h : nheap) (p : loc) (i : Z) : Prop := exists nd slot,
  h !! p = Some nd /\ slot ∈ node_slots nd /\ sl_start slot <= i <= sl_end slot.

Lemma all_pairs_has h ps i p : (i, p) ∈ all_pairs h ps <-> p ∈ ps /\ has_slot h p i.
Proof.
  unfold all_pairs, has_slot. induction ps as [|q ps IH]; cbn [fmap list_fmap concat].
  - split; [by intros Hn%elem_of_nil|]. by intros [Hn%elem_of_nil _].
  - rewrite elem_of_app, IH, elem_of_cons. unfold node_pairs at 1.
    assert (Hn : forall slots, (i, p) ∈ concat (slot_pairs q <$> slots) <->
      p = q /\ exists slot, slot ∈ slots /\ sl_start slot <= i <= sl_end slot).
    { clear IH. induction slots as [|sl slots IHs]; cbn [fmap list_fmap concat].
      - split; [by intros Hn%elem_of_nil|]. intros (_ & sl & Hn%elem_of_nil & _). done.
      - rewrite elem_of_app, IHs. unfold slot_pairs. rewrite list_elem_of_fmap. split.
        + intros [(j & [= -> ->] & Hj%elem_of_seqZ)|(-> & sl' & ? & ?)].
          * split; [done|]. exists sl. split; [left|lia].
          * split; [done|]. exists sl'. split; [by right|done].
        + intros (-> & sl' & [->|Hs]%elem_of_cons & Hr).
          * left. exists i. split; [done|]. apply elem_of_seqZ. lia.
          * right. split; [done|]. by exists sl'. }
    rewrite Hn. split.
    + intros [(-> & sl & Hs & Hr)|[? ?]]; [|by split; [right|]].
      split; [by left|]. destruct (h !! q) as [nd|]; [|by apply elem_of_nil in Hs]. by exists nd, sl.
    + intros [[->|Hp] (nd & sl & Hq & Hs & Hr)].
      * left. split; [done|]. exists sl. by rewrite Hq.
      * right. split; [done|]. by exists nd, sl.
Qed.

(** Entering pairs in a table, none of them over another. *)
Fixpoint insert_all (l : list (Z * loc)) (t : gmap Z loc) : option (gmap Z loc) :=
  match l with
  | [] => Some t
  | (i, p) :: l' => match t !! i with Some _ => None | None => insert_all l' (<[i := p]> t) end
  end.

Lemma insert_all_app l1 l2 t : insert_all (l1 ++ l2) t = insert_all l1 t ≫= insert_all l2.
Proof. revert t. induction l1 as [|[i p] l1 IH]; intros t; [done|]. cbn. by destruct (t !! i). Qed.

Lemma insert_all_spec l t t' : insert_all l t = Some t' <->
  NoDup l.*1 /\ (forall i, i ∈ l.*1 -> t !! i = None) /\ t' = list_to_map l ∪ t.
Proof.
  revert t. induction l as [|[i p] l IH]; intros t; cbn.
  - rewrite map_empty_union. split; [intros [= <-]|intros (_ & _ & ->)]; [|done]. split; [apply NoDup_nil_2|].
    split; [|done]. by intros i Hi%elem_of_nil.
  - rewrite NoDup_cons. destruct (t !! i) eqn:Ei.
    + split; [done|]. intros (_ & Hn & _). rewrite (Hn i) in Ei by left. done.
    + rewrite IH. rewrite <- insert_union_l. split.
      * intros (Hnd & Hn & ->).
        assert (Hi : i ∉ l.*1) by (intros Hi; specialize (Hn i Hi); by rewrite lookup_insert_eq in Hn).
        split; [done|]. split.
        -- intros j [->|Hj]%elem_of_cons; [done|]. specialize (Hn j Hj). by apply lookup_insert_None in Hn as [? _].
        -- rewrite insert_union_r; [done|]. by apply not_elem_of_list_to_map_1.
      * intros ([Hi Hnd] & Hn & ->). split; [done|]. split.
        -- intros j Hj. rewrite lookup_insert_ne by (intros ->; done). apply Hn. by right.
        -- rewrite insert_union_r; [done|]. by apply not_elem_of_list_to_map_1.
Qed.

Lemma fill_range_all n : forall i p t, fill_range n i p t = insert_all ((fun j => (j, p)) <$> seqZ i (Z.of_nat n)) t.
Proof.
  induction n as [|n IH]; intros i p t; [done|]. cbn [fill_range]. rewrite seqZ_cons by lia.
  cbn [fmap list_fmap insert_all]. replace (Z.pred (Z.of_nat (S n))) with (Z.of_nat n) by lia.
  replace (Z.succ i) with (i + 1) by lia. by rewrite IH.
Qed.

Lemma fill_slots_all slots p : forall t t', fill_slots slots p t = inr t' <->
  Forall range_ok slots /\ insert_all (node_pairs p slots) t = Some t'.
Proof.
  induction slots as [|slot slots IH]; intros t t'.
  { cbn. split; [by intros [= ->]|]. by intros [_ [= ->]]. }
  cbn [fill_slots]. unfold node_pairs. cbn [fmap list_fmap concat]. rewrite Forall_cons, insert_all_app.
  destruct (_ || _) eqn:E.
  - split; [done|]. intros [[Hr _] _]. unfold range_ok in Hr. lia.
  - rewrite fill_range_all. replace (Z.of_nat (Z.to_nat _)) with (sl_end slot - sl_start slot + 1) by lia.
    fold (slot_pairs p slot). destruct (insert_all (slot_pairs p slot) t) as [t1|]; cbn; [|by split; intros; destruct_and?].
    rewrite IH. unfold range_ok at 2. split; [intros [? ?]|intros [[? ?] ?]]; split_and?; done || lia.
Qed.

Lemma fill_table_all h (es : list (bytes * loc)) : forall t t', fill_table h es t = Some (inr t') <->
  Forall (master_ok h) es.*2 /\ insert_all (all_pairs h es.*2) t = Some t'.
Proof.
  induction es as [|[k p] es IH]; intros t t'.
  { cbn. split; [by intros [= ->]|]. by intros [_ [= ->]]. }
  cbn [fill_table fmap list_fmap snd]. unfold all_pairs. cbn [fmap list_fmap concat]. rewrite Forall_cons, insert_all_app.
  unfold master_ok at 1. destruct (h !! p) as [nd|]; cbn [mbind option_bind]; [|by split; [done|intros [[(? & ? & _) _] _]]].
  destruct (n_role nd =? REDIS_ROLE_MASTER) eqn:Er; cbn [negb].
  - apply Z.eqb_eq in Er. fold (node_slots nd). pose proof (fill_slots_all (node_slots nd) p t) as Hs.
    change (default [] (node_slots <$> Some nd)) with (node_slots nd). destruct (fill_slots (node_slots nd) p t) as [e|t1].
    + split; [done|]. intros [[(nd' & [= <-] & _ & Hr) _] Hi]. apply bind_Some in Hi as (t1 & Hi & _).
      by discriminate (proj2 (Hs t1) (conj Hr Hi)).
    + destruct (proj1 (Hs t1) eq_refl) as [Hr Hi]. rewrite Hi. cbn [mbind option_bind]. rewrite IH. split.
      * intros [? ?]. split; [|done]. split; [|done]. by exists nd.
      * by intros [[_ ?] ?].
  - apply Z.eqb_neq in Er. split; [done|]. intros [[(nd' & [= <-] & ? & _) _] _]. done.
Qed.

Lemma fill_table_ok h (es : list (bytes * loc)) t : fill_table h es ∅ = Some (inr t) <->
  slotmap_ok h es.*2 /\ t = list_to_map (all_pairs h es.*2).
Proof.
  rewrite fill_table_all, insert_all_spec, map_union_empty. unfold slotmap_ok. split.
  - by intros (? & ? & _ & ->).
  - by intros [[? ?] ->].
Qed.

Lemma fill_table_defined h (es : list (bytes * loc)) : forall t, Forall (fun p => is_Some (h !! p)) es.*2 ->
  is_Some (fill_table h es t).
Proof.
  induction es as [|[k p] es IH]; intros t Hf; cbn [fill_table]; [by eexists|].
  apply Forall_cons in Hf as [[nd Hp] Hf]. cbn in Hp. rewrite Hp. cbn [mbind option_bind].
  destruct (negb _); [by eexists|]. destruct (fill_slots _ _ _) as [e|t1]; [by eexists|]. by apply IH.
Qed.

(** ** Moving connections to the new nodes *)

(** Everything of a node but its connections. *)
Definition erase_conns (nd : redisClusterNode) : redisClusterNode := n_set_con None None nd.

Definition or_else {A} (a b : option A) : option A := match a with Some _ => a | None => b end.
Definition and_then {A} (a b : option A) : option A := match a with Some _ => b | None => None end.

(** What the new node gets from the old one, and the old one in exchange. *)
Definition given (f t : redisClusterNode) : redisClusterNode :=
  n_set_con (or_else (n_con f) (n_con t)) (or_else (n_acon f) (n_acon t)) t.
Definition taken (f t : redisClusterNode) : redisClusterNode :=
  n_set_con (and_then (n_con f) (n_con t)) (and_then (n_acon f) (n_acon t)) f.

Definition swap_heap (node_f node_t : loc) (h : nheap) : nheap :=
  match h !! node_f, h !! node_t with
  | Some f, Some t => <[node_t := given f t]> (<[node_f := taken f t]> h)
  | _, _ => h
  end.

Fixpoint swap_all (old : gmap bytes loc) (es : list (bytes * loc)) (h : nheap) : nheap :=
  match es with
  | [] => h
  | (k, t) :: rest => swap_all old rest (match old !! k with Some f => swap_heap f t h | None => h end)
  end.

Lemma swap_heap_other f t h p : p ≠ f -> p ≠ t -> swap_heap f t h !! p = h !! p.
Proof. intros Hf Ht. unfold swap_heap. destruct (h !! f), (h !! t); try done. by rewrite !lookup_insert_ne. Qed.

Lemma swap_heap_erase f t h : f ≠ t -> erase_conns <$> swap_heap f t h = erase_conns <$> h.
Proof.
  intros Hne. unfold swap_heap. destruct (h !! f) as [nf|] eqn:Ef; [|done]. destruct (h !! t) as [nt|] eqn:Et; [|done].
  rewrite !fmap_insert. change (erase_conns (given nf nt)) with (erase_conns nt).
  change (erase_conns (taken nf nt)) with (erase_conns nf).
  rewrite (insert_id _ f) by (by rewrite lookup_fmap, Ef). apply insert_id. by rewrite lookup_fmap, Et.
Qed.

Lemma erase_lookup (h h' : nheap) p : erase_conns <$> h' = erase_conns <$> h ->
  erase_conns <$> h' !! p = erase_conns <$> h !! p.
Proof. intros E. rewrite <- !lookup_fmap. by rewrite E. Qed.

Lemma erase_owned (h h' : nheap) : erase_conns <$> h' = erase_conns <$> h ->
  forall q nd, h !! q = Some nd -> exists nd', h' !! q = Some nd' /\ owned_slaves nd' = owned_slaves nd.
Proof.
  intros E q nd Hq. apply (erase_lookup _ _ q) in E. rewrite Hq in E. cbn in E.
  destruct (h' !! q) as [nd'|]; [|done]. exists nd'. split; [done|]. apply (f_equal (fmap n_slaves)) in E.
  injection E as E. unfold owned_slaves. by rewrite E.
Qed.

Section Swap.
Context {W : Type} `{HiredisOps W} {sds : SdsOps} {L : Type}.
Implicit Types (st : cstate W).

(** The same state with another heap and world. *)
Definition with_heap (h : nheap) (w : W) st : cstate W := upd_heap (fun _ => h) (upd_world (fun _ => w) st).

Lemma with_heap_id st : with_heap (s_heap st) (s_world st) st = st.
Proof. by destruct st. Qed.

(** A state with two nodes of its heap replaced: reading and writing them. *)
Section Two.
Context (f t : loc) (Hne : f ≠ t).

Definition two (nf nt : redisClusterNode) st : cstate W := upd_heap (<[t := nt]>) (upd_heap (<[f := nf]>) st).

Lemma two_start st nf nt : s_heap st !! f = Some nf -> s_heap st !! t = Some nt -> st = two nf nt st.
Proof.
  intros Hf Ht. unfold two, upd_heap. cbn. rewrite (insert_id _ f) by done. rewrite insert_id by done. by destruct st.
Qed.
Lemma two_get_f {A} (k : redisClusterNode -> G (cstate W) L A) nf nt st :
  (get_node f ≫= k) (two nf nt st) = k nf (two nf nt st).
Proof. unfold mbind, g_bind, get_node, two. cbn. by rewrite lookup_insert_ne, lookup_insert_eq. Qed.
Lemma two_get_t {A} (k : redisClusterNode -> G (cstate W) L A) nf nt st :
  (get_node t ≫= k) (two nf nt st) = k nt (two nf nt st).
Proof. unfold mbind, g_bind, get_node, two. cbn. by rewrite lookup_insert_eq. Qed.
Lemma two_put_f {A} g (k : () -> G (cstate W) L A) nf nt st :
  (put_node f g ≫= k) (two nf nt st) = k () (two (g nf) nt st).
Proof.
  unfold two. erewrite gbind_normal; [|apply put_node_ok; cbn; by rewrite lookup_insert_ne, lookup_insert_eq].
  f_equal. unfold upd_heap. cbn. f_equal. rewrite insert_insert_ne by done. by rewrite insert_insert_eq.
Qed.
Lemma two_put_t {A} g (k : () -> G (cstate W) L A) nf nt st :
  (put_node t g ≫= k) (two nf nt st) = k () (two nf (g nt) st).
Proof.
  unfold two. erewrite gbind_normal; [|apply put_node_ok; cbn; by rewrite lookup_insert_eq].
  f_equal. unfold upd_heap. cbn. f_equal. by rewrite insert_insert_eq.
Qed.
Lemma two_world {A} g (k : () -> G (cstate W) L A) nf nt st :
  (world g ≫= k) (two nf nt st) = k () (two nf nt (upd_world g st)).
Proof. done. Qed.

Lemma two_swapped st nf nt w : s_heap st !! f = Some nf -> s_heap st !! t = Some nt ->
  two (taken nf nt) (given nf nt) (upd_world w st) = with_heap (swap_heap f t (s_heap st)) (w (s_world st)) st.
Proof. intros Hf Ht. unfold swap_heap. by rewrite Hf, Ht. Qed.
End Two.

Lemma gbind_ret_r {A} (m : G (cstate W) L A) st : (m ≫= (fun a => mret a)) st = m st.
Proof. unfold mbind, g_bind. by destruct (m st) as [s' []]. Qed.

Lemma swap_ctx_ok st f t nf nt : f ≠ t -> s_heap st !! f = Some nf -> s_heap st !! t = Some nt ->
  exists w, swap_ctx (L := L) f t st = (with_heap (swap_heap f t (s_heap st)) w st, Normal ()).
Proof.
  intros Hne Hf Ht. pose proof (two_swapped f t st nf nt) as Hs.
  enough (exists g, swap_ctx (L := L) f t (two f t nf nt st) = (two f t (taken nf nt) (given nf nt) (upd_world g st), Normal ())) as [g Hg].
  { exists (g (s_world st)). rewrite <- (two_start f t st nf nt Hf Ht), Hs in Hg by done. done. }
  clear Hs. rewrite <- (gbind_ret_r (swap_ctx f t)). unfold swap_ctx, taken, given. rewrite !gbind_assoc, (two_get_f f t Hne).
  destruct nf as [nm ad ho po ro fa con acon la sl sv mi im]. destruct con as [c|]; destruct acon as [ac|];
    cbn [or_else and_then n_con n_acon].
  all: destruct nt as [nm' ad' ho' po' ro' fa' con' acon' la' sl' sv' mi' im'];
    repeat (first [rewrite gbind_assoc | rewrite (two_get_f f t Hne) | rewrite (two_get_t f t) | rewrite (two_put_f f t Hne)
      | rewrite (two_put_t f t) | rewrite (two_world f t) | rewrite gbind_ret]; cbn [n_con n_acon n_set_con]).
  - destruct acon' as [ac'|]; [exists (fun w => set_acon_data (set_acon_data w ac (Some t)) ac' (Some f))|
      exists (fun w => set_acon_data w ac (Some t))]; by rewrite gbind_ret_r.
  - by exists id; destruct st.
  - destruct acon' as [ac'|]; [exists (fun w => set_acon_data (set_acon_data w ac (Some t)) ac' (Some f))|
      exists (fun w => set_acon_data w ac (Some t))]; by rewrite gbind_ret_r.
  - by exists id; destruct st.
Qed.
End Swap.

(** What [cluster_nodes_swap_ctx] needs: the entries are new nodes under their own
    addresses, the old nodes are others, each under one address. *)
Record swappable (h : nheap) (old : gmap bytes loc) (es : list (bytes * loc)) : Prop := {
  sw_keys : NoDup es.*1;
  sw_nodes : NoDup es.*2;
  sw_addr : Forall (fun e => exists nt, h !! e.2 = Some nt /\ n_addr nt = Some e.1) es;
  sw_old : forall k f, old !! k = Some f -> is_Some (h !! f) /\ f ∉ es.*2;
  sw_inj : forall k k' f, old !! k = Some f -> old !! k' = Some f -> k = k'
}.

Lemma swap_all_other old es : forall h p, p ∉ es.*2 -> (forall k f, k ∈ es.*1 -> old !! k = Some f -> p ≠ f) ->
  swap_all old es h !! p = h !! p.
Proof.
  induction es as [|[k t] es IH]; intros h p Hp Hk; [done|]. cbn [swap_all].
  cbn in Hp. apply not_elem_of_cons in Hp as [Hpt Hp].
  rewrite IH; [|done|intros k' f Hk'; apply Hk; by right].
  destruct (old !! k) as [f|] eqn:Ef; [|done]. apply swap_heap_other; [|done]. apply (Hk k); [left|done].
Qed.

Lemma swap_all_erase old es : forall h, (forall k f, old !! k = Some f -> f ∉ es.*2) ->
  erase_conns <$> swap_all old es h = erase_conns <$> h.
Proof.
  induction es as [|[k t] es IH]; intros h Ho; [done|]. cbn [swap_all]. rewrite IH.
  - destruct (old !! k) as [f|] eqn:Ef; [|done]. apply swap_heap_erase. intros ->. apply (Ho k t Ef). left.
  - intros k' f Hf Hin. apply (Ho k' f Hf). by right.
Qed.

Lemma swappable_tail h h' old k t es : swappable h old ((k, t) :: es) -> erase_conns <$> h' = erase_conns <$> h ->
  swappable h' old es.
Proof.
  intros [H1 H2 H3 H4 H5] E. cbn in *. apply NoDup_cons in H1 as [_ H1]. apply NoDup_cons in H2 as [_ H2].
  apply Forall_cons in H3 as [_ H3]. split; try done.
  - apply (Forall_impl _ _ _ H3). intros [k' t'] (nt & Ht & Ha). pose proof (erase_lookup _ _ t' E) as Hl.
    cbn in *. rewrite Ht in Hl. destruct (h' !! t') as [nt'|]; [|done]. exists nt'. split; [done|].
    apply (f_equal (fmap n_addr)) in Hl. injection Hl as ->. done.
  - intros k' f Hf. destruct (H4 k' f Hf) as [[nf Hnf] Hn]. split.
    + pose proof (erase_lookup _ _ f E) as Hl. rewrite Hnf in Hl. destruct (h' !! f); [by eexists|done].
    + intros Hin. apply Hn. by right.
Qed.

Lemma swap_step_erase h old k t es : swappable h old ((k, t) :: es) ->
  erase_conns <$> (match old !! k with Some f => swap_heap f t h | None => h end) = erase_conns <$> h.
Proof.
  intros Hs. destruct (old !! k) as [f|] eqn:Ef; [|done]. apply swap_heap_erase. intros ->.
  destruct (sw_old _ _ _ Hs k t Ef) as [_ Hn]. apply Hn. left.
Qed.

(** Each new node ends with the connections of the old node of its address. *)
Lemma swap_all_new old es : forall h k t nt, swappable h old es -> (k, t) ∈ es -> h !! t = Some nt ->
  swap_all old es h !! t = Some (match old !! k ≫= (fun f => h !! f) with Some nf => given nf nt | None => nt end).
Proof.
  induction es as [|[k0 t0] es IH]; intros h k t nt Hs Hin Ht; [by apply elem_of_nil in Hin|].
  pose proof (swappable_tail _ _ _ _ _ _ Hs (swap_step_erase _ _ _ _ _ Hs)) as Hs'. pose proof Hs as [H1 H2 _ H4 H5].
  cbn [swap_all]. cbn in H1, H2, H4. apply NoDup_cons in H1 as [Hk0 H1]. apply NoDup_cons in H2 as [Ht0 H2].
  apply elem_of_cons in Hin as [[= -> ->]|Hin].
  - rewrite swap_all_other; [|done|].
    + destruct (old !! k0) as [f|] eqn:Ef; [|done]. cbn [mbind option_bind]. unfold swap_heap. rewrite Ht.
      destruct (h !! f) as [nf|]; [|done]. by rewrite lookup_insert_eq.
    + intros k' f Hk' Hf ->. destruct (H4 k' f Hf) as [_ Hn]. apply Hn. left.
  - assert (Hke : k ∈ es.*1) by (apply list_elem_of_fmap; by exists (k, t)).
    assert (Hte : t ∈ es.*2) by (apply list_elem_of_fmap; by exists (k, t)).
    assert (Hkeep : forall p, p ≠ t0 -> (forall f, old !! k0 = Some f -> p ≠ f) ->
      (match old !! k0 with Some f => swap_heap f t0 h | None => h end) !! p = h !! p).
    { intros p Hp Hf. destruct (old !! k0) as [f|]; [|done]. apply swap_heap_other; [by apply Hf|done]. }
    rewrite (IH _ k t nt Hs' Hin).
    + f_equal. destruct (old !! k) as [f|] eqn:Ef; [|done]. cbn [mbind option_bind]. rewrite Hkeep; [done| |].
      * intros ->. destruct (H4 k t0 Ef) as [_ Hn]. apply Hn. left.
      * intros f' Hf' ->. by rewrite (H5 k k0 f' Ef Hf') in Hke.
    + rewrite Hkeep; [done| |].
      * by intros ->.
      * intros f Hf ->. destruct (H4 k0 f Hf) as [_ Hn]. apply Hn. by right.
Qed.

Section SwapLoop.
Context {W : Type} `{HiredisOps W} {sds : SdsOps} {L : Type}.
Implicit Types (st : cstate W).

Lemma swap_ctx_loop_ok (d : dict bytes loc) es : nodes_ok (W := W) d -> forall st, swappable (s_heap st) (to_map d) es ->
  exists w, swap_ctx_loop (L := L) d es st = (with_heap (swap_all (to_map d) es (s_heap st)) w st, Normal ()).
Proof.
  intros Hd. induction es as [|[k t] es IH]; intros st Hs.
  { exists (s_world st). cbn. by rewrite with_heap_id. }
  cbn [swap_ctx_loop swap_all]. pose proof (sw_addr _ _ _ Hs) as ((nt & Ht & Ha) & _)%Forall_cons. cbn in Ht, Ha.
  erewrite gbind_normal; [|unfold get_node; rewrite Ht; reflexivity]. rewrite Ha. cbn [gdef]. rewrite gbind_ret.
  rewrite (gbind_normal _ _ _ _ _ (m_dictFind_ok st d k Hd)).
  pose proof (swap_step_erase _ _ _ _ _ Hs) as He. pose proof (swappable_tail _ _ _ _ _ _ Hs He) as Hs'.
  destruct (to_map d !! k) as [f|] eqn:Ef.
  - destruct (sw_old _ _ _ Hs k f Ef) as [[nf Hf] Hn].
    destruct (swap_ctx_ok (L := L) st f t nf nt) as [w Hw]; [intros ->; apply Hn; left|done|done|].
    rewrite (gbind_normal _ _ _ _ _ Hw). destruct (IH (with_heap (swap_heap f t (s_heap st)) w st) Hs') as [w' Hw'].
    exists w'. by rewrite Hw'.
  - rewrite gbind_ret. by apply IH.
Qed.
End SwapLoop.
