(* ===== verification/Script.v ===== *)
(** * A scripted cluster, for the examples

    Instances of the hiredis operations for closed examples: every connection works,
    and the replies come from a script, one for each [redisGetReply].  At the end of
    the script, and at a reply that the cluster of the example does not send, the connection
    is lost. *)
From S2P Require Import Prelude Dict Goto Hiredis Cmddef Command Context Sds Nodes NodeProps.

(** A network that works: every connection is made and healthy.  How a command is sent and a reply is
    received are parameters. *)
Definition working {W} (append : W -> conn -> bytes -> W * Z) (reply : W -> conn -> W * (Z * option redisReply)) : HiredisOps W := {|
  redisConnectWithOptions := fun w _ _ _ _ => (w, Some 9%positive);
  redisReconnect := fun w _ => w;
  redisFree := fun w _ => w;
  ctx_err := fun _ _ => 0;
  ctx_errstr := fun _ _ => [];
  ctx_tcp_host := fun _ _ => Some (str "h");
  ssl_init_fn := fun w _ => (w, REDIS_OK);
  redisCommand := fun w _ _ => (w, Some (REDIS_REPLY_STATUS (str "OK")));
  redisAppendCommand := fun w c args => append w c (fmt_cmd args);
  redisAppendFormattedCommand := append;
  redisBufferWrite := fun w _ => (w, (REDIS_OK, true));
  redisGetReply := reply;
  redisSetTimeout := fun w _ _ => w;
  redisAsyncSetTimeout := fun w _ _ => w;
  redisAsyncFree := fun w _ => w;
  set_acon_data := fun w _ _ => w
|}.

Definition scripted (sends : redisReply -> bool) : HiredisOps (list redisReply) :=
  working (fun w _ _ => (w, REDIS_OK)) (fun w _ =>
    match w with
    | r :: w' => if sends r then (w', (REDIS_OK, Some r)) else ([], (REDIS_ERR, None))
    | [] => ([], (REDIS_ERR, None))
    end).
#[export] Instance script_ops : HiredisOps (list redisReply) := scripted (fun _ => true).
#[export] Existing Instance sds_ref.

(** Two masters with open connections, which serve slots 0 and 1. *)
Definition ex_node (port : Z) (c : conn) : redisClusterNode :=
  mkClusterNode None (Some (str "h:" ++ dec port)) (Some (str "h")) port REDIS_ROLE_MASTER 0 (Some c) None 0
    None None None None.

Definition ex_add (key : bytes) (p : loc) (d : dict bytes loc) : dict bytes loc :=
  default d (fst <$> dictAdd (clusterNodesDictType (W := list redisReply)) true true d key p).
Definition ex_nodes : dict bytes loc :=
  ex_add (str "h:2") 2%positive (ex_add (str "h:1") 1%positive dictReset).

Definition ex_cluster (script : list redisReply) : cstate (list redisReply) :=
  mkState (cc_set_nodes (Some ex_nodes) (cc_set_route 1 (Some {[0 := 1%positive; 1 := 2%positive]}) cc_init))
    {[1%positive := ex_node 1 1; 2%positive := ex_node 2 2]} script [] 0 [].

(** A formatted command for a slot. *)
Definition ex_command (slot : Z) : cmd := set_slot (set_cmd (ex_cmd []) (Some (str "PING")) 4) slot None.

Lemma ex_add_ok key p d : nodes_ok (W := list redisReply) d -> d_used d < 2 ^ 28 -> nodes_ok (W := list redisReply) (ex_add key p d).
Proof.
  intros [Hwf Hs] Hd. unfold ex_add.
  destruct (dictAdd_ok _ true true d key p Hwf Hs) as (d' & r & E & Hwf' & Hr). rewrite E. split; [done|].
  unfold dict_small. cbn. rewrite (to_map_size _ _ Hwf').
  assert (size (to_map d') <= S (size (to_map d)))%nat.
  { destruct Hr as [(_ & Hk & ->)|(_ & -> & _)]; [|lia]. by rewrite map_size_insert_None. }
  pose proof (to_map_size _ d Hwf). lia.
Qed.

Lemma ex_add_map key p d : nodes_ok (W := list redisReply) d -> to_map d !! key = None ->
  to_map (ex_add key p d) = <[key := p]> (to_map d).
Proof.
  intros [Hwf Hs] Hk. unfold ex_add. destruct (dictAdd_ok _ true true d key p Hwf Hs) as (d' & r & E & _ & Hr). rewrite E. change (to_map d' = <[key := p]> (to_map d)).
  by destruct Hr as [(_ & _ & ->)|(_ & _ & [|[|[x Hx]]])]; [|done|done|congruence].
Qed.

Lemma ex_empty_ok : nodes_ok (W := list redisReply) dictReset.
Proof. split; [apply dictReset_wf | done]. Qed.

Lemma ex_nodes_map : to_map ex_nodes = {[str "h:2" := 2%positive; str "h:1" := 1%positive]}.
Proof.
  unfold ex_nodes. rewrite ex_add_map; [rewrite ex_add_map; [done|apply ex_empty_ok|done]|by apply ex_add_ok; [apply ex_empty_ok|]|].
  rewrite ex_add_map; [by rewrite lookup_insert_ne|apply ex_empty_ok|done].
Qed.

Lemma ex_nodes_ok : nodes_ok (W := list redisReply) ex_nodes.
Proof.
  apply ex_add_ok; [apply ex_add_ok|]; try done. apply ex_empty_ok.
Qed.
