(* ===== verification/SlotMap.v ===== *)
(** * Installing a new slot map

    [updateNodesAndSlotmap] as a transaction: a dict of new nodes is installed with its
    table, or everything stays as it was and the new nodes are freed. *)
From S2P Require Import Prelude Hiutil Crc16 Dict Goto Hiredis Context Sds Nodes Topology Route Options NodeProps Ownership TopoProps Script.

Lemma owns_root h p qs : owns h p qs -> p ∈ qs.
Proof. intros []. left. Qed.

(** The roots of a forest are among its nodes, and distinct when these are. *)
Lemma forest_roots h ps qs : forest h ps qs -> NoDup qs -> NoDup ps /\ forall p, p ∈ ps -> p ∈ qs.
Proof.
  intros (qss & Hf & ->). induction Hf as [|p qs ps qss Ho Hf IH]; intros Hn.
  { split; [apply NoDup_nil_2|]. by intros p Hp%elem_of_nil. }
  cbn in Hn. apply NoDup_app in Hn as (Hn1 & Hd & Hn2). destruct (IH Hn2) as [H1 H2]. split.
  - apply NoDup_cons. split; [|done]. intros Hp. apply (Hd p); [by apply (owns_root h)|by apply H2].
  - intros q [->|Hq]%elem_of_cons; apply elem_of_app; [left; by apply (owns_root h)|right; by apply H2].
Qed.

Lemma forest_in h ps qs : forest h ps qs -> Forall (fun q => is_Some (h !! q)) qs.
Proof.
  intros (qss & Hf & ->). apply Forall_concat. induction Hf; constructor; [by apply (owns_in h x)|done].
Qed.

Section SlotMap.
Context {W : Type} `{HiredisOps W} {sds : SdsOps} {L : Type}.
Implicit Types (st : cstate W).

Lemma to_map_pairs (d : dict bytes loc) k p : nodes_ok (W := W) d ->
  to_map d !! k = Some p <-> (k, p) ∈ dict_pairs d.
Proof. intros [(_ & Hn & _) _]. symmetry. by apply elem_of_list_to_map. Qed.

(** The new nodes and the installed ones own disjoint parts of the heap, and each new
    node is under its own address. *)
Record installable st (new : dict bytes loc) (qs_old qs_new : list loc) : Prop := {
  in_new : dict_owns st new qs_new;
  in_old : match cc_nodes (s_cc st) with Some d => dict_owns st d qs_old | None => qs_old = [] end;
  in_disjoint : NoDup (qs_old ++ qs_new);
  in_addr : Forall (fun e => exists nt, s_heap st !! e.2 = Some nt /\ n_addr nt = Some e.1) (dict_pairs new)
}.

(** Whether the next allocation succeeds, and the state after it. *)
Definition alloc_next st : bool := default true (head (s_allocs st)).
Definition after_alloc st : cstate W := upd_allocs tail st.

Lemma alloc_run st : alloc (L := L) st = (after_alloc st, Normal (alloc_next st)).
Proof. done. Qed.

Lemma after_no_allocs st : s_allocs st = [] -> after_alloc st = st /\ alloc_next st = true.
Proof. unfold after_alloc, upd_allocs, alloc_next. destruct st. cbn. by intros ->. Qed.

Lemma installable_swap st new qs_old qs_new d : installable st new qs_old qs_new -> cc_nodes (s_cc st) = Some d ->
  swappable (s_heap st) (to_map d) (dict_pairs new).
Proof.
  intros [[Hno Hf] Ho Hd Ha] Ed. rewrite Ed in Ho. destruct Ho as [Hdo Hfo].
  apply NoDup_app in Hd as (Hn1 & Hd & Hn2).
  destruct (forest_roots _ _ _ Hf Hn2) as [Hr1 Hr2]. destruct (forest_roots _ _ _ Hfo Hn1) as [Ho1 Ho2].
  pose proof (forest_in _ _ _ Hfo) as Hin. rewrite Forall_forall in Hin.
  assert (Hold : forall k f, to_map d !! k = Some f -> (k, f) ∈ dict_pairs d /\ f ∈ (dict_pairs d).*2).
  { intros k f Hk%to_map_pairs; [|done]. split; [done|]. apply list_elem_of_fmap. by exists (k, f). }
  split; [by destruct Hno as [(_ & ? & _) _]|done|done| |].
  - intros k f Hk. destruct (Hold k f Hk) as [_ Hf2]. split; [by apply Hin, Ho2|].
    intros Hf3. apply (Hd f); [by apply Ho2|by apply Hr2].
  - intros k k' f Hk Hk'. destruct (Hold k f Hk) as [H1 _]. destruct (Hold k' f Hk') as [H2 _].
    apply list_elem_of_lookup in H1 as [i Hi]. apply list_elem_of_lookup in H2 as [j Hj].
    assert (i = j); [|congruence].
    apply (NoDup_lookup (dict_pairs d).*2 i j f Ho1); rewrite list_lookup_fmap; [by rewrite Hi|by rewrite Hj].
Qed.

Definition entries_of (new : dict bytes loc) : list loc := (dict_pairs new).*2.

(** The state before the old nodes are released: the table, the connections and the
    nodes are the new ones. *)
Definition installed (new : dict bytes loc) (h : nheap) (w : W) st : cstate W :=
  upd_cc (fun cc => cc_set_nodes (Some new) (cc_set_route (u64 (cc_route_version cc + 1))
    (Some (list_to_map (all_pairs (s_heap st) (entries_of new)))) cc)) (with_heap h w st).

Definition moved_heap (new : dict bytes loc) st : nheap :=
  match cc_nodes (s_cc st) with Some d => swap_all (to_map d) (dict_pairs new) (s_heap st) | None => s_heap st end.

Lemma moved_erase st new qs_old qs_new : installable st new qs_old qs_new ->
  erase_conns <$> moved_heap new st = erase_conns <$> s_heap st.
Proof.
  intros Hi. unfold moved_heap. destruct (cc_nodes (s_cc st)) as [d|] eqn:Ed; [|done].
  apply swap_all_erase. intros k f Hf. by apply (sw_old _ _ _ (installable_swap _ _ _ _ _ Hi Ed) k f).
Qed.

(** The notification of the user, and the end of a pending update. *)
Definition notified st : cstate W :=
  let cc := s_cc st in
  upd_cc (fun cc => cc_set_retry (cc_retry_count cc) 0 cc)
    (if cc_event_callback cc then
       let st := upd_events SLOTMAP_UPDATED st in if cc_route_version cc =? 1 then upd_events READY st else st
     else st).

(** The new table. *)
Definition tabled (new : dict bytes loc) st : cstate W :=
  upd_cc (fun cc => cc_set_route (u64 (cc_route_version cc + 1)) (Some (list_to_map (all_pairs (s_heap st) (entries_of new)))) cc) (after_alloc st).

Lemma updateNodes_swapped st new qs_old qs_new w : installable st new qs_old qs_new ->
  alloc_next st = true -> slotmap_ok (s_heap st) (entries_of new) ->
  cluster_nodes_swap_ctx (L := L) (cc_nodes (s_cc st)) (Some new) (tabled new st) = (with_heap (moved_heap new st) w (tabled new st), Normal ()) ->
  updateNodesAndSlotmap (L := L) (Some new) st =
    (notified (freed qs_old (installed new (moved_heap new st) w (after_alloc st))), Normal REDIS_OK).
Proof.
  intros Hi Hal Hok Hw. pose proof (moved_erase _ _ _ _ Hi) as He. pose proof Hi as [[[Hwf Hs] Hf] Ho Hd Ha].
  unfold updateNodesAndSlotmap. rewrite (gbind_normal _ _ _ _ _ (alloc_run st)), Hal. cbn [negb]. rewrite gbind_get.
  rewrite (dict_entries_ok _ new Hwf). cbn [gdef]. rewrite gbind_ret. change (s_heap (after_alloc st)) with (s_heap st).
  rewrite (proj2 (fill_table_ok (s_heap st) (dict_pairs new) _) (conj Hok eq_refl)). cbn [gdef]. rewrite gbind_ret.
  unfold mbind at 1, g_bind at 1, get_cc at 1. unfold mod_cc. rewrite gbind_modify.
  change (s_cc (after_alloc st)) with (s_cc st).
  change (upd_cc _ (after_alloc st)) with (tabled new st). set (st1 := tabled new st) in *.
  rewrite (gbind_normal _ _ _ _ _ Hw), gbind_modify.
  change (upd_cc (cc_set_nodes (Some new)) (with_heap (moved_heap new st) w st1))
    with (installed new (moved_heap new st) w (after_alloc st)).
  set (st2 := installed _ _ _ _).
  assert (Hrel : (match cc_nodes (s_cc st) with Some d => m_dictRelease d | None => mret () end : G (cstate W) L ()) st2 =
    (freed qs_old st2, Normal ())).
  { destruct (cc_nodes (s_cc st)) as [d|]; [|subst qs_old; by rewrite freed_nil].
    apply m_dictRelease_ok; [|by apply NoDup_app in Hd as [? _]]. destruct Ho as [Hdo Hfo]. split; [done|].
    apply (forest_frame (s_heap st)); [done|]. intros q nd Hq. by apply erase_owned. }
  rewrite (gbind_normal _ _ _ _ _ Hrel).
  unfold notified. set (st3 := freed qs_old st2). unfold mbind, g_bind, get_cc, emit, gmodify, gputs.
  destruct (cc_event_callback (s_cc st3)); [|done]. by destruct (cc_route_version (s_cc st3) =? 1).
Qed.

Lemma updateNodes_run st new qs_old qs_new : installable st new qs_old qs_new ->
  alloc_next st = true -> slotmap_ok (s_heap st) (entries_of new) ->
  exists w, updateNodesAndSlotmap (L := L) (Some new) st =
    (notified (freed qs_old (installed new (moved_heap new st) w (after_alloc st))), Normal REDIS_OK).
Proof.
  intros Hi Hal Hok. pose proof Hi as [[[Hwf Hs] Hf] Ho Hd Ha]. set (st1 := tabled new st).
  assert (Hswap : exists w, cluster_nodes_swap_ctx (L := L) (cc_nodes (s_cc st)) (Some new) st1 =
    (with_heap (moved_heap new st) w st1, Normal ())).
  { unfold cluster_nodes_swap_ctx, moved_heap. destruct (cc_nodes (s_cc st)) as [d|] eqn:Ed.
    - rewrite (dict_entries_ok _ new Hwf). cbn [gdef]. rewrite gbind_ret. apply (swap_ctx_loop_ok d _ (proj1 Ho) st1).
      exact (installable_swap _ _ _ _ _ Hi Ed).
    - exists (s_world st). by destruct st. }
  destruct Hswap as [w Hw]. exists w. by apply (updateNodes_swapped st new qs_old qs_new).
Qed.

(** Out of memory, or nodes that are no slot map: the new nodes are freed. *)
Lemma updateNodes_reject st new qs_old qs_new : installable st new qs_old qs_new ->
  ~ (alloc_next st = true /\ slotmap_ok (s_heap st) (entries_of new)) ->
  exists err msg, updateNodesAndSlotmap (L := L) (Some new) st =
    (freed qs_new (upd_cc (redisClusterSetError err msg) (after_alloc st)), Normal REDIS_ERR).
Proof.
  intros [[[Hwf Hs] Hf] Ho Hd Ha] Hno. apply NoDup_app in Hd as (_ & _ & Hn).
  assert (Hrel : forall err msg, m_dictRelease (L := L) new (upd_cc (redisClusterSetError err msg) (after_alloc st)) =
    (freed qs_new (upd_cc (redisClusterSetError err msg) (after_alloc st)), Normal ())).
  { intros err msg. apply m_dictRelease_ok; [by split|done]. }
  unfold updateNodesAndSlotmap. rewrite (gbind_normal _ _ _ _ _ (alloc_run st)).
  destruct (alloc_next st) eqn:Eal; cbn [negb]; unfold set_error, mod_cc.
  2: { eexists _, _. rewrite gbind_modify. erewrite gbind_normal; [reflexivity|]. apply Hrel. }
  rewrite gbind_get, (dict_entries_ok _ new Hwf). cbn [gdef]. rewrite gbind_ret.
  change (s_heap (after_alloc st)) with (s_heap st).
  destruct (fill_table_defined (s_heap st) (dict_pairs new) ∅) as [r Hr].
  { apply Forall_fmap. apply (Forall_impl _ _ _ Ha). intros e (nt & Hnt & _). by eexists. }
  rewrite Hr. cbn [gdef]. rewrite gbind_ret. destruct r as [msg|t].
  - eexists _, msg. rewrite gbind_modify. erewrite gbind_normal; [reflexivity|]. apply Hrel.
  - destruct Hno. split; [done|]. by apply fill_table_ok in Hr as [? _].
Qed.

Lemma notified_same st : s_heap (notified st) = s_heap st /\
  s_cc (notified st) = cc_set_retry (cc_retry_count (s_cc st)) 0 (s_cc st).
Proof. unfold notified. destruct (cc_event_callback (s_cc st)); [|done]. by destruct (cc_route_version (s_cc st) =? 1). Qed.

(** C6. [updateNodesAndSlotmap] is a transaction, whatever the allocations answer.  When the
    table can be allocated, every new node is a master with valid slot ranges and no
    slot is in two of them, it succeeds: the nodes dict is
    the new one, slot [i] is served by the node whose ranges hold [i] and by none
    otherwise, the route version is one higher, no update is pending any more, and of the
    heap exactly the old nodes are gone, while the new ones changed nothing but
    connections.  In every other case it fails, the nodes, the table and the version are
    what they were, and exactly the new nodes are freed.  In no case is memory used
    after it was freed. *)
Theorem updateNodesAndSlotmap_installs st new qs_old qs_new : installable st new qs_old qs_new ->
  let cc := s_cc st in
  let accepted := alloc_next st = true /\ slotmap_ok (s_heap st) (entries_of new) in
  exists st' r, updateNodesAndSlotmap (L := L) (Some new) st = (st', Normal r) /\
    (accepted /\ r = REDIS_OK /\ cc_nodes (s_cc st') = Some new /\
       (exists table, cc_table (s_cc st') = Some table /\ forall i p, table !! i = Some p <->
          p ∈ entries_of new /\ has_slot (s_heap st) p i) /\
       cc_route_version (s_cc st') = u64 (cc_route_version cc + 1) /\ cc_need_update_route (s_cc st') = 0 /\
       erase_conns <$> s_heap st' = delete_all qs_old (erase_conns <$> s_heap st)
     \/
     ~ accepted /\ r = REDIS_ERR /\ cc_nodes (s_cc st') = cc_nodes cc /\
       cc_table (s_cc st') = cc_table cc /\ cc_route_version (s_cc st') = cc_route_version cc /\
       cc_need_update_route (s_cc st') = cc_need_update_route cc /\
       s_heap st' = delete_all qs_new (s_heap st)).
Proof.
  intros Hi cc accepted. destruct (decide (alloc_next st = true /\ slotmap_ok (s_heap st) (entries_of new))) as [[Hal Hok]|Hno].
  - destruct (updateNodes_run _ _ _ _ Hi Hal Hok) as [w Hw].
    exists (notified (freed qs_old (installed new (moved_heap new st) w (after_alloc st)))), REDIS_OK.
    split; [done|]. left. split; [done|]. split; [done|].
    destruct (notified_same (freed qs_old (installed new (moved_heap new st) w (after_alloc st)))) as [-> ->].
    split; [done|]. split.
    { eexists. split; [reflexivity|]. intros i p. rewrite <- all_pairs_has. symmetry. apply elem_of_list_to_map, Hok. }
    split; [done|]. split; [done|]. cbn [freed s_heap installed upd_cc with_heap upd_heap upd_world].
    rewrite <- (moved_erase _ _ _ _ Hi). apply map_eq. intros p. rewrite lookup_fmap, !lookup_delete_all, lookup_fmap.
    by destruct (decide (p ∈ qs_old)).
  - destruct (updateNodes_reject _ _ _ _ Hi Hno) as (err & msg & Hm). eexists _, REDIS_ERR. split; [exact Hm|]. right. by split.
Qed.
End SlotMap.

(** ** Nodes that a parser made

    A dict of new nodes, each under its own address and without slaves, beside the nodes
    that were there. *)
Section Fresh.
Context {W : Type} `{HiredisOps W}.
Implicit Types (st : cstate W) (d : dict bytes loc).

Record fresh_nodes st d (h : nheap) : Prop := {
  fn_ok : nodes_ok (W := W) d;
  fn_node : forall addr p, (addr, p) ∈ dict_pairs d -> s_heap st !! p = None /\
    exists nd, h !! p = Some nd /\ n_addr nd = Some addr /\ owned_slaves nd = [];
  fn_rest : forall p nd, s_heap st !! p = Some nd -> h !! p = Some nd
}.

Lemma owns_leaf (h : nheap) p nd : h !! p = Some nd -> owned_slaves nd = [] -> owns h p [p].
Proof. intros Hp Hs. apply (owns_node h p nd []); [done|]. rewrite Hs. constructor. Qed.

(** Nodes without slaves own themselves. *)
Lemma forest_leaves (h : nheap) ps : (forall p, p ∈ ps -> exists nd, h !! p = Some nd /\ owned_slaves nd = []) -> forest h ps ps.
Proof.
  intros Hl. exists ((fun p => [p]) <$> ps). split.
  - apply Forall2_fmap_r, Forall_Forall2_diag, Forall_forall. intros p (nd & E & Es)%Hl. by apply (owns_leaf h p nd).
  - clear Hl. induction ps as [|p ps IH]; [done|]. cbn. by rewrite <- IH.
Qed.

(** The state with another heap. *)
Definition hp (h : nheap) st : cstate W := upd_heap (fun _ => h) st.

Context (st : cstate W) (d : dict bytes loc) (h : nheap) (Hf : fresh_nodes st d h).

Lemma fresh_distinct : NoDup (dict_pairs d).*2.
Proof.
  apply NoDup_fmap_2_strong.
  - intros [a p] [a' p'] Hin Hin' E. cbn in E. subst p'. f_equal.
    destruct (fn_node _ _ _ Hf _ _ Hin) as (_ & nd & E1 & E2 & _). destruct (fn_node _ _ _ Hf _ _ Hin') as (_ & nd' & E1' & E2' & _).
    congruence.
  - destruct (fn_ok _ _ _ Hf) as [(_ & Hn & _) _]. by apply NoDup_fmap_1 in Hn.
Qed.

Lemma fresh_forest : forest h (dict_pairs d).*2 (dict_pairs d).*2.
Proof.
  apply forest_leaves. intros p Hin. apply list_elem_of_fmap in Hin as ([addr p'] & -> & Hin).
  destruct (fn_node _ _ _ Hf _ _ Hin) as (_ & nd & E & _ & Es). by exists nd.
Qed.

Lemma fresh_installable qs_old :
  match cc_nodes (s_cc st) with Some old => dict_owns st old qs_old | None => qs_old = [] end -> NoDup qs_old ->
  installable (hp h st) d qs_old (dict_pairs d).*2.
Proof.
  intros Ho Hn.
  assert (Hin : Forall (fun q => is_Some (s_heap st !! q)) qs_old).
  { destruct (cc_nodes (s_cc st)) as [old|]; [by apply (forest_in _ _ _ (proj2 Ho))|by subst]. }
  rewrite Forall_forall in Hin. split.
  - split; [apply Hf|]. apply fresh_forest.
  - change (cc_nodes (s_cc (hp h st))) with (cc_nodes (s_cc st)). destruct (cc_nodes (s_cc st)) as [old|]; [|done].
    destruct Ho as [Hok Hfo]. split; [done|]. apply (forest_frame (s_heap st)); [done|].
    intros q nd _ Hq. exists nd. split; [|done]. by apply (fn_rest _ _ _ Hf).
  - apply NoDup_app. split; [done|]. split; [|apply fresh_distinct]. intros q Hq (e & -> & He)%list_elem_of_fmap.
    destruct e as [addr p]. destruct (fn_node _ _ _ Hf _ _ He) as [H0 _]. destruct (Hin _ Hq) as [nd Hnd]. cbn in Hnd. congruence.
  - apply Forall_forall. intros [addr p] He. destruct (fn_node _ _ _ Hf _ _ He) as (_ & nd & Hh & Hna & _). by exists nd.
Qed.

(** Installing them: the table is the one of their ranges, and each of them is live. *)
Lemma fresh_install {sds : SdsOps} {L : Type} qs_old : s_allocs st = [] ->
  match cc_nodes (s_cc st) with Some old => dict_owns st old qs_old | None => qs_old = [] end -> NoDup qs_old ->
  slotmap_ok h (dict_pairs d).*2 ->
  exists st' table, updateNodesAndSlotmap (L := L) (Some d) (hp h st) = (st', Normal REDIS_OK) /\
    cc_table (s_cc st') = Some table /\
    (forall i p, table !! i = Some p <-> (i, p) ∈ all_pairs h (dict_pairs d).*2) /\
    (forall addr p, (addr, p) ∈ dict_pairs d -> exists nd, s_heap st' !! p = Some nd /\ n_addr nd = Some addr) /\
    (forall p, p ∈ qs_old -> s_heap st' !! p = None) /\
    cc_route_version (s_cc st') = u64 (cc_route_version (s_cc st) + 1).
Proof.
  intros Ha Ho Hn Hok. pose proof (fresh_installable qs_old Ho Hn) as Hi.
  destruct (after_no_allocs (hp h st) Ha) as [Ea En].
  destruct (updateNodes_run (L := L) (hp h st) d qs_old _ Hi En Hok) as [w Eu]. rewrite Ea in Eu.
  set (st2 := freed qs_old (installed d (moved_heap d (hp h st)) w (hp h st))) in Eu.
  destruct (notified_same st2) as [Hh2 Hc2]. exists (notified st2), (list_to_map (all_pairs h (dict_pairs d).*2)). rewrite Hh2, Hc2.
  split; [exact Eu|]. split; [done|].
  pose proof (moved_erase _ _ _ _ Hi) as He. change (s_heap (hp h st)) with h in He.
  change (s_heap st2) with (delete_all qs_old (moved_heap d (hp h st))). split; [|split; [|split; [|done]]].
  - intros i p. symmetry. apply elem_of_list_to_map, Hok.
  - intros addr p Hin. assert (Hpq : p ∉ qs_old).
    { pose proof (in_disjoint _ _ _ _ Hi) as (_ & Hdis & _)%NoDup_app. intros Hq. apply (Hdis p Hq).
      apply list_elem_of_fmap. by exists (addr, p). }
    destruct (fn_node _ _ _ Hf _ _ Hin) as (_ & nd0 & Hhp & Hna & _). rewrite lookup_delete_all, decide_False by done.
    apply (erase_lookup _ _ p) in He. rewrite Hhp in He. destruct (moved_heap d (hp h st) !! p) as [nd|]; [|done].
    exists nd. split; [done|]. rewrite <- Hna. apply (f_equal (fmap n_addr)) in He. by injection He.
  - intros p Hq. rewrite lookup_delete_all. by rewrite decide_True.
Qed.
End Fresh.

Section Claims.
Context {W : Type} `{HiredisOps W} {sds : SdsOps} {L : Type}.
Implicit Types (st : cstate W).

(** The connections survive an update of the nodes: after [cluster_nodes_swap_ctx] each
    new node has the open connections, synchronous and asynchronous, of the old node
    with the same address, and keeps its own where the old node had none; nothing else of
    any node changes. *)
Theorem cluster_nodes_swap_ctx_moves st (old new : dict bytes loc) :
  nodes_ok (W := W) old -> nodes_ok (W := W) new -> swappable (s_heap st) (to_map old) (dict_pairs new) ->
  exists h w, cluster_nodes_swap_ctx (L := L) (Some old) (Some new) st = (with_heap h w st, Normal ()) /\
    erase_conns <$> h = erase_conns <$> s_heap st /\
    forall addr t nt, (addr, t) ∈ dict_pairs new -> s_heap st !! t = Some nt ->
      let found := to_map old !! addr ≫= (fun f => s_heap st !! f) in
      n_con <$> h !! t = Some (or_else (found ≫= n_con) (n_con nt)) /\
      n_acon <$> h !! t = Some (or_else (found ≫= n_acon) (n_acon nt)).
Proof.
  intros Ho [Hwf Hs] Hsw. destruct (swap_ctx_loop_ok (L := L) old _ Ho st Hsw) as [w Hw]. exists (swap_all (to_map old) (dict_pairs new) (s_heap st)), w.
  unfold cluster_nodes_swap_ctx. rewrite (dict_entries_ok _ new Hwf). cbn [gdef]. rewrite gbind_ret. split; [done|]. split.
  - apply swap_all_erase. intros k f Hf. by apply (sw_old _ _ _ Hsw k f).
  - intros addr t nt Hin Ht. rewrite (swap_all_new _ _ _ _ _ nt Hsw Hin Ht).
    by destruct (to_map old !! addr ≫= _) as [nf|].
Qed.

(** [redisClusterFree] releases everything the context owns, once: the nodes of the
    dict with the slaves they own leave the heap and no others, each of their
    connections is closed exactly once, and the context keeps no pointer to them. *)
Theorem redisClusterFree_frees st (nodes : dict bytes loc) qs :
  cc_nodes (s_cc st) = Some nodes -> dict_owns st nodes qs -> NoDup qs ->
  exists st', redisClusterFree (L := L) st = (st', Normal ()) /\
    s_heap st' = delete_all qs (s_heap st) /\
    s_world st' = foldl (close_node (s_heap st)) (s_world st) qs /\
    cc_nodes (s_cc st') = None /\ cc_table (s_cc st') = None /\ cc_requests (s_cc st') = None /\
    cc_username (s_cc st') = None /\ cc_password (s_cc st') = None /\
    s_events st' = s_events st ++ (if cc_event_callback (s_cc st) then [FREE_CONTEXT] else []).
Proof.
  intros Hn Ho Hd. unfold redisClusterFree.
  set (st1 := if cc_event_callback (s_cc st) then upd_events FREE_CONTEXT st else st).
  set (st2 := upd_cc (fun cc => cc_set_route (cc_route_version cc) None cc) (upd_cc (cc_set_timeouts None None) st1)).
  assert (H1 : s_heap st1 = s_heap st /\ s_world st1 = s_world st /\ s_cc st1 = s_cc st /\
    s_events st1 = s_events st ++ (if cc_event_callback (s_cc st) then [FREE_CONTEXT] else [])).
  { unfold st1. destruct (cc_event_callback (s_cc st)); [done|]. by rewrite app_nil_r. }
  destruct H1 as (Hh & Hw & Hc & He).
  exists (upd_cc (cc_set_auth None None) (upd_cc (cc_set_requests None) (freed qs (upd_cc (cc_set_nodes None) st2)))).
  split.
  - unfold mbind at 1, g_bind at 1, get_cc.
    erewrite gbind_normal with (s' := st1); [|unfold st1, emit, gmodify, gputs; by destruct (cc_event_callback (s_cc st))].
    unfold mod_cc. rewrite !gbind_modify. rewrite Hn.
    erewrite gbind_normal; [|rewrite gbind_modify; apply m_dictRelease_ok; [|done]].
    + by rewrite gbind_modify.
    + destruct Ho as [Hok Hf]. split; [done|]. cbn. by rewrite Hh.
  - cbn. rewrite Hh, Hw, He. done.
Qed.
End Claims.

(** ** Witnesses *)

(** The nodes of [ex_cluster] at 1 and 2; new nodes at 3, with a slave at 5, and at 4. *)
Definition ex_new_node (port : Z) (slots : list cluster_slot) (slaves : option node_list) : redisClusterNode :=
  n_set_slaves slaves (n_set_slots (Some slots) (n_set_con None None (ex_node port 1))).
Definition ex_update : cstate (list redisReply) :=
  upd_heap (fun h => <[3%positive := ex_new_node 1 [mkSlot 0 0 (Some 3%positive)] (Some (mkNodeList true [5%positive]))]>
    (<[4%positive := ex_new_node 3 [mkSlot 1 1 (Some 4%positive); mkSlot 2 3 (Some 4%positive)] None]>
    (<[5%positive := ex_new_node 4 [] None]> h))) (ex_cluster []).
Definition ex_new : dict bytes loc := ex_add (str "h:3") 4%positive (ex_add (str "h:1") 3%positive dictReset).

Lemma ex_new_ok : nodes_ok (W := list redisReply) ex_new.
Proof. apply ex_add_ok; [apply ex_add_ok|]; try done. split; [apply dictReset_wf | done]. Qed.

Lemma ex_old_owned (h : nheap) : h !! 1%positive = Some (ex_node 1 1) -> h !! 2%positive = Some (ex_node 2 2) ->
  forest h (dict_pairs ex_nodes).*2 [1; 2]%positive.
Proof.
  intros H1 H2. exists [[1]; [2]]%positive. split; [|done]. vm_compute (dict_pairs ex_nodes).
  constructor; [|constructor; [|constructor]]; by eapply owns_leaf.
Qed.

Lemma ex_installable : installable ex_update ex_new [1; 2]%positive [3; 5; 4]%positive.
Proof.
  split.
  - split; [apply ex_new_ok|]. exists [[3; 5]; [4]]%positive. split; [|done]. vm_compute (dict_pairs ex_new).
    constructor; [|constructor; [|constructor]].
    + apply (owns_node _ _ (ex_new_node 1 [mkSlot 0 0 (Some 3%positive)] (Some (mkNodeList true [5%positive]))) [[5%positive]]); [done|].
      constructor; [|constructor]. by eapply owns_leaf.
    + by eapply owns_leaf.
  - split; [apply ex_nodes_ok|]. by apply ex_old_owned.
  - by apply (bool_decide_unpack _).
  - repeat constructor; by eexists.
Qed.

Lemma ex_slotmap_ok : slotmap_ok (s_heap ex_update) (entries_of ex_new).
Proof.
  unfold entries_of. vm_compute (dict_pairs ex_new).*2. split.
  - constructor; [|constructor; [|constructor]]; (eexists; split; [reflexivity|]; split; [reflexivity|]); repeat constructor; discriminate.
  - vm_compute (_.*1). by apply (bool_decide_unpack _).
Qed.

Lemma updateNodesAndSlotmap_installs_witness :
  exists st' r, updateNodesAndSlotmap (L := Empty_set) (Some ex_new) ex_update = (st', Normal r) /\
    r = REDIS_OK /\ cc_nodes (s_cc st') = Some ex_new /\ cc_route_version (s_cc st') = 2.
Proof.
  destruct (updateNodesAndSlotmap_installs (L := Empty_set) ex_update ex_new _ _ ex_installable)
    as (st' & r & E & [(_ & Hr & Hn & _ & Hv & _)|(Hno & _)]).
  - exists st', r. repeat split; done.
  - destruct Hno. split; [reflexivity|apply ex_slotmap_ok].
Defined.

Lemma cluster_nodes_swap_ctx_moves_witness :
  exists h w, cluster_nodes_swap_ctx (L := Empty_set) (Some ex_nodes) (Some ex_new) ex_update =
    (with_heap h w ex_update, Normal ()) /\ (n_con <$> h !! 3%positive = Some (Some 1%positive)).
Proof.
  destruct (cluster_nodes_swap_ctx_moves (L := Empty_set) ex_update ex_nodes ex_new ex_nodes_ok ex_new_ok
    (installable_swap ex_update ex_new _ _ ex_nodes ex_installable eq_refl)) as (h & w & E & _ & Hc).
  exists h, w. split; [exact E|].
  destruct (Hc (str "h:1") 3%positive _ ltac:(vm_compute; left) eq_refl) as [H1 _].
  rewrite ex_nodes_map in H1. exact H1.
Defined.

Lemma redisClusterFree_frees_witness :
  exists st', redisClusterFree (L := Empty_set) (ex_cluster []) = (st', Normal ()) /\ s_heap st' = ∅.
Proof.
  destruct (redisClusterFree_frees (L := Empty_set) (ex_cluster []) ex_nodes [1; 2]%positive eq_refl
    (conj ex_nodes_ok (ex_old_owned (s_heap (ex_cluster [])) eq_refl eq_refl)) ltac:(by apply (bool_decide_unpack _))) as (st' & E & Hh & _).
  exists st'. split; [exact E|]. rewrite Hh. reflexivity.
Defined.
