(* ===== verification/SlotsReply.v ===== *)
(** * A CLUSTER SLOTS reply and the slot map it describes

    [parse_cluster_slots] refines the reading of a reply as a list of regions: every
    address gets one master, with the ranges of all its regions in their order.  Together
    with [updateNodesAndSlotmap] the slot table is then the one of the reply.  The flag that
    makes the client keep slaves is off, as by default. *)
From S2P Require Import Prelude Hiutil Crc16 Dict Goto Hiredis Context Sds.
From S2P Require Import Nodes Topology Route NodeProps Ownership TopoProps Script SlotMap.

(** ** The reply, as documented *)
Record region := mkRegion { r_start : Z; r_end : Z; r_host : bytes; r_port : Z }.
Definition r_addr (rg : region) : bytes := address (r_host rg) (r_port rg).

Definition is_node (host : bytes) (port : Z) (r : redisReply) : Prop :=
  exists extra, r = REDIS_REPLY_ARRAY (REDIS_REPLY_STRING host :: REDIS_REPLY_INTEGER port :: extra).
Definition good_node (host : bytes) (port : Z) : Prop := (host ≠ []) /\ (Byte.x00 ∉ host) /\ 1 <= port <= UINT16_MAX.
Definition is_region (rg : region) (r : redisReply) : Prop := exists master slaves,
  r = REDIS_REPLY_ARRAY (REDIS_REPLY_INTEGER (r_start rg) :: REDIS_REPLY_INTEGER (r_end rg) :: master :: slaves) /\
  is_node (r_host rg) (r_port rg) master /\
  Forall (fun r => exists host port, good_node host port /\ is_node host port r) slaves.
Definition good_region (rg : region) : Prop :=
  good_node (r_host rg) (r_port rg) /\ 0 <= r_start rg <= r_end rg /\ r_end rg <= INT_MAX.

(** ** The nodes of a list of regions *)
Definition region_slot (p : loc) (rg : region) : cluster_slot := mkSlot (r_start rg) (r_end rg) (Some p).
Definition regions_of (addr : bytes) (rgs : list region) : list region := filter (fun rg => r_addr rg = addr) rgs.
Definition region_node (host : bytes) (port : Z) (slots : list cluster_slot) : redisClusterNode :=
  mkClusterNode None (Some (address host port)) (Some host) port REDIS_ROLE_MASTER 0 None None 0 (Some slots) None None None.

Section SlotsReply.
Context {W : Type} `{HiredisOps W} {sds : SdsOps} {laws : SdsLaws sds}.
Implicit Types (st : cstate W) (s : tstate W).

(** The dict and the heap represent the regions, beside the nodes that were there. *)
Record represents (h0 : nheap) (rgs : list region) (d : dict bytes loc) (h : nheap) : Prop := {
  rp_dict : dict_wf (clusterNodesDictType (W := W)) d;
  rp_used : d_used d <= Z.of_nat (length rgs);
  rp_node : forall addr p, to_map d !! addr = Some p -> h0 !! p = None /\
    exists host port, addr = address host port /\ good_node host port /\
      h !! p = Some (region_node host port (region_slot p <$> regions_of addr rgs));
  rp_all : Forall (fun rg => is_Some (to_map d !! r_addr rg)) rgs;
  rp_some : forall addr p, to_map d !! addr = Some p -> regions_of addr rgs ≠ [];
  rp_rest : forall p nd, h0 !! p = Some nd -> h !! p = Some nd
}.

Lemma t_lift_normal {A} (m : G (cstate W) n_label A) s st' a : m (ts_st s) = (st', Normal a) ->
  t_lift m s = (mkTstate st' (ts_nodes s) (ts_names s) (ts_slot s) (ts_master s) (ts_found s), Normal a).
Proof. unfold t_lift. by intros ->. Qed.

Lemma node_get_with_slots_ok {L} st host port : s_allocs st = [] -> good_node host port -> exists p, s_heap st !! p = None /\
  node_get_with_slots (L := L) host port REDIS_ROLE_MASTER st =
    (upd_heap (<[p := region_node host port []]>) st, Normal (Some p)).
Proof.
  intros Ha (Hne & Hh & Hp). destruct (createNode_ok (L := L) st Ha) as (p & Hfree & Ec). exists p. split; [done|].
  unfold node_get_with_slots. rewrite (gbind_normal _ _ _ _ _ Ec). unfold gcatch.
  replace (REDIS_ROLE_MASTER =? REDIS_ROLE_MASTER) with true by done.
  rewrite gbind_assoc. rewrite (gbind_normal _ _ _ _ _ (alloc_or_ok (upd_heap _ st) _ Ha)).
  rewrite (gbind_normal _ _ _ _ _ (put_node_ins _ _ _ _)).
  do 3 rewrite (gbind_normal _ _ _ _ _ (sds_or_ok (upd_heap _ st) _ Ha)).
  rewrite (gbind_normal _ _ _ _ _ (put_node_ins _ _ _ _)). rewrite sdsnew_text, sdscatfmt_law by (done || unfold UINT16_MAX, INT_MAX in *; lia).
  replace (u16 port) with port by (symmetry; apply wrapu_small; unfold UINT16_MAX in *; lia). done.
Qed.

(** Appending a range to a node with a slot list. *)
Lemma ref_node_ok {L} st p nd slot : s_allocs st = [] -> s_heap st !! p = Some nd -> n_role nd = REDIS_ROLE_MASTER ->
  is_Some (n_slots nd) ->
  cluster_slot_ref_node (L := L) slot p st =
    (upd_heap (<[p := n_set_slots (Some (node_slots nd ++ [mkSlot (sl_start slot) (sl_end slot) (Some p)])) nd]>) st,
     Normal REDIS_OK).
Proof.
  intros Ha Hp Hr [l Hl]. unfold cluster_slot_ref_node.
  erewrite gbind_normal; [|unfold get_node; rewrite Hp; reflexivity]. rewrite Hr.
  replace (negb (REDIS_ROLE_MASTER =? REDIS_ROLE_MASTER)) with false by done.
  unfold add_slot. rewrite gbind_assoc. erewrite gbind_normal; [|unfold get_node; rewrite Hp; reflexivity].
  rewrite Hl, gbind_assoc, gbind_ret. rewrite gbind_assoc, (gbind_normal _ _ _ _ _ (alloc_ok st Ha)).
  rewrite gbind_assoc. erewrite gbind_normal; [|unfold get_node; rewrite Hp; reflexivity].
  rewrite gbind_assoc. rewrite (gbind_normal _ _ _ _ _ (put_node_ok _ _ _ nd Hp)), gbind_ret.
  unfold node_slots. rewrite Hl. done.
Qed.

(** The master of a region, known by its address or new. *)
Lemma t_master_start host port st d names slot m found : s_allocs st = [] -> nodes_ok (W := W) d -> good_node host port ->
  t_master host port (mkTstate st d names slot m found) =
  match to_map d !! address host port with
  | Some p => (t_set_master (Some p);; t_ref_slot p;; mret true) (mkTstate st d names slot m found)
  | None => (node ← t_lift (node_get_with_slots host port REDIS_ROLE_MASTER);
             t_set_master node;;
             master ← gsome n_error node;
             ret ← t_add_node master;
             if negb (ret =? DICT_OK) then t_lift (m_freeRedisClusterNode master);; goto n_oom
             else t_ref_slot master;; mret false) (mkTstate st d names slot m found)
  end.
Proof.
  intros Ha Hd (Hne & Hh & Hp). unfold t_master, t_sds.
  do 2 rewrite (gbind_normal _ _ _ _ _ (t_lift_normal _ (mkTstate st d names slot m found) _ _ (sds_or_ok st _ Ha))).
  rewrite gbind_get. cbn [ts_nodes ts_st ts_names ts_slot ts_master ts_found].
  rewrite sdsnew_text, sdscatfmt_law by (done || unfold UINT16_MAX, INT_MAX in *; lia). fold (address host port).
  rewrite (gbind_normal _ _ _ _ _ (t_lift_normal _ (mkTstate st d names slot m found) _ _ (m_dictFind_ok st d _ Hd))).
  by destruct (to_map d !! address host port).
Qed.

Lemma t_ref_slot_ok st d names slot m found p nd : s_allocs st = [] -> s_heap st !! p = Some nd ->
  n_role nd = REDIS_ROLE_MASTER -> is_Some (n_slots nd) ->
  t_ref_slot p (mkTstate st d names (Some slot) m found) =
    (mkTstate (upd_heap (<[p := n_set_slots (Some (node_slots nd ++ [mkSlot (sl_start slot) (sl_end slot) (Some p)])) nd]>) st)
       d names None m found, Normal ()).
Proof.
  intros Ha Hp Hr Hs. unfold t_ref_slot. rewrite gbind_get. cbn [ts_slot gdef]. rewrite gbind_ret.
  by rewrite (gbind_normal _ _ _ _ _ (t_lift_normal _ (mkTstate st d names (Some slot) m found) _ _
    (ref_node_ok st p nd slot Ha Hp Hr Hs))).
Qed.

Lemma t_master_known host port st d names slot m found p nd : s_allocs st = [] -> nodes_ok (W := W) d ->
  good_node host port -> to_map d !! address host port = Some p -> s_heap st !! p = Some nd ->
  n_role nd = REDIS_ROLE_MASTER -> is_Some (n_slots nd) ->
  t_master host port (mkTstate st d names (Some slot) m found) =
    (mkTstate (upd_heap (<[p := n_set_slots (Some (node_slots nd ++ [mkSlot (sl_start slot) (sl_end slot) (Some p)])) nd]>) st)
       d names None (Some p) found, Normal true).
Proof.
  intros Ha Hd Hg Hm Hp Hr Hs. rewrite t_master_start, Hm by done. unfold t_set_master. rewrite gbind_modify.
  cbn [ts_nodes ts_st ts_names ts_slot ts_found].
  by rewrite (gbind_normal _ _ _ _ _ (t_ref_slot_ok st d names slot (Some p) found p nd Ha Hp Hr Hs)).
Qed.

(** Entering a new node under its address. *)
Lemma t_add_node_ok st d names slot m found p nd addr : s_allocs st = [] -> nodes_ok (W := W) d ->
  s_heap st !! p = Some nd -> n_addr nd = Some addr -> to_map d !! addr = None ->
  exists d', dict_wf (clusterNodesDictType (W := W)) d' /\ to_map d' = <[addr := p]> (to_map d) /\
    t_add_node p (mkTstate st d names slot m found) = (mkTstate st d' names slot m found, Normal DICT_OK).
Proof.
  intros Ha Hd Hp Hn Hm. destruct (m_dictAdd_new (L := n_label) st d addr p Hd Ha Hm) as (d' & Ed & Hwf & Hm').
  exists d'. split; [done|]. split; [done|]. unfold t_add_node.
  erewrite gbind_normal; [|apply t_lift_normal; cbn [ts_st]; unfold get_node; rewrite Hp; reflexivity].
  rewrite Hn. cbn [gdef]. rewrite gbind_ret.
  rewrite (gbind_normal _ _ _ _ _ (t_lift_normal _ (mkTstate st d names slot m found) _ _ (alloc_ok st Ha))).
  cbn [negb]. rewrite gbind_get. cbn [ts_nodes]. rewrite sdsnewlen_all.
  by rewrite (gbind_normal _ _ _ _ _ (t_lift_normal _ (mkTstate st d names slot m found) _ _ Ed)).
Qed.

Lemma t_master_new host port st d names slot m found : s_allocs st = [] -> nodes_ok (W := W) d ->
  good_node host port -> to_map d !! address host port = None ->
  exists p d', s_heap st !! p = None /\ dict_wf (clusterNodesDictType (W := W)) d' /\
    to_map d' = <[address host port := p]> (to_map d) /\
    t_master host port (mkTstate st d names (Some slot) m found) =
      (mkTstate (upd_heap (<[p := region_node host port [mkSlot (sl_start slot) (sl_end slot) (Some p)]]>) st)
         d' names None (Some p) found, Normal false).
Proof.
  intros Ha Hd Hg Hm. destruct (node_get_with_slots_ok (L := n_label) st host port Ha Hg) as (p & Hfree & En).
  set (st1 := upd_heap (<[p := region_node host port []]>) st).
  destruct (t_add_node_ok st1 d names (Some slot) (Some p) found p _ _ Ha Hd (lookup_insert_eq _ _ _) eq_refl Hm)
    as (d' & Hwf & Hm' & Eadd).
  exists p, d'. split; [done|]. split; [done|]. split; [done|]. rewrite t_master_start, Hm by done.
  rewrite (gbind_normal _ _ _ _ _ (t_lift_normal _ (mkTstate st d names (Some slot) m found) _ _ En)).
  unfold t_set_master. rewrite gbind_modify. cbn [ts_nodes ts_st ts_names ts_slot ts_found gsome]. rewrite gbind_ret.
  rewrite (gbind_normal _ _ _ _ _ Eadd). replace (negb (DICT_OK =? DICT_OK)) with false by done.
  erewrite gbind_normal; [|apply t_ref_slot_ok; [done|apply lookup_insert_eq|done|by eexists]].
  unfold st1. by rewrite upd_heap_insert.
Qed.

(** ** One region *)
Lemma i32_port port : 1 <= port <= UINT16_MAX -> i32 port = port /\ hi_valid_port port = true.
Proof.
  intros Hp. unfold UINT16_MAX in *. rewrite i32_small by (unfold INT_MIN, INT_MAX; lia). split; [done|].
  unfold hi_valid_port, UINT16_MAX. destruct (port <? 1) eqn:E; [apply Z.ltb_lt in E; lia|].
  destruct (65535 <? port) eqn:E2; [apply Z.ltb_lt in E2; lia|done].
Qed.

Lemma t_node_good c idx host port r s : good_node host port -> is_node host port r ->
  t_node c idx r s = (if (idx =? 2)%nat then t_master host port s
                      else if flag_set (cc_flags (s_cc (ts_st s))) HIRCLUSTER_FLAG_ADD_SLAVE then t_slave host port s
                      else (s, Normal false)).
Proof.
  intros (Hne & Hh & Hp) [extra ->]. destruct (i32_port port Hp) as [Hi Hv]. unfold t_node. rewrite Hi, Hv. cbn [is_ip andb negb].
  rewrite gbind_get. unfold slots_host. destruct (0 <? Z.of_nat (length host)) eqn:E.
  - cbn [gsome]. rewrite gbind_ret. destruct (idx =? 2)%nat; [done|]. by destruct (flag_set _ _).
  - apply Z.ltb_ge in E. destruct host; [done|]. cbn in E. lia.
Qed.

Definition no_slaves st : Prop := flag_set (cc_flags (s_cc st)) HIRCLUSTER_FLAG_ADD_SLAVE = false.

Lemma t_region_slaves c slaves : Forall (fun r => exists host port, good_node host port /\ is_node host port r) slaves ->
  forall idx s, (2 < idx)%nat -> no_slaves (ts_st s) -> t_region c idx slaves s = (s, Normal ()).
Proof.
  induction 1 as [|r slaves (host & port & Hg & Hr) Hs IH]; intros idx s Hi Hf; [done|]. cbn [t_region].
  assert (E : t_elem c idx r s = (s, Normal false)).
  { destruct idx as [|[|[|idx]]]; [lia|lia|lia|]. cbn [t_elem]. rewrite (t_node_good _ _ host port) by done.
    unfold no_slaves in Hf. by rewrite Hf. }
  rewrite (gbind_normal _ _ _ _ _ E). by apply IH; [lia|].
Qed.

Lemma t_elem_start c v st d names slot m found :
  t_elem c 0 (REDIS_REPLY_INTEGER v) (mkTstate st d names (Some slot) m found) =
    (mkTstate st d names (Some (mkSlot (u32 (i32 v)) (sl_end slot) (sl_node slot))) m found, Normal false).
Proof. done. Qed.

Lemma t_elem_end c v st d names slot m found : sl_start slot <= u32 (i32 v) ->
  t_elem c 1 (REDIS_REPLY_INTEGER v) (mkTstate st d names (Some slot) m found) =
    (mkTstate st d names (Some (mkSlot (sl_start slot) (u32 (i32 v)) (sl_node slot))) m found, Normal false).
Proof.
  intros Hs. unfold t_elem, t_set_slot. rewrite gbind_get. cbn [ts_slot gdef]. rewrite gbind_ret, gbind_modify.
  destruct (u32 (i32 v) <? sl_start slot) eqn:E; [apply Z.ltb_lt in E; lia|]. done.
Qed.

Lemma t_region_good c rg r elems st d names m found : is_region rg r -> good_region rg -> r = REDIS_REPLY_ARRAY elems ->
  no_slaves st -> (forall s b, (t_master (r_host rg) (r_port rg)
    (mkTstate st d names (Some (mkSlot (r_start rg) (r_end rg) None)) m found)) = (s, Normal b) -> no_slaves (ts_st s)) ->
  forall s b, t_master (r_host rg) (r_port rg) (mkTstate st d names (Some (mkSlot (r_start rg) (r_end rg) None)) m found)
    = (s, Normal b) ->
  t_region c 0 elems (mkTstate st d names (Some (mkSlot 0 0 None)) m found) = (s, Normal ()).
Proof.
  intros (master & slaves & -> & Hm & Hsl) (Hg & Hr & He) [= <-] Hf Hf' s b E. cbn [t_region].
  assert (Hsm : forall v, 0 <= v <= INT_MAX -> u32 (i32 v) = v).
  { intros v Hv. unfold INT_MAX in *. rewrite i32_small by (unfold INT_MIN, INT_MAX; lia). apply u32_small. lia. }
  rewrite (gbind_normal _ _ _ _ _ (t_elem_start _ _ _ _ _ _ _ _)), Hsm by (unfold INT_MAX in *; lia).
  erewrite gbind_normal; [|apply t_elem_end; cbn [sl_start]; rewrite Hsm; unfold INT_MAX in *; lia].
  rewrite Hsm by (unfold INT_MAX in *; lia). cbn [sl_start sl_node t_elem].
  erewrite gbind_normal; [|rewrite (t_node_good _ _ _ _ _ _ Hg Hm); exact E].
  destruct b; [done|]. apply t_region_slaves; [done|lia|]. by apply (Hf' s false).
Qed.

(** ** All regions *)
Lemma regions_of_snoc addr rgs rg :
  regions_of addr (rgs ++ [rg]) = regions_of addr rgs ++ (if decide (r_addr rg = addr) then [rg] else []).
Proof. unfold regions_of. rewrite filter_app. done. Qed.

Lemma represents_known h0 rgs d h rg p nd : represents h0 rgs d h -> to_map d !! r_addr rg = Some p -> h !! p = Some nd ->
  n_role nd = REDIS_ROLE_MASTER /\ is_Some (n_slots nd) /\
  represents h0 (rgs ++ [rg]) d (<[p := n_set_slots (Some (node_slots nd ++ [region_slot p rg])) nd]> h).
Proof.
  intros [Hd Hu Hn Ha Hs Hr] Hp Hnd. destruct (Hn _ _ Hp) as (Hp0 & host & port & Ead & Hg & Hh).
  rewrite Hnd in Hh. injection Hh as ->. split; [done|]. split; [by eexists|]. split.
  - done.
  - rewrite length_app. cbn. lia.
  - intros addr q Hq. destruct (Hn _ _ Hq) as (Hq0 & host' & port' & -> & Hg' & Hh'). split; [done|].
    exists host', port'. split; [done|]. split; [done|]. rewrite regions_of_snoc. destruct (decide (p = q)) as [<-|Hne].
    + rewrite lookup_insert_eq. rewrite Hnd in Hh'. injection Hh' as E1 E2 E3 E4. rewrite Ead, E1, decide_True by done.
      unfold node_slots. cbn. rewrite fmap_app, E2, E3. done.
    + rewrite lookup_insert_ne, Hh' by done. rewrite decide_False, app_nil_r; [done|]. intros E. rewrite E in Hp. congruence.
  - apply Forall_app. split; [done|]. constructor; [by eexists|done].
  - intros addr q Hq. rewrite regions_of_snoc. intros [E _]%app_eq_nil. by apply (Hs addr q).
  - intros q nq Hq. destruct (decide (p = q)) as [<-|]; [congruence|]. rewrite lookup_insert_ne by done. by apply Hr.
Qed.

Lemma represents_new h0 rgs d d' h rg p : represents h0 rgs d h -> good_node (r_host rg) (r_port rg) ->
  to_map d !! r_addr rg = None -> h !! p = None -> dict_wf (clusterNodesDictType (W := W)) d' ->
  to_map d' = <[r_addr rg := p]> (to_map d) ->
  represents h0 (rgs ++ [rg]) d' (<[p := region_node (r_host rg) (r_port rg) [region_slot p rg]]> h).
Proof.
  intros [Hd Hu Hn Ha Hs Hr] Hg Hp Hfree Hwf Hm.
  assert (Hnone : regions_of (r_addr rg) rgs = []).
  { unfold regions_of. clear -Ha Hp. induction Ha as [|x l [q Hq] Hl IH]; [done|]. rewrite filter_cons.
    rewrite decide_False; [done|]. congruence. }
  assert (Hp0 : h0 !! p = None) by (destruct (h0 !! p) eqn:E; [apply Hr in E; congruence|done]).
  split.
  - done.
  - rewrite length_app. cbn [length]. pose proof (to_map_size _ _ Hd). pose proof (to_map_size _ _ Hwf) as Hsz.
    rewrite Hm, map_size_insert_None in Hsz by done. lia.
  - intros addr q. rewrite Hm. destruct (decide (addr = r_addr rg)) as [->|Hne].
    + rewrite lookup_insert_eq. intros [= <-]. split; [done|]. exists (r_host rg), (r_port rg). split; [done|]. split; [done|].
      rewrite lookup_insert_eq, regions_of_snoc, Hnone, decide_True by done. done.
    + rewrite lookup_insert_ne by done. intros Hq. destruct (Hn _ _ Hq) as (Hq0 & host & port & -> & Hg' & Hh). split; [done|].
      exists host, port. split; [done|]. split; [done|]. rewrite lookup_insert_ne by congruence.
      rewrite regions_of_snoc, decide_False, app_nil_r by congruence. done.
  - apply Forall_app. split.
    + apply (Forall_impl _ _ _ Ha). intros x [q Hq]. rewrite Hm. destruct (decide (r_addr rg = r_addr x)) as [->|].
      * rewrite lookup_insert_eq. by eexists.
      * rewrite lookup_insert_ne by done. by eexists.
    + constructor; [|done]. rewrite Hm, lookup_insert_eq. by eexists.
  - intros addr q. rewrite Hm, regions_of_snoc. destruct (decide (addr = r_addr rg)) as [->|Hne].
    + rewrite decide_True by done. by destruct (regions_of (r_addr rg) rgs).
    + rewrite lookup_insert_ne by done. intros Hq [E _]%app_eq_nil. by apply (Hs addr q).
  - intros q nq Hq. apply Hr in Hq. rewrite lookup_insert_ne by congruence. done.
Qed.

Lemma t_regions_ok c st0 names found rgs' rs : s_allocs st0 = [] -> no_slaves st0 -> Forall2 is_region rgs' rs ->
  Forall good_region rgs' -> forall rgs d h slot m, represents (s_heap st0) rgs d h ->
  Z.of_nat (length rgs + length rgs') <= 2 ^ 28 ->
  exists d' h' slot' m', represents (s_heap st0) (rgs ++ rgs') d' h' /\
    t_regions c rs (mkTstate (hp h st0) d names slot m found) = (mkTstate (hp h' st0) d' names slot' m' found, Normal ()).
Proof.
  intros Ha Hf Hrs. induction Hrs as [|rg r rgs' rs Hr Hrs IH]; intros Hg rgs d h slot m Hrep Hl.
  { exists d, h, slot, m. by rewrite app_nil_r. }
  apply Forall_cons in Hg as [Hg0 Hg]. pose proof Hrep as [Hwf Hu _ _ _ _]. cbn [length] in Hl.
  assert (Hok : nodes_ok (W := W) d) by (split; [done|]; unfold dict_small; lia).
  assert (Hstep : exists d1 h1 m1 b, represents (s_heap st0) (rgs ++ [rg]) d1 h1 /\
    t_master (r_host rg) (r_port rg) (mkTstate (hp h st0) d names (Some (mkSlot (r_start rg) (r_end rg) None)) m found) =
      (mkTstate (hp h1 st0) d1 names None m1 found, Normal b)).
  { destruct Hg0 as (Hgn & _). destruct (to_map d !! r_addr rg) as [p|] eqn:Ep.
    - destruct (rp_node _ _ _ _ Hrep _ _ Ep) as (_ & host & port & _ & _ & Hnd).
      destruct (represents_known _ _ _ _ _ _ _ Hrep Ep Hnd) as (Hrole & Hsl & Hrep').
      eexists d, _, (Some p), true. split; [exact Hrep'|]. rewrite (t_master_known _ _ (hp h st0) _ _ _ _ _ p _ Ha Hok Hgn Ep Hnd Hrole Hsl). done.
    - destruct (t_master_new _ _ (hp h st0) d names (mkSlot (r_start rg) (r_end rg) None) m found Ha Hok Hgn Ep)
        as (p & d1 & Hfree & Hwf1 & Hm1 & E).
      eexists d1, _, (Some p), false. split; [by apply (represents_new _ _ d)|]. rewrite E. done. }
  destruct Hstep as (d1 & h1 & m1 & b & Hrep1 & E).
  destruct (IH Hg (rgs ++ [rg]) d1 h1 None m1 Hrep1) as (d' & h' & slot' & m' & Hrep' & E').
  { rewrite length_app. cbn. lia. }
  exists d', h', slot', m'. rewrite <- app_assoc in Hrep'. split; [done|]. cbn [t_regions].
  pose proof Hr as (master & slaves & -> & _). destruct (Z.of_nat _ <? 3) eqn:E3; [apply Z.ltb_lt in E3; cbn in E3; lia|].
  assert (Ec : cluster_slot_create_free (L := n_label) (hp h st0) = (hp h st0, Normal (Some (mkSlot 0 0 None)))).
  { unfold cluster_slot_create_free. by rewrite (gbind_normal _ _ _ _ _ (alloc_ok (hp h st0) Ha)). }
  rewrite (gbind_normal _ _ _ _ _ (t_lift_normal _ (mkTstate (hp h st0) d names slot m found) _ _ Ec)).
  unfold t_set_slot. rewrite gbind_modify. cbn [gsome ts_st ts_nodes ts_names ts_master ts_found]. rewrite gbind_ret.
  erewrite gbind_normal; [exact E'|]. eapply t_region_good; [exact Hr|done|done|done| |exact E].
  rewrite E. intros s b' [= <- <-]. done.
Qed.

Definition parsed st (rgs : list region) (d : dict bytes loc) (h : nheap) : Prop :=
  represents (s_heap st) rgs d h /\ d_used d <= 2 ^ 28.

Lemma parse_run {L} c st rgs rs : s_allocs st = [] -> no_slaves st -> rs ≠ [] -> Forall2 is_region rgs rs ->
  Forall good_region rgs -> Z.of_nat (length rgs) <= 2 ^ 28 ->
  exists d h, parsed st rgs d h /\
    parse_cluster_slots (L := L) c (Some (REDIS_REPLY_ARRAY rs)) st = (hp h st, Normal (Some d)).
Proof.
  intros Ha Hf Hne Hrs Hg Hl.
  assert (Hrep0 : represents (s_heap st) [] dictReset (s_heap st)).
  { split; [apply dictReset_wf|done| |done| |done]; intros addr p E;
      by change (to_map dictReset) with (∅ : gmap bytes loc) in E; apply lookup_empty_Some in E. }
  destruct (t_regions_ok c st None 0 rgs rs Ha Hf Hrs Hg [] dictReset (s_heap st) None None Hrep0) as (d & h & sl & m & Hrep & E).
  { cbn. lia. }
  exists d, h. split; [split; [exact Hrep|]|].
  { pose proof (rp_used _ _ _ _ Hrep). cbn in *. lia. }
  unfold parse_cluster_slots, t_finish.
  erewrite gbind_normal; [|unfold m_dictCreate; rewrite (gbind_normal _ _ _ _ _ (alloc_ok st Ha)); reflexivity].
  cbn [dictCreate]. unfold t_run. replace (hp (s_heap st) st) with st in E by by destruct st.
  destruct rs as [|r rs]; [done|]. by rewrite E.
Qed.

(** ** From the nodes to the table *)
Definition region_range (rg : region) : list Z := seqZ (r_start rg) (r_end rg - r_start rg + 1).

(** The regions of a reply are in the slot space and disjoint. *)
Definition disjoint_regions (rgs : list region) : Prop :=
  Forall (fun rg => r_end rg < REDIS_CLUSTER_SLOTS) rgs /\ NoDup (concat (region_range <$> rgs)).

Section Parsed.
Context (st : cstate W) (rgs : list region) (d : dict bytes loc) (h : nheap) (Hp : parsed st rgs d h).

Lemma parsed_ok : nodes_ok (W := W) d.
Proof. destruct Hp as [[Hwf _ _ _ _ _] Hu]. split; [done|]. unfold dict_small. lia. Qed.

Lemma parsed_entry addr p : (addr, p) ∈ dict_pairs d -> s_heap st !! p = None /\
  exists host port, addr = address host port /\ h !! p = Some (region_node host port (region_slot p <$> regions_of addr rgs)).
Proof.
  intros Hin. apply (to_map_pairs (W := W) d) in Hin; [|apply parsed_ok].
  destruct Hp as [Hr _]. destruct (rp_node _ _ _ _ Hr _ _ Hin) as (H0 & host & port & Ha & _ & Hh). eauto.
Qed.

Lemma parsed_fresh : fresh_nodes st d h.
Proof.
  split; [apply parsed_ok| |by destruct Hp as [[]]]. intros addr p Hin.
  destruct (parsed_entry _ _ Hin) as (H0 & host & port & -> & Hh). split; [done|]. by eexists.
Qed.

Lemma parsed_pairs : (all_pairs h (dict_pairs d).*2).*1 ≡ₚ concat (region_range <$> rgs).
Proof.
  assert (E : (all_pairs h (dict_pairs d).*2).*1 =
    concat (region_range <$> concat ((fun addr => regions_of addr rgs) <$> (dict_pairs d).*1))).
  { pose proof parsed_entry as He. unfold all_pairs. induction (dict_pairs d) as [|[addr p] es IH]; [done|].
    cbn [fmap list_fmap concat fst snd]. rewrite fmap_app, fmap_app, concat_app. f_equal.
    - destruct (He addr p) as (_ & host & port & _ & Ep); [left|]. unfold node_pairs. rewrite Ep. cbn.
      unfold node_slots. cbn. clear. induction (regions_of addr rgs) as [|rg l IH]; [done|].
      cbn. rewrite fmap_app, IH. f_equal. unfold slot_pairs, region_range. cbn. rewrite <- list_fmap_compose. apply list_fmap_id.
    - apply IH. intros a q Hin. apply He. by right. }
  rewrite E. change (@fmap list _) with @map. rewrite <- !flat_map_concat_map. apply Permutation_flat_map.
  rewrite flat_map_concat_map. apply filter_partition.
  - by destruct parsed_ok as [(_ & Hn & _) _].
  - destruct Hp as [[_ _ _ Hall _ _] _]. apply (Forall_impl _ _ _ Hall). intros rg [p Hin].
    apply (to_map_pairs (W := W)) in Hin; [|apply parsed_ok]. apply list_elem_of_fmap. by exists (r_addr rg, p).
Qed.
End Parsed.

Lemma parsed_region st rgs d h : parsed st rgs d h -> forall rg, rg ∈ rgs -> exists p host port,
  (r_addr rg, p) ∈ dict_pairs d /\ r_addr rg = address host port /\
  h !! p = Some (region_node host port (region_slot p <$> regions_of (r_addr rg) rgs)).
Proof.
  intros Hp rg Hin. pose proof Hp as [Hr _]. pose proof (rp_all _ _ _ _ Hr) as Hall. rewrite Forall_forall in Hall.
  destruct (Hall rg Hin) as [p Hpd%(to_map_pairs (W := W))]; [|by eapply parsed_ok].
  destruct (parsed_entry _ _ _ _ Hp _ _ Hpd) as (_ & host & port & ? & ?). by exists p, host, port.
Qed.

(** The slots of a parsed dict are those of the regions. *)
Lemma parsed_has st rgs d h i p : parsed st rgs d h -> (i, p) ∈ all_pairs h (dict_pairs d).*2 <->
  exists rg, rg ∈ rgs /\ r_start rg <= i <= r_end rg /\ (r_addr rg, p) ∈ dict_pairs d.
Proof.
  intros Hp. rewrite all_pairs_has. split.
  - intros [(e & -> & He)%list_elem_of_fmap (nd & slot & Hh & Hs & Hi)]. destruct e as [addr p]. cbn [snd] in *.
    destruct (parsed_entry _ _ _ _ Hp _ _ He) as (_ & host & port & _ & Hh'). rewrite Hh in Hh'. injection Hh' as ->.
    unfold node_slots in Hs. cbn in Hs. apply list_elem_of_fmap in Hs as (rg & -> & [Hra Hrg]%list_elem_of_filter).
    exists rg. split; [done|]. split; [done|]. by rewrite Hra.
  - intros (rg & Hrg & Hi & He). split; [apply list_elem_of_fmap; by exists (r_addr rg, p)|].
    destruct (parsed_entry _ _ _ _ Hp _ _ He) as (_ & host & port & _ & Hh). eexists _, (region_slot p rg).
    split; [exact Hh|]. split; [|done]. unfold node_slots. cbn. apply list_elem_of_fmap. exists rg. split; [done|].
    by apply list_elem_of_filter.
Qed.

(** ** The specification *)

(** The ranges of each address, as the regions of a reply give them one by one. *)
Definition add_region (m : gmap bytes (list (Z * Z))) (rg : region) : gmap bytes (list (Z * Z)) :=
  <[r_addr rg := default [] (m !! r_addr rg) ++ [(r_start rg, r_end rg)]]> m.
Definition slots_spec (rgs : list region) : gmap bytes (list (Z * Z)) := foldl add_region ∅ rgs.

(** What the parsed dict and the heap say of an address. *)
Definition node_ranges (h : nheap) (p : loc) : list (Z * Z) :=
  (fun sl => (sl_start sl, sl_end sl)) <$> default [] (node_slots <$> h !! p).

Lemma slots_spec_lookup rgs addr : slots_spec rgs !! addr =
  match regions_of addr rgs with [] => None | l => Some ((fun rg => (r_start rg, r_end rg)) <$> l) end.
Proof.
  induction rgs as [|rg rgs IH] using rev_ind; [done|].
  assert (E : slots_spec (rgs ++ [rg]) = add_region (slots_spec rgs) rg) by (unfold slots_spec; by rewrite foldl_app).
  rewrite E, regions_of_snoc. unfold add_region. destruct (decide (r_addr rg = addr)) as [->|Hne].
  - rewrite lookup_insert_eq, IH. destruct (regions_of addr rgs); cbn; [done|]. by rewrite fmap_app.
  - by rewrite lookup_insert_ne, IH, app_nil_r.
Qed.

Lemma parsed_spec st rgs d h : parsed st rgs d h -> node_ranges h <$> to_map d = slots_spec rgs.
Proof.
  intros Hp. pose proof Hp as [Hr _]. apply map_eq. intros addr. rewrite lookup_fmap, slots_spec_lookup.
  destruct (to_map d !! addr) as [p|] eqn:E; cbn.
  - pose proof (rp_some _ _ _ _ Hr _ _ E) as Hne.
    destruct (rp_node _ _ _ _ Hr _ _ E) as (_ & host & port & _ & _ & Hh). unfold node_ranges. rewrite Hh. cbn.
    unfold node_slots. cbn. rewrite <- list_fmap_compose. destruct (regions_of addr rgs); [done|]. done.
  - destruct (regions_of addr rgs) as [|rg l] eqn:El; [done|].
    assert (Hin : rg ∈ regions_of addr rgs) by (rewrite El; left).
    apply list_elem_of_filter in Hin as [<- Hin]. pose proof (rp_all _ _ _ _ Hr) as Hall. rewrite Forall_forall in Hall.
    destruct (Hall rg Hin) as [p Hp']. congruence.
Qed.

(** C11. [parse_cluster_slots] refines the reading of a CLUSTER SLOTS reply region by region
    ([slots_spec]): it succeeds on every well-formed reply, its dict has exactly the
    addresses of the reply, each with the ranges of all its regions in their order; an
    address has one new master node, with the address's host and port, whose ranges
    point back to it; and the nodes that were there stay as they are. *)
Theorem parse_cluster_slots_refines {L} c st rgs rs : s_allocs st = [] -> no_slaves st -> rs ≠ [] ->
  Forall2 is_region rgs rs -> Forall good_region rgs -> Z.of_nat (length rgs) <= 2 ^ 28 ->
  exists nodes h, parse_cluster_slots (L := L) c (Some (REDIS_REPLY_ARRAY rs)) st = (hp h st, Normal (Some nodes)) /\
    nodes_ok (W := W) nodes /\ node_ranges h <$> to_map nodes = slots_spec rgs /\
    (forall addr p, to_map nodes !! addr = Some p -> s_heap st !! p = None /\
       exists host port, addr = address host port /\
         h !! p = Some (region_node host port (region_slot p <$> regions_of addr rgs))) /\
    s_heap st ⊆ h.
Proof.
  intros Ha Hf Hne Hrs Hg Hl. destruct (parse_run (L := L) c st rgs rs Ha Hf Hne Hrs Hg Hl) as (d & h & Hp & E).
  exists d, h. split; [done|]. split; [by eapply parsed_ok|]. split; [by eapply parsed_spec|]. split.
  - intros addr p Hin. apply (parsed_entry st rgs d h Hp). apply (to_map_pairs (W := W)); [by eapply parsed_ok|done].
  - apply map_subseteq_spec. apply Hp.
Qed.

Lemma parsed_slotmap_ok st rgs d h : parsed st rgs d h -> Forall good_region rgs -> disjoint_regions rgs ->
  slotmap_ok h (dict_pairs d).*2.
Proof.
  intros Hp Hg [Hb Hn]. split; [|by rewrite (parsed_pairs st rgs d h Hp)].
  apply Forall_forall. intros q (e & -> & He)%list_elem_of_fmap. destruct e as [addr p].
  destruct (parsed_entry st rgs d h Hp _ _ He) as (_ & host & port & _ & Hh). eexists. split; [exact Hh|]. split; [done|].
  unfold node_slots. cbn. apply Forall_fmap, Forall_forall. intros rg [_ Hin]%list_elem_of_filter. unfold range_ok. cbn.
  rewrite Forall_forall in Hg, Hb. destruct (Hg rg Hin) as (_ & Hr & _). specialize (Hb rg Hin). lia.
Qed.

(** C9. From the server's answer to the slot table: when the reply to CLUSTER SLOTS describes
    disjoint regions, [handleClusterSlotsReply] succeeds, every slot of a region is
    served by a live node with that region's address, the slots of no region are served by
    nobody, the old nodes are gone, and the route version is one higher. *)
Theorem handleClusterSlotsReply_maps {L} c st w rgs rs qs_old :
  redisGetReply (s_world st) c = (w, (REDIS_OK, Some (REDIS_REPLY_ARRAY rs))) -> rs ≠ [] -> Forall2 is_region rgs rs ->
  Forall good_region rgs -> disjoint_regions rgs -> Z.of_nat (length rgs) <= 2 ^ 28 ->
  s_allocs st = [] -> no_slaves st ->
  match cc_nodes (s_cc st) with Some old => dict_owns st old qs_old | None => qs_old = [] end -> NoDup qs_old ->
  exists st' table, handleClusterSlotsReply (L := L) c st = (st', Normal REDIS_OK) /\ cc_table (s_cc st') = Some table /\
    (forall rg i, rg ∈ rgs -> r_start rg <= i <= r_end rg -> exists p nd, table !! i = Some p /\
       s_heap st' !! p = Some nd /\ n_addr nd = Some (r_addr rg)) /\
    (forall i, (forall rg, rg ∈ rgs -> ~ r_start rg <= i <= r_end rg) -> table !! i = None) /\
    (forall p, p ∈ qs_old -> s_heap st' !! p = None) /\
    cc_route_version (s_cc st') = u64 (cc_route_version (s_cc st) + 1).
Proof.
  intros Hw Hne Hrs Hg Hd Hl Ha Hf Ho Hn.
  set (st1 := upd_world (fun _ => w) st).
  destruct (parse_run (L := L) c st1 rgs rs Ha Hf Hne Hrs Hg Hl) as (d & h & Hp & Ep).
  pose proof (parsed_slotmap_ok _ _ _ _ Hp Hg Hd) as Hok.
  destruct (fresh_install (L := L) st1 d h (parsed_fresh _ _ _ _ Hp) qs_old Ha Ho Hn Hok)
    as (st' & table & Eu & Ht & Htab & Hlive & Hgone & Hv).
  exists st', table. split; [|split; [done|split; [|split; [|done]]]].
  - unfold handleClusterSlotsReply, route_reply. rewrite gbind_assoc. unfold mbind at 1, g_bind at 1, world_call at 1.
    rewrite Hw. replace (negb (REDIS_OK =? REDIS_OK)) with false by done. rewrite gbind_assoc. cbn [gdef]. rewrite !gbind_ret.
    fold st1. rewrite (gbind_normal _ _ _ _ _ Ep). exact Eu.
  - intros rg i Hin Hr. destruct (parsed_region _ _ _ _ Hp rg Hin) as (p & _ & _ & Hpd & _ & _).
    destruct (Hlive _ _ Hpd) as (nd & Hnd & Hna). exists p, nd. split; [|done].
    apply Htab, (parsed_has _ _ _ _ _ _ Hp). by exists rg.
  - intros i Hi. destruct (table !! i) as [p|] eqn:E; [|done]. apply Htab, (parsed_has _ _ _ _ _ _ Hp) in E as (rg & Hrg & Hr & _).
    by destruct (Hi rg Hrg).
Qed.
End SlotsReply.

(** ** Witnesses *)
Definition ex_regions : list region :=
  [mkRegion 0 1 (str "h") 1; mkRegion 3 3 (str "h") 4; mkRegion 5 6 (str "h") 1].
Definition ex_node_reply (port : Z) : redisReply :=
  REDIS_REPLY_ARRAY [REDIS_REPLY_STRING (str "h"); REDIS_REPLY_INTEGER port; REDIS_REPLY_STRING (str "id")].
Definition ex_slots_reply : list redisReply :=
  (fun '(s, e, p) => REDIS_REPLY_ARRAY
     [REDIS_REPLY_INTEGER s; REDIS_REPLY_INTEGER e; ex_node_reply p; ex_node_reply 9]) <$> [(0, 1, 1); (3, 3, 4); (5, 6, 1)].

Lemma ex_good_node port : 1 <= port <= UINT16_MAX -> good_node (str "h") port.
Proof. intros. split; [done|]. split; [by apply (bool_decide_unpack _)|done]. Qed.

Lemma ex_are_regions : Forall2 is_region ex_regions ex_slots_reply.
Proof.
  repeat constructor; eexists (ex_node_reply _), [ex_node_reply 9]; (split; [reflexivity|]); (split; [by eexists|]);
    (constructor; [|constructor]); exists (str "h"), 9; (split; [by apply ex_good_node|by eexists]).
Qed.

Lemma ex_good_regions : Forall good_region ex_regions.
Proof. repeat constructor; try discriminate; by apply (bool_decide_unpack _). Qed.

Lemma parse_cluster_slots_refines_witness :
  exists nodes h, parse_cluster_slots (L := Empty_set) 1%positive (Some (REDIS_REPLY_ARRAY ex_slots_reply)) (ex_cluster []) =
    (hp h (ex_cluster []), Normal (Some nodes)) /\
    (node_ranges h <$> to_map nodes) !! str "h:1" = Some [(0, 1); (5, 6)].
Proof.
  destruct (parse_cluster_slots_refines (L := Empty_set) 1%positive (ex_cluster []) ex_regions ex_slots_reply eq_refl eq_refl
    ltac:(discriminate) ex_are_regions ex_good_regions ltac:(by vm_compute)) as (nodes & h & E & _ & Hm & _).
  exists nodes, h. split; [exact E|]. rewrite Hm, slots_spec_lookup. reflexivity.
Defined.

Lemma handleClusterSlotsReply_maps_witness :
  exists st' table, handleClusterSlotsReply (L := Empty_set) 1%positive (ex_cluster [REDIS_REPLY_ARRAY ex_slots_reply]) =
    (st', Normal REDIS_OK) /\ cc_table (s_cc st') = Some table /\ table !! 2 = None /\
    exists p nd, table !! 6 = Some p /\ s_heap st' !! p = Some nd /\ n_addr nd = Some (str "h:1").
Proof.
  destruct (handleClusterSlotsReply_maps (H := script_ops) (L := Empty_set) 1%positive (ex_cluster [REDIS_REPLY_ARRAY ex_slots_reply]) []
    ex_regions ex_slots_reply [1; 2]%positive ltac:(reflexivity) ltac:(discriminate) ex_are_regions ex_good_regions
    ltac:(split; [by apply (bool_decide_unpack _)|vm_compute (concat _); by apply (bool_decide_unpack _)])
    ltac:(by vm_compute) eq_refl eq_refl (conj ex_nodes_ok (ex_old_owned (s_heap (ex_cluster [])) eq_refl eq_refl))
    ltac:(by apply (bool_decide_unpack _))) as (st' & table & E & Ht & Hin & Hout & _).
  exists st', table. split; [exact E|]. split; [exact Ht|]. split.
  - apply Hout. intros rg Hrg Hr. unfold ex_regions in Hrg.
    repeat (apply elem_of_cons in Hrg as [->|Hrg]; [cbn in Hr; lia|]). by apply elem_of_nil in Hrg.
  - apply (Hin (mkRegion 5 6 (str "h") 1) 6); [right; right; left|cbn; lia].
Defined.
