(* ===== verification/OptionProps.v ===== *)
(** * Properties of the options

    Adding a node by its address, and what the node records. *)
From S2P Require Import Prelude Hiutil Crc16 Dict Goto Hiredis Command Context Sds Nodes Topology Route Options NodeProps Script.

(** A node a user adds: its role is not known yet. *)
Definition option_node (host : bytes) (port : Z) : redisClusterNode :=
  mkClusterNode None (Some (address host port)) (Some host) (u16 port) REDIS_ROLE_NULL 0 None None 0 None None None None.

Section OptionProps.
Context {W : Type} `{HiredisOps W} {sds : SdsOps} {laws : SdsLaws sds}.
Implicit Types (st : cstate W).

Definition node_dict st : dict bytes loc := default dictReset (cc_nodes (s_cc st)).

(** C34. [redisClusterSetOptionAddNode] of [<host>:<port>]: an address that is known already
    changes nothing; a new one adds one node, with that host, under the address, and
    keeps the others.  The port is stored in 16 bits without a check: for 65537 the
    node gets port 1. *)
Theorem redisClusterSetOptionAddNode_spec {L} st (host : bytes) (port : Z) :
  (host ≠ []) -> (Byte.x00 ∉ host) -> 1 <= port <= INT_MAX -> s_allocs st = [] -> nodes_ok (W := W) (node_dict st) ->
  exists st' nodes', redisClusterSetOptionAddNode (L := L) (address host port) st = (st', Normal REDIS_OK) /\
    cc_nodes (s_cc st') = Some nodes' /\
    match to_map (node_dict st) !! address host port with
    | Some _ => nodes' = node_dict st /\ s_heap st' = s_heap st
    | None => exists p, s_heap st !! p = None /\ to_map nodes' = <[address host port := p]> (to_map (node_dict st)) /\
        s_heap st' = <[p := option_node host port]> (s_heap st)
    end.
Proof.
  intros Hne Hh Hp Ha Hd.
  set (st0 := upd_cc (cc_set_nodes (Some (node_dict st))) st).
  assert (E0 : forall k, (nodes ← (match cc_nodes (s_cc st) with
      | Some nodes => mret nodes
      | None => nodes ← m_dictCreate; nodes ← gsome n_oom nodes; mod_cc (cc_set_nodes (Some nodes));; mret nodes
      end : G (cstate W) n_label _); k nodes) st = k (node_dict st) st0 :> _ * outcome n_label Z).
  { intros k. unfold st0, node_dict. destruct (cc_nodes (s_cc st)) as [nodes|] eqn:En.
    - rewrite gbind_ret. f_equal. destruct st as [[]]. cbn in En. by subst.
    - rewrite gbind_assoc. erewrite gbind_normal; [|unfold m_dictCreate; rewrite (gbind_normal _ _ _ _ _ (alloc_ok st Ha)); reflexivity].
      done. }
  assert (Ec : strrchr (address host port) IP_PORT_SEPARATOR = Some (length host)) by (apply address_colon; [lia|done]).
  unfold redisClusterSetOptionAddNode, gcatch. unfold add_node_body. unfold mbind at 1, g_bind at 1, get_cc at 1.
  rewrite E0. rewrite (gbind_normal _ _ _ _ _ (sds_or_ok st0 _ Ha)).
  rewrite sdsnew_text by (by apply address_no; [lia|..]).
  rewrite (gbind_normal _ _ _ _ _ (m_dictFind_ok st0 _ _ Hd)).
  destruct (to_map (node_dict st) !! address host port) as [q|] eqn:Em.
  { exists st0, (node_dict st). done. }
  rewrite Ec. destruct (length host) as [|n] eqn:El; [by destruct host|]. rewrite <- El.
  rewrite (gbind_normal _ _ _ _ _ (sds_or_ok st0 _ Ha)). rewrite address_port by (done || lia).
  pose proof (dec_length_pos port ltac:(lia)) as Hlen. destruct (length (dec port) =? 0)%nat eqn:E1; [apply Nat.eqb_eq in E1; lia|].
  rewrite hi_atoi_dec by lia. destruct (port <=? 0) eqn:E2; [apply Z.leb_le in E2; lia|].
  rewrite sdsnewlen_law, address_host by apply address_long.
  destruct (createNode_ok (L := n_label) st0 Ha) as (p & Hfree & Ecr). rewrite (gbind_normal _ _ _ _ _ Ecr). cbn [gsome].
  rewrite gbind_ret. set (st2 := upd_heap (<[p := option_node host port]>) st0).
  destruct (m_dictAdd_new (L := n_label) st2 (node_dict st) (address host port) p Hd Ha Em) as (d' & Ed & Hwf & Hm').
  exists (upd_cc (cc_set_nodes (Some d')) st2), d'. split; [|split; [done|exists p; done]].
  unfold gcatch. rewrite (gbind_normal _ _ _ _ _ (sds_or_ok (upd_heap _ st0) _ Ha)).
  rewrite (gbind_normal _ _ _ _ _ (put_node_ins _ _ _ _)). rewrite (gbind_normal _ _ _ _ _ (sds_or_ok (upd_heap _ st0) _ Ha)).
  rewrite sdsnewlen_all. by rewrite (gbind_normal _ _ _ _ _ Ed).
Qed.
End OptionProps.

(** ** Witness *)
Lemma redisClusterSetOptionAddNode_spec_witness : let st := ex_cluster [] in
  exists st' nodes' p, redisClusterSetOptionAddNode (L := Empty_set) (str "x:65537") st = (st', Normal REDIS_OK) /\
    cc_nodes (s_cc st') = Some nodes' /\ to_map nodes' = <[str "x:65537" := p]> (to_map ex_nodes) /\
    (n_port <$> s_heap st' !! p) = Some 1.
Proof.
  destruct (redisClusterSetOptionAddNode_spec (L := Empty_set) (ex_cluster []) (str "x") 65537 ltac:(discriminate)
    ltac:(by apply (bool_decide_unpack _)) ltac:(by vm_compute) eq_refl ex_nodes_ok) as (st' & nodes' & E & Hn & Hc).
  change (to_map (node_dict (ex_cluster []))) with (to_map ex_nodes) in Hc. rewrite ex_nodes_map in Hc.
  destruct Hc as (p & _ & Hm & Hh). exists st', nodes', p. split; [exact E|]. split; [exact Hn|].
  split; [by rewrite ex_nodes_map|]. rewrite Hh, lookup_insert_eq. reflexivity.
Defined.
