(* ===== verification/NodesReply.v ===== *)
(** * A CLUSTER NODES reply and the nodes it describes

    [parse_cluster_nodes] refines the reading of a reply line by line: every line of a
    master makes one node, with the ranges of its slot fields.  As by default, the flags
    that make the client keep slaves and open slots are off.  With the first of them, a
    reply can break the parser. *)
From S2P Require Import Prelude Hiutil Crc16 Dict Goto Hiredis Context Sds Nodes.
From S2P Require Import Topology Route NodeProps Ownership TopoProps Script SlotMap SlotsReply.

(** ** The reply, as documented *)

(** Fields between separators, and lines. *)
Fixpoint join (sep : byte) (fs : list bytes) : bytes :=
  match fs with
  | [] => []
  | [f] => f
  | f :: rest => f ++ sep :: join sep rest
  end.

Definition NL : byte := "010"%byte.
Definition SP : byte := " "%byte.
Definition text_of (lines : list (list bytes)) : bytes := concat ((fun fs => join SP fs ++ [NL]) <$> lines).
Definition field_ok (f : bytes) : Prop := (SP ∉ f) /\ (NL ∉ f).

(** A slot field: a slot, a range of slots, or a slot that is being moved. *)
Inductive slot_text : bytes -> option (Z * Z) -> Prop :=
  | slot_one n : 0 <= n < REDIS_CLUSTER_SLOTS -> slot_text (dec n) (Some (n, n))
  | slot_range a b : 0 <= a <= b -> b < REDIS_CLUSTER_SLOTS ->
      slot_text (dec a ++ "-"%byte :: dec b) (Some (a, b))
  | slot_open n arrow id : 0 <= n -> ("-"%byte ∉ arrow) -> ("-"%byte ∉ id) ->
      slot_text (("["%byte :: dec n) ++ "-"%byte :: arrow ++ "-"%byte :: id) None.

Record node_line := mkNodeLine { nl_name : bytes; nl_host : bytes; nl_port : Z; nl_ranges : list (Z * Z) }.
Definition nl_addr (l : node_line) : bytes := address (nl_host l) (nl_port l).

Definition skipped (fs : list bytes) : bool := bool_decide (str ":0" `prefix_of` fs !!! 1%nat).
Definition of_master (fs : list bytes) : bool :=
  bool_decide (str "master" `prefix_of` fs !!! 2%nat) || bool_decide (str "myself,master" `prefix_of` fs !!! 2%nat).

(** The address of a node, which newer servers give with the port of the cluster bus. *)
Definition addr_text (host : bytes) (port : Z) (addr : bytes) : Prop :=
  addr = address host port \/ exists cport, addr = address host port ++ "@"%byte :: cport.

(** [<id> <ip:port@cport> <flags> <master> <ping> <pong> <epoch> <state> <slot> ...]; lines of
    nodes without an address and of nodes that are not masters do not count. *)
Inductive is_line : list bytes -> option node_line -> Prop :=
  | line_master name host port addr flags mid slots ranges :
      good_node host port -> ("@"%byte ∉ host) ->
      addr_text host port addr ->
      length mid = 5%nat -> Forall2 slot_text slots ranges ->
      skipped (name :: addr :: flags :: mid ++ slots) = false ->
      of_master (name :: addr :: flags :: mid ++ slots) = true ->
      is_line (name :: addr :: flags :: mid ++ slots) (Some (mkNodeLine name host port (omap id ranges)))
  | line_other fs : (8 <= length fs)%nat -> skipped fs = true \/ of_master fs = false -> is_line fs None.

(** ** The nodes of a list of lines *)
Definition range_slot (p : loc) (r : Z * Z) : cluster_slot := mkSlot r.1 r.2 (Some p).
Definition line_node (p : loc) (l : node_line) : redisClusterNode :=
  mkClusterNode (Some (nl_name l)) (Some (nl_addr l)) (Some (nl_host l)) (nl_port l) REDIS_ROLE_MASTER 0 None None 0
    (Some (range_slot p <$> nl_ranges l)) None None None.

(** ** Text *)
Lemma fields_join sep fs : fs ≠ [] -> Forall (fun f => sep ∉ f) fs -> fields sep (join sep fs) = fs.
Proof.
  intros Hne Hf. induction Hf as [|f fs Hs Hf IH]; [done|]. cbn [join]. destruct fs as [|g fs]; [by apply fields_no_sep|].
  rewrite fields_app by done. by rewrite IH.
Qed.

Lemma starts_with_prefix s p : starts_with s p = bool_decide (p `prefix_of` s).
Proof.
  unfold starts_with, memeq. rewrite firstn_all. destruct (bool_decide (p `prefix_of` s)) eqn:E.
  - apply bool_decide_eq_true in E as [t ->]. rewrite length_app, take_app_length, bool_decide_true, andb_true_r by done.
    apply Nat.leb_le. lia.
  - apply bool_decide_eq_false in E. apply andb_false_intro2. apply bool_decide_false. intros Ht. apply E.
    exists (drop (length p) s). rewrite <- Ht at 1. by rewrite take_drop.
Qed.

Lemma role_master fs : starts_with (line_role (fs !!! 2%nat)) (str "master") = of_master fs.
Proof.
  unfold of_master, line_role. set (f := fs !!! 2%nat). rewrite !starts_with_prefix.
  destruct (bool_decide (str "myself," `prefix_of` f)) eqn:E.
  - apply bool_decide_eq_true in E as [t Ef]. rewrite Ef.
    assert (Hn : bool_decide (str "master" `prefix_of` str "myself," ++ t) = false).
    { apply bool_decide_false. intros [u Hu]. done. }
    rewrite Hn. cbn [orb]. change (str "myself,master") with (str "myself," ++ str "master"). cbn [drop].
    apply bool_decide_ext. change (drop 7 (str "myself," ++ t)) with t. split; [apply prefix_app|apply prefix_app_inv].
  - apply bool_decide_eq_false in E. symmetry.
    rewrite (bool_decide_false (str "myself,master" `prefix_of` f)), orb_false_r; [done|].
    intros [u Hu]. apply E. exists (str "master" ++ u). exact Hu.
Qed.

Lemma split_join {sds : SdsOps} {laws : SdsLaws sds} sep fs : (2 <= length fs)%nat -> Forall (fun f => sep ∉ f) fs ->
  sdssplitlen (join sep fs) [sep] = fs.
Proof.
  intros Hl Hf. rewrite sdssplitlen_law. unfold split_ref.
  assert (Hne : fs ≠ []) by (intros ->; cbn in Hl; lia).
  destruct (join sep fs) eqn:E; [|by rewrite <- E, fields_join].
  destruct fs as [|f [|g fs]]; [done|cbn in Hl; lia|]. by destruct f.
Qed.

Lemma dec_nonempty z : 0 <= z -> dec z ≠ [].
Proof. intros Hz E. pose proof (dec_length_pos z Hz) as Hl. rewrite E in Hl. cbn in Hl. lia. Qed.

Lemma split_one {sds : SdsOps} {laws : SdsLaws sds} sep z : 0 <= z -> sep ∉ dec z -> sdssplitlen (dec z) [sep] = [dec z].
Proof.
  intros Hz Hs. rewrite sdssplitlen_law. unfold split_ref. pose proof (dec_nonempty z Hz).
  destruct (dec z) eqn:E; [done|]. by rewrite fields_no_sep.
Qed.

Lemma join_no sep b fs : b ≠ sep -> Forall (fun f => b ∉ f) fs -> b ∉ join sep fs.
Proof.
  intros Hb Hf. induction Hf as [|f fs Hs Hf IH]; [apply not_elem_of_nil|]. cbn [join]. destruct fs as [|g fs]; [done|].
  rewrite not_elem_of_app, not_elem_of_cons. done.
Qed.

Lemma join_long sep fs : (2 <= length fs)%nat -> (1 <= length (join sep fs))%nat.
Proof. destruct fs as [|f [|g fs]]; cbn [length]; [lia|lia|]. intros _. cbn [join]. rewrite length_app. cbn. lia. Qed.

Lemma find_byte_app c s t : c ∉ s -> find_byte c (s ++ c :: t) = Some (length s).
Proof.
  induction s as [|b s IH]; intros Hs; cbn [find_byte app length].
  - by rewrite decide_True.
  - apply not_elem_of_cons in Hs as [Hb Hs]. rewrite decide_False by congruence. by rewrite IH.
Qed.

Lemma strchr_app a c t : c ∉ a -> Byte.x00 ∉ a -> c ≠ Byte.x00 -> strchr (a ++ c :: t) c = Some (length a).
Proof.
  intros Hc Hz Hn. unfold strchr. assert (E : c_str (a ++ c :: t) = a ++ c :: c_str t).
  { clear Hc. induction a as [|b a IH]; cbn [c_str app].
    - by rewrite decide_False by done.
    - apply not_elem_of_cons in Hz as [Hb Hz]. rewrite decide_False by congruence. by rewrite IH. }
  rewrite E. by apply find_byte_app.
Qed.

Lemma range_ref_take a t : a ≠ [] -> range_ref (a ++ t) 0 (Z.of_nat (length a) - 1) = a.
Proof.
  intros Hne. assert (0 < Z.of_nat (length a)) by (destruct a; [done|cbn; lia]). unfold range_ref.
  replace (0 <? 0) with false by done. destruct (Z.of_nat (length a) - 1 <? 0) eqn:E; [apply Z.ltb_lt in E; lia|].
  destruct (Z.of_nat (length a) - 1 <? 0) eqn:E2; [done|]. rewrite drop_0. 
  replace (Z.to_nat (Z.of_nat (length a) - 1 - 0 + 1)) with (length a) by lia. by rewrite take_app_length.
Qed.

Lemma addr_field {sds : SdsOps} {laws : SdsLaws sds} host port addr : good_node host port -> "@"%byte ∉ host ->
  addr_text host port addr ->
  match strchr addr PORT_CPORT_SEPARATOR with Some p => sdsrange addr 0 (Z.of_nat p - 1) | None => addr end =
    address host port.
Proof.
  intros (Hne & Hz & Hp) Hat Ha.
  assert (Hn1 : "@"%byte ∉ address host port) by (apply address_no; done || lia).
  assert (Hn2 : Byte.x00 ∉ address host port) by (apply address_no; done || lia).
  unfold PORT_CPORT_SEPARATOR. destruct Ha as [->|[cport ->]].
  - unfold strchr. rewrite c_str_no_nul by done. by rewrite (proj2 (find_byte_None _ _)).
  - rewrite strchr_app, sdsrange_law by done. apply range_ref_take. unfold address. by destruct host.
Qed.

Section NodesReply.
Context {W : Type} `{HiredisOps W} {sds : SdsOps} {laws : SdsLaws sds}.
Implicit Types (st : cstate W) (s : tstate W).

(** The loop over the text runs the line's function on every line. *)
Fixpoint t_each (c : conn) (lines : list bytes) : G (tstate W) n_label () :=
  match lines with
  | [] => mret ()
  | l :: rest => t_line c l;; t_each c rest
  end.

Lemma t_lines_each c ls : Forall (fun l => (NL ∉ l) /\ (1 <= length l)%nat) ls -> forall fuel pre k s, (k <= 1)%nat ->
  (length ls < fuel)%nat ->
  t_lines fuel c (pre ++ concat ((fun l => l ++ [NL]) <$> ls)) (length pre) (length pre + k) s = t_each c ls s.
Proof.
  induction 1 as [|l ls [Hl Hlen] Hls IH]; intros fuel pre k s Hk Hf; (destruct fuel as [|fuel]; [cbn in Hf; lia|]).
  - cbn [t_lines fmap list_fmap concat]. rewrite app_nil_r, drop_ge by lia. done.
  - cbn [t_lines t_each fmap list_fmap concat]. set (rest := concat _).
    assert (Hd : drop (length pre + k) (pre ++ (l ++ [NL]) ++ rest) = drop k l ++ NL :: rest).
    { rewrite <- drop_drop, drop_app_length, <- app_assoc, drop_app_le by lia. done. }
    rewrite Hd. change "010"%byte with NL.
    assert (Hnl : NL ∉ drop k l).
    { intros Hin. apply Hl. apply list_elem_of_In in Hin. apply list_elem_of_In. rewrite <- (take_drop k l). apply in_or_app. by right. }
    rewrite find_byte_app, length_drop by done.
    replace (length pre + k + (length l - k))%nat with (length pre + length l)%nat by lia.
    replace (length pre + length l - length pre)%nat with (length l) by lia.
    rewrite drop_app_length, <- app_assoc, take_app_length.
    assert (E : forall u, t_lines fuel c (pre ++ l ++ [NL] ++ rest) (S (length pre + length l)) (S (S (length pre + length l))) u = t_each c ls u).
    { intros u. assert (El : S (length pre + length l) = length (pre ++ l ++ [NL])) by (rewrite !length_app; cbn; lia).
      rewrite El. replace (S (length (pre ++ l ++ [NL]))) with (length (pre ++ l ++ [NL]) + 1)%nat by lia.
      replace (pre ++ l ++ [NL] ++ rest) with ((pre ++ l ++ [NL]) ++ rest) by (by rewrite <- !app_assoc).
      apply IH; [lia|]. cbn in Hf. lia. }
    unfold mbind, g_bind. destruct (t_line c l s) as [s' [[]|?|]]; [|done|done]. apply E.
Qed.

Lemma node_get_with_nodes_ok {L} c st name addr tail host port : s_allocs st = [] -> good_node host port ->
  "@"%byte ∉ host -> addr_text host port addr -> (6 <= length tail)%nat -> exists p, s_heap st !! p = None /\
  node_get_with_nodes (L := L) c (name :: addr :: tail) REDIS_ROLE_MASTER st =
    (upd_heap (<[p := line_node p (mkNodeLine name host port [])]>) st, Normal (Some p)).
Proof.
  intros Ha Hg Hat Haddr Hl. pose proof Hg as (Hne & Hz & Hp). destruct (createNode_ok (L := L) st Ha) as (p & Hfree & Ec).
  exists p. split; [done|]. unfold node_get_with_nodes.
  destruct (Z.of_nat (length (name :: addr :: tail)) <? 8) eqn:E; [apply Z.ltb_lt in E; cbn in E; lia|].
  rewrite (gbind_normal _ _ _ _ _ Ec). unfold gcatch. rewrite (gbind_normal _ _ _ _ _ (put_node_ins _ _ _ _)).
  replace (REDIS_ROLE_MASTER =? REDIS_ROLE_MASTER) with true by done. rewrite gbind_assoc.
  rewrite (gbind_normal _ _ _ _ _ (alloc_or_ok (upd_heap _ st) _ Ha)).
  do 2 rewrite (gbind_normal _ _ _ _ _ (put_node_ins _ _ _ _)).
  cbn [list_lookup_total]. cbv zeta. change ((name :: addr :: tail) !!! 1%nat) with addr.
  change ((name :: addr :: tail) !!! 0%nat) with name.
  rewrite (addr_field host port) by done. rewrite address_colon by (done || lia).
  rewrite address_port by (unfold UINT16_MAX, INT_MAX in *; done || lia).
  rewrite hi_atoi_dec by (unfold UINT16_MAX, INT_MAX in *; lia).
  destruct ((port <? 1) || (UINT16_MAX <? port)) eqn:E2; [lia|]. rewrite (gbind_normal _ _ _ _ _ (put_node_ins _ _ _ _)).
  destruct (length host =? 0)%nat eqn:E3; [apply Nat.eqb_eq in E3; by destruct host|]. cbn [negb].
  rewrite (gbind_normal _ _ _ _ _ (put_node_ins _ _ _ _)).
  rewrite (gbind_normal _ _ _ _ _ (sds_or_ok (upd_heap _ st) _ Ha)), (gbind_normal _ _ _ _ _ (put_node_ins _ _ _ _)).
  rewrite sdsnewlen_law, address_host by apply address_long.
  replace (u16 port) with port by (symmetry; apply wrapu_small; unfold UINT16_MAX in *; lia). done.
Qed.

(** ** The slots of a master *)
Definition with_ranges (l : node_line) (rs : list (Z * Z)) : node_line :=
  mkNodeLine (nl_name l) (nl_host l) (nl_port l) (nl_ranges l ++ rs).

Definition no_open_slots st : Prop := flag_set (cc_flags (s_cc st)) HIRCLUSTER_FLAG_ADD_OPENSLOT = false.

Lemma t_split_ok s text sep : s_allocs (ts_st s) = [] -> t_split text sep s = (s, Normal (sdssplitlen text sep)).
Proof.
  intros Ha. unfold t_split. rewrite (gbind_normal _ _ _ _ _ (t_lift_normal _ _ _ _ (alloc_ok _ Ha))). by destruct s.
Qed.

Lemma slot_create_ok st p l : s_allocs st = [] ->
  cluster_slot_create (L := n_label) p (upd_heap (<[p := line_node p l]>) st) =
    (upd_heap (<[p := n_set_slots (Some ((range_slot p <$> nl_ranges l) ++ [mkSlot 0 0 (Some p)])) (line_node p l)]>) st,
     Normal (Some (mkSlot 0 0 (Some p)))).
Proof.
  intros Ha. set (st1 := upd_heap (<[p := line_node p l]>) st).
  assert (Hg : get_node (L := n_label) p st1 = (st1, Normal (line_node p l))).
  { unfold get_node, st1. cbn. by rewrite lookup_insert_eq. }
  unfold cluster_slot_create. rewrite (gbind_normal _ _ _ _ _ (alloc_ok st1 Ha)). unfold add_slot.
  rewrite gbind_assoc, (gbind_normal _ _ _ _ _ Hg). cbn [n_slots line_node]. rewrite gbind_assoc, gbind_ret.
  rewrite gbind_assoc, (gbind_normal _ _ _ _ _ (alloc_ok st1 Ha)), gbind_assoc, (gbind_normal _ _ _ _ _ Hg), gbind_assoc.
  unfold st1. by rewrite (gbind_normal _ _ _ _ _ (put_node_ins _ _ _ _)), gbind_ret.
Qed.

Lemma set_last_slot_snoc a b slots slot : set_last_slot a b (slots ++ [slot]) = slots ++ [mkSlot a b (sl_node slot)].
Proof. unfold set_last_slot. rewrite reverse_snoc. by rewrite reverse_cons, reverse_involutive. Qed.

(** The state of the parser while it reads the slots of the node at [p]. *)
Definition at_line st d names slot m found (p : loc) (l : node_line) : tstate W :=
  mkTstate (upd_heap (<[p := line_node p l]>) st) d names slot m found.

Lemma t_range_ok st d names slot m found p l a b : s_allocs st = [] -> 0 <= a <= b -> b < REDIS_CLUSTER_SLOTS ->
  0 <= found < INT_MAX ->
  (t_found;;
   slot ← t_lift (cluster_slot_create p);
   _ ← gsome n_oom slot;
   t_lift (put_node p (fun nd => n_set_slots (set_last_slot (u32 a) (u32 b) <$> n_slots nd) nd)))
    (at_line st d names slot m found p l) =
  (at_line st d names slot m (found + 1) p (with_ranges l [(a, b)]), Normal ()).
Proof.
  intros Ha Hab Hb Hf. unfold t_found, at_line. rewrite gbind_modify. cbn [ts_st ts_nodes ts_names ts_slot ts_master ts_found].
  rewrite (gbind_normal _ _ _ _ _ (t_lift_normal _ (mkTstate _ d names slot m _) _ _ (slot_create_ok st p l Ha))).
  cbn [gsome]. rewrite gbind_ret. erewrite t_lift_normal; [|apply put_node_ins]. cbn [ts_nodes ts_names ts_slot ts_master ts_found].
  rewrite i32_small by (unfold INT_MIN, INT_MAX in *; lia).
  rewrite !u32_small by (unfold REDIS_CLUSTER_SLOTS in *; lia).
  unfold n_set_slots at 1. cbn [n_slots n_set_slots fmap option_fmap option_map]. rewrite set_last_slot_snoc. cbn [sl_node].
  unfold line_node, with_ranges. cbn [nl_ranges nl_name nl_host nl_port]. rewrite fmap_app. done.
Qed.

Lemma t_slot_field_ok st d names slot m found p l text r : s_allocs st = [] -> no_open_slots st -> slot_text text r ->
  0 <= found < INT_MAX ->
  t_slot_field p text (at_line st d names slot m found p l) =
    (at_line st d names slot m (found + Z.of_nat (length (option_list r))) p (with_ranges l (option_list r)), Normal ()).
Proof.
  intros Ha Ho Ht Hf. unfold t_slot_field. rewrite (gbind_normal _ _ _ _ _ (t_split_ok (at_line st d names slot m found p l) _ _ Ha)).
  change (str "-") with ["-"%byte].
  assert (Hd : forall n, 0 <= n -> "-"%byte ∉ dec n) by (intros; by apply dec_no).
  assert (Hi : forall n, 0 <= n < REDIS_CLUSTER_SLOTS -> hi_atoi (dec n) = n).
  { intros n Hn. apply hi_atoi_dec. unfold REDIS_CLUSTER_SLOTS, INT_MAX in *. lia. }
  destruct Ht as [n Hn|a b Hab Hb|n arrow id Hn Harr Hid].
  - rewrite split_one by (lia || (apply Hd; lia)). rewrite gbind_ret, Hi by done.
    destruct (_ || _) eqn:E; [unfold REDIS_CLUSTER_SLOTS in *; lia|]. rewrite t_range_ok by (done || lia). done.
  - change (dec a ++ "-"%byte :: dec b) with (join "-"%byte [dec a; dec b]).
    rewrite split_join by first [solve [cbn; lia] | repeat constructor; apply Hd; lia]. rewrite gbind_ret, !Hi by lia.
    destruct (_ || _) eqn:E; [unfold REDIS_CLUSTER_SLOTS in *; lia|]. rewrite t_range_ok by (done || lia). done.
  - rewrite sdssplitlen_3; [|apply not_elem_of_cons; split; [done|by apply Hd]|done|done].
    unfold t_open_slot. rewrite !gbind_assoc, gbind_get. cbn [ts_st at_line]. unfold no_open_slots in Ho.
    change (cc_flags (s_cc (upd_heap _ st))) with (cc_flags (s_cc st)). rewrite Ho. cbn [andb]. rewrite !gbind_ret.
    cbn. unfold at_line, with_ranges. rewrite app_nil_r, Z.add_0_r. by destruct l.
Qed.

Lemma t_slot_fields_ok texts rs : Forall2 slot_text texts rs -> forall st d names slot m found p l, s_allocs st = [] ->
  no_open_slots st -> 0 <= found -> found + Z.of_nat (length (omap id rs)) < INT_MAX ->
  t_slot_fields p texts (at_line st d names slot m found p l) =
    (at_line st d names slot m (found + Z.of_nat (length (omap id rs))) p (with_ranges l (omap id rs)), Normal ()).
Proof.
  induction 1 as [|text r texts rs Ht Hts IH]; intros st d names slot m found p l Ha Ho Hf Hm; cbn [t_slot_fields].
  - cbn. unfold at_line, with_ranges. rewrite app_nil_r, Z.add_0_r. by destruct l.
  - assert (El : omap id (r :: rs) = option_list r ++ omap id rs) by (by destruct r).
    rewrite El in *. rewrite length_app in *.
    rewrite (gbind_normal _ _ _ _ _ (t_slot_field_ok st d names slot m found p l text r Ha Ho Ht ltac:(lia))).
    rewrite IH by (done || lia). unfold with_ranges. cbn [nl_ranges nl_name nl_host nl_port]. rewrite <- app_assoc.
    by replace (found + Z.of_nat (length (option_list r)) + Z.of_nat (length (omap id rs))) with
      (found + Z.of_nat (length (option_list r) + length (omap id rs))) by lia.
Qed.

(** ** Lines *)

(** The dict and the heap hold one node per line, beside the nodes that were there. *)
Record lists (h0 : nheap) (ls : list node_line) (d : dict bytes loc) (h : nheap) : Prop := {
  li_dict : dict_wf (clusterNodesDictType (W := W)) d;
  li_used : d_used d = Z.of_nat (length ls);
  li_node : forall l, l ∈ ls -> exists p, to_map d !! nl_addr l = Some p /\ h !! p = Some (line_node p l);
  li_all : forall addr p, to_map d !! addr = Some p -> h0 !! p = None /\ exists l, l ∈ ls /\ nl_addr l = addr /\
    h !! p = Some (line_node p l);
  li_rest : forall p nd, h0 !! p = Some nd -> h !! p = Some nd
}.

Lemma lists_new h0 ls d d' h p l : lists h0 ls d h -> to_map d !! nl_addr l = None -> h !! p = None ->
  dict_wf (clusterNodesDictType (W := W)) d' -> to_map d' = <[nl_addr l := p]> (to_map d) ->
  lists h0 (ls ++ [l]) d' (<[p := line_node p l]> h).
Proof.
  intros [Hd Hu Hn Ha Hr] Hk Hfree Hwf Hm.
  assert (Hne : forall l', l' ∈ ls -> nl_addr l ≠ nl_addr l').
  { intros l' Hl E. destruct (Hn l' Hl) as (q & Hq & _). congruence. }
  split.
  - done.
  - rewrite length_app. cbn [length]. pose proof (to_map_size _ _ Hd). pose proof (to_map_size _ _ Hwf) as Hsz.
    rewrite Hm, map_size_insert_None in Hsz by done. lia.
  - intros l' [Hl| ->%list_elem_of_singleton]%elem_of_app; rewrite Hm.
    + destruct (Hn l' Hl) as (q & Hq & Hh). exists q. rewrite lookup_insert_ne by by apply Hne. split; [done|].
      rewrite lookup_insert_ne by congruence. done.
    + exists p. by rewrite !lookup_insert_eq.
  - intros addr q. rewrite Hm. destruct (decide (addr = nl_addr l)) as [->|Hna].
    + rewrite lookup_insert_eq. intros [= <-]. split; [destruct (h0 !! p) eqn:E; [apply Hr in E; congruence|done]|].
      exists l. rewrite lookup_insert_eq. split; [apply elem_of_app; right; left|done].
    + rewrite lookup_insert_ne by done. intros Hq. destruct (Ha _ _ Hq) as (H0 & l' & Hl & <- & Hh). split; [done|].
      exists l'. rewrite lookup_insert_ne by congruence. split; [apply elem_of_app; by left|done].
  - intros q nq Hq. apply Hr in Hq. by rewrite lookup_insert_ne by congruence.
Qed.

Definition defaults st : Prop := s_allocs st = [] /\ no_slaves st /\ no_open_slots st.

Lemma t_master_line_ok c st d names slot m found name host port addr flags mid slots ranges h0 ls h :
  let l := mkNodeLine name host port (omap id ranges) in
  defaults st -> good_node host port -> "@"%byte ∉ host -> addr_text host port addr -> length mid = 5%nat ->
  Forall2 slot_text slots ranges -> lists h0 ls d h -> Z.of_nat (length ls) < 2 ^ 28 -> to_map d !! nl_addr l = None ->
  0 <= found -> found + Z.of_nat (length (nl_ranges l)) < INT_MAX ->
  exists d' h', lists h0 (ls ++ [l]) d' h' /\
    t_master_line c (name :: addr :: flags :: mid ++ slots) (mkTstate (hp h st) d names slot m found) =
      (mkTstate (hp h' st) d' names slot m (found + Z.of_nat (length (nl_ranges l))), Normal ()).
Proof.
  intros l (Ha & Hns & Hno) Hg Hat Haddr Hmid Hsl Hli Hlen Hk Hf Hmax.
  destruct (node_get_with_nodes_ok (L := n_label) c (hp h st) name addr (flags :: mid ++ slots) host port Ha Hg Hat Haddr)
    as (p & Hfree & En); [cbn; rewrite length_app; lia|].
  set (l0 := mkNodeLine name host port []). set (st1 := upd_heap (<[p := line_node p l0]>) (hp h st)) in *.
  assert (Hok : nodes_ok (W := W) d) by (split; [apply Hli|unfold dict_small; rewrite (li_used _ _ _ _ Hli); lia]).
  destruct (t_add_node_ok st1 d names slot m found p _ (nl_addr l) Ha Hok (lookup_insert_eq _ _ _) eq_refl Hk)
    as (d' & Hwf & Hm' & Eadd).
  exists d', (<[p := line_node p l]> h). split; [by apply (lists_new _ _ d)|]. unfold t_master_line.
  rewrite (gbind_normal _ _ _ _ _ (t_lift_normal _ (mkTstate (hp h st) d names slot m found) _ _ En)). cbn [gsome].
  rewrite gbind_ret. cbn [ts_nodes ts_names ts_slot ts_master ts_found]. fold st1.
  rewrite (gbind_normal _ _ _ _ _ Eadd). replace (negb (DICT_OK =? DICT_OK)) with false by done. rewrite gbind_get.
  cbn [ts_st]. unfold no_slaves in Hns. change (s_cc st1) with (s_cc st). rewrite Hns, gbind_ret.
  assert (Edrop : drop 8 (name :: addr :: flags :: mid ++ slots) = slots).
  { cbn [drop]. rewrite drop_app_length' by done. done. }
  rewrite Edrop. change (mkTstate st1 d' names slot m found) with (at_line (hp h st) d' names slot m found p l0).
  by rewrite (t_slot_fields_ok slots ranges Hsl (hp h st) d' names slot m found p l0 Ha Hno Hf).
Qed.

Definition range_count (ls : list node_line) : Z := Z.of_nat (length (concat (nl_ranges <$> ls))).

Lemma range_count_app ls ls' : range_count (ls ++ ls') = range_count ls + range_count ls'.
Proof. unfold range_count. rewrite fmap_app, concat_app, length_app. lia. Qed.

Lemma t_line_start c fs s : s_allocs (ts_st s) = [] -> no_slaves (ts_st s) -> (8 <= length fs)%nat ->
  Forall (fun f => SP ∉ f) fs ->
  t_line c (join SP fs) s =
    if negb (skipped fs) && of_master fs then t_master_line c fs s else (s, Normal ()).
Proof.
  intros Ha Hns Hl Hf. unfold t_line. rewrite (gbind_normal _ _ _ _ _ (t_split_ok s _ _ Ha)).
  change (str " ") with [SP]. rewrite split_join by (done || lia).
  destruct (Z.of_nat (length fs) <? 8) eqn:E; [apply Z.ltb_lt in E; lia|]. rewrite starts_with_prefix. fold (skipped fs).
  destruct (skipped fs); [done|]. rewrite gbind_get. cbn [negb andb]. rewrite role_master. destruct (of_master fs); [done|]. unfold no_slaves in Hns. rewrite Hns. done.
Qed.

Lemma is_line_long fs r : is_line fs r -> (8 <= length fs)%nat.
Proof. intros []; [|done]. cbn. rewrite length_app. lia. Qed.

Lemma t_line_ok c st d names slot m found fs r h0 ls h : defaults st -> is_line fs r -> Forall field_ok fs ->
  lists h0 ls d h -> Z.of_nat (length ls) < 2 ^ 28 -> NoDup (nl_addr <$> ls ++ option_list r) ->
  0 <= found -> found + range_count (option_list r) < INT_MAX ->
  exists d' h', lists h0 (ls ++ option_list r) d' h' /\
    t_line c (join SP fs) (mkTstate (hp h st) d names slot m found) =
      (mkTstate (hp h' st) d' names slot m (found + range_count (option_list r)), Normal ()).
Proof.
  intros Hdef Hl Hfs Hli Hlen Hnd Hf Hmax. pose proof Hdef as (Ha & Hns & _). pose proof (is_line_long _ _ Hl) as Hlong.
  rewrite (t_line_start c fs (mkTstate (hp h st) d names slot m found) Ha Hns Hlong) by
    (apply (Forall_impl _ _ _ Hfs); by intros f []).
  destruct Hl as [name host port addr flags mid slots ranges Hg Hat Haddr Hmid Hsl Hsk Hma|fs _ Hsk].
  - rewrite Hsk, Hma. cbn [negb andb]. set (l := mkNodeLine name host port (omap id ranges)) in *.
    assert (Ec : range_count (option_list (Some l)) = Z.of_nat (length (nl_ranges l))) by (unfold range_count; cbn; by rewrite app_nil_r).
    rewrite Ec in *. change (option_list (Some l)) with [l] in *. apply t_master_line_ok with (ls := ls); try done.
    destruct (to_map d !! nl_addr l) as [p|] eqn:E; [|done]. destruct (li_all _ _ _ _ Hli _ _ E) as (_ & l' & Hl' & El & _).
    rewrite fmap_app in Hnd. apply NoDup_app in Hnd as (_ & Hdis & _). destruct (Hdis (nl_addr l)).
    + rewrite <- El. by apply list_elem_of_fmap_2.
    + left.
  - exists d, h. change (option_list None) with (@nil node_line). rewrite app_nil_r.
    replace (negb (skipped fs) && of_master fs) with false by (destruct Hsk as [-> | ->]; [done|by rewrite andb_false_r]).
    split; [done|]. unfold range_count. cbn. by rewrite Z.add_0_r.
Qed.

Lemma t_each_ok c st h0 fss rs : defaults st -> Forall2 is_line fss rs -> Forall (Forall field_ok) fss ->
  forall ls d h names slot m found, lists h0 ls d h -> Z.of_nat (length ls + length (omap id rs)) < 2 ^ 28 ->
  NoDup (nl_addr <$> ls ++ omap id rs) -> 0 <= found -> found + range_count (omap id rs) < INT_MAX ->
  exists d' h', lists h0 (ls ++ omap id rs) d' h' /\
    t_each c (join SP <$> fss) (mkTstate (hp h st) d names slot m found) =
      (mkTstate (hp h' st) d' names slot m (found + range_count (omap id rs)), Normal ()).
Proof.
  intros Hdef Hls. induction Hls as [|fs r fss rs Hl Hls IH]; intros Hfs ls d h names slot m found Hli Hlen Hnd Hf Hmax.
  { exists d, h. cbn. unfold range_count. cbn. by rewrite app_nil_r, Z.add_0_r. }
  apply Forall_cons in Hfs as [Hfs0 Hfs].
  assert (El : omap id (r :: rs) = option_list r ++ omap id rs) by (by destruct r).
  rewrite El in *. rewrite range_count_app, length_app, app_assoc in *.
  assert (Hpos : forall l, 0 <= range_count l) by (intros; unfold range_count; lia).
  destruct (t_line_ok c st d names slot m found fs r h0 ls h Hdef Hl Hfs0 Hli) as (d1 & h1 & Hli1 & E1);
    [lia|rewrite fmap_app in Hnd; by apply NoDup_app in Hnd as [? _]|done|pose proof (Hpos (omap id rs)); lia|].
  pose proof (Hpos (option_list r)).
  destruct (IH Hfs (ls ++ option_list r) d1 h1 names slot m (found + range_count (option_list r)) Hli1)
    as (d' & h' & Hli' & E'); [rewrite length_app; lia|done|lia|lia|].
  exists d', h'. split; [done|]. cbn [fmap list_fmap t_each]. rewrite (gbind_normal _ _ _ _ _ E1). fold (join SP <$> fss).
  rewrite E'. by rewrite Z.add_assoc.
Qed.

Lemma text_lines fss : text_of fss = concat ((fun l => l ++ [NL]) <$> (join SP <$> fss)).
Proof. unfold text_of. by rewrite <- list_fmap_compose. Qed.

Lemma good_lines fss rs : Forall2 is_line fss rs -> Forall (Forall field_ok) fss ->
  Forall (fun l => (NL ∉ l) /\ (1 <= length l)%nat) (join SP <$> fss).
Proof.
  intros Hl Hf. apply Forall_fmap. induction Hl as [|fs r fss rs Hl Hls IH]; [done|]. apply Forall_cons in Hf as [Hf0 Hf].
  constructor; [|by apply IH]. pose proof (is_line_long _ _ Hl). split; [|apply join_long; lia].
  apply join_no; [done|]. apply (Forall_impl _ _ _ Hf0). by intros f [].
Qed.

Lemma lines_run c st fss rs : defaults st -> Forall2 is_line fss rs -> Forall (Forall field_ok) fss ->
  NoDup (nl_addr <$> omap id rs) -> Z.of_nat (length (omap id rs)) < 2 ^ 28 -> range_count (omap id rs) < INT_MAX ->
  exists d h, lists (s_heap st) (omap id rs) d h /\
    t_lines (S (length (text_of fss))) c (text_of fss) 0 0 (mkTstate st dictReset None None None 0) =
      (mkTstate (hp h st) d None None None (range_count (omap id rs)), Normal ()).
Proof.
  intros Hdef Hl Hfs Hnd Hlen Hmax.
  assert (Hli0 : lists (s_heap st) [] dictReset (s_heap st)).
  { split; [apply dictReset_wf|done| | |done]; [by intros l Hl'%elem_of_nil|]. intros addr p E.
    by change (to_map dictReset) with (∅ : gmap bytes loc) in E; apply lookup_empty_Some in E. }
  destruct (t_each_ok c st (s_heap st) fss rs Hdef Hl Hfs [] dictReset (s_heap st) None None None 0 Hli0)
    as (d & h & Hli & E); [done|done|done|done|].
  exists d, h. split; [exact Hli|]. rewrite text_lines. set (ls := join SP <$> fss) in *.
  assert (Hlt : (length ls <= length (concat ((fun l => l ++ [NL]) <$> ls)))%nat).
  { clear. induction ls as [|l ls IH]; [done|]. rewrite fmap_cons. cbn [concat]. rewrite !length_app. cbn [length]. lia. }
  replace (hp (s_heap st) st) with st in E by by destruct st. rewrite Z.add_0_l in E. rewrite <- E.
  apply (t_lines_each c ls (good_lines fss rs Hl Hfs) _ [] 0); lia.
Qed.

Lemma lists_ok h0 ls d h : lists h0 ls d h -> Z.of_nat (length ls) < 2 ^ 28 -> nodes_ok (W := W) d.
Proof. intros Hli Hlen. split; [apply Hli|]. unfold dict_small. rewrite (li_used _ _ _ _ Hli). lia. Qed.

Lemma nodes_parse_run {L} c st fss rs : defaults st -> Forall2 is_line fss rs -> Forall (Forall field_ok) fss ->
  NoDup (nl_addr <$> omap id rs) -> Z.of_nat (length (omap id rs)) < 2 ^ 28 -> 0 < range_count (omap id rs) < INT_MAX ->
  exists d h, lists (s_heap st) (omap id rs) d h /\
    parse_cluster_nodes (L := L) c (text_of fss) st = (hp h st, Normal (Some d)).
Proof.
  intros Hdef Hl Hfs Hnd Hlen Hr. destruct (lines_run c st fss rs Hdef Hl Hfs Hnd Hlen) as (d & h & Hli & E); [lia|].
  exists d, h. split; [done|]. unfold parse_cluster_nodes, t_finish.
  erewrite gbind_normal; [|unfold m_dictCreate; rewrite (gbind_normal _ _ _ _ _ (alloc_ok st (proj1 Hdef))); reflexivity].
  cbn [dictCreate]. unfold t_run. rewrite (gbind_normal _ _ _ _ _ E), gbind_get. cbn [ts_found].
  by destruct (range_count (omap id rs) =? 0) eqn:E0; [apply Z.eqb_eq in E0; lia|].
Qed.

(** What the lines of a reply say of each address. *)
Definition nodes_spec (ls : list node_line) : gmap bytes (list (Z * Z)) :=
  list_to_map ((fun l => (nl_addr l, nl_ranges l)) <$> ls).

Lemma nodes_spec_lookup ls l : NoDup (nl_addr <$> ls) -> l ∈ ls -> nodes_spec ls !! nl_addr l = Some (nl_ranges l).
Proof.
  intros Hnd Hl. apply elem_of_list_to_map_1; [|apply list_elem_of_fmap; by exists l]. rewrite <- list_fmap_compose. exact Hnd.
Qed.

Lemma line_ranges h p l : h !! p = Some (line_node p l) -> node_ranges h p = nl_ranges l.
Proof.
  intros Hp. unfold node_ranges. rewrite Hp. cbn. unfold node_slots. cbn. rewrite <- list_fmap_compose.
  rewrite <- (list_fmap_id (nl_ranges l)) at 2. apply list_fmap_ext. by intros i [].
Qed.

Lemma lists_spec h0 ls d h : lists h0 ls d h -> NoDup (nl_addr <$> ls) -> node_ranges h <$> to_map d = nodes_spec ls.
Proof.
  intros Hli Hnd. apply map_eq. intros addr. rewrite lookup_fmap. destruct (to_map d !! addr) as [p|] eqn:E.
  - destruct (li_all _ _ _ _ Hli _ _ E) as (_ & l & Hl & <- & Hh). rewrite nodes_spec_lookup by done. cbn.
    by rewrite (line_ranges _ _ l).
  - symmetry. apply not_elem_of_list_to_map_1. rewrite <- list_fmap_compose. intros (l & -> & Hl)%list_elem_of_fmap.
    destruct (li_node _ _ _ _ Hli l Hl) as (p & Hp & _). cbn in E. congruence.
Qed.

Lemma lists_entry h0 ls d h addr p : lists h0 ls d h -> Z.of_nat (length ls) < 2 ^ 28 -> (addr, p) ∈ dict_pairs d ->
  h0 !! p = None /\ exists l, l ∈ ls /\ nl_addr l = addr /\ h !! p = Some (line_node p l).
Proof.
  intros Hli Hlen Hin. apply (to_map_pairs (W := W)) in Hin; [by apply (li_all _ _ _ _ Hli)|by apply (lists_ok h0 ls d h)].
Qed.

Lemma lists_fresh st ls d h : lists (s_heap st) ls d h -> Z.of_nat (length ls) < 2 ^ 28 -> fresh_nodes st d h.
Proof.
  intros Hli Hlen. split; [by apply (lists_ok (s_heap st) ls d h)| |apply Hli]. intros addr p Hin.
  destruct (lists_entry _ _ _ _ _ _ Hli Hlen Hin) as (H0 & l & _ & <- & Hh). split; [done|]. by eexists.
Qed.

(** ** The slots of the lines *)
Definition range_list (r : Z * Z) : list Z := seqZ r.1 (r.2 - r.1 + 1).
Definition line_slots (l : node_line) : list Z := concat (range_list <$> nl_ranges l).

Lemma elem_of_line_slots l i : i ∈ line_slots l <-> exists r, r ∈ nl_ranges l /\ r.1 <= i <= r.2.
Proof.
  unfold line_slots. rewrite list_elem_of_In, in_concat. split.
  - intros (x & Hx & Hi). apply list_elem_of_In, list_elem_of_fmap in Hx as (r & -> & Hr). exists r. split; [done|].
    apply list_elem_of_In, elem_of_seqZ in Hi. lia.
  - intros (r & Hr & Hi). exists (range_list r). split; [apply list_elem_of_In, list_elem_of_fmap; by exists r|].
    apply list_elem_of_In, elem_of_seqZ. lia.
Qed.

Lemma node_pairs_line p l : (node_pairs p (range_slot p <$> nl_ranges l)).*1 = line_slots l.
Proof.
  unfold node_pairs, line_slots. induction (nl_ranges l) as [|r rs IH]; [done|]. rewrite !fmap_cons. cbn [concat].
  rewrite fmap_app, IH. f_equal. unfold slot_pairs, range_list. rewrite <- list_fmap_compose. apply list_fmap_id.
Qed.

Lemma lists_slots h0 ls d h : lists h0 ls d h -> Z.of_nat (length ls) < 2 ^ 28 -> NoDup (nl_addr <$> ls) ->
  (all_pairs h (dict_pairs d).*2).*1 ≡ₚ concat (line_slots <$> ls).
Proof.
  intros Hli Hlen Hnd. set (f := fun addr => concat (range_list <$> default [] (nodes_spec ls !! addr))).
  assert (E1 : (all_pairs h (dict_pairs d).*2).*1 = flat_map f (dict_pairs d).*1).
  { pose proof (fun addr p => lists_entry h0 ls d h addr p Hli Hlen) as He. unfold all_pairs.
    induction (dict_pairs d) as [|[addr p] es IH]; [done|]. rewrite !fmap_cons. cbn [concat flat_map fst snd].
    rewrite fmap_app, IH by (intros; apply He; by right). f_equal. destruct (He addr p) as (_ & l & Hl & <- & Hh); [left|].
    unfold f. rewrite nodes_spec_lookup by done. rewrite Hh. apply node_pairs_line. }
  assert (E2 : concat (line_slots <$> ls) = flat_map f (nl_addr <$> ls)).
  { assert (Hs : forall l, l ∈ ls -> f (nl_addr l) = line_slots l).
    { intros l Hl. unfold f. by rewrite nodes_spec_lookup by done. }
    clearbody f. clear -Hs. induction ls as [|l ls IH]; [done|]. rewrite !fmap_cons. cbn [concat flat_map]. rewrite Hs by left.
    f_equal. apply IH. intros l' Hl'. apply Hs. by right. }
  rewrite E1, E2. apply Permutation_flat_map, NoDup_Permutation; [|done|].
  - by destruct (lists_ok _ _ _ _ Hli Hlen) as [(_ & Hn & _) _].
  - intros addr. split.
    + intros ([a p] & -> & Hin)%list_elem_of_fmap. destruct (lists_entry _ _ _ _ _ _ Hli Hlen Hin) as (_ & l & Hl & <- & _).
      apply list_elem_of_fmap. by exists l.
    + intros (l & -> & Hl)%list_elem_of_fmap. destruct (li_node _ _ _ _ Hli l Hl) as (p & Hp & _).
      apply (to_map_pairs (W := W)) in Hp; [|by apply (lists_ok h0 ls d h)]. apply list_elem_of_fmap. by exists (nl_addr l, p).
Qed.

Lemma lists_has h0 ls d h i p : lists h0 ls d h -> Z.of_nat (length ls) < 2 ^ 28 -> NoDup (nl_addr <$> ls) ->
  (i, p) ∈ all_pairs h (dict_pairs d).*2 <->
  exists l r, l ∈ ls /\ r ∈ nl_ranges l /\ r.1 <= i <= r.2 /\ (nl_addr l, p) ∈ dict_pairs d.
Proof.
  intros Hli Hlen Hnd. rewrite all_pairs_has. split.
  - intros [(e & -> & He)%list_elem_of_fmap (nd & slot & Hh & Hs & Hi)]. destruct e as [addr p]. cbn [snd] in *.
    destruct (lists_entry _ _ _ _ _ _ Hli Hlen He) as (_ & l & Hl & <- & Hh'). rewrite Hh in Hh'. injection Hh' as ->.
    apply list_elem_of_fmap in Hs as (r & -> & Hr). by exists l, r.
  - intros (l & r & Hl & Hr & Hi & He). split; [apply list_elem_of_fmap; by exists (nl_addr l, p)|].
    destruct (li_node _ _ _ _ Hli l Hl) as (q & Hq & Hh).
    apply (to_map_pairs (W := W)) in He; [|by apply (lists_ok h0 ls d h)]. assert (q = p) as -> by congruence.
    eexists _, (range_slot p r). split; [exact Hh|]. split; [|done]. by apply list_elem_of_fmap_2.
Qed.

Definition line_valid (l : node_line) : Prop := Forall (fun r => r.1 <= r.2 < REDIS_CLUSTER_SLOTS) (nl_ranges l).

Lemma lines_valid fss rs : Forall2 is_line fss rs -> Forall line_valid (omap id rs).
Proof.
  induction 1 as [|fs r fss rs Hl Hls IH]; [done|]. destruct Hl as [name host port addr flags mid slots ranges _ _ _ _ Hsl _ _|]; [|done].
  constructor; [|done]. unfold line_valid. cbn. clear -Hsl. induction Hsl as [|t r ts rs Ht Hts IH]; [done|].
  destruct Ht; cbn; [constructor; [cbn; lia|done]|constructor; [cbn; lia|done]|done].
Qed.

Lemma lists_slotmap_ok h0 ls d h : lists h0 ls d h -> Z.of_nat (length ls) < 2 ^ 28 -> NoDup (nl_addr <$> ls) ->
  Forall line_valid ls -> NoDup (concat (line_slots <$> ls)) -> slotmap_ok h (dict_pairs d).*2.
Proof.
  intros Hli Hlen Hnd Hv Hs. split; [|by rewrite (lists_slots h0 ls d h)].
  apply Forall_forall. intros q (e & -> & He)%list_elem_of_fmap. destruct e as [addr p].
  destruct (lists_entry _ _ _ _ _ _ Hli Hlen He) as (_ & l & Hl & _ & Hh). eexists. split; [exact Hh|]. split; [done|].
  rewrite Forall_forall in Hv. apply Forall_fmap. apply (Forall_impl _ _ _ (Hv l Hl)). done.
Qed.

(** C10. [parse_cluster_nodes] refines the reading of a CLUSTER NODES reply line by line
    ([nodes_spec]): when the masters of the reply have distinct addresses and at least one
    slot, it succeeds; its dict has exactly their addresses, each with the ranges of its
    slot fields in their order; an address has one new master node, with the name, the host
    and the port of its line; and the nodes that were there stay as they are.  Replicas,
    nodes without an address and slots that are being moved do not count. *)
Theorem parse_cluster_nodes_refines {L} c st fss rs : defaults st -> Forall2 is_line fss rs -> Forall (Forall field_ok) fss ->
  let ls := omap id rs in
  NoDup (nl_addr <$> ls) -> Z.of_nat (length ls) < 2 ^ 28 -> 0 < range_count ls < INT_MAX ->
  exists nodes h, parse_cluster_nodes (L := L) c (text_of fss) st = (hp h st, Normal (Some nodes)) /\
    nodes_ok (W := W) nodes /\ node_ranges h <$> to_map nodes = nodes_spec ls /\
    (forall l, l ∈ ls -> exists p, to_map nodes !! nl_addr l = Some p /\ s_heap st !! p = None /\
       h !! p = Some (line_node p l)) /\
    s_heap st ⊆ h.
Proof.
  intros Hdef Hl Hfs ls Hnd Hlen Hr. destruct (nodes_parse_run (L := L) c st fss rs Hdef Hl Hfs Hnd Hlen Hr) as (d & h & Hli & E).
  exists d, h. split; [done|]. split; [by apply (lists_ok (s_heap st) ls d h)|]. split; [by apply (lists_spec (s_heap st))|]. split.
  - intros l Hin. destruct (li_node _ _ _ _ Hli l Hin) as (p & Hp & Hh). exists p.
    by destruct (li_all _ _ _ _ Hli _ _ Hp) as (H0 & _).
  - apply map_subseteq_spec, Hli.
Qed.

(** C8. From the server's answer to CLUSTER NODES, which the client asks by default, to the slot
    table: when the masters of the reply have distinct addresses and disjoint slots,
    [handleClusterNodesReply] succeeds, every slot of a line is served by a live node
    with the address of the line, all other slots are served by nobody, the old nodes are
    gone, and the route version is one higher. *)
Theorem handleClusterNodesReply_maps {L} c st w fss rs qs_old : let ls := omap id rs in
  redisGetReply (s_world st) c = (w, (REDIS_OK, Some (REDIS_REPLY_STRING (text_of fss)))) ->
  Forall2 is_line fss rs -> Forall (Forall field_ok) fss -> defaults st ->
  NoDup (nl_addr <$> ls) -> NoDup (concat (line_slots <$> ls)) ->
  Z.of_nat (length ls) < 2 ^ 28 -> 0 < range_count ls < INT_MAX ->
  match cc_nodes (s_cc st) with Some old => dict_owns st old qs_old | None => qs_old = [] end -> NoDup qs_old ->
  exists st' table, handleClusterNodesReply (L := L) c st = (st', Normal REDIS_OK) /\ cc_table (s_cc st') = Some table /\
    (forall l i, l ∈ ls -> i ∈ line_slots l -> exists p nd, table !! i = Some p /\
       s_heap st' !! p = Some nd /\ n_addr nd = Some (nl_addr l)) /\
    (forall i, (forall l, l ∈ ls -> i ∉ line_slots l) -> table !! i = None) /\
    (forall p, p ∈ qs_old -> s_heap st' !! p = None) /\
    cc_route_version (s_cc st') = u64 (cc_route_version (s_cc st) + 1).
Proof.
  intros ls Hw Hl Hfs Hdef Hnd Hs Hlen Hr Ho Hn. set (st1 := upd_world (fun _ => w) st).
  destruct (nodes_parse_run (L := L) c st1 fss rs Hdef Hl Hfs Hnd Hlen Hr) as (d & h & Hli & Ep).
  pose proof (lists_slotmap_ok _ _ _ _ Hli Hlen Hnd (lines_valid _ _ Hl) Hs) as Hok.
  destruct (fresh_install (L := L) st1 d h (lists_fresh _ _ _ _ Hli Hlen) qs_old (proj1 Hdef) Ho Hn Hok)
    as (st' & table & Eu & Ht & Htab & Hlive & Hgone & Hv).
  assert (Hin : forall l i, i ∈ line_slots l <-> exists r, r ∈ nl_ranges l /\ r.1 <= i <= r.2) by apply elem_of_line_slots.
  exists st', table. split; [|split; [done|split; [|split; [|done]]]].
  - unfold handleClusterNodesReply, route_reply. rewrite gbind_assoc. unfold mbind at 1, g_bind at 1, world_call at 1.
    rewrite Hw. replace (negb (REDIS_OK =? REDIS_OK)) with false by done. rewrite gbind_assoc. cbn [gdef]. rewrite !gbind_ret.
    fold st1. rewrite (gbind_normal _ _ _ _ _ Ep). exact Eu.
  - intros l i Hl' (r & Hrl & Hri)%Hin. destruct (li_node _ _ _ _ Hli l Hl') as (p & Hp & _).
    apply (to_map_pairs (W := W)) in Hp; [|by eapply lists_ok]. destruct (Hlive _ _ Hp) as (nd & Hnd' & Hna).
    exists p, nd. split; [|done]. apply Htab, (lists_has _ _ _ _ _ _ Hli Hlen Hnd). by exists l, r.
  - intros i Hi. destruct (table !! i) as [p|] eqn:E; [|done].
    apply Htab, (lists_has _ _ _ _ _ _ Hli Hlen Hnd) in E as (l & r & Hl' & Hrl & Hri & _).
    destruct (Hi l Hl'). apply Hin. by exists r.
Qed.
End NodesReply.

(** ** Witnesses *)
Definition ex_master_line (id addr flags : bytes) (slots : list bytes) : list bytes :=
  id :: addr :: flags :: [str "-"; str "0"; str "0"; str "1"; str "connected"] ++ slots.
Definition ex_fields : list (list bytes) :=
  [ex_master_line (str "a") (str "h:1@11") (str "myself,master") [str "0-1"; str "3"; str "[7->-b]"];
   ex_master_line (str "c") (str "h:9@19") (str "slave") [];
   ex_master_line (str "b") (str "h:4") (str "master") [str "5-6"]].
Definition ex_lines : list (option node_line) :=
  [Some (mkNodeLine (str "a") (str "h") 1 [(0, 1); (3, 3)]); None; Some (mkNodeLine (str "b") (str "h") 4 [(5, 6)])].

Lemma ex_are_lines : Forall2 is_line ex_fields ex_lines.
Proof.
  constructor; [|constructor; [|constructor; [|constructor]]].
  - apply (line_master _ (str "h") 1 _ _ _ _ [Some (0, 1); Some (3, 3); None]); try done; try by apply (bool_decide_unpack _).
    + right. by exists (str "11").
    + constructor; [by apply (slot_range 0 1)|]. constructor; [by apply (slot_one 3)|]. constructor; [|constructor].
      apply (slot_open 7 (str ">") (str "b]")); [done|by apply (bool_decide_unpack _)..].
  - apply line_other; [cbn; lia|by right].
  - apply (line_master _ (str "h") 4 _ _ _ _ [Some (5, 6)]); try done; try by apply (bool_decide_unpack _).
    + by left.
    + constructor; [by apply (slot_range 5 6)|constructor].
Qed.

Lemma ex_fields_ok : Forall (Forall field_ok) ex_fields.
Proof. repeat constructor; by apply (bool_decide_unpack _). Qed.

Lemma parse_cluster_nodes_refines_witness :
  exists nodes h, parse_cluster_nodes (L := Empty_set) 1%positive (text_of ex_fields) (ex_cluster []) =
    (hp h (ex_cluster []), Normal (Some nodes)) /\
    (node_ranges h <$> to_map nodes) !! str "h:1" = Some [(0, 1); (3, 3)].
Proof.
  destruct (parse_cluster_nodes_refines (L := Empty_set) 1%positive (ex_cluster []) ex_fields ex_lines
    (conj eq_refl (conj eq_refl eq_refl)) ex_are_lines ex_fields_ok ltac:(by apply (bool_decide_unpack _)) ltac:(by vm_compute)
    ltac:(by split)) as (nodes & h & E & _ & Hm & _).
  exists nodes, h. split; [exact E|]. rewrite Hm. reflexivity.
Defined.

Lemma handleClusterNodesReply_maps_witness :
  exists st' table, handleClusterNodesReply (L := Empty_set) 1%positive (ex_cluster [REDIS_REPLY_STRING (text_of ex_fields)]) =
    (st', Normal REDIS_OK) /\ cc_table (s_cc st') = Some table /\ is_Some (table !! 6) /\ table !! 2 = None.
Proof.
  destruct (handleClusterNodesReply_maps (H := script_ops) (L := Empty_set) 1%positive (ex_cluster [REDIS_REPLY_STRING (text_of ex_fields)]) []
    ex_fields ex_lines [1; 2]%positive eq_refl ex_are_lines ex_fields_ok (conj eq_refl (conj eq_refl eq_refl))
    ltac:(by apply (bool_decide_unpack _)) ltac:(by apply (bool_decide_unpack _)) ltac:(by vm_compute) ltac:(by split)
    (conj ex_nodes_ok (ex_old_owned (s_heap (ex_cluster [])) eq_refl eq_refl)) ltac:(by apply (bool_decide_unpack _)))
    as (st' & table & E & Ht & Hin & Hout & _).
  exists st', table. split; [exact E|]. split; [exact Ht|]. split.
  - destruct (Hin (mkNodeLine (str "b") (str "h") 4 [(5, 6)]) 6) as (p & nd & Hp & _); [by right; left|by apply (bool_decide_unpack _)|].
    by exists p.
  - apply Hout. intros l Hl. apply list_elem_of_In in Hl. destruct Hl as [<-|[<-|[]]]; by apply (bool_decide_unpack _).
Defined.

(** ** A reply that breaks the parser *)
Definition with_flags {W} (flags : Z) (st : cstate W) : cstate W := upd_cc (cc_set_flags flags) st.
Definition ex_two_nodes (id : bytes) : bytes :=
  text_of [ex_master_line (str "a") (str "h:1@5") (str "master") [str "0-1"]; ex_master_line id (str "h:2@5") (str "master") [str "2"]].

Definition is_undefined {L A} (o : outcome L A) : bool := match o with Undefined => true | _ => false end.
Definition nodes_parsed {L} (o : outcome L (option (dict bytes loc))) : option Z :=
  match o with Normal (Some d) => Some (d_used d) | _ => None end.

(** Two masters with the same node id in one CLUSTER NODES reply crash a client that keeps
    slaves: the second node is entered in the nodes dict, mapping it by name fails and
    frees it, and the error path releases the dict, which frees it again.  Different ids,
    or a client without the flag, are parsed. *)
Theorem parse_cluster_nodes_same_id :
  let parse flags text := (parse_cluster_nodes (L := Empty_set) 1%positive text (with_flags flags (ex_cluster []))).2 in
  nodes_parsed (parse HIRCLUSTER_FLAG_ADD_SLAVE (ex_two_nodes (str "b"))) = Some 2 /\
  nodes_parsed (parse HIRCLUSTER_FLAG_NULL (ex_two_nodes (str "a"))) = Some 2 /\
  is_undefined (parse HIRCLUSTER_FLAG_ADD_SLAVE (ex_two_nodes (str "a"))) = true.
Proof. vm_compute. done. Qed.
