(* ===== verification/Frame.v ===== *)
(** * What the functions of the client leave alone

    None of the functions that talk to the cluster changes the configuration of the
    context, its queue of pipelined commands or its retry counter, except where
    [redis_cluster_command_execute] counts. *)
From S2P Require Import Prelude Dict Goto Hiredis Command Context Fragment Nodes Topology Route Execute.

(** The settings of a context, and what the other functions leave alone with them. *)
Definition cc_config (cc : redisClusterContext) :=
  (cc_flags cc, cc_connect_timeout cc, cc_command_timeout cc, cc_max_retry_count cc,
   (cc_username cc, cc_password cc), (cc_ssl cc, cc_on_connect cc, cc_event_callback cc)).

Definition cc_settings (cc : redisClusterContext) := (cc_config cc, cc_retry_count cc, cc_requests cc).
Definition settings {W} (s : cstate W) := (cc_config (s_cc s), cc_retry_count (s_cc s), cc_requests (s_cc s)).

(** The calls of hiredis' synchronous functions, and what the client does with an asynchronous
    connection outside of the asynchronous API. *)
Inductive hiredis {W} `{HiredisOps W} : (W -> W) -> Prop :=
  | h_connect host port t1 t2 : hiredis (fun w => (redisConnectWithOptions w host port t1 t2).1)
  | h_reconnect c : hiredis (fun w => redisReconnect w c)
  | h_free c : hiredis (fun w => redisFree w c)
  | h_ssl c : hiredis (fun w => (ssl_init_fn w c).1)
  | h_command c args : hiredis (fun w => (redisCommand w c args).1)
  | h_append_command c args : hiredis (fun w => (redisAppendCommand w c args).1)
  | h_append c text : hiredis (fun w => (redisAppendFormattedCommand w c text).1)
  | h_write c : hiredis (fun w => (redisBufferWrite w c).1)
  | h_reply c : hiredis (fun w => (redisGetReply w c).1)
  | h_timeout c tv : hiredis (fun w => redisSetTimeout w c tv)
  | h_async_timeout c tv : hiredis (fun w => redisAsyncSetTimeout w c tv)
  | h_async_free c : hiredis (fun w => redisAsyncFree w c)
  | h_async_data c p : hiredis (fun w => set_acon_data w c p).
#[export] Hint Constructors hiredis : keeps.

(** A view of the state that the functions of this file leave alone: it does not depend on the
    nodes, the allocations or the events, depends on the context by its settings only, and
    hiredis' calls do not change it. *)
Class Framed {W V} `{HiredisOps W} (view : cstate W -> V) : Prop := {
  fr_heap f st : view (upd_heap f st) = view st;
  fr_allocs f st : view (upd_allocs f st) = view st;
  fr_event e st : view (upd_events e st) = view st;
  fr_cc f st : cc_settings (f (s_cc st)) = cc_settings (s_cc st) -> view (upd_cc f st) = view st;
  fr_world f st : hiredis f -> view (upd_world f st) = view st
}.

#[export] Instance settings_framed {W} `{HiredisOps W} : Framed (settings (W := W)).
Proof. by split. Qed.

#[export] Hint Extern 0 (Framed _) => typeclasses eauto : keeps.

Definition is_error (l : x_label) : Prop := l = x_error.

Section Frame.
Context {W V : Type} `{HiredisOps W} {sds : SdsOps} (view : cstate W -> V) `{!Framed view}.

(** ** The state's primitives *)
Section Primitives.
Context {L : Type} (lab : L -> Prop).
Abbreviation K := (keeps view lab).

Lemma k_get_cc : K get_cc.
Proof. done. Qed.
Lemma k_alloc : K alloc.
Proof. intros s. apply fr_allocs. Qed.
Lemma k_world f : hiredis f -> K (world f).
Proof. intros Hf s. by apply fr_world. Qed.
Lemma k_world_get {A} (f : W -> A) : K (world_get f).
Proof. done. Qed.
Lemma k_world_call {A} (f : W -> W * A) : hiredis (fun w => (f w).1) -> K (world_call f).
Proof.
  intros Hf s. unfold world_call. destruct (f (s_world s)) as [w a] eqn:E.
  rewrite <- (fr_world (view := view) _ s Hf). unfold upd_world. by rewrite E.
Qed.
Lemma k_emit e : K (emit e).
Proof. intros s. apply fr_event. Qed.
Lemma k_get_node p : K (get_node p).
Proof. intros s. unfold get_node. by destruct (s_heap s !! p). Qed.
Lemma k_heap f : K (gmodify (upd_heap f)).
Proof. intros s. apply fr_heap. Qed.
Lemma k_put_node p f : K (put_node p f).
Proof. unfold put_node. apply keeps_bind; [apply k_get_node|]. intros nd s. apply fr_heap. Qed.
Lemma k_mod_cc f : (forall cc, cc_settings (f cc) = cc_settings cc) -> K (mod_cc f).
Proof. intros Hf s. by apply fr_cc. Qed.
Lemma k_set_error e m : K (set_error e m).
Proof. by apply k_mod_cc. Qed.
End Primitives.
#[local] Hint Resolve k_get_cc k_alloc k_world k_world_get k_world_call k_emit k_get_node k_heap k_put_node k_set_error : keeps.

Lemma k_alloc_or {L} (lab : L -> Prop) l : lab l -> keeps view lab (alloc_or l).
Proof. intros Hl. unfold alloc_or. apply keeps_bind; [apply k_alloc|]. intros. by apply keeps_when. Qed.

(** ** Nodes *)
Lemma free_node_settings fuel : forall node s s', free_node (W := W) fuel node s = Some s' -> view s' = view s.
Proof.
  induction fuel as [|fuel IH]; intros node s s'; [done|]. cbn [free_node].
  intros (nd & _ & E)%bind_Some. cbv zeta in E. apply bind_Some in E as (s2 & E & [= <-]).
  rewrite fr_heap.
  set (s1 := match n_acon nd with Some _ => _ | None => _ end) in E.
  assert (H1 : view s1 = view s).
  { subst s1. assert (Hc : view (match n_con nd with Some c => upd_world (fun w => redisFree w c) s | None => s end) = view s)
      by (destruct (n_con nd); [apply fr_world; auto with keeps|done]).
    destruct (n_acon nd) as [c|]; [|done]. rewrite <- Hc. set (s0 := match n_con nd with Some _ => _ | None => _ end).
    transitivity (view (upd_world (fun w => set_acon_data w c None) s0)); [exact (fr_world _ _ (h_async_free c))|].
    apply fr_world, h_async_data. }
  rewrite <- H1. clearbody s1. clear H1. destruct (n_slaves nd) as [l|]; [|by injection E as ->].
  destruct (nl_free l); [|by injection E as ->]. revert s1 E.
  induction (nl_items l) as [|p ps IHp]; intros s1 E; [by injection E as ->|]. cbn [foldl mbind option_bind] in E.
  destruct (free_node fuel p s1) as [s3|] eqn:E3.
  - rewrite (IHp s3 E). by apply (IH p).
  - exfalso. clear -E. induction ps as [|q ps IH]; [done|]. by apply IH.
Qed.

Section Functions.
Context {L : Type} (lab : L -> Prop).
Abbreviation K := (keeps view lab).

Lemma k_freeNode node : K (m_freeRedisClusterNode node).
Proof.
  intros s. unfold m_freeRedisClusterNode, freeRedisClusterNode.
  destruct (free_node _ node s) eqn:E; [|done]. by eapply free_node_settings.
Qed.

Lemma clear_settings tbl : forall used (os : option (cstate W)) s', clear_loop clusterNodesDictType tbl used os = Some s' ->
  exists s, os = Some s /\ view s' = view s.
Proof.
  assert (Hc : forall he used os u' s', clear_chain (clusterNodesDictType (W := W)) he used os = (u', Some s') ->
    exists s, os = Some s /\ view s' = view s).
  { induction he as [|e he IH]; intros used os u' s' E; [injection E as <- ->; eauto|].
    cbn [clear_chain] in E. apply IH in E as (s & E & Hs). unfold dictFreeEntry in E.
    cbn [keyDestructor valDestructor clusterNodesDictType] in E.
    apply bind_Some in E as (s0 & -> & E). exists s0. split; [done|]. rewrite Hs.
    by apply (free_node_settings _ _ _ _ E). }
  induction tbl as [|c tbl IH]; intros used os s' E; cbn [clear_loop] in E; [eauto|].
  destruct (0 <? used); [|eauto]. destruct (clear_chain _ c used os) as [u2 os2] eqn:Ec.
  destruct (IH u2 os2 s' E) as (s & -> & Hs). destruct (Hc _ _ _ _ _ Ec) as (s0 & -> & Hs0).
  exists s0. split; [done|congruence].
Qed.

Lemma k_dictRelease nodes : K (m_dictRelease nodes).
Proof.
  intros s. unfold m_dictRelease, dictRelease, dictClear. cbn [snd].
  destruct (clear_loop _ _ _ (Some s)) as [s'|] eqn:E; [|done].
  destruct (clear_settings _ _ _ _ E) as (s0 & [= <-] & Hs). done.
Qed.
End Functions.
#[local] Hint Resolve k_freeNode k_dictRelease : keeps.


Section Functions2.
Context {L : Type} (lab : L -> Prop).
Abbreviation K := (keeps view lab).
Lemma k_dictCreate : K m_dictCreate.
Proof. unfold_tac @m_dictCreate. Qed.
Lemma k_dictAdd nodes key node : K (m_dictAdd nodes key node).
Proof. unfold_tac @m_dictAdd. Qed.
Lemma k_dictFind nodes key : K (m_dictFind nodes key).
Proof. unfold_tac @m_dictFind. Qed.
Lemma k_createNode : K createRedisClusterNode.
Proof. unfold_tac @createRedisClusterNode. Qed.
Lemma k_add_slot node slot : K (add_slot node slot).
Proof. unfold_tac @add_slot. Qed.
End Functions2.
#[local] Hint Resolve k_dictCreate k_dictAdd k_dictFind k_createNode k_add_slot : keeps.

Section Functions3.
Context {L : Type} (lab : L -> Prop).
Abbreviation K := (keeps view lab).
Lemma k_slot_create_free : K (cluster_slot_create_free).
Proof. unfold_tac @cluster_slot_create_free. Qed.
Lemma k_slot_create node : K (cluster_slot_create node).
Proof. unfold_tac @cluster_slot_create. Qed.
Lemma k_ref_node slot node : K (cluster_slot_ref_node slot node).
Proof. unfold_tac @cluster_slot_ref_node. Qed.
Lemma k_open_slot n m r node : K (cluster_open_slot_create n m r node).
Proof. unfold_tac @cluster_open_slot_create. Qed.
Lemma k_authenticate c : K (authenticate c).
Proof. unfold_tac @authenticate. Qed.
Lemma k_sds_or s : keeps view (fun _ => True) (sds_or s).
Proof. unfold_tac @sds_or. Qed.
Lemma k_ensure_slaves node : K (ensure_slaves node).
Proof. unfold_tac @ensure_slaves. Qed.
Lemma k_add_slave b node p : K (add_slave b node p).
Proof. unfold_tac @add_slave. Qed.
Lemma k_swap_ctx a b : K (swap_ctx a b).
Proof. unfold_tac @swap_ctx. Qed.
End Functions3.
#[local] Hint Resolve k_slot_create_free k_slot_create k_ref_node k_open_slot k_authenticate k_sds_or k_ensure_slaves k_add_slave k_swap_ctx : keeps.

Lemma k_alloc_any {L} (l : L) : keeps view (fun _ => True) (alloc_or l).
Proof. by apply k_alloc_or. Qed.
#[local] Hint Resolve k_alloc_any : keeps.

Section Functions4.
Context {L : Type} (lab : L -> Prop).
Abbreviation K := (keeps view lab).
Lemma k_node_slots host port role : K (node_get_with_slots host port role).
Proof. unfold_tac @node_get_with_slots. Qed.
Lemma k_node_nodes c infos role : K (node_get_with_nodes c infos role).
Proof. unfold_tac @node_get_with_nodes. Qed.
Lemma k_swap_loop d entries : K (swap_ctx_loop d entries).
Proof. induction entries as [|[k p] rest IH]; cbn [swap_ctx_loop]; keeps_tac. Qed.
Lemma k_move_slaves a b l : K (move_slaves a b l).
Proof. induction l as [|p l IH]; cbn [move_slaves]; keeps_tac. Qed.
Lemma k_oom_error {A} (a : A) : K (oom_error a).
Proof. unfold_tac @oom_error. Qed.
End Functions4.
#[local] Hint Resolve k_node_slots k_node_nodes k_swap_loop k_move_slaves k_oom_error : keeps.

Section Functions5.
Context {L : Type} (lab : L -> Prop).
Abbreviation K := (keeps view lab).
Lemma k_nodes_swap a b : K (cluster_nodes_swap_ctx a b).
Proof. unfold_tac @cluster_nodes_swap_ctx. Qed.
Lemma k_mapping nodes node name : K (cluster_master_slave_mapping_with_name nodes node name).
Proof. unfold_tac @cluster_master_slave_mapping_with_name. Qed.
End Functions5.
#[local] Hint Resolve k_nodes_swap k_mapping : keeps.

(** ** The parsers *)
Definition t_view (s : tstate W) := view (ts_st s).
#[local] Abbreviation TK := (keeps t_view (fun _ : n_label => True)).

Lemma k_t_lift {A} (m : G (cstate W) n_label A) :
  keeps view (fun _ => True) m -> TK (t_lift m).
Proof.
  intros Hm s. unfold t_lift, t_view. specialize (Hm (ts_st s)). by destruct (m (ts_st s)) as [s' [a|l|]].
Qed.
Ltac keeps_tac ::= intros; cbn zeta; repeat (lazymatch goal with |- keeps _ _ (t_lift _) => apply k_t_lift | _ => keeps_step end; cbn zeta).
Lemma k_t_set_nodes d : TK (t_set_nodes d).
Proof. unfold_tac @t_set_nodes. Qed.
Lemma k_t_set_names d : TK (t_set_names d).
Proof. unfold_tac @t_set_names. Qed.
Lemma k_t_set_slot d : TK (t_set_slot d).
Proof. unfold_tac @t_set_slot. Qed.
Lemma k_t_set_master d : TK (t_set_master d).
Proof. unfold_tac @t_set_master. Qed.
Lemma k_t_found : TK (t_found).
Proof. unfold_tac @t_found. Qed.
Lemma k_t_error {A} msg : TK (t_error (A := A) msg).
Proof. unfold_tac @t_error. Qed.
Lemma k_t_sds b : TK (t_sds b).
Proof. unfold_tac @t_sds. Qed.
#[local] Hint Resolve k_t_set_nodes k_t_set_names k_t_set_slot k_t_set_master k_t_found k_t_error k_t_sds : keeps.

Lemma k_t_add_node m : TK (t_add_node m).
Proof. unfold_tac @t_add_node. Qed.
Lemma k_t_ref_slot m : TK (t_ref_slot m).
Proof. unfold_tac @t_ref_slot. Qed.
Lemma k_t_slave h p : TK (t_slave h p).
Proof. unfold_tac @t_slave. Qed.
Lemma k_t_split a b : TK (t_split a b).
Proof. unfold_tac @t_split. Qed.
Lemma k_t_mapping a b : TK (t_mapping a b).
Proof. unfold_tac @t_mapping. Qed.
Lemma k_t_add_open a b c d : TK (t_add_open a b c d).
Proof. unfold_tac @t_add_open. Qed.
#[local] Hint Resolve k_t_add_node k_t_ref_slot k_t_slave k_t_split k_t_mapping k_t_add_open : keeps.

Lemma k_t_master h p : TK (t_master h p).
Proof. unfold_tac @t_master. Qed.
Lemma k_t_open_slot a b : TK (t_open_slot a b).
Proof. unfold_tac @t_open_slot. Qed.
#[local] Hint Resolve k_t_master k_t_open_slot : keeps.

Lemma k_t_node c i e : TK (t_node c i e).
Proof. unfold_tac @t_node. Qed.
Lemma k_t_slot_field a b : TK (t_slot_field a b).
Proof. unfold_tac @t_slot_field. Qed.
#[local] Hint Resolve k_t_node k_t_slot_field : keeps.

Lemma k_t_elem c i e : TK (t_elem c i e).
Proof. unfold_tac @t_elem. Qed.
Lemma k_t_slot_fields a l : TK (t_slot_fields a l).
Proof. induction l as [|x l IH]; cbn [t_slot_fields]; keeps_tac. Qed.
Lemma k_t_slave_line a b : TK (t_slave_line a b).
Proof. unfold_tac @t_slave_line. Qed.
#[local] Hint Resolve k_t_elem k_t_slot_fields k_t_slave_line : keeps.

Lemma k_t_region c i l : TK (t_region c i l).
Proof. revert i. induction l as [|x l IH]; intros i; cbn [t_region]; keeps_tac. Qed.
Lemma k_t_master_line a b : TK (t_master_line a b).
Proof. unfold_tac @t_master_line. Qed.
#[local] Hint Resolve k_t_region k_t_master_line : keeps.

Lemma k_t_regions c l : TK (t_regions c l).
Proof. induction l as [|x l IH]; cbn [t_regions]; keeps_tac. Qed.
Lemma k_t_line a b : TK (t_line a b).
Proof. unfold_tac @t_line. Qed.
#[local] Hint Resolve k_t_regions k_t_line : keeps.

Lemma k_t_lines n c b p q : TK (t_lines n c b p q).
Proof. revert p q. induction n as [|n IH]; intros p q; cbn [t_lines]; keeps_tac. Qed.
#[local] Hint Resolve k_t_lines : keeps.

Section Functions6.
Context {L : Type} (lab : L -> Prop).
Abbreviation K := (keeps view lab).

Lemma k_t_run body nodes : TK body -> K (t_run body nodes).
Proof.
  intros Hb s. unfold t_run. specialize (Hb (mkTstate s nodes None None None 0)).
  destruct (body _) as [s1 [a|l|]]; [done| |done]. destruct Hb as [_ Hb]. unfold t_view in Hb. cbn [ts_st] in Hb.
  rewrite <- Hb. match goal with |- context [?m (ts_st s1)] => assert (Hm : K m) by keeps_tac; exact (Hm (ts_st s1)) end.
Qed.
Lemma k_t_finish body : TK body -> K (t_finish body).
Proof.
  intros Hb. unfold t_finish. apply keeps_bind; [apply k_dictCreate|]. intros [nodes|]; [by apply k_t_run|keeps_tac].
Qed.
End Functions6.
#[local] Hint Resolve k_t_run k_t_finish : keeps.

Section Functions7.
Context {L : Type} (lab : L -> Prop).
Abbreviation K := (keeps view lab).
Lemma k_parse_slots c r : K (parse_cluster_slots c r).
Proof. unfold parse_cluster_slots. destruct r as [r|]; [|keeps_tac]. apply k_t_finish. keeps_tac. Qed.
Lemma k_parse_nodes c r : K (parse_cluster_nodes c r).
Proof. unfold parse_cluster_nodes. apply k_t_finish. keeps_tac. Qed.
Lemma k_mod_route v t : K (mod_cc (cc_set_route v t)).
Proof. by apply k_mod_cc. Qed.
Lemma k_mod_nodes v : K (mod_cc (cc_set_nodes v)).
Proof. by apply k_mod_cc. Qed.
Lemma k_mod_err e m : K (mod_cc (cc_set_error e m)).
Proof. by apply k_mod_cc. Qed.
Lemma k_mod_update f : K (mod_cc (fun cc => cc_set_retry (cc_retry_count cc) (f cc) cc)).
Proof. by apply k_mod_cc. Qed.
End Functions7.
#[local] Hint Resolve k_parse_slots k_parse_nodes k_mod_route k_mod_nodes k_mod_err k_mod_update : keeps.

Section Functions8.
Context {L : Type} (lab : L -> Prop).
Abbreviation K := (keeps view lab).
Lemma k_update_nodes d : K (updateNodesAndSlotmap d).
Proof. unfold updateNodesAndSlotmap. destruct d as [d|]; [|keeps_tac]. keeps_tac. Qed.
End Functions8.
#[local] Hint Resolve k_update_nodes : keeps.

(** ** Connections and the slot map *)
Section Functions9.
Context {L : Type} (lab : L -> Prop).
Abbreviation K := (keeps view lab).
Lemma k_ctx_error c : K (set_ctx_error c).
Proof. unfold_tac @set_ctx_error. Qed.
Lemma k_on_connect c : K (call_on_connect c).
Proof. unfold_tac @call_on_connect. Qed.
Lemma k_ssl_fails c : K (ssl_fails c).
Proof. unfold_tac @ssl_fails. Qed.
Lemma k_connect h p : K (m_connect h p).
Proof. unfold_tac @m_connect. Qed.
Lemma k_free_ret {A} c (a : A) : K (free_ret c a).
Proof. unfold_tac @free_ret. Qed.
Lemma k_send_update c : K (clusterUpdateRouteSendCommand c).
Proof. unfold_tac @clusterUpdateRouteSendCommand. Qed.
Lemma k_route_reply c a b : K (route_reply c a b).
Proof. unfold_tac @route_reply. Qed.
Lemma k_by_table n : K (node_get_by_table n).
Proof. unfold_tac @node_get_by_table. Qed.
End Functions9.
#[local] Hint Resolve k_ctx_error k_on_connect k_ssl_fails k_connect k_free_ret k_send_update k_route_reply k_by_table : keeps.

Section Functions10.
Context {L : Type} (lab : L -> Prop).
Abbreviation K := (keeps view lab).
Lemma k_handle_slots c : K (handleClusterSlotsReply c).
Proof. unfold_tac @handleClusterSlotsReply. Qed.
Lemma k_handle_nodes c : K (handleClusterNodesReply c).
Proof. unfold_tac @handleClusterNodesReply. Qed.
Lemma k_ctx_get p : K (ctx_get_by_node p).
Proof. unfold_tac @ctx_get_by_node. Qed.
End Functions10.
#[local] Hint Resolve k_handle_slots k_handle_nodes k_ctx_get : keeps.

Section Functions11.
Context {L : Type} (lab : L -> Prop).
Abbreviation K := (keeps view lab).
Lemma k_handle_reply c : K (clusterUpdateRouteHandleReply c).
Proof. unfold_tac @clusterUpdateRouteHandleReply. Qed.
End Functions11.
#[local] Hint Resolve k_handle_reply : keeps.

Section Functions12.
Context {L : Type} (lab : L -> Prop).
Abbreviation K := (keeps view lab).
Lemma k_update_by_addr h p : K (cluster_update_route_by_addr h p).
Proof. unfold_tac @cluster_update_route_by_addr. Qed.
End Functions12.
#[local] Hint Resolve k_update_by_addr : keeps.

Section Functions13.
Context {L : Type} (lab : L -> Prop).
Abbreviation K := (keeps view lab).
Lemma k_slotmap_loop l b : K (update_slotmap_loop l b).
Proof. revert b. induction l as [|[k p] l IH]; intros b; cbn [update_slotmap_loop]; keeps_tac. Qed.
End Functions13.
#[local] Hint Resolve k_slotmap_loop : keeps.

Section Functions14.
Context {L : Type} (lab : L -> Prop).
Abbreviation K := (keeps view lab).
Lemma k_update_slotmap : K (redisClusterUpdateSlotmap).
Proof. unfold_tac @redisClusterUpdateSlotmap. Qed.
Lemma k_redirect r b : K (getNodeFromRedirectReply r b).
Proof. unfold_tac @getNodeFromRedirectReply. Qed.
End Functions14.
#[local] Hint Resolve k_update_slotmap k_redirect : keeps.

Lemma k_x_finish {L} (lab : L -> Prop) u r : keeps view lab (x_finish u r).
Proof. unfold_tac @x_finish. Qed.

(** ** The attempts of a command *)
Definition x_view (s : xstate W) := view (xs_st s).
#[local] Abbreviation XK := (keeps x_view is_error).

Lemma k_x_lift {A} (m : G (cstate W) x_label A) : keeps view is_error m -> XK (x_lift m).
Proof. intros Hm s. unfold x_lift, x_view. specialize (Hm (xs_st s)). by destruct (m (xs_st s)) as [s' [a|l|]]. Qed.

Ltac keeps_tac ::= intros; cbn zeta; repeat (lazymatch goal with |- keeps _ _ (x_lift _) => apply k_x_lift | _ => keeps_step end; cbn zeta).

Lemma k_x_set_updating c : XK (x_set_updating c).
Proof. unfold_tac @x_set_updating. Qed.
Lemma k_x_conn p : XK (x_conn p).
Proof. unfold_tac @x_conn. Qed.
Lemma k_x_set_table a b : XK (x_set_table a b).
Proof. unfold_tac @x_set_table. Qed.
#[local] Hint Resolve k_x_set_updating k_x_conn k_x_set_table : keeps.

Lemma k_x_ok m : keeps view is_error m -> XK (x_ok m).
Proof. intros Hm. unfold x_ok. keeps_tac. Qed.
Lemma k_x_send_update c : XK (x_send_update c).
Proof. unfold_tac @x_send_update. Qed.
Lemma k_x_update : XK (x_ok redisClusterUpdateSlotmap).
Proof. apply k_x_ok. keeps_tac. Qed.
#[local] Hint Resolve k_x_send_update k_x_update : keeps.

Lemma k_x_get_conn n : XK (x_get_conn n).
Proof. unfold_tac @x_get_conn. Qed.
Lemma k_x_moved c r : XK (x_moved c r).
Proof. unfold_tac @x_moved. Qed.
Lemma k_x_ask r : XK (x_ask r).
Proof. unfold_tac @x_ask. Qed.
#[local] Hint Resolve k_x_get_conn k_x_moved k_x_ask : keeps.

End Frame.

#[export] Hint Resolve k_get_cc k_alloc k_world k_world_get k_world_call k_emit k_get_node k_heap k_put_node k_set_error
  k_freeNode k_dictRelease k_dictCreate k_dictAdd k_dictFind k_createNode k_add_slot
  k_slot_create_free k_slot_create k_ref_node k_open_slot k_authenticate k_sds_or k_ensure_slaves
  k_add_slave k_swap_ctx k_alloc_any k_node_slots k_node_nodes k_swap_loop k_move_slaves k_oom_error
  k_nodes_swap k_mapping k_t_set_nodes k_t_set_names k_t_set_slot k_t_set_master k_t_found k_t_error
  k_t_sds k_t_add_node k_t_ref_slot k_t_slave k_t_split k_t_mapping k_t_add_open k_t_master
  k_t_open_slot k_t_node k_t_slot_field k_t_elem k_t_slot_fields k_t_slave_line k_t_region
  k_t_master_line k_t_regions k_t_line k_t_lines k_t_finish k_parse_slots k_parse_nodes k_mod_route
  k_mod_nodes k_mod_err k_mod_update k_update_nodes k_ctx_error k_on_connect k_ssl_fails k_connect
  k_free_ret k_send_update k_route_reply k_by_table k_handle_slots k_handle_nodes k_ctx_get
  k_handle_reply k_update_by_addr k_slotmap_loop k_update_slotmap k_redirect k_x_finish
  k_x_set_updating k_x_conn k_x_set_table k_x_send_update k_x_update k_x_get_conn k_x_moved k_x_ask : keeps.

Ltac keeps_tac ::= intros; cbn zeta; repeat (lazymatch goal with |- keeps _ _ (x_lift _) => apply k_x_lift | _ => keeps_step end; cbn zeta).

(** ** The retries *)
Abbreviation x_settings := (x_view settings).
Section Retries.
Context {W : Type} `{HiredisOps W} {sds : SdsOps}.
#[local] Abbreviation XK := (keeps x_settings is_error).

Definition x_retries (s : xstate W) : Z := cc_retry_count (s_cc (xs_st s)).
Definition x_max (s : xstate W) : Z := cc_max_retry_count (s_cc (xs_st s)).
Definition x_config (s : xstate W) := cc_config (s_cc (xs_st s)).

(** The frame of a bind: its first part keeps the settings. *)
Lemma leaves_frame {A B} (m : G (xstate W) x_label A) (k : A -> G (xstate W) x_label B) s P (E : _ -> _ -> Prop) :
  XK m -> (forall s', x_settings s' = x_settings s -> E s' x_error) ->
  (forall s' a, x_settings s' = x_settings s -> leaves (k a) s' P E) -> leaves (m ≫= k) s P E.
Proof.
  intros Hm HE Hk. eapply leaves_bind.
  - apply leaves_mono with (1 := leaves_keeps _ _ _ s Hm); [intros s' a Hs; exact Hs|]. intros s' l [-> Hs]. by apply HE.
  - intros s' a Hs. by apply Hk.
Qed.

Lemma leaves_last {A} (m : G (xstate W) x_label A) s P (E : _ -> _ -> Prop) : XK m ->
  (forall s' a, x_settings s' = x_settings s -> P s' a) -> (forall s', x_settings s' = x_settings s -> E s' x_error) ->
  leaves m s P E.
Proof.
  intros Hm HP HE. apply leaves_mono with (1 := leaves_keeps _ _ _ s Hm); [done|].
  intros s' l [-> Hs]. by apply HE.
Qed.

Lemma settings_counters s s' : x_settings s' = x_settings s ->
  x_retries s' = x_retries s /\ x_max s' = x_max s /\ x_config s' = x_config s.
Proof. unfold x_view, settings, x_retries, x_max, x_config, cc_config. intros [=]. repeat split; congruence. Qed.

(** One more retry, within the limit. *)
Definition counted (s s' : xstate W) : Prop :=
  x_config s' = x_config s /\ x_retries s' = x_retries s + 1 /\ x_retries s' <= x_max s.

(** The end at [error], with a retry counted or not. *)
Definition given_up (s s' : xstate W) (l : x_label) : Prop :=
  l = x_error /\ x_config s' = x_config s /\ x_retries s <= x_retries s' <= x_retries s + 1.

Lemma config_max s s' : x_config s' = x_config s -> x_max s' = x_max s.
Proof. unfold x_config, cc_config, x_max. by intros [=]. Qed.

Lemma kept_given_up s s' : x_settings s' = x_settings s -> given_up s s' x_error.
Proof. intros Hs. apply settings_counters in Hs as (H1 & H2 & H3). unfold given_up. rewrite H1. split; [done|split; [done|lia]]. Qed.

Lemma counted_given_up s s1 s2 : counted s s1 -> x_settings s2 = x_settings s1 -> given_up s s2 x_error.
Proof.
  intros (H1 & H2 & _) Hs. apply settings_counters in Hs as (H3 & _ & H4). unfold given_up.
  rewrite H3, H4, H1, H2. split; [done|split; [done|lia]].
Qed.

Lemma x_count_retry_leaves s : INT_MIN <= x_retries s < INT_MAX ->
  leaves x_count_retry s (fun s' _ => counted s s') (given_up s).
Proof.
  intros Hr. destruct s as [st u]. unfold x_retries in Hr. cbn [xs_st] in Hr.
  unfold x_count_retry, leaves, mbind, g_bind, x_lift, get_cc, mod_cc, gmodify, gputs. cbn [xs_st xs_updating].
  rewrite i32_small by lia.
  destruct (cc_max_retry_count (s_cc st) <? cc_retry_count (s_cc st) + 1) eqn:E.
  - unfold given_up, x_config, x_retries. cbn. split; [done|split; [done|lia]].
  - apply Z.ltb_ge in E. unfold counted, x_max, x_retries. cbn. split; [done|lia].
Qed.

Definition x_progress (s s' : xstate W) (next : x_next) : Prop :=
  counted s s' \/ x_settings s' = x_settings s /\ match next with X_done _ => True | _ => False end.

(** A counted retry, then the rest of its branch. *)
Lemma x_branch_leaves {A} (k : G (xstate W) x_label A) s s0 P :
  x_settings s = x_settings s0 -> INT_MIN <= x_retries s0 < INT_MAX -> XK k ->
  (forall s' a, counted s0 s' -> P s' a) -> leaves (x_count_retry;; k) s P (given_up s0).
Proof.
  intros Hs Hr Hk HP. pose proof Hs as (Hr0 & Hm0 & Hc0)%settings_counters.
  eapply leaves_bind.
  - eapply leaves_mono; [apply x_count_retry_leaves; by rewrite Hr0|intros s' a Hs'; exact Hs'|].
    unfold given_up. rewrite Hr0, Hc0. done.
  - intros s1 [] H1. assert (H2 : counted s0 s1) by (unfold counted in *; by rewrite <- Hr0, <- Hc0, <- Hm0).
    apply leaves_last; [done| |intros s' Hs'; by apply (counted_given_up s0 s1)].
    intros s2 a H3. apply HP. apply settings_counters in H3 as (H3 & _ & H5).
    destruct H2 as (? & ? & ?). unfold counted. rewrite H3, H5. done.
Qed.

Lemma x_try_leaves command c s : INT_MIN <= x_retries s < INT_MAX ->
  leaves (x_try command c) s (x_progress s) (given_up s).
Proof.
  intros Hr. pose proof (kept_given_up s) as Hg. unfold x_try.
  apply leaves_frame; [keeps_tac|done|]. intros s1 text H1.
  apply leaves_frame; [keeps_tac|rewrite H1; done|]. intros s2 r H2. rewrite H1 in H2. clear s1 H1. destruct (negb _).
  { apply leaves_frame; [keeps_tac|rewrite H2; done|]. intros s3 [] H3. apply Hg. congruence. }
  apply leaves_frame; [keeps_tac|rewrite H2; done|]. intros s3 cc H3. rewrite H2 in H3. clear s2 H2.
  apply leaves_frame; [keeps_tac|rewrite H3; done|]. intros s4 x H4. rewrite H3 in H4. clear s3 H3.
  apply leaves_frame; [keeps_tac|rewrite H4; done|]. intros s5 [] H5. rewrite H4 in H5. clear s4 x H4.
  apply leaves_frame; [keeps_tac|rewrite H5; done|]. intros s6 [r2 reply] H6. rewrite H5 in H6. clear s5 H5.
  destruct (negb _).
  { apply leaves_frame; [keeps_tac|rewrite H6; done|]. intros s7 [] H7. rewrite H6 in H7. clear s6 reply H6.
    apply leaves_frame; [keeps_tac|rewrite H7; done|]. intros s8 err H8. rewrite H7 in H8. clear s7 H7.
    apply leaves_frame; [keeps_tac|rewrite H8; done|]. intros s9 [] H9. apply Hg. congruence. }
  assert (Hb : forall k : G (xstate W) x_label x_next, XK k -> leaves (x_count_retry;; k) s6 (x_progress s) (given_up s)).
  { intros k Hk. apply x_branch_leaves; [done|done|done|]. intros s' a Hc. by left. }
  destruct (cluster_reply_error_type reply) as [[]|]; try (by apply Hb; keeps_tac); right; done.
Qed.

(** The loop never runs out of fuel when the fuel covers the retries that are left. *)
Definition stops (s s' : xstate W) : Prop :=
  x_config s' = x_config s /\ x_retries s <= x_retries s' <= Z.max (x_retries s) (x_max s).

Definition stops_at (s s' : xstate W) (l : x_label) : Prop :=
  l = x_error /\ x_config s' = x_config s /\ x_retries s <= x_retries s' <= Z.max (x_retries s) (x_max s) + 1.

Lemma x_loop_leaves command : forall fuel at_ s, INT_MIN <= x_retries s < INT_MAX -> x_max s < INT_MAX ->
  (0 < fuel)%nat -> x_max s - x_retries s + 2 <= Z.of_nat fuel ->
  leaves (x_loop fuel command at_) s (fun s' _ => stops s s') (stops_at s).
Proof.
  induction fuel as [|fuel IH]; intros at_ s Hr Hm H0 Hf; [lia|]. cbn [x_loop].
  assert (Hg : forall s1 s' l, x_settings s1 = x_settings s -> given_up s1 s' l -> stops_at s s' l).
  { intros s1 s' l H1 (-> & H2 & H3). apply settings_counters in H1 as (H4 & _ & H5). unfold stops_at.
    rewrite H2, H5. rewrite H4 in H3. split; [done|split; [done|lia]]. }
  apply leaves_frame; [destruct at_; keeps_tac|intros s' Hs; by apply (Hg s), kept_given_up|]. intros s1 c H1.
  pose proof H1 as (H2 & H3 & H4)%settings_counters.
  eapply leaves_bind.
  { eapply leaves_mono; [apply x_try_leaves; by rewrite H2|intros s2 n Hn; exact Hn|]. intros s2 l. by apply Hg. }
  intros s2 next [(C1 & C2 & C3)|[Hs Hn]].
  - rewrite H2, H3, H4 in *. pose proof (config_max s s2 C1) as Hm2.
    assert (Hk : stops s s2) by (split; [done|lia]).
    assert (Hl : forall at2, leaves (x_loop fuel command at2) s2 (fun s' _ => stops s s') (stops_at s)).
    { intros at2. eapply leaves_mono; [apply IH; lia|..]; unfold stops, stops_at; rewrite ?Hm2, C1, C2.
      - intros s' _ [? ?]. split; [done|lia].
      - intros s' l (? & ? & ?). split; [done|split; [done|lia]]. }
    by destruct next as [|c'|reply]; [apply Hl|apply Hl|].
  - destruct next as [|c'|reply]; [done|done|]. rewrite H1 in Hs.
    apply settings_counters in Hs as (H5 & H6 & H7). split; [done|]. rewrite H5. lia.
Qed.
End Retries.
