(* ===== verification/Triple.v ===== *)
(** * Triples for the client's functions

    [triple U m s P E]: started in [s], [m] ends normally in [P] or at a label in [E]; it
    may be undefined only if [U].  With [U] false this is memory safety, with [U] true
    partial correctness, and a function is walked through once for both.  [step] runs one
    primitive of the state at the head of a computation, whatever an allocation or a call
    of hiredis answers. *)
From S2P Require Import Prelude Goto Hiredis Context Nodes.

Definition triple {S L A} (U : Prop) (m : G S L A) (s : S) (P : S -> A -> Prop) (E : S -> L -> Prop) : Prop :=
  match m s with (s', Normal a) => P s' a | (s', At l) => E s' l | (_, Undefined) => U end.

Section Rules.
Context {S L : Type} (U : Prop).
Implicit Types (s : S) (E : S -> L -> Prop).

Lemma triple_gspec {A} (m : G S L A) s P E : triple False m s P E <-> gspec m s P E.
Proof. done. Qed.
Lemma triple_leaves {A} (m : G S L A) s P E : triple True m s P E <-> leaves m s P E.
Proof. done. Qed.

Lemma triple_ret {A} (a : A) s (P : S -> A -> Prop) E : P s a -> triple U (mret a) s P E.
Proof. done. Qed.
Lemma triple_goto {A} l s (P : S -> A -> Prop) E : E s l -> triple U (goto l) s P E.
Proof. done. Qed.
Lemma triple_undefined {A} s (P : S -> A -> Prop) E : U -> triple U undefined s P E.
Proof. done. Qed.

Lemma triple_bind {A B} (m : G S L A) (f : A -> G S L B) s P E Q :
  triple U m s Q E -> (forall s' a, Q s' a -> triple U (f a) s' P E) -> triple U (m ≫= f) s P E.
Proof. unfold triple, mbind, g_bind. destruct (m s) as [s' [a|l|]]; [|done|done]. intros HQ Hf. by apply Hf. Qed.

Lemma triple_mono {A} (m : G S L A) s (P P' : S -> A -> Prop) E E' :
  triple U m s P E -> (forall s a, P s a -> P' s a) -> (forall s l, E s l -> E' s l) -> triple U m s P' E'.
Proof. unfold triple. destruct (m s) as [s' [a|l|]]; eauto. Qed.

Lemma triple_catch {L' A} (m : G S L A) (h : L -> G S L' A) s P E (E' : S -> L' -> Prop) :
  triple U m s P E -> (forall s l, E s l -> triple U (h l) s P E') -> triple U (gcatch m h) s P E'.
Proof. unfold triple, gcatch. destruct (m s) as [s' [a|l|]]; [done| |done]. intros HE Hh. by apply Hh. Qed.

(** What is known of the ends by another proof. *)
Lemma triple_and {A} (m : G S L A) s P E (P' : S -> A -> Prop) (E' : S -> L -> Prop) :
  triple U m s P E -> leaves m s P' E' -> triple U m s (fun s a => P s a /\ P' s a) (fun s l => E s l /\ E' s l).
Proof. unfold triple, leaves. by destruct (m s) as [s' [a|l|]]. Qed.

(** The first part of a bind has a known end. *)
Lemma triple_run {A B} (m : G S L A) (f : A -> G S L B) s s' a P E :
  m s = (s', Normal a) -> triple U (f a) s' P E -> triple U (m ≫= f) s P E.
Proof. unfold triple, mbind, g_bind. by intros ->. Qed.

Lemma triple_run_last {A} (m : G S L A) s s' a (P : S -> A -> Prop) E :
  m s = (s', Normal a) -> P s' a -> triple U m s P E.
Proof. unfold triple. by intros ->. Qed.

Lemma triple_assoc {A B C} (m : G S L A) (f : A -> G S L B) (g : B -> G S L C) s P E :
  triple U (m ≫= (fun a => f a ≫= g)) s P E -> triple U ((m ≫= f) ≫= g) s P E.
Proof. unfold triple. by rewrite gbind_assoc. Qed.

Lemma triple_get {B} (f : S -> G S L B) s P E : triple U (f s) s P E -> triple U (gget ≫= f) s P E.
Proof. done. Qed.
Lemma triple_modify {B} (g : S -> S) (f : () -> G S L B) s P E :
  triple U (f ()) (g s) P E -> triple U (gmodify g ≫= f) s P E.
Proof. done. Qed.
Lemma triple_modify_last (g : S -> S) s (P : S -> () -> Prop) E : P (g s) () -> triple U (gmodify g) s P E.
Proof. done. Qed.
Lemma triple_when {B} (b : bool) l (f : () -> G S L B) s P E :
  (b = true -> E s l) -> (b = false -> triple U (f ()) s P E) -> triple U (gwhen b l ≫= f) s P E.
Proof. destruct b; [intros HE _; by apply HE|intros _ Hf; by apply Hf]. Qed.
Lemma triple_when_last (b : bool) l s (P : S -> () -> Prop) E :
  (b = true -> E s l) -> (b = false -> P s ()) -> triple U (gwhen b l) s P E.
Proof. destruct b; unfold triple; simpl; auto. Qed.
Lemma triple_some {A B} l (o : option A) (f : A -> G S L B) s P E :
  (o = None -> E s l) -> (forall a, o = Some a -> triple U (f a) s P E) -> triple U (gsome l o ≫= f) s P E.
Proof. destruct o; [intros _ Hf; by apply Hf|intros HE _; by apply HE]. Qed.
Lemma triple_def {A B} (o : option A) a (f : A -> G S L B) s P E :
  o = Some a -> triple U (f a) s P E -> triple U (gdef o ≫= f) s P E.
Proof. by intros ->. Qed.
End Rules.

(** ** The primitives of the client's state *)
Section Primitives.
Context {W L : Type} (U : Prop).
Implicit Types (st : cstate W) (E : cstate W -> L -> Prop).

Lemma triple_alloc {B} (f : bool -> G (cstate W) L B) st P E :
  (forall b, triple U (f b) (upd_allocs tail st) P E) -> triple U (alloc ≫= f) st P E.
Proof. intros Hf. apply Hf. Qed.
Lemma triple_alloc_or {B} l (f : () -> G (cstate W) L B) st P E :
  E (upd_allocs tail st) l -> triple U (f ()) (upd_allocs tail st) P E -> triple U (alloc_or l ≫= f) st P E.
Proof.
  intros HE Hf. unfold alloc_or. apply triple_assoc, triple_alloc. intros b.
  by apply triple_when.
Qed.
Lemma triple_alloc_or_last l st (P : _ -> () -> Prop) E :
  E (upd_allocs tail st) l -> P (upd_allocs tail st) () -> triple U (alloc_or l) st P E.
Proof. intros HE HP. unfold alloc_or. apply triple_alloc. intros b. by apply triple_when_last. Qed.
Lemma triple_get_cc {B} (f : _ -> G (cstate W) L B) st P E : triple U (f (s_cc st)) st P E -> triple U (get_cc ≫= f) st P E.
Proof. done. Qed.
Lemma triple_mod_cc {B} g (f : () -> G (cstate W) L B) st P E :
  triple U (f ()) (upd_cc g st) P E -> triple U (mod_cc g ≫= f) st P E.
Proof. done. Qed.
Lemma triple_mod_cc_last g st (P : _ -> () -> Prop) E : P (upd_cc g st) () -> triple U (mod_cc (L := L) g) st P E.
Proof. done. Qed.
Lemma triple_set_error {B} t s (f : () -> G (cstate W) L B) st P E :
  triple U (f ()) (upd_cc (redisClusterSetError t s) st) P E -> triple U (set_error t s ≫= f) st P E.
Proof. done. Qed.
Lemma triple_set_error_last t s st (P : _ -> () -> Prop) E :
  P (upd_cc (redisClusterSetError t s) st) () -> triple U (set_error (L := L) t s) st P E.
Proof. done. Qed.
Lemma triple_emit {B} e (f : () -> G (cstate W) L B) st P E :
  triple U (f ()) (upd_events e st) P E -> triple U (emit e ≫= f) st P E.
Proof. done. Qed.
Lemma triple_emit_last e st (P : _ -> () -> Prop) E : P (upd_events e st) () -> triple U (emit (L := L) e) st P E.
Proof. done. Qed.
Lemma triple_world {B} g (f : () -> G (cstate W) L B) st P E :
  triple U (f ()) (upd_world g st) P E -> triple U (world g ≫= f) st P E.
Proof. done. Qed.
Lemma triple_world_last g st (P : _ -> () -> Prop) E : P (upd_world g st) () -> triple U (world (L := L) g) st P E.
Proof. done. Qed.
Lemma triple_world_get {A B} (g : W -> A) (f : A -> G (cstate W) L B) st P E :
  triple U (f (g (s_world st))) st P E -> triple U (world_get g ≫= f) st P E.
Proof. done. Qed.
Lemma triple_world_call {A B} (g : W -> W * A) (f : A -> G (cstate W) L B) st P E :
  (forall w a, g (s_world st) = (w, a) -> triple U (f a) (upd_world (fun _ => w) st) P E) ->
  triple U (world_call g ≫= f) st P E.
Proof.
  intros Hf. unfold triple, mbind, g_bind, world_call. destruct (g (s_world st)) as [w a] eqn:Eg.
  by apply (Hf w a).
Qed.
Lemma triple_world_call_last {A} (g : W -> W * A) st (P : _ -> A -> Prop) E :
  (forall w a, g (s_world st) = (w, a) -> P (upd_world (fun _ => w) st) a) -> triple U (world_call (L := L) g) st P E.
Proof. intros HP. unfold triple, world_call. destruct (g (s_world st)) as [w a] eqn:Eg. by apply HP. Qed.
Lemma triple_get_node {B} p nd (f : redisClusterNode -> G (cstate W) L B) st P E :
  s_heap st !! p = Some nd -> triple U (f nd) st P E -> triple U (get_node p ≫= f) st P E.
Proof. intros Hp Hf. unfold triple, mbind, g_bind, get_node. by rewrite Hp. Qed.
Lemma triple_put_node {B} p g nd (f : () -> G (cstate W) L B) st P E :
  s_heap st !! p = Some nd -> triple U (f ()) (upd_heap (<[p := g nd]>) st) P E ->
  triple U (put_node p g ≫= f) st P E.
Proof. intros Hp Hf. unfold put_node. apply triple_assoc. by apply (triple_get_node _ nd). Qed.
Lemma triple_put_node_last p g nd st (P : _ -> () -> Prop) E :
  s_heap st !! p = Some nd -> P (upd_heap (<[p := g nd]>) st) () -> triple U (put_node (L := L) p g) st P E.
Proof. intros Hp HP. unfold put_node. by apply (triple_get_node _ nd). Qed.
End Primitives.

Lemma triple_sds_or {W B} (U : Prop) s (f : bytes -> G (cstate W) n_label B) (st : cstate W) P (E : _ -> n_label -> Prop) :
  E (upd_allocs tail st) n_oom -> triple U (f s) (upd_allocs tail st) P E -> triple U (sds_or s ≫= f) st P E.
Proof. intros HE Hf. unfold sds_or. apply triple_assoc, triple_alloc. by intros []. Qed.

(** The node a pointer is followed to, written just before or known. *)
Ltac node_here := first [eassumption | cbn; eassumption | cbn; apply lookup_insert_eq].

(** One primitive at the head of a computation. *)
Ltac step :=
  cbn zeta;
  lazymatch goal with
  | |- triple _ (mbind _ (mret _)) _ _ _ => refine (triple_run _ _ _ _ _ _ _ _ eq_refl _)
  | |- triple _ (mbind _ (mbind _ _)) _ _ _ => apply triple_assoc
  | |- triple _ (mbind _ (goto _)) _ _ _ => apply triple_goto
  | |- triple _ (mbind _ gget) _ _ _ => apply triple_get
  | |- triple _ (mbind _ (gmodify _)) _ _ _ => apply triple_modify
  | |- triple _ (mbind _ (gwhen _ _)) _ _ _ => apply triple_when; [intros ?|intros ?]
  | |- triple _ (mbind _ (gsome _ _)) _ _ _ => apply triple_some; [intros ?|intros ? ?]
  | |- triple _ (mbind _ alloc) _ _ _ => apply triple_alloc; intros ?
  | |- triple _ (mbind _ (alloc_or _)) _ _ _ => apply triple_alloc_or
  | |- triple _ (mbind _ (sds_or _)) _ _ _ => apply triple_sds_or
  | |- triple _ (mbind _ get_cc) _ _ _ => apply triple_get_cc
  | |- triple _ (mbind _ (mod_cc _)) _ _ _ => apply triple_mod_cc
  | |- triple _ (mbind _ (set_error _ _)) _ _ _ => apply triple_set_error
  | |- triple _ (mbind _ (emit _)) _ _ _ => apply triple_emit
  | |- triple _ (mbind _ (world _)) _ _ _ => apply triple_world
  | |- triple _ (mbind _ (world_get _)) _ _ _ => apply triple_world_get
  | |- triple _ (mbind _ (world_call _)) _ _ _ => apply triple_world_call; intros ? ? ?
  | |- triple _ (mbind _ (get_node _)) _ _ _ => eapply triple_get_node; [node_here|]
  | |- triple _ (mbind _ (put_node _ _)) _ _ _ => eapply triple_put_node; [node_here|]
  | |- triple _ (mbind _ (if ?b then _ else _)) _ _ _ => destruct b eqn:?
  | |- triple _ (mret _) _ _ _ => apply triple_ret
  | |- triple _ (goto _) _ _ _ => apply triple_goto
  | |- triple _ (put_node _ _) _ _ _ => eapply triple_put_node_last; [node_here|]
  | |- triple _ (mod_cc _) _ _ _ => apply triple_mod_cc_last
  | |- triple _ (set_error _ _) _ _ _ => apply triple_set_error_last
  | |- triple _ (emit _) _ _ _ => apply triple_emit_last
  | |- triple _ (world _) _ _ _ => apply triple_world_last
  | |- triple _ (world_call _) _ _ _ => apply triple_world_call_last; intros ? ? ?
  | |- triple _ (gmodify _) _ _ _ => apply triple_modify_last
  | |- triple _ (gwhen _ _) _ _ _ => apply triple_when_last; [intros ?|intros ?]
  | |- triple _ (alloc_or _) _ _ _ => apply triple_alloc_or_last
  | |- triple _ (if ?b then _ else _) _ _ _ => destruct b eqn:?
  | |- triple _ (let '(_, _) := ?x in _) _ _ _ => destruct x eqn:?
  end.
Ltac steps := repeat step.
