(* ===== verification/Memory.v ===== *)
(** * The memory of a dict of nodes

    [holds h0 h d qs]: the heap [h] is [h0] and beside it exactly the nodes [qs] that the
    dict [d] owns, the slaves in the lists of its nodes among them, each in one place and
    each entry under its own address.  With [h0] empty, nothing is leaked.  The lemmas say
    what the writes of the client do to it. *)
From S2P Require Import Prelude Dict Goto Hiredis Context Nodes NodeProps Ownership SlotMap.

Lemma forest_perm h ps ps' qs : forest h ps qs -> ps ≡ₚ ps' -> exists qs', forest h ps' qs' /\ qs' ≡ₚ qs.
Proof.
  intros (qss & Hf & ->) Hp. revert qss Hf. induction Hp as [|p ps ps' Hp IH|p q ps|ps1 ps2 ps3 _ IH1 _ IH2]; intros qss Hf.
  - apply Forall2_nil_inv_l in Hf as ->. exists []. split; [by exists []|done].
  - apply Forall2_cons_inv_l in Hf as (qs & qss' & Ho & Hf & ->). destruct (IH _ Hf) as (qs' & (qss2 & Hf2 & ->) & He).
    exists (qs ++ concat qss2). split; [exists (qs :: qss2); split; [by constructor|done]|]. cbn. by rewrite He.
  - apply Forall2_cons_inv_l in Hf as (q1 & qss1 & Ho1 & Hf & ->). apply Forall2_cons_inv_l in Hf as (q2 & qss2 & Ho2 & Hf & ->).
    exists (q2 ++ q1 ++ concat qss2). split; [exists (q2 :: q1 :: qss2); split; [by repeat constructor|done]|].
    cbn. solve_Permutation.
  - destruct (IH1 _ Hf) as (qs1 & (qss1 & Hf1 & ->) & He1). destruct (IH2 _ Hf1) as (qs2 & Hf2 & He2).
    exists qs2. split; [done|]. by rewrite He2.
Qed.

Lemma forest_cons_leaf h p nd ps qs : h !! p = Some nd -> owned_slaves nd = [] -> forest h ps qs -> forest h (p :: ps) (p :: qs).
Proof.
  intros Hp Hs (qss & Hf & ->). exists ([p] :: qss). split; [|done]. constructor; [|done]. by apply (owns_leaf h p nd).
Qed.

(** A root of the forest gets one more leaf. *)
Lemma forest_adopt h h' ps qs p nd nd' r lf : forest h ps qs -> NoDup qs -> p ∈ ps -> h !! p = Some nd ->
  h' !! p = Some nd' -> owned_slaves nd' = owned_slaves nd ++ [r] -> h' !! r = Some lf -> owned_slaves lf = [] ->
  (forall q n, q ∈ qs -> q ≠ p -> h !! q = Some n -> h' !! q = Some n) ->
  exists qs', forest h' ps qs' /\ qs' ≡ₚ r :: qs.
Proof.
  intros (qss & Hf & ->) Hn Hp Hnd Hnd' Ho Hr Hlf Hsame.
  apply list_elem_of_split in Hp as (l1 & l2 & ->).
  apply Forall2_app_inv_l in Hf as (q1 & q2 & Hf1 & Hf2 & ->).
  apply Forall2_cons_inv_l in Hf2 as (qp & q3 & Hop & Hf3 & ->). rewrite concat_app in *. cbn [concat] in *.
  destruct Hop as [p nd0 qss Hp0 Hsub]. assert (nd0 = nd) as -> by congruence.
  assert (Hframe : forall (l : list loc) (qs : list (list loc)), Forall2 (owns h) l qs -> p ∉ concat qs ->
    (forall q, q ∈ concat qs -> q ∈ concat q1 ++ (p :: concat qss) ++ concat q3) -> Forall2 (owns h') l qs).
  { intros l qs Hl Hout Hsub'. apply (owns_list_frame h); [done|]. intros q n Hq Hqn. exists n. split; [|done].
    apply Hsame; [by apply Hsub'|set_solver|done]. }
  pose proof Hn as (_ & Hd1 & Hn2)%NoDup_app. pose proof Hn2 as ([Hpn _]%NoDup_cons & Hd2 & _)%NoDup_app.
  exists (concat q1 ++ (p :: concat (qss ++ [[r]])) ++ concat q3). split.
  - exists (q1 ++ (p :: concat (qss ++ [[r]])) :: q3). split; [|by rewrite (concat_app q1)].
    apply Forall2_app; [|constructor].
    + apply Hframe; [done| |set_solver]. intros Hp1. apply (Hd1 p Hp1). set_solver.
    + apply (owns_node h' p nd'); [done|]. rewrite Ho. apply Forall2_app.
      * apply Hframe; [done|done|set_solver].
      * constructor; [|constructor]. by apply (owns_leaf h' r lf).
    + apply Hframe; [done| |set_solver]. intros Hp3. apply (Hd2 p); [left|done].
  - rewrite concat_app. cbn [concat]. rewrite app_nil_r. solve_Permutation.
Qed.

Section Memory.
Context {W : Type} `{HiredisOps W} {sds : SdsOps}.
Abbreviation wf := (dict_wf (clusterNodesDictType (W := W))).
Implicit Types (d : dict bytes loc) (h : nheap).

Lemma pairs_insert d d' key p : wf d -> wf d' -> to_map d !! key = None -> to_map d' = <[key := p]> (to_map d) ->
  dict_pairs d' ≡ₚ (key, p) :: dict_pairs d.
Proof.
  intros (_ & Hn & _) (_ & Hn' & _) Hk Hm. rewrite <- (map_to_list_to_map (dict_pairs d') Hn').
  change (list_to_map (dict_pairs d')) with (to_map d'). rewrite Hm, map_to_list_insert by done.
  unfold to_map. by rewrite map_to_list_to_map.
Qed.

Lemma pairs_same d d' : wf d -> wf d' -> to_map d' = to_map d -> dict_pairs d' ≡ₚ dict_pairs d.
Proof.
  intros (_ & Hn & _) (_ & Hn' & _) Hm. rewrite <- (map_to_list_to_map (dict_pairs d') Hn').
  change (list_to_map (dict_pairs d')) with (to_map d'). rewrite Hm. unfold to_map. by rewrite map_to_list_to_map.
Qed.

Record holds (h0 h : nheap) d (qs : list loc) : Prop := {
  hd_wf : wf d;
  hd_forest : forest h (dict_pairs d).*2 qs;
  hd_nodup : NoDup qs;
  hd_rest : delete_all qs h = h0;
  hd_addr : forall addr p, (addr, p) ∈ dict_pairs d -> exists nd, h !! p = Some nd /\ n_addr nd = Some addr;
  hd_lists : forall q nd l, q ∈ qs -> h !! q = Some nd -> n_slaves nd = Some l -> nl_free l = true
}.

Lemma holds_empty h : holds h h dictReset [].
Proof.
  split.
  - apply dictReset_wf.
  - exists []. by split; [constructor|].
  - apply NoDup_nil_2.
  - done.
  - by intros addr p Hin%elem_of_nil.
  - by intros q nd l Hq%elem_of_nil.
Qed.

Section Facts.
Context (h0 h : nheap) d (qs : list loc) (Hh : holds h0 h d qs).

Lemma holds_in q : q ∈ qs -> is_Some (h !! q).
Proof. pose proof (forest_in _ _ _ (hd_forest _ _ _ _ Hh)) as Hf. rewrite Forall_forall in Hf. apply Hf. Qed.
Lemma holds_fresh q : q ∈ qs -> h0 !! q = None.
Proof. intros Hq. rewrite <- (hd_rest _ _ _ _ Hh), lookup_delete_all. by rewrite decide_True. Qed.
Lemma holds_out q : q ∉ qs -> h0 !! q = h !! q.
Proof. intros Hq. rewrite <- (hd_rest _ _ _ _ Hh), lookup_delete_all. by rewrite decide_False. Qed.
Lemma holds_rest p nd : h0 !! p = Some nd -> h !! p = Some nd.
Proof.
  intros Hp. rewrite <- Hp. symmetry. apply holds_out. intros Hq%holds_fresh. congruence.
Qed.
Lemma holds_root addr p : (addr, p) ∈ dict_pairs d -> p ∈ qs.
Proof.
  intros Hin. apply (proj2 (forest_roots _ _ _ (hd_forest _ _ _ _ Hh) (hd_nodup _ _ _ _ Hh))).
  apply list_elem_of_fmap. by exists (addr, p).
Qed.
Lemma holds_map addr p : to_map d !! addr = Some p <-> (addr, p) ∈ dict_pairs d.
Proof. destruct (hd_wf _ _ _ _ Hh) as (_ & Hn & _). symmetry. by apply elem_of_list_to_map. Qed.

(** The same nodes in another heap, up to what does not matter to the dict: a node keeps its
    address and its slaves, or gets an empty list of slaves. *)
Definition same_slaves (nd nd' : redisClusterNode) : Prop :=
  n_slaves nd' = n_slaves nd \/ n_slaves nd = None /\ n_slaves nd' = Some (mkNodeList true []).
Definition like (nd nd' : redisClusterNode) : Prop := n_addr nd' = n_addr nd /\ same_slaves nd nd'.

Lemma like_refl nd : like nd nd.
Proof. split; [done|by left]. Qed.

Lemma like_owned nd nd' : like nd nd' -> owned_slaves nd' = owned_slaves nd.
Proof. unfold owned_slaves. intros [_ [Hs|[Hs Hs']]]; [by rewrite Hs|by rewrite Hs, Hs']. Qed.

Lemma holds_like h0' h' : (forall q nd, q ∈ qs -> h !! q = Some nd -> exists nd', h' !! q = Some nd' /\ like nd nd') ->
  delete_all qs h' = h0' -> holds h0' h' d qs.
Proof.
  intros Hl Hr. destruct Hh as [H1 H2 H3 H4 H5 H6]. split; [done| |done|done| |].
  - apply (forest_frame h); [done|]. intros q nd Hq Hnd. destruct (Hl q nd Hq Hnd) as (nd' & ? & Hk). exists nd'.
    split; [done|]. by apply like_owned.
  - intros addr q Hin. destruct (H5 addr q Hin) as (nd & Hnd & Ha).
    destruct (Hl q nd) as (nd' & Hnd' & Ha' & _); [by apply (holds_root addr)|done|]. exists nd'. split; [done|congruence].
  - intros q nd' l Hq Hnd' Hs. destruct (holds_in q Hq) as [nd Hnd]. destruct (Hl q nd Hq Hnd) as (n & Hn & _ & Hk).
    assert (n = nd') as -> by congruence. destruct Hk as [Hk|[_ Hk]]; [|by rewrite Hk in Hs; injection Hs as <-].
    apply (H6 q nd l); [done|done|congruence].
Qed.

Lemma holds_put p nd nd' : p ∈ qs -> h !! p = Some nd -> like nd nd' -> holds h0 (<[p := nd']> h) d qs.
Proof.
  intros Hp Hnd Hk. apply holds_like.
  - intros q n Hq Hn. destruct (decide (p = q)) as [<-|Hne].
    + exists nd'. rewrite lookup_insert_eq. split; [done|]. by assert (n = nd) as -> by congruence.
    + exists n. rewrite lookup_insert_ne by done. split; [done|apply like_refl].
  - rewrite <- (hd_rest _ _ _ _ Hh). apply map_eq. intros q. rewrite !lookup_delete_all. destruct (decide (q ∈ qs)); [done|].
    rewrite lookup_insert_ne; [done|]. by intros <-.
Qed.

(** A node outside of the dict is written, or freed. *)
Lemma holds_alter p o : p ∉ qs -> holds (partial_alter (fun _ => o) p h0) (partial_alter (fun _ => o) p h) d qs.
Proof.
  intros Hp. apply holds_like.
  - intros q n Hq Hn. exists n. rewrite lookup_partial_alter_ne by (by intros ->). split; [done|apply like_refl].
  - rewrite <- (hd_rest _ _ _ _ Hh). apply map_eq. intros q. rewrite lookup_delete_all. destruct (decide (p = q)) as [<-|Hne].
    + by rewrite !lookup_partial_alter_eq, decide_False.
    + rewrite !lookup_partial_alter_ne by done. by rewrite lookup_delete_all.
Qed.

Lemma holds_other p nd : p ∉ qs -> holds (<[p := nd]> h0) (<[p := nd]> h) d qs.
Proof. apply holds_alter. Qed.
Lemma holds_delete p : p ∉ qs -> holds (delete p h0) (delete p h) d qs.
Proof. apply holds_alter. Qed.

(** The slaves in the list of a node are there with it. *)
Lemma holds_slaves p nd l : p ∈ qs -> h !! p = Some nd -> n_slaves nd = Some l -> forall q, q ∈ nl_items l -> is_Some (h !! q).
Proof.
  intros Hp Hnd Hl q Hq. pose proof (hd_lists _ _ _ _ Hh p nd l Hp Hnd Hl) as Hf.
  assert (Ho : q ∈ owned_slaves nd) by (unfold owned_slaves; by rewrite Hl, Hf).
  destruct (hd_forest _ _ _ _ Hh) as (qss & Hfo & Heq). rewrite Heq in Hp. clear Heq.
  assert (Htree : forall r rs, owns h r rs -> p ∈ rs -> is_Some (h !! q)).
  { apply (owns_ind' h (fun r rs => p ∈ rs -> is_Some (h !! q))). intros r n rss Hr Hrs IH [->|Hin]%elem_of_cons.
    - assert (n = nd) as -> by congruence. clear IH Hr. revert Ho. induction Hrs as [|x xs ys zs Hx Hxs IHx]; [by intros ?%elem_of_nil|].
      intros [->|?]%elem_of_cons; [|by apply IHx]. destruct Hx as [x n ? Hx _]. by exists n.
    - clear Hrs Hr Ho. induction IH as [|x xs ys zs Hx Hxs IHx]; [by apply elem_of_nil in Hin|]. cbn in Hin.
      apply elem_of_app in Hin as [?|?]; [by apply Hx|by apply IHx]. }
  clear Ho. induction Hfo as [|x xs ys zs Hx Hxs IHx]; [by apply elem_of_nil in Hp|]. cbn in Hp.
  apply elem_of_app in Hp as [?|?]; [by apply (Htree x xs)|by apply IHx].
Qed.

(** The same pairs in another table. *)
Lemma holds_same d' : wf d' -> to_map d' = to_map d -> exists qs', holds h0 h d' qs' /\ qs' ≡ₚ qs.
Proof.
  intros Hw Hm. destruct Hh as [H1 H2 H3 H4 H5 H6]. pose proof (pairs_same d d' H1 Hw Hm) as Hp.
  destruct (forest_perm _ _ (dict_pairs d').*2 _ H2) as (qs' & Hf & Hq); [by rewrite Hp|].
  exists qs'. split; [|done]. split; [done|done|by rewrite Hq| | |].
  - rewrite <- H4. apply map_eq. intros q. rewrite !lookup_delete_all.
    by rewrite (decide_ext (q ∈ qs') (q ∈ qs)) by (by rewrite Hq).
  - intros addr q. rewrite Hp. apply H5.
  - intros q n l. rewrite Hq. apply H6.
Qed.
End Facts.

(** A node without slaves enters the dict under its address. *)
Lemma holds_add h0 h d qs d' key p nd : holds (<[p := nd]> h0) h d qs -> h0 !! p = None ->
  n_addr nd = Some key -> n_slaves nd = None -> wf d' -> to_map d !! key = None -> to_map d' = <[key := p]> (to_map d) ->
  exists qs', holds h0 h d' qs' /\ qs' ≡ₚ p :: qs.
Proof.
  intros Hh Hp Ha Hs Hw Hk Hm. pose proof Hh as [H1 H2 H3 H4 H5 H6]. pose proof (pairs_insert d d' key p H1 Hw Hk Hm) as Hpp.
  assert (Hpq : p ∉ qs).
  { intros Hq. apply (holds_fresh _ _ _ _ Hh) in Hq. by rewrite lookup_insert_eq in Hq. }
  assert (Hph : h !! p = Some nd) by (apply (holds_rest _ _ _ _ Hh), lookup_insert_eq).
  assert (Ho : owned_slaves nd = []) by (unfold owned_slaves; by rewrite Hs).
  destruct (forest_perm h (p :: (dict_pairs d).*2) (dict_pairs d').*2 (p :: qs)) as (qs' & Hf & Hq).
  { by apply (forest_cons_leaf h p nd). }
  { by rewrite Hpp. }
  exists qs'. split; [|done]. split; [done|done| | | |].
  - rewrite Hq. by apply NoDup_cons.
  - apply map_eq. intros q. rewrite lookup_delete_all, (decide_ext (q ∈ qs') (q ∈ p :: qs)) by (by rewrite Hq).
    destruct (decide (p = q)) as [<-|Hne].
    + rewrite decide_True by left. done.
    + rewrite (decide_ext (q ∈ p :: qs) (q ∈ qs)) by set_solver. rewrite <- lookup_delete_all, H4.
      by rewrite lookup_insert_ne.
  - intros addr q. rewrite Hpp, elem_of_cons. intros [[= -> ->]|Hin]; [by exists nd|by apply H5].
  - intros q n l. rewrite Hq, elem_of_cons. intros [->|Hin]; [|by apply H6]. rewrite Hph. intros [= <-]. congruence.
Qed.

(** A node outside of the dict becomes a slave of one of its nodes. *)
Lemma holds_adopt h0 h d qs p nd items r lf : holds (<[r := lf]> h0) h d qs -> h0 !! r = None -> n_slaves lf = None ->
  p ∈ (dict_pairs d).*2 -> h !! p = Some nd -> n_slaves nd = Some (mkNodeList true items) ->
  exists qs', holds h0 (<[p := n_set_slaves (Some (mkNodeList true (items ++ [r]))) nd]> h) d qs' /\ qs' ≡ₚ r :: qs.
Proof.
  intros Hh Hr Hlf Hp Hnd Hsl. set (nd' := n_set_slaves (Some (mkNodeList true (items ++ [r]))) nd). pose proof Hh as [H1 H2 H3 H4 H5 H6].
  assert (Hrq : r ∉ qs).
  { intros Hq. apply (holds_fresh _ _ _ _ Hh) in Hq. by rewrite lookup_insert_eq in Hq. }
  assert (Hrh : h !! r = Some lf) by (apply (holds_rest _ _ _ _ Hh), lookup_insert_eq).
  assert (Hpq : p ∈ qs) by (by apply (proj2 (forest_roots _ _ _ H2 H3))).
  assert (Hne : p ≠ r) by (by intros ->).
  destruct (forest_adopt h (<[p := nd']> h) (dict_pairs d).*2 qs p nd nd' r lf) as (qs' & Hf & Hq); try done.
  { apply lookup_insert_eq. }
  { unfold owned_slaves. by rewrite Hsl. }
  { by rewrite lookup_insert_ne. }
  { unfold owned_slaves. by rewrite Hlf. }
  { intros q n _ Hq Hn. by rewrite lookup_insert_ne. }
  exists qs'. split; [|done]. split; [done|done| | | |].
  - rewrite Hq. by apply NoDup_cons.
  - apply map_eq. intros q. rewrite lookup_delete_all, (decide_ext (q ∈ qs') (q ∈ r :: qs)) by (by rewrite Hq).
    destruct (decide (q ∈ r :: qs)) as [Hin|Hin].
    + apply elem_of_cons in Hin as [->|Hin]; [done|]. apply (holds_fresh _ _ _ _ Hh) in Hin.
      rewrite lookup_insert_ne in Hin; [done|]. intros ->. by rewrite lookup_insert_eq in Hin.
    + apply not_elem_of_cons in Hin as [Hqr Hin]. rewrite lookup_insert_ne by (by intros ->).
      rewrite <- (holds_out _ _ _ _ Hh q) by done. by rewrite lookup_insert_ne.
  - intros addr q Hin. destruct (H5 addr q Hin) as (n & Hn & E). destruct (decide (p = q)) as [<-|Hpq'].
    + exists nd'. rewrite lookup_insert_eq. split; [done|]. cbn. congruence.
    + exists n. by rewrite lookup_insert_ne.
  - intros q n l. rewrite Hq, elem_of_cons. destruct (decide (p = q)) as [<-|Hpq'].
    + rewrite lookup_insert_eq. intros _ [= <-] [= <-]. done.
    + rewrite lookup_insert_ne by done. intros [->|Hin]; [|by apply H6]. rewrite Hrh. intros [= <-]. congruence.
Qed.

(** Releasing the dict gives the heap back. *)
Lemma holds_release {L} h0 d qs (st : cstate W) : holds h0 (s_heap st) d qs -> dict_small d ->
  exists w, m_dictRelease (L := L) d st = (upd_heap (fun _ => h0) (upd_world (fun _ => w) st), Normal ()).
Proof.
  intros [H1 H2 H3 H4 _ _] Hs. eexists. rewrite (m_dictRelease_ok _ _ qs); [|done|done].
  unfold freed. rewrite H4. reflexivity.
Qed.
End Memory.
