(* ===== verification/Safety.v ===== *)
(** * Memory safety of the parsers

    For every reply and whatever the allocations answer, neither parser uses memory that
    is not there, and each ends with a dict that owns exactly the nodes it has made, or
    without one and with the heap as it was.  With slaves this holds for CLUSTER SLOTS;
    CLUSTER NODES with slaves has its double free (see [NodesReply]). *)
From S2P Require Import Prelude Hiutil Dict Goto Hiredis Context Sds Nodes Topology NodeProps Ownership Script SlotMap Triple Memory.

(** What the state changes of parsing leave alone. *)
Definition core (cc : redisClusterContext) := (cc_nodes cc, cc_table cc, cc_flags cc).

Section State.
Context {W : Type} `{HiredisOps W} {sds : SdsOps} {slaws : SdsLaws sds}.
Implicit Types (st : cstate W) (d : dict bytes loc) (h : nheap).
Abbreviation wf := (dict_wf (clusterNodesDictType (W := W))).

(** The same context with another heap. *)
Definition after h st st' : Prop := s_heap st' = h /\ core (s_cc st') = core (s_cc st).

Lemma after_trans h1 h2 st st1 st2 : after h1 st st1 -> after h2 st1 st2 -> after h2 st st2.
Proof. intros [_ H1] [H2 H3]. split; [done|congruence]. Qed.

(** A new node, without slaves. *)
Definition made (addr : bytes) (role : Z) st st' (p : loc) : Prop := s_heap st !! p = None /\
  exists nd, after (<[p := nd]> (s_heap st)) st st' /\ n_addr nd = Some addr /\ n_slaves nd = None /\ n_role nd = role.

Section Functions.
Context {L : Type} (U : Prop) (E : cstate W -> L -> Prop).

Lemma find_run d key st : wf d -> m_dictFind (L := L) d key st = (st, Normal (to_map d !! key)).
Proof. intros Hwf. unfold m_dictFind. rewrite (dictFind_ok _ d key Hwf). cbn. by destruct (to_map d !! key). Qed.

Lemma dictAdd_t d key p st : wf d -> dict_small d ->
  triple U (m_dictAdd d key p) st (fun st' '(d', r) => after (s_heap st) st st' /\ wf d' /\
    (r = DICT_OK /\ to_map d !! key = None /\ to_map d' = <[key := p]> (to_map d) \/
     r = DICT_ERR /\ to_map d' = to_map d)) E.
Proof.
  intros Hwf Hs. unfold m_dictAdd. steps.
  match goal with |- triple _ (gdef (dictAdd _ ?a ?b _ _ _)) _ _ _ =>
    destruct (dictAdd_ok (clusterNodesDictType (W := W)) a b d key p Hwf Hs) as (d' & r & E1 & Hwf' & Hr) end.
  rewrite E1. apply triple_ret. split; [done|]. split; [done|]. destruct Hr as [?|(? & ? & _)]; [by left|by right].
Qed.

Lemma createNode_t st : triple U createRedisClusterNode st (fun st' o =>
  match o with
  | Some p => s_heap st !! p = None /\ after (<[p := zero_node]> (s_heap st)) st st'
  | None => after (s_heap st) st st'
  end) E.
Proof.
  unfold createRedisClusterNode. steps; [|done]. split; [|done]. cbn. apply not_elem_of_dom, is_fresh.
Qed.

Lemma free_leaf_t p nd st : s_heap st !! p = Some nd -> n_slaves nd = None ->
  triple U (m_freeRedisClusterNode p) st (fun st' _ => after (delete p (s_heap st)) st st') E.
Proof.
  intros Hp Hs. assert (Ho : owns (s_heap st) p [p]).
  { apply (owns_leaf _ _ nd); [done|]. unfold owned_slaves. by rewrite Hs. }
  apply triple_run_last with (s' := freed [p] st) (a := ()); [|done].
  unfold m_freeRedisClusterNode. rewrite (freeNode_ok _ _ _ Ho) by apply NoDup_singleton. reflexivity.
Qed.

(** A node is written, but for its address and its slaves. *)
Definition touched (p : loc) st st' : Prop := exists nd nd', s_heap st !! p = Some nd /\
  after (<[p := nd']> (s_heap st)) st st' /\ like nd nd'.

Lemma touched_same p nd st st' : s_heap st !! p = Some nd -> after (s_heap st) st st' -> touched p st st'.
Proof. intros Hp [H1 H2]. exists nd, nd. split; [done|]. split; [|by repeat (split || left)]. split; [by rewrite insert_id|done]. Qed.

Lemma touched_node p st st' : touched p st st' -> exists nd, s_heap st' !! p = Some nd.
Proof. intros (nd & nd' & _ & [-> _] & _). exists nd'. apply lookup_insert_eq. Qed.

Lemma add_slot_t p nd slot st : s_heap st !! p = Some nd ->
  triple U (add_slot p slot) st (fun st' _ => touched p st st') E.
Proof.
  intros Hp. unfold add_slot. step. destruct (n_slots nd) eqn:Es; steps.
  all: try (eexists nd, _; split; [done|]; split; [split; cbn; [|done]|];
    rewrite ?insert_insert_eq; [reflexivity|]; by repeat (split || left)).
  all: by apply (touched_same p nd).
Qed.

Lemma slot_create_t p nd st : s_heap st !! p = Some nd ->
  triple U (cluster_slot_create p) st (fun st' _ => touched p st st') E.
Proof.
  intros Hp. unfold cluster_slot_create. steps; [|by apply (touched_same p nd)].
  eapply triple_bind; [by apply add_slot_t with (nd := nd)|]. intros st' ok Ht. steps; exact Ht.
Qed.

Lemma ref_node_t p nd slot st : s_heap st !! p = Some nd ->
  triple U (cluster_slot_ref_node slot p) st (fun st' _ => touched p st st') E.
Proof.
  intros Hp. unfold cluster_slot_ref_node. steps; [by apply (touched_same p nd)|].
  eapply triple_bind; [by apply add_slot_t with (nd := nd)|]. intros st' ok Ht. steps; exact Ht.
Qed.

Lemma open_slot_t i m r p st : triple U (cluster_open_slot_create i m r p) st (fun st' _ => after (s_heap st) st st') E.
Proof. unfold cluster_open_slot_create. step. destruct b; steps; done. Qed.

Lemma ensure_slaves_t p nd st : s_heap st !! p = Some nd ->
  triple U (ensure_slaves p) st (fun st' ok => touched p st st' /\
    (ok = true -> exists nd' l, s_heap st' !! p = Some nd' /\ n_slaves nd' = Some l)) E.
Proof.
  intros Hp. unfold ensure_slaves. step. destruct (n_slaves nd) as [l|] eqn:Es; steps.
  - split; [by apply (touched_same p nd)|]. intros _. by exists nd, l.
  - split.
    + eexists nd, _. split; [done|]. split; [split; reflexivity|]. split; [done|]. by right.
    + intros _. eexists _, _. cbn. by rewrite lookup_insert_eq.
  - split; [by apply (touched_same p nd)|done].
Qed.
End Functions.

Lemma node_get_with_slots_t {L} (U : Prop) (E : cstate W -> L -> Prop) host port role st :
  triple U (node_get_with_slots host port role) st (fun st' o =>
    match o with
    | Some p => made (sdscatfmt_port (sdsnew host) port) role st st' p
    | None => after (s_heap st) st st'
    end) E.
Proof.
  unfold node_get_with_slots. eapply triple_bind; [apply (createNode_t U)|]. intros st1 [p|] Hst; [|by steps].
  destruct Hst as [Hp [Hh Hc]]. assert (Hp1 : s_heap st1 !! p = Some zero_node) by (rewrite Hh; apply lookup_insert_eq).
  eapply triple_catch with (E := fun st' (_ : n_label) => exists nd, after (<[p := nd]> (s_heap st)) st st').
  - destruct (role =? REDIS_ROLE_MASTER) eqn:Er; steps; cbn; try (eexists; split; [|exact Hc]; cbn; rewrite Hh, ?insert_insert_eq; reflexivity).
    all: split; [done|]; eexists; split; [split; [|exact Hc]; cbn; rewrite Hh, ?insert_insert_eq; reflexivity|done].
  - intros st2 l (nd & [Hh2 Hc2]). steps. split; [|exact Hc2]. cbn. rewrite Hh2. by rewrite delete_insert_id.
Qed.

#[local] Ltac written Hh Hc :=
  eexists; split; [split; [|exact Hc]; cbn; rewrite Hh, ?insert_insert_eq; reflexivity|by repeat (split || reflexivity)].

Lemma node_get_with_nodes_t {L} (U : Prop) (E : cstate W -> L -> Prop) c infos role st :
  triple U (node_get_with_nodes c infos role) st (fun st' o =>
    match o with Some p => exists addr, made addr role st st' p | None => after (s_heap st) st st' end) E.
Proof.
  unfold node_get_with_nodes. destruct (_ <? 8); [by steps|].
  eapply triple_bind; [apply (createNode_t U)|]. intros st1 [p|] Hst; [|by steps].
  destruct Hst as [Hp [Hh Hc]]. assert (Hp1 : s_heap st1 !! p = Some zero_node) by (rewrite Hh; apply lookup_insert_eq).
  eapply triple_catch with (E := fun st' (_ : n_label) =>
    exists nd, after (<[p := nd]> (s_heap st)) st st' /\ n_slaves nd = None).
  - cbv zeta. step. set (field := match strchr _ _ with Some _ => _ | None => _ end). clearbody field.
    destruct (role =? REDIS_ROLE_MASTER) eqn:Er; steps; cbn.
    all: try (destruct (strrchr field _) as [i|]; steps; cbn).
    all: first [solve [written Hh Hc] | solve [eexists; split; [done|]; written Hh Hc]].
  - intros st2 l (nd & [Hh2 Hc2] & Hs). eapply triple_bind with (Q := fun st' _ => after (s_heap st2) st2 st').
    { destruct l; by steps. }
    intros st3 [] [Hh3 Hc3]. assert (Hp3 : s_heap st3 !! p = Some nd) by (rewrite Hh3, Hh2; apply lookup_insert_eq).
    eapply triple_bind; [by apply (free_leaf_t U _ p nd)|]. intros st4 [] [Hh4 Hc4]. steps.
    split; [|congruence]. rewrite Hh4, Hh3, Hh2. by rewrite delete_insert_id.
Qed.
End State.

(** ** A parser at work

    [parsing h0 c0 n s]: beside the heap [h0] there are exactly the nodes of the dict, at
    most [n] of them under an address. *)
Section Parsing.
Context {W : Type} `{HiredisOps W} {sds : SdsOps} {slaws : SdsLaws sds} (U : Prop).
Implicit Types (s : tstate W) (st : cstate W) (h : nheap).

Record parsing h0 c0 (n : Z) s : Prop := {
  ps_core : core (s_cc (ts_st s)) = c0;
  ps_holds : exists qs, holds (W := W) h0 (s_heap (ts_st s)) (ts_nodes s) qs;
  ps_used : d_used (ts_nodes s) <= n
}.

(** A node of the dict. *)
Definition root s (p : loc) : Prop := p ∈ (dict_pairs (ts_nodes s)).*2.

Definition with_st st s : tstate W := mkTstate st (ts_nodes s) (ts_names s) (ts_slot s) (ts_master s) (ts_found s).

Lemma triple_lift {A B} (m : G (cstate W) n_label A) (k : A -> G (tstate W) n_label B) s P E Q QE :
  triple U m (ts_st s) Q QE -> (forall st a, Q st a -> triple U (k a) (with_st st s) P E) ->
  (forall st l, QE st l -> E (with_st st s) l) -> triple U (t_lift m ≫= k) s P E.
Proof.
  unfold triple at 1 3. intros Hm Hk HE. unfold mbind, g_bind, t_lift. destruct (m (ts_st s)) as [st [a|l|]].
  - apply (Hk st a Hm).
  - apply (HE st l Hm).
  - done.
Qed.

Lemma triple_lift_last {A} (m : G (cstate W) n_label A) s P E Q QE :
  triple U m (ts_st s) Q QE -> (forall st a, Q st a -> P (with_st st s) a) ->
  (forall st l, QE st l -> E (with_st st s) l) -> triple U (t_lift m) s P E.
Proof.
  unfold triple. intros Hm Hk HE. unfold t_lift. destruct (m (ts_st s)) as [st [a|l|]].
  - apply (Hk st a Hm).
  - apply (HE st l Hm).
  - done.
Qed.

Lemma parsing_mono h0 c0 n n' s : parsing h0 c0 n s -> n <= n' -> parsing h0 c0 n' s.
Proof. intros [H1 H2 H3] Hn. split; [done|done|lia]. Qed.

Lemma parsing_after h0 c0 n s st : parsing h0 c0 n s -> after (s_heap (ts_st s)) (ts_st s) st -> parsing h0 c0 n (with_st st s).
Proof. intros [H1 H2 H3] [Hh Hc]. split; cbn; [congruence|by rewrite Hh|done]. Qed.

Lemma root_live h0 c0 n s p : parsing h0 c0 n s -> root s p -> exists qs nd,
  holds (W := W) h0 (s_heap (ts_st s)) (ts_nodes s) qs /\ p ∈ qs /\ s_heap (ts_st s) !! p = Some nd.
Proof.
  intros [_ [qs Hq] _] ([addr q] & -> & Hin)%list_elem_of_fmap. pose proof (holds_root _ _ _ _ Hq _ _ Hin) as Hp.
  destruct (holds_in _ _ _ _ Hq _ Hp) as [nd Hnd]. by exists qs, nd.
Qed.

Lemma parsing_touched h0 c0 n s st p : parsing h0 c0 n s -> root s p -> touched p (ts_st s) st -> parsing h0 c0 n (with_st st s).
Proof.
  intros Hp Hr (nd & nd' & Hnd & [Hh Hc] & Ha & Hs). destruct (root_live _ _ _ _ _ Hp Hr) as (qs & _ & Hq & Hin & _).
  destruct Hp as [H1 _ H3]. split; cbn; [congruence| |done]. exists qs. rewrite Hh. by apply (holds_put _ _ _ _ Hq p nd); [| |split].
Qed.

(** A node that is made and not yet in the dict counts as part of the rest. *)
Lemma parsing_made h0 c0 n s st p addr role : parsing h0 c0 n s -> made addr role (ts_st s) st p ->
  h0 !! p = None /\ exists nd, n_addr nd = Some addr /\ n_slaves nd = None /\ parsing (<[p := nd]> h0) c0 n (with_st st s).
Proof.
  intros [H1 [qs Hq] H3] (Hp & nd & [Hh Hc] & Ha & Hs & _).
  assert (Hpq : p ∉ qs) by (intros Hin%(holds_in _ _ _ _ Hq); destruct Hin; congruence).
  split; [by rewrite (holds_out _ _ _ _ Hq)|]. exists nd. split; [done|]. split; [done|]. split; cbn; [congruence| |done].
  exists qs. rewrite Hh. by apply holds_other.
Qed.

Lemma parsing_node h0 c0 n s p nd : parsing (<[p := nd]> h0) c0 n s -> s_heap (ts_st s) !! p = Some nd.
Proof. intros [_ [qs Hq] _]. apply (holds_rest _ _ _ _ Hq), lookup_insert_eq. Qed.

Lemma parsing_deleted h0 c0 n s p nd st : parsing (<[p := nd]> h0) c0 n s -> h0 !! p = None ->
  after (delete p (s_heap (ts_st s))) (ts_st s) st -> parsing h0 c0 n (with_st st s).
Proof.
  intros Hp Hn [Hh Hc]. pose proof Hp as [H1 [qs Hq] H3]. split; cbn; [congruence| |done].
  exists qs. rewrite Hh. rewrite <- (delete_insert_id h0 p nd) by done. apply holds_delete; [done|].
  intros Hin%(holds_fresh _ _ _ _ Hq). by rewrite lookup_insert_eq in Hin.
Qed.

(** The label of an error: the dict is released there. *)
Definition failing h0 c0 : tstate W -> n_label -> Prop := fun s _ => parsing h0 c0 (2 ^ 29) s.

Lemma triple_free {B} (k : () -> G (tstate W) n_label B) h0 c0 n s p nd P E : parsing (<[p := nd]> h0) c0 n s ->
  h0 !! p = None -> n_slaves nd = None -> (forall s', parsing h0 c0 n s' -> triple U (k ()) s' P E) ->
  triple U (t_lift (m_freeRedisClusterNode p) ≫= k) s P E.
Proof.
  intros Hp Hn Hs Hk. eapply triple_lift with (QE := fun _ _ => False).
  - apply (free_leaf_t U _ p nd); [by eapply parsing_node|done].
  - intros st [] Ha. apply Hk. by apply (parsing_deleted _ _ _ _ p nd).
  - done.
Qed.

Definition locals s := (ts_slot s, ts_master s).

Lemma t_add_node_safe h0 c0 n s p nd addr : parsing (<[p := nd]> h0) c0 n s -> h0 !! p = None -> n_addr nd = Some addr ->
  n_slaves nd = None -> n + 1 <= 2 ^ 29 ->
  triple U (t_add_node p) s (fun s' r => locals s' = locals s /\
    (r = DICT_OK /\ parsing h0 c0 (n + 1) s' /\ root s' p \/ r = DICT_ERR /\ parsing (<[p := nd]> h0) c0 n s'))
    (failing h0 c0).
Proof.
  intros Hp Hn Ha Hs Hlt. unfold t_add_node, failing.
  apply triple_run with (s' := s) (a := nd). { unfold t_lift, get_node. rewrite (parsing_node _ _ _ _ _ _ Hp). by destruct s. }
  eapply triple_def; [exact Ha|]. apply triple_lift with (Q := fun st' _ => after (s_heap (ts_st s)) (ts_st s) st') (QE := fun _ _ => False);
    [done| |done].
  intros st ok Hst. pose proof (parsing_after _ _ _ _ _ Hp Hst) as Hp1. destruct ok; cbn [negb].
  2: { apply (triple_free _ h0 c0 n _ p nd); [done|done|done|]. intros s' Hp'. steps. eapply parsing_mono; [done|lia]. }
  step. rewrite sdsnewlen_all. pose proof Hp1 as [Hc [qs Hq] Hu]. cbn [with_st ts_nodes ts_st] in *.
  pose proof (hd_wf _ _ _ _ Hq) as Hwf.
  eapply triple_lift with (QE := fun _ _ => False); [apply (dictAdd_t U); [done|unfold dict_small; lia]| |done].
  intros st2 [d' r] (Ha2 & Hwf' & Hr). unfold t_set_nodes. steps. split; [done|].
  pose proof (to_map_size _ d' Hwf') as Hsz'. pose proof (to_map_size _ (ts_nodes s) Hwf) as Hsz. destruct Ha2 as [Hh2 Hc2].
  cbn [with_st ts_st] in Hh2, Hc2. destruct Hr as [(-> & Hk & Hm)|(-> & Hm)].
  - left. split; [done|]. destruct (holds_add _ _ _ _ d' addr p nd Hq Hn Ha Hs Hwf' Hk Hm) as (qs' & Hq' & _). split.
    + split; cbn; [congruence|exists qs'; rewrite Hh2; exact Hq'|]. rewrite Hsz', Hm, map_size_insert_None by done. lia.
    + unfold root. cbn. apply list_elem_of_fmap. exists (addr, p). split; [done|].
      apply (holds_map _ _ _ _ Hq'). rewrite Hm. apply lookup_insert_eq.
  - right. split; [done|]. destruct (holds_same _ _ _ _ Hq d' Hwf' Hm) as (qs' & Hq' & _). split; cbn; [congruence| |].
    + exists qs'. rewrite Hh2. exact Hq'.
    + rewrite Hsz', Hm. lia.
Qed.

Lemma failing_of h0 c0 n s l : parsing h0 c0 n s -> n <= 2 ^ 29 -> failing h0 c0 s l.
Proof. apply parsing_mono. Qed.

(** A step that only allocates or reports: the locals and the nodes stay. *)
Definition still s s' : Prop := locals s' = locals s /\ ts_nodes s' = ts_nodes s /\ ts_found s' = ts_found s.

Lemma triple_still {A B} (m : G (cstate W) n_label A) (k : A -> G (tstate W) n_label B) h0 c0 n s P (R : A -> Prop) :
  parsing h0 c0 n s -> n <= 2 ^ 29 ->
  triple U m (ts_st s) (fun st a => after (s_heap (ts_st s)) (ts_st s) st /\ R a) (fun st _ => after (s_heap (ts_st s)) (ts_st s) st) ->
  (forall s' a, parsing h0 c0 n s' -> still s s' -> R a -> triple U (k a) s' P (failing h0 c0)) ->
  triple U (t_lift m ≫= k) s P (failing h0 c0).
Proof.
  intros Hp Hn Hm Hk. eapply triple_lift; [exact Hm| |].
  - intros st a [Ha HR]. apply Hk; [by apply parsing_after|done|done].
  - intros st l Ha. eapply failing_of; [by apply parsing_after|done].
Qed.

Lemma triple_quiet {A B} (m : G (cstate W) n_label A) (k : A -> G (tstate W) n_label B) h0 c0 n s P E :
  parsing h0 c0 n s -> triple U m (ts_st s) (fun st _ => after (s_heap (ts_st s)) (ts_st s) st) (fun _ _ => False) ->
  (forall s' a, parsing h0 c0 n s' -> still s s' -> triple U (k a) s' P E) -> triple U (t_lift m ≫= k) s P E.
Proof.
  intros Hp Hm Hk. eapply triple_lift; [exact Hm| |done].
  intros st a Ha. apply Hk; [by apply parsing_after|done].
Qed.

Lemma triple_sds {B} x (k : bytes -> G (tstate W) n_label B) h0 c0 n s P : parsing h0 c0 n s -> n <= 2 ^ 29 ->
  (forall s', parsing h0 c0 n s' -> still s s' -> triple U (k x) s' P (failing h0 c0)) ->
  triple U (t_sds x ≫= k) s P (failing h0 c0).
Proof.
  intros Hp Hn Hk. unfold t_sds. apply (triple_still _ _ h0 c0 n) with (R := fun a => a = x); [done|done| |].
  - unfold sds_or. steps; done.
  - intros s' a Hp' Hs ->. by apply Hk.
Qed.

Lemma error_t {A} h0 c0 n s msg (P : tstate W -> A -> Prop) : parsing h0 c0 n s -> n <= 2 ^ 29 ->
  triple U (t_error msg) s P (failing h0 c0).
Proof.
  intros Hp Hn. unfold t_error. eapply triple_still with (R := fun _ => True); [done|done|by steps|].
  intros s' [] Hp' _ _. steps. by eapply failing_of.
Qed.

(** ** CLUSTER SLOTS *)
Lemma ref_slot_t h0 c0 n s p : parsing h0 c0 n s -> root s p -> is_Some (ts_slot s) -> n <= 2 ^ 29 ->
  triple U (t_ref_slot p) s (fun s' _ => parsing h0 c0 n s' /\ ts_nodes s' = ts_nodes s /\ ts_master s' = ts_master s)
    (failing h0 c0).
Proof.
  intros Hp Hr [slot Hs] Hn. unfold t_ref_slot. step. eapply triple_def; [exact Hs|].
  destruct (root_live _ _ _ _ _ Hp Hr) as (qs & nd & _ & _ & Hnd).
  eapply triple_lift with (QE := fun _ _ => False); [by apply (ref_node_t U _ p nd)| |done].
  intros st ret Ht. pose proof (parsing_touched _ _ _ _ _ _ Hp Hr Ht) as Hp'. unfold t_set_slot. steps.
  - by eapply failing_of.
  - split; [|done]. destruct Hp'. by split.
Qed.

Definition after_master h0 c0 n s : Prop := parsing h0 c0 (n + 1) s /\ exists p, ts_master s = Some p /\ root s p.

Lemma master_t h0 c0 n s host port : parsing h0 c0 n s -> is_Some (ts_slot s) -> n + 1 <= 2 ^ 29 ->
  triple U (t_master host port) s (fun s' _ => after_master h0 c0 n s') (failing h0 c0).
Proof.
  intros Hp0 Hslot0 Hn. unfold t_master.
  eapply triple_sds; [done|lia|]. intros s1 Hp1 [Hl1 _]. eapply triple_sds; [done|lia|]. intros s2 Hp [Hl2 _].
  assert (Hslot : is_Some (ts_slot s2)) by (rewrite Hl1 in Hl2; by injection Hl2 as -> _).
  clear dependent s1. clear s Hp0 Hslot0. rename s2 into s. pose proof Hp as [_ [qs Hq] Hu]. step.
  eapply triple_lift with (QE := fun _ _ => False) (Q := fun st o => st = ts_st s /\ o = to_map (ts_nodes s) !! sdscatfmt_port (sdsnew host) port);
    [by eapply triple_run_last; [apply find_run, (hd_wf _ _ _ _ Hq)|]| |done].
  intros st den [-> ->]. change (with_st (ts_st s) s) with (mkTstate (ts_st s) (ts_nodes s) (ts_names s) (ts_slot s) (ts_master s) (ts_found s)).
  replace (mkTstate _ _ _ _ _ _) with s by (by destruct s). unfold t_set_master.
  destruct (to_map (ts_nodes s) !! _) as [p|] eqn:Em.
  - step. eapply triple_bind.
    { apply (ref_slot_t h0 c0 n) with (p := p); [by destruct Hp| |done|lia]. unfold root. cbn.
      apply list_elem_of_fmap. eexists (_, p). split; [done|]. by apply (holds_map _ _ _ _ Hq). }
    intros s' [] (Hp' & Hns & Hms). steps. split; [apply (parsing_mono _ _ n); [done|lia]|]. exists p. split; [done|].
    unfold root. rewrite Hns. cbn. apply list_elem_of_fmap. eexists (_, p). split; [done|]. by apply (holds_map _ _ _ _ Hq).
  - eapply triple_lift with (QE := fun _ _ => False); [apply (node_get_with_slots_t U)| |done].
    intros st3 node Hnode. step. step; [subst node|].
    { eapply failing_of with (n := n); [|lia]. by destruct (parsing_after _ _ _ _ _ Hp Hnode). }
    subst node. destruct (parsing_made _ _ _ _ _ _ _ _ Hp Hnode) as (Hfree & nd & Hna & Hns & Hp3).
    eapply triple_bind.
    { apply (t_add_node_safe h0 c0 n) with (nd := nd) (addr := sdscatfmt_port (sdsnew host) port); try done. by destruct Hp3. }
    intros s4 ret [Hl [(-> & Hp4 & Hr4)|(-> & Hp4)]]; cbn [Z.eqb negb DICT_OK DICT_ERR].
    + eapply triple_bind; [apply (ref_slot_t h0 c0 (n + 1)) with (p := a); [done|done| |lia]|].
      { injection Hl as -> _. done. }
      intros s5 [] (Hp5 & Hns5 & Hms5). steps. split; [done|]. exists a. split; [|unfold root; by rewrite Hns5].
      injection Hl as _ Hl. by rewrite Hms5, Hl.
    + apply (triple_free _ h0 c0 n _ a nd); [done|done|done|]. intros s5 Hp5. steps. eapply failing_of; [done|lia].
Qed.

(** A slave is owned by the master of its region. *)
Lemma slave_t h0 c0 n s host port : after_master h0 c0 n s -> n + 1 <= 2 ^ 29 ->
  triple U (t_slave host port) s (fun s' _ => after_master h0 c0 n s') (failing h0 c0).
Proof.
  intros [Hp (p & Hm & Hr)] Hn. unfold t_slave.
  eapply triple_lift with (QE := fun _ _ => False); [apply (node_get_with_slots_t U)| |done].
  intros st1 node Hnode. step; subst node.
  { eapply failing_of with (n := n + 1); [|lia]. by apply parsing_after. }
  destruct (parsing_made _ _ _ _ _ _ _ _ Hp Hnode) as (Hfree & lf & _ & Hlf & Hp1).
  step. eapply triple_def; [exact Hm|]. assert (Hr1 : root (with_st st1 s) p) by exact Hr.
  destruct (root_live _ _ _ _ _ Hp1 Hr1) as (qs & nd & _ & _ & Hnd).
  eapply triple_lift with (QE := fun _ _ => False); [by apply (ensure_slaves_t U _ p nd)| |done].
  intros st2 ok [Ht Hok]. pose proof (parsing_touched _ _ _ _ _ _ Hp1 Hr1 Ht) as Hp2. destruct ok; cbn [negb].
  2: { apply (triple_free _ h0 c0 (n + 1) _ a lf); [done|done|done|]. intros s5 Hp5. steps. eapply failing_of; [done|lia]. }
  destruct (Hok eq_refl) as (nd2 & l & Hnd2 & Hl).
  eapply triple_lift with (QE := fun _ _ => False) (Q := fun st3 ok =>
    if ok : bool then after (<[p := n_set_slaves (Some (mkNodeList (nl_free l) (nl_items l ++ [a]))) nd2]> (s_heap st2)) st2 st3
    else after (s_heap st2) st2 st3); [| |done].
  { unfold add_slave. steps; [|done]. eapply triple_def; [exact Hl|]. by steps. }
  intros st3 [] Ha3; cbn [negb].
  2: { apply (triple_free _ h0 c0 (n + 1) _ a lf); [by apply (parsing_after _ _ _ _ _ Hp2)|done|done|].
       intros s5 Hp5. steps. eapply failing_of; [done|lia]. }
  steps. destruct Ha3 as [Hh3 Hc3]. destruct Hp2 as [H1 [qs2 H2] H3]. cbn [with_st ts_st ts_nodes] in *.
  assert (Hp2q : p ∈ qs2) by (destruct (proj1 (list_elem_of_fmap _ _ _) Hr) as ([addr q] & -> & Hin); by eapply holds_root).
  pose proof (hd_lists _ _ _ _ H2 p nd2 l Hp2q Hnd2 Hl) as Hfl. destruct l as [fl items]. cbn in Hfl. subst fl.
  destruct (holds_adopt _ _ _ _ p nd2 items a lf H2 Hfree Hlf Hr Hnd2 Hl) as (qs3 & Hq3 & _).
  split; [split; cbn; [congruence|exists qs3; by rewrite Hh3|done]|]. by exists p.
Qed.

(** What a region needs of the state at its index, and what it leaves. *)
Definition at_idx h0 c0 n (idx : nat) s : Prop :=
  match idx with
  | 0%nat | 1%nat | 2%nat => parsing h0 c0 n s /\ is_Some (ts_slot s)
  | _ => after_master h0 c0 n s
  end.

Lemma at_idx_parsing h0 c0 n idx s : at_idx h0 c0 n idx s -> parsing h0 c0 (n + 1) s.
Proof.
  assert (forall s, parsing h0 c0 n s -> parsing h0 c0 (n + 1) s) by (intros s'; intros; apply (parsing_mono _ _ n); [done|lia]).
  destruct idx as [|[|[|]]]; cbn; [intros [? _]; auto..|]. by intros [? _].
Qed.

Lemma node_t h0 c0 n c idx elem s : at_idx h0 c0 n idx s -> (2 <= idx)%nat -> n + 1 <= 2 ^ 29 ->
  triple U (t_node c idx elem) s (fun s' _ => after_master h0 c0 n s') (failing h0 c0).
Proof.
  intros Hat Hi Hn. pose proof (at_idx_parsing _ _ _ _ _ Hat) as Hp.
  assert (Her : forall msg P, triple U (t_error (A := bool) msg) s P (failing h0 c0)) by (intros; by eapply error_t).
  unfold t_node. destruct elem as [|es| | | | |]; try apply Her. destruct es as [|ip [|port es]]; try apply Her.
  destruct port as [|?|port| | | |]; try apply Her. destruct (negb _); [apply Her|]. step. step; [by eapply failing_of|].
  cbv zeta. destruct (idx =? 2)%nat eqn:Ei.
  - apply Nat.eqb_eq in Ei. subst idx. destruct Hat as [? ?]. by apply master_t.
  - apply Nat.eqb_neq in Ei. destruct idx as [|[|[|idx]]]; [lia|lia|lia|]. destruct (flag_set _ _); [by apply slave_t|]. by steps.
Qed.

Lemma elem_t h0 c0 n c idx elem s : at_idx h0 c0 n idx s -> n + 1 <= 2 ^ 29 ->
  triple U (t_elem c idx elem) s (fun s' _ => at_idx h0 c0 n (S idx) s') (failing h0 c0).
Proof.
  intros Hat Hn. pose proof (at_idx_parsing _ _ _ _ _ Hat) as Hp.
  assert (Her : forall msg P, triple U (t_error (A := bool) msg) s P (failing h0 c0)) by (intros; by eapply error_t).
  destruct idx as [|[|idx]]; cbn [t_elem].
  - destruct elem; try apply Her. destruct Hat as [Hp0 [slot Hs]]. step. eapply triple_def; [exact Hs|]. unfold t_set_slot. steps.
    split; [by destruct Hp0|by eexists].
  - destruct elem; try apply Her. destruct Hat as [Hp0 [slot Hs]]. step. eapply triple_def; [exact Hs|]. unfold t_set_slot. step.
    match goal with |- triple _ _ ?s' _ _ => assert (Hp1 : parsing h0 c0 n s') by (by destruct Hp0) end.
    destruct (_ <? _); [eapply error_t; [done|lia]|]. steps. split; [done|by eexists].
  - apply node_t; [exact Hat|lia|done].
Qed.

Lemma region_t h0 c0 n c elems : n + 1 <= 2 ^ 29 -> forall idx s, at_idx h0 c0 n idx s ->
  triple U (t_region c idx elems) s (fun s' _ => parsing h0 c0 (n + 1) s') (failing h0 c0).
Proof.
  intros Hn. induction elems as [|e elems IH]; intros idx s Hat; cbn [t_region].
  { steps. by eapply at_idx_parsing. }
  eapply triple_bind; [by apply elem_t|]. intros s' [] Hat'; [steps; by eapply at_idx_parsing|]. by apply IH.
Qed.

Lemma regions_t h0 c0 c b elements : b <= 2 ^ 29 -> forall n s, parsing h0 c0 n s -> n + Z.of_nat (length elements) <= b ->
  triple U (t_regions c elements) s (fun s' _ => parsing h0 c0 b s') (failing h0 c0).
Proof.
  intros Hb. induction elements as [|e elements IH]; intros n s Hp Hn; cbn [t_regions length] in *.
  { steps. eapply parsing_mono; [done|lia]. }
  assert (Her : forall msg P, triple U (t_error (A := ()) msg) s P (failing h0 c0)) by (intros; eapply error_t; [done|lia]).
  destruct e; try apply Her. destruct (_ <? 3); [apply Her|].
  eapply triple_still with (R := fun _ => True); [done|lia|unfold cluster_slot_create_free; by steps|].
  intros s1 slot Hp1 _ _. unfold t_set_slot. step. step; subst.
  { eapply failing_of with (n := n); [by destruct Hp1|lia]. }
  eapply triple_bind; [apply (region_t h0 c0 n); [lia|]|].
  { split; [by destruct Hp1|by eexists]. }
  intros s2 [] Hp2. apply (IH (n + 1)); [done|lia].
Qed.

(** ** CLUSTER NODES, without slaves *)
Lemma triple_split {B} x sep (k : list bytes -> G (tstate W) n_label B) h0 c0 n s P : parsing h0 c0 n s -> n <= 2 ^ 29 ->
  (forall s', parsing h0 c0 n s' -> ts_nodes s' = ts_nodes s -> triple U (k (sdssplitlen x sep)) s' P (failing h0 c0)) ->
  triple U (t_split x sep ≫= k) s P (failing h0 c0).
Proof.
  intros Hp Hn Hk. unfold t_split. step. apply (triple_still _ _ h0 c0 n) with (R := fun _ => True); [done|done|by steps|].
  intros s' [] Hp' (_ & Hs & _) _; steps; [by apply Hk|by eapply failing_of].
Qed.

Lemma root_nodes s s' p : ts_nodes s' = ts_nodes s -> root s p -> root s' p.
Proof. unfold root. by intros ->. Qed.

(** What the fields of a line leave alone. *)
Definition field_post h0 c0 n s : tstate W -> () -> Prop := fun s' _ => parsing h0 c0 n s' /\ ts_nodes s' = ts_nodes s.

(** Writing a node of the dict. *)
Lemma put_t h0 c0 n s p g : parsing h0 c0 n s -> root s p -> (forall nd, n_addr (g nd) = n_addr nd /\ n_slaves (g nd) = n_slaves nd) ->
  triple U (t_lift (put_node p g)) s (field_post h0 c0 n s) (failing h0 c0).
Proof.
  intros Hp Hr Hg. destruct (root_live _ _ _ _ _ Hp Hr) as (qs & nd & _ & _ & Hnd).
  apply triple_lift_last with (QE := fun _ _ => False) (Q := fun st _ => touched p (ts_st s) st); [| |done].
  - eapply triple_put_node_last; [exact Hnd|]. exists nd, (g nd). destruct (Hg nd). split; [done|]. split; [done|]. split; [done|]. by left.
  - intros st [] Ht. split; [by apply (parsing_touched _ _ _ _ _ p)|done].
Qed.

Lemma add_open_t h0 c0 n m i r p s : parsing h0 c0 n s -> root s p -> n <= 2 ^ 29 ->
  triple U (t_add_open m i r p) s (field_post h0 c0 n s) (failing h0 c0).
Proof.
  intros Hp Hr Hn. unfold t_add_open. eapply triple_still with (R := fun _ => True); [done|done| |].
  { eapply triple_mono; [apply open_slot_t|by split|]. intros st l Ha. exact Ha. }
  intros s1 [oslot|] Hp1 (_ & Hs1 & _) _; [|by eapply error_t]. pose proof (root_nodes _ _ _ Hs1 Hr) as Hr1.
  destruct (root_live _ _ _ _ _ Hp1 Hr1) as (qs & nd & _ & _ & Hnd).
  eapply triple_run with (s' := s1) (a := nd). { unfold t_lift, get_node. rewrite Hnd. by destruct s1. }
  cbv zeta. eapply triple_bind with (Q := field_post h0 c0 n s1).
  { destruct (if m then _ else _); [by steps|]. eapply triple_lift_last with (Q := fun st _ => after (s_heap (ts_st s1)) (ts_st s1) st)
      (QE := fun st _ => after (s_heap (ts_st s1)) (ts_st s1) st).
    - by steps.
    - intros st [] Ha. split; [by apply parsing_after|done].
    - intros st l Ha. eapply failing_of; [by apply parsing_after|done]. }
  intros s2 [] [Hp2 Hs2]. eapply triple_still with (R := fun _ => True); [done|done|by steps|].
  intros s3 [] Hp3 (_ & Hs3 & _) _. eapply triple_mono; [apply (put_t h0 c0 n s3); [done| |by destruct m]| |done].
  - unfold root. rewrite Hs3, Hs2. exact Hr1.
  - intros s4 [] [Hp4 Hs4]. split; [done|congruence].
Qed.

Lemma open_parts_t h0 c0 n parts p s : parsing h0 c0 n s -> root s p -> n <= 2 ^ 29 ->
  triple U (t_open_slot parts p) s (field_post h0 c0 n s) (failing h0 c0).
Proof.
  intros Hp Hr Hn. unfold t_open_slot. step. destruct parts as [|a [|d [|r []]]]; try by steps.
  repeat (step; [try by apply add_open_t|]); by steps.
Qed.

Lemma slot_field_t h0 c0 n f p s : parsing h0 c0 n s -> root s p -> n <= 2 ^ 29 ->
  triple U (t_slot_field p f) s (field_post h0 c0 n s) (failing h0 c0).
Proof.
  intros Hp Hr Hn. unfold t_slot_field. eapply triple_split; [done|done|]. intros s1 Hp1 Hs1.
  pose proof (root_nodes _ _ _ Hs1 Hr) as Hr1.
  eapply triple_bind with (Q := fun s2 (_ : Z * Z) => field_post h0 c0 n s1 s2 ()).
  { destruct (sdssplitlen f (str "-")) as [|a [|b [|c l]]]; try by steps.
    all: eapply triple_bind; [by apply (open_parts_t h0 c0 n)|]; intros s2 [] Hf; by steps. }
  intros s2 [a b] [Hp2 Hs2]. step; [steps; split; [done|congruence]|]. unfold t_found. step.
  match goal with |- triple _ _ ?s' _ _ => set (s3 := s') end.
  assert (Hp3 : parsing h0 c0 n s3) by (by destruct Hp2).
  assert (Hr3 : root s3 p) by (by apply (root_nodes s1)). destruct (root_live _ _ _ _ _ Hp3 Hr3) as (qs & nd & _ & _ & Hnd).
  eapply triple_lift with (QE := fun _ _ => False); [by apply (slot_create_t U _ p nd)| |done].
  intros st slot Ht. pose proof (parsing_touched _ _ _ _ _ _ Hp3 Hr3 Ht) as Hp4. step; [by eapply failing_of|].
  eapply triple_mono; [apply (put_t h0 c0 n _ p); [done|done|done]| |done].
  intros s5 [] [Hp5 Hs5]. split; [done|]. rewrite Hs5. cbn. congruence.
Qed.

Lemma slot_fields_t h0 c0 n p fs : n <= 2 ^ 29 -> forall s, parsing h0 c0 n s -> root s p ->
  triple U (t_slot_fields p fs) s (field_post h0 c0 n s) (failing h0 c0).
Proof.
  intros Hn. induction fs as [|f fs IH]; intros s Hp Hr; cbn [t_slot_fields]; [by steps|].
  eapply triple_bind; [by apply (slot_field_t h0 c0 n)|]. intros s1 [] [Hp1 Hs1].
  eapply triple_mono; [apply IH; [done|by apply (root_nodes s)]| |done].
  intros s2 [] [Hp2 Hs2]. split; [done|congruence].
Qed.

Lemma master_line_t h0 c0 n c part s : parsing h0 c0 n s -> n + 1 <= 2 ^ 29 -> flag_set c0.2 HIRCLUSTER_FLAG_ADD_SLAVE = false ->
  triple U (t_master_line c part) s (fun s' _ => parsing h0 c0 (n + 1) s') (failing h0 c0).
Proof.
  intros Hp Hn Hf. unfold t_master_line.
  eapply triple_lift with (QE := fun _ _ => False); [apply (node_get_with_nodes_t U)| |done].
  intros st1 node Hnode. step; subst node.
  { eapply failing_of with (n := n); [by apply parsing_after|lia]. }
  destruct Hnode as [addr Hnode]. destruct (parsing_made _ _ _ _ _ _ _ _ Hp Hnode) as (Hfree & nd & Hna & Hns & Hp1).
  eapply triple_bind; [by apply (t_add_node_safe h0 c0 n _ a nd addr)|]. intros s2 ret [_ [(-> & Hp2 & Hr2)|(-> & Hp2)]];
    cbn [Z.eqb negb DICT_OK DICT_ERR].
  - step. pose proof (ps_core _ _ _ _ Hp2) as Hc. replace (flag_set _ _) with false.
    2: { symmetry. rewrite <- Hf, <- Hc. done. }
    step. eapply triple_mono; [by apply (slot_fields_t h0 c0 (n + 1))| |done]. by intros s3 [] [? _].
  - eapply triple_quiet; [done|by steps|]. intros s3 [] Hp3 _.
    apply (triple_free _ h0 c0 n _ a nd); [done|done|done|]. intros s5 Hp5. steps. eapply failing_of; [done|lia].
Qed.

Lemma line_t h0 c0 n c line s : parsing h0 c0 n s -> n + 1 <= 2 ^ 29 -> flag_set c0.2 HIRCLUSTER_FLAG_ADD_SLAVE = false ->
  triple U (t_line c line) s (fun s' _ => parsing h0 c0 (n + 1) s') (failing h0 c0).
Proof.
  intros Hp Hn Hf. unfold t_line. eapply triple_split; [done|lia|]. intros s1 Hp1 _.
  assert (Hp1' : parsing h0 c0 (n + 1) s1) by (apply (parsing_mono _ _ n); [done|lia]).
  step; [by eapply error_t|]. step; [by steps|]. cbv zeta. step. step; [by apply master_line_t|].
  replace (flag_set _ _) with false; [by steps|]. symmetry. rewrite <- Hf, <- (ps_core _ _ _ _ Hp1). done.
Qed.

(** A line ends with a newline, and the next search starts two further: half as many lines
    as there are characters left. *)
Definition chars_left (text : bytes) (pos : nat) : Z := Z.max 0 (Z.of_nat (length text) - Z.of_nat pos).

Lemma lines_t h0 c0 c text b : b <= 2 ^ 29 -> flag_set c0.2 HIRCLUSTER_FLAG_ADD_SLAVE = false ->
  forall fuel n start pos s, parsing h0 c0 n s -> 2 * n + chars_left text pos <= 2 * b -> (length text - pos < fuel)%nat ->
  triple U (t_lines fuel c text start pos) s (fun s' _ => parsing h0 c0 b s') (failing h0 c0).
Proof.
  intros Hb Hf. induction fuel as [|fuel IH]; intros n start pos s Hp Hn Hfu; [lia|]. cbn [t_lines].
  unfold chars_left in Hn. destruct (find_byte _ (drop pos text)) as [k|] eqn:Ek.
  2: { steps. apply (parsing_mono _ _ n); [done|]. lia. }
  assert (Hk : (k < length (drop pos text))%nat) by (apply find_byte_Some in Ek as [Ek _]; by eapply lookup_lt_Some). rewrite length_drop in Hk.
  cbv zeta. eapply triple_bind; [apply line_t; [done|lia|done]|]. intros s1 [] Hp1.
  apply (IH (n + 1)); [done| |lia]. unfold chars_left. lia.
Qed.
End Parsing.

(** ** The ends of the parsers *)
Section Ends.
Context {W : Type} `{HiredisOps W} {sds : SdsOps} {slaws : SdsLaws sds} {L : Type} (U : Prop) (E : cstate W -> L -> Prop).
Implicit Types (st : cstate W).

(** What a parser leaves: a dict that owns what is new in the heap, or the old heap. *)
Definition parsed_safely (b : Z) st st' (o : option (dict bytes loc)) : Prop :=
  core (s_cc st') = core (s_cc st) /\
  match o with
  | Some d => d_used d <= b /\ exists qs, holds (W := W) (s_heap st) (s_heap st') d qs
  | None => s_heap st' = s_heap st
  end.

Lemma finish_t b (body : G (tstate W) n_label ()) st : 0 <= b <= 2 ^ 29 ->
  (forall s, parsing (s_heap st) (core (s_cc st)) 0 s ->
     triple U body s (fun s' _ => parsing (s_heap st) (core (s_cc st)) b s') (failing (s_heap st) (core (s_cc st)))) ->
  triple U (t_finish body) st (parsed_safely b st) E.
Proof.
  intros Hb Hbody. unfold t_finish, m_dictCreate. steps. rename b0 into ok. destruct ok; cbn [dictCreate]; [|by steps].
  unfold t_run. specialize (Hbody (mkTstate (upd_allocs tail st) dictReset None None None 0)). unfold triple in *.
  assert (Hstart : parsing (s_heap st) (core (s_cc st)) 0 (mkTstate (upd_allocs tail st) dictReset None None None 0)).
  { split; [done|exists []; apply holds_empty|done]. }
  specialize (Hbody Hstart). destruct (body _) as [s' [a|l|]]; [| |done].
  - destruct Hbody as [H1 H2 H3]. by split.
  - destruct Hbody as [H1 [qs H2] H3].
    set (st1 := match l with n_oom => upd_cc (redisClusterSetError REDIS_ERR_OOM (str "Out of memory")) (ts_st s') | n_error => ts_st s' end).
    destruct (holds_release (L := L) (s_heap st) (ts_nodes s') qs st1) as [w Ew]; [by destruct l|done|].
    rewrite (gbind_normal _ _ (ts_st s') st1 ()) by (by destruct l).
    rewrite (gbind_normal _ _ _ _ _ Ew). split; [by destruct l|done].
Qed.

Definition slots_bound (reply : option redisReply) (b : Z) : Prop :=
  match reply with Some (REDIS_REPLY_ARRAY es) => Z.of_nat (length es) <= b | _ => True end.

Lemma parse_slots_t b c reply st : 0 <= b <= 2 ^ 29 -> slots_bound reply b ->
  triple U (parse_cluster_slots c reply) st (parsed_safely b st) E.
Proof.
  intros Hb Hr. unfold parse_cluster_slots. destruct reply as [reply|]; [|by steps]. apply finish_t; [done|]. intros s Hp.
  assert (Her : forall msg P, triple U (t_error (A := ()) msg) s P (failing (s_heap st) (core (s_cc st)))) by (intros; by eapply error_t).
  destruct reply as [|es| | | | |]; try apply Her. destruct es as [|e es]; [apply Her|]. by apply (regions_t U _ _ _ _ _ (proj2 Hb) 0).
Qed.

Lemma parse_nodes_t b c text st : b <= 2 ^ 29 -> Z.of_nat (length text) <= 2 * b ->
  flag_set (cc_flags (s_cc st)) HIRCLUSTER_FLAG_ADD_SLAVE = false ->
  triple U (parse_cluster_nodes c text) st (parsed_safely b st) E.
Proof.
  intros Hb Ht Hf. unfold parse_cluster_nodes. apply finish_t; [lia|]. intros s Hp.
  eapply triple_bind; [apply (lines_t U _ _ _ _ _ Hb) with (n := 0); [done|done| |lia]|].
  - unfold chars_left. lia.
  - intros s1 [] Hp1. step. step; [by eapply error_t|]. by steps.
Qed.
End Ends.

(** ** Parsing is memory safe *)
Section Parsers.
Context {W L : Type} `{HiredisOps W} {sds : SdsOps} {slaws : SdsLaws sds}.


End Parsers.

(** ** Witnesses *)

(** A reply that breaks off in its second element, with an allocation that fails before. *)
Definition ex_broken_reply : redisReply :=
  REDIS_REPLY_ARRAY [REDIS_REPLY_ARRAY [REDIS_REPLY_INTEGER 0; REDIS_REPLY_INTEGER 1; REDIS_REPLY_ARRAY []]; REDIS_REPLY_INTEGER 7].
Definition ex_failing : cstate (list redisReply) :=
  mkState cc_init (s_heap (ex_cluster [])) [] [true; true; false] 0 [].


