(* ===== verification/Sound.v ===== *)
(** * The invariant of a context

    [sound n st]: the heap is exactly the nodes that the context's dict owns, the slot table
    points to nodes of the dict, and the dict has room for [n] more.  Every function of the
    synchronous client keeps it, whatever the cluster answers and whichever allocation
    fails: nothing is leaked, freed twice or used after it was freed. *)
From S2P Require Import Prelude Hiutil Crc16 Dict Goto Hiredis Context Sds Nodes Topology Route Options.
From S2P Require Import NodeProps Ownership TopoProps Script SlotMap OptionProps Triple Memory Safety.

Lemma flag_set_lor a b c : flag_set (Z.lor a b) c = flag_set a c || flag_set b c.
Proof.
  unfold flag_set. rewrite Z.land_lor_distr_l. destruct (Z.land a c =? 0) eqn:E1, (Z.land b c =? 0) eqn:E2; cbn;
    rewrite ?Z.eqb_eq, ?Z.eqb_neq in *; [by rewrite E1, E2|..]; apply negb_true_iff, Z.eqb_neq; rewrite Z.lor_eq_0_iff; tauto.
Qed.

Section Sound.
Context {W : Type} `{HiredisOps W} {sds : SdsOps} {slaws : SdsLaws sds}.
Implicit Types (st : cstate W).

Record sound (n : Z) st : Prop := {
  sd_holds : exists qs, holds (W := W) ∅ (s_heap st) (node_dict st) qs;
  sd_room : d_used (node_dict st) + n <= 2 ^ 29;
  sd_table : forall table, cc_table (s_cc st) = Some table -> is_Some (cc_nodes (s_cc st)) /\
    forall i p, table !! i = Some p -> i < REDIS_CLUSTER_SLOTS /\ p ∈ (dict_pairs (node_dict st)).*2;
  sd_flags : use_slots (s_cc st) = true \/ flag_set (cc_flags (s_cc st)) HIRCLUSTER_FLAG_ADD_SLAVE = false
}.

Definition has_table st : Prop := is_Some (cc_table (s_cc st)).

Lemma sound_after n st st' : sound n st -> after (s_heap st) st st' -> sound n st'.
Proof.
  intros [H1 H2 H3 H4] [Hh [= Hn Ht Hf]]. unfold use_slots, node_dict in *. split; unfold use_slots, node_dict; rewrite ?Hh, ?Hn, ?Ht, ?Hf; done.
Qed.

Lemma has_table_after st st' : has_table st -> after (s_heap st) st st' -> has_table st'.
Proof. unfold has_table. intros Ht [_ [= _ E _]]. by rewrite E. Qed.

Lemma sound_mono n n' st : sound n st -> n' <= n -> sound n' st.
Proof. intros [H1 H2 H3 H4] Hn. split; [done|lia|done|done]. Qed.

(** A node of the heap is one the dict owns. *)
Lemma sound_live n st p nd : sound n st -> s_heap st !! p = Some nd -> exists qs, holds (W := W) ∅ (s_heap st) (node_dict st) qs /\ p ∈ qs.
Proof.
  intros [[qs Hq] _ _ _] Hp. exists qs. split; [done|]. destruct (decide (p ∈ qs)) as [?|Hn]; [done|].
  pose proof (holds_out _ _ _ _ Hq p Hn) as E. rewrite Hp in E. done.
Qed.

Lemma sound_root n st p : sound n st -> p ∈ (dict_pairs (node_dict st)).*2 -> is_Some (s_heap st !! p).
Proof.
  intros [[qs Hq] _ _ _] ([addr q] & -> & Hin)%list_elem_of_fmap. apply (holds_in _ _ _ _ Hq). by apply (holds_root _ _ _ _ Hq addr).
Qed.

Lemma sound_touched n st st' p : sound n st -> touched p st st' -> sound n st'.
Proof.
  intros Hs (nd & nd' & Hp & [Hh [= Hn Ht Hf]] & Hl). destruct (sound_live _ _ _ _ Hs Hp) as (qs & Hq & Hin).
  destruct Hs as [_ H2 H3 H4]. unfold use_slots, node_dict in *.
  split; unfold use_slots, node_dict; rewrite ?Hn, ?Ht, ?Hf; try done. exists qs. rewrite Hh. by apply (holds_put _ _ _ _ Hq p nd).
Qed.

(** ** Installing new nodes *)

(** The nodes a parser left beside a sound context. *)
Lemma parsed_installable n b st0 st d : sound n st0 -> parsed_safely b st0 st (Some d) -> 0 <= n -> b <= 2 ^ 29 ->
  exists qs_old qs_new, installable st d qs_old qs_new /\ holds (W := W) (s_heap st0) (s_heap st) d qs_new /\
    holds (W := W) ∅ (s_heap st0) (node_dict st0) qs_old.
Proof.
  intros [[qs Hq] Hroom _ _] ([= Hn _ _] & Hd & qs' & Hq') Hn0 Hb. exists qs, qs'. split; [|done].
  pose proof Hq' as [H1 H2 H3 H4 H5 _]. split.
  - split; [split; [done|unfold dict_small; lia]|done].
  - rewrite Hn. unfold node_dict in Hq, Hroom. destruct (cc_nodes (s_cc st0)) as [old|]; cbn [default from_option id] in *.
    + destruct Hq as [G1 G2 G3 _ _ _]. split; [split; [done|unfold dict_small; lia]|]. apply (forest_frame (s_heap st0)); [done|].
      intros q nd _ Hnd. exists nd. split; [|done]. by apply (holds_rest _ _ _ _ Hq').
    + destruct Hq as [_ (qss & Hf & ->) _ _ _ _]. apply Forall2_nil_inv_l in Hf as ->. done.
  - apply NoDup_app. split; [apply Hq|]. split; [|done]. intros q Hin Hin'. apply (holds_fresh _ _ _ _ Hq') in Hin'.
    destruct (holds_in _ _ _ _ Hq _ Hin). congruence.
  - apply Forall_forall. intros [addr p] Hin. destruct (H5 addr p Hin) as (nd & ? & ?). by exists nd.
Qed.

(** How an update of the slot map ends: with the new nodes and a table, or as it started. *)
Definition updated (n : Z) st st' (r : Z) : Prop :=
  r = REDIS_OK /\ sound n st' /\ has_table st' \/ r ≠ REDIS_OK /\ after (s_heap st) st st'.

Lemma updated_sound n st st' r : sound n st -> updated n st st' r -> sound n st'.
Proof. intros Hs [(_ & ? & _)|(_ & Ha)]; [done|by eapply sound_after]. Qed.

Lemma updated_trans n st st1 st2 r : after (s_heap st) st st1 -> updated n st1 st2 r -> updated n st st2 r.
Proof.
  intros Ha [Hok|[Hr Ha2]]; [by left|]. right. split; [done|]. pose proof (proj1 Ha) as Hh. rewrite Hh in Ha2.
  by apply (after_trans _ _ _ _ _ Ha).
Qed.

Section Update.
Context {L : Type} (U : Prop) (E : cstate W -> L -> Prop).

Lemma updateNodes_t n b st0 st o : sound n st0 -> parsed_safely b st0 st o -> 0 <= n -> b + n <= 2 ^ 29 -> 
  triple U (updateNodesAndSlotmap o) st (fun st' r => updated n st0 st' r) E.
Proof.
  intros Hs Hp Hn Hb. destruct o as [d|]; [|steps; destruct Hp as [Hc Hh]; by right].
  destruct (parsed_installable n b st0 st d Hs Hp Hn ltac:(lia)) as (qs_old & qs_new & Hi & Hq' & Hq).
  destruct Hp as ([= Hcn Hct Hcf] & Hd & _).
  destruct (decide (alloc_next st = true /\ slotmap_ok (s_heap st) (entries_of d))) as [[Hal Hok]|Hno].
  - destruct (updateNodes_run (L := L) _ _ _ _ Hi Hal Hok) as [w Hw]. eapply triple_run_last; [exact Hw|]. left. split; [done|].
    set (st2 := freed qs_old (installed d (moved_heap d st) w (after_alloc st))).
    pose proof (notified_same st2) as [Hh Hc]. pose proof (moved_erase _ _ _ _ Hi) as He.
    assert (Hnd : node_dict (notified st2) = d) by (unfold node_dict; by rewrite Hc).
    assert (Hflags : cc_flags (s_cc (notified st2)) = cc_flags (s_cc st)) by (by rewrite Hc).
    split; [|unfold has_table; rewrite Hc; by eexists]. split; rewrite ?Hnd, ?Hh.
    + exists qs_new. change (s_heap st2) with (delete_all qs_old (moved_heap d st)).
      pose proof (in_disjoint _ _ _ _ Hi) as (_ & Hdis & _)%NoDup_app. apply (holds_like _ _ _ _ Hq').
      * intros q nd Hin Hnd'. apply (erase_lookup _ _ q) in He. rewrite Hnd' in He.
        rewrite lookup_delete_all, decide_False by (intros Ho; by apply (Hdis q)).
        destruct (moved_heap d st !! q) as [nd'|]; [|done]. exists nd'. split; [done|].
        split; [apply (f_equal (fmap n_addr)) in He; by injection He|left; apply (f_equal (fmap n_slaves)) in He; by injection He].
      * apply map_eq. intros q. rewrite !lookup_delete_all, lookup_empty. destruct (decide (q ∈ qs_new)) as [|Hq1]; [done|].
        destruct (decide (q ∈ qs_old)) as [|Hq2]; [done|]. apply (erase_lookup _ _ q) in He.
        rewrite <- (holds_out _ _ _ _ Hq' q Hq1), <- (holds_out _ _ _ _ Hq q Hq2), lookup_empty in He.
        by destruct (moved_heap d st !! q).
    + lia.
    + intros table Ht. rewrite Hc in Ht. injection Ht as <-. split; [rewrite Hc; by eexists|]. intros i p Hip.
      apply elem_of_list_to_map in Hip; [|apply Hok]. apply all_pairs_has in Hip as [Hin (nd & slot & Hp & Hsl & Hr)].
      split; [|exact Hin]. destruct Hok as [Hm _]. rewrite Forall_forall in Hm. destruct (Hm p Hin) as (nd' & Hp' & _ & Hf).
      assert (nd' = nd) as -> by congruence. rewrite Forall_forall in Hf. specialize (Hf slot Hsl). unfold range_ok in Hf. lia.
    + unfold use_slots. rewrite Hflags, Hcf. apply Hs.
  - destruct (updateNodes_reject (L := L) _ _ _ _ Hi Hno) as (err & msg & Hm). eapply triple_run_last; [exact Hm|]. right.
    split; [done|]. split; cbn; [|unfold core; cbn; congruence]. exact (hd_rest _ _ _ _ Hq').
Qed.
End Update.

(** ** hiredis: replies of a bounded size

    [redisGetReply] gives a reply when it succeeds.  A string is at most 512 MB, the limit of
    the protocol, and an array has at most as many elements as there are nodes in a table
    that an [int] can index. *)
Definition small_reply (r : redisReply) : Prop :=
  match r with
  | REDIS_REPLY_ARRAY es => Z.of_nat (length es) <= 2 ^ 28
  | REDIS_REPLY_STRING t => Z.of_nat (length t) <= 2 ^ 29
  | _ => True
  end.

Class ReplyBounds : Prop :=
  reply_bound w c w' r : redisGetReply w c = (w', (REDIS_OK, r)) -> exists reply, r = Some reply /\ small_reply reply.

(** ** Functions that leave the nodes alone *)
Section Quiet.
Context {L : Type} (U : Prop) (E : cstate W -> L -> Prop).

Definition quiet {A} (m : G (cstate W) L A) : Prop :=
  forall st, triple U m st (fun st' _ => after (s_heap st) st st') E.

Lemma triple_calm {A B} (m : G (cstate W) L A) (k : A -> G (cstate W) L B) st0 st P :
  after (s_heap st0) st0 st -> quiet m -> (forall st' a, after (s_heap st0) st0 st' -> triple U (k a) st' P E) ->
  triple U (m ≫= k) st P E.
Proof.
  intros Ha Hm Hk. eapply triple_bind; [apply Hm|]. intros st' a Ha'. apply Hk. rewrite (proj1 Ha) in Ha'.
  by apply (after_trans _ _ _ _ _ Ha).
Qed.

Lemma q_ctx_error c : quiet (set_ctx_error c).
Proof. intros st. unfold set_ctx_error. by steps. Qed.
Lemma q_on_connect c : quiet (call_on_connect c).
Proof. intros st. unfold call_on_connect. by steps. Qed.
Lemma q_ssl_fails c : quiet (ssl_fails c).
Proof. intros st. unfold ssl_fails. by steps. Qed.
Lemma q_connect h p : quiet (m_connect h p).
Proof. intros st. unfold m_connect. by steps. Qed.
Lemma q_free_ret {A} c (r : A) : quiet (free_ret c r).
Proof. intros st. unfold free_ret. by steps. Qed.
Lemma q_send_update c : quiet (clusterUpdateRouteSendCommand c).
Proof. intros st. unfold clusterUpdateRouteSendCommand. by steps. Qed.
Lemma q_by_table i : quiet (node_get_by_table i).
Proof.
  intros st. unfold node_get_by_table. steps; [done|]. destruct (cc_table _) as [t|]; [destruct (t !! _)|]; by steps.
Qed.
Lemma q_authenticate c : quiet (authenticate c).
Proof.
  intros st. unfold authenticate. step. destruct (cc_password _); [|by steps]. step. destruct a as [[]|]; by steps.
Qed.

(** A failure that closes its connection. *)
Lemma free_ret_t {A} c (r : A) st0 st (P : _ -> A -> Prop) : after (s_heap st0) st0 st ->
  (forall st', after (s_heap st0) st0 st' -> P st' r) -> triple U (free_ret c r) st P E.
Proof. intros Ha HP. unfold free_ret. steps. by apply HP. Qed.
End Quiet.
#[local] Hint Resolve q_ctx_error q_on_connect q_ssl_fails q_connect q_free_ret q_send_update q_by_table q_authenticate : keeps.

#[local] Ltac calm Ha :=
  lazymatch type of Ha with after _ ?st _ => eapply (triple_calm _ _ _ _ st); [exact Ha|by auto with keeps|] end;
  clear Ha; intros ? ? Ha.

(** ** The update of the slot map *)
Section Route.
Context {bounds : ReplyBounds} {L : Type} (U : Prop) (E : cstate W -> L -> Prop).
Context (n : Z) (Hn : 0 <= n <= 2 ^ 28).

Definition reply_post st st' (o : option redisReply) : Prop :=
  after (s_heap st) st st' /\ match o with Some r => small_reply r | None => True end.

Lemma route_reply_t c a b st : triple U (route_reply c a b) st (reply_post st) E.
Proof.
  unfold route_reply. step. destruct a0 as [result reply]. destruct (negb (result =? REDIS_OK)) eqn:Er; [by steps|].
  apply negb_false_iff, Z.eqb_eq in Er. subst result. destruct (reply_bound _ _ _ _ H0) as (r & -> & Hr).
  eapply triple_def; [reflexivity|]. by steps.
Qed.

Lemma failed_t st0 st r : after (s_heap st0) st0 st -> r ≠ REDIS_OK -> updated n st0 st r.
Proof. intros Ha Hr. right. by split. Qed.

Lemma parse_after b st0 st st' o : after (s_heap st0) st0 st -> parsed_safely b st st' o -> parsed_safely b st0 st' o.
Proof. intros [Hh Hc] [Hc' Ho]. rewrite Hh in Ho. split; [congruence|done]. Qed.

Lemma handle_slots_t c st : sound n st -> triple U (handleClusterSlotsReply c) st (updated n st) E.
Proof.
  intros Hs. unfold handleClusterSlotsReply. eapply triple_bind; [apply route_reply_t|]. intros st1 o [Ha Hr].
  destruct o as [[t|es|i| |t|t|ty es]|]; try (steps; by apply failed_t).
  eapply triple_bind; [apply (parse_slots_t U _ (2 ^ 28)); [lia|exact Hr]|]. intros st2 o Hp.
  apply (updateNodes_t _ _ n (2 ^ 28)); [done|by eapply parse_after|lia|lia].
Qed.

Lemma handle_nodes_t c st : sound n st -> use_slots (s_cc st) = false ->
  triple U (handleClusterNodesReply c) st (updated n st) E.
Proof.
  intros Hs Hu. unfold handleClusterNodesReply. eapply triple_bind; [apply route_reply_t|]. intros st1 o [Ha Hr].
  destruct o as [[t|es|i| |t|t|ty es]|]; try (steps; by apply failed_t).
  eapply triple_bind; [apply (parse_nodes_t U _ (2 ^ 28)); [lia|unfold small_reply in Hr; lia|]|].
  - destruct Ha as [_ [= _ _ ->]]. destruct (sd_flags _ _ Hs); [congruence|done].
  - intros st2 o Hp. apply (updateNodes_t _ _ n (2 ^ 28)); [done|by eapply parse_after|lia|lia].
Qed.

Lemma handle_reply_t c st : sound n st -> triple U (clusterUpdateRouteHandleReply c) st (updated n st) E.
Proof.
  intros Hs. unfold clusterUpdateRouteHandleReply. step. step; [by apply handle_slots_t|by apply handle_nodes_t].
Qed.

Lemma by_addr_t host port st : sound n st -> triple U (cluster_update_route_by_addr host port) st (updated n st) E.
Proof.
  intros Hs. unfold cluster_update_route_by_addr. step; [steps; by apply failed_t|].
  assert (Ha : after (s_heap st) st st) by done. calm Ha. destruct a as [c|]; [|steps; by apply failed_t].
  assert (Hfail : forall st1, after (s_heap st) st st1 -> triple U (free_ret c REDIS_ERR) st1 (updated n st) E).
  { intros st1 Ha1. apply (free_ret_t _ _ _ _ st); [done|]. intros st2 Ha2. by apply failed_t. }
  calm Ha. step. step; [calm Ha; by apply Hfail|]. calm Ha. step; [calm Ha; by apply Hfail|].
  calm Ha. step; [by apply Hfail|]. calm Ha. step; [by apply Hfail|].
  eapply triple_bind; [apply handle_reply_t; by eapply sound_after|]. intros st5 r Hu.
  assert (Hu' : updated n st st5 r) by (by eapply updated_trans).
  destruct Hu' as [(-> & Hs5 & Ht5)|[Hr Ha5]].
  - step; [done|]. unfold free_ret. steps. left. split; [done|]. split; [by apply (sound_after _ st5)|done].
  - replace (negb (r =? REDIS_OK)) with true by (symmetry; apply negb_true_iff, Z.eqb_neq; done). by apply Hfail.
Qed.

Lemma slotmap_loop_t entries : forall tried st0 st, after (s_heap st0) st0 st -> sound n st0 ->
  (forall k p, (k, p) ∈ entries -> is_Some (s_heap st0 !! p)) ->
  triple U (update_slotmap_loop entries tried) st (updated n st0) E.
Proof.
  induction entries as [|[k p] entries IH]; intros tried st0 st Ha Hs He; cbn [update_slotmap_loop].
  { steps; by apply failed_t. }
  destruct (He k p) as [nd Hnd]; [left|]. rewrite <- (proj1 Ha) in Hnd. step.
  assert (He' : forall k p, (k, p) ∈ entries -> is_Some (s_heap st0 !! p)) by (intros; eapply He; right; done).
  destruct (n_host nd); [|by apply IH]. eapply triple_bind; [apply by_addr_t; by eapply sound_after|].
  intros st1 ret Hu. apply (updated_trans _ _ _ _ _ Ha) in Hu. destruct Hu as [(-> & Hs1 & Ht1)|[Hr Ha1]].
  - step; [|done]. step. step; steps; left; [|done]. split; [done|]. split; [by apply (sound_after _ st1)|done].
  - replace (ret =? REDIS_OK) with false by (symmetry; by apply Z.eqb_neq). by apply IH.
Qed.

Lemma update_slotmap_t st : sound n st -> triple U redisClusterUpdateSlotmap st (updated n st) E.
Proof.
  intros Hs. unfold redisClusterUpdateSlotmap. step. destruct (cc_nodes (s_cc st)) as [nodes|] eqn:En; [|steps; by apply failed_t].
  pose proof (sd_holds _ _ Hs) as [qs Hq]. unfold node_dict in Hq. rewrite En in Hq. cbn [default from_option id] in Hq.
  eapply triple_def; [apply (dict_entries_ok _ nodes (hd_wf _ _ _ _ Hq))|]. apply slotmap_loop_t; [done|done|].
  intros k p Hin. apply (holds_in _ _ _ _ Hq). by apply (holds_root _ _ _ _ Hq k).
Qed.
End Route.

(** ** The connection of a node, and new nodes *)
Section Nodes.
Context {L : Type} (U : Prop) (E : cstate W -> L -> Prop).

Lemma ctx_get_t p st : is_Some (s_heap st !! p) -> triple U (ctx_get_by_node p) st (fun st' _ => touched p st st') E.
Proof.
  intros [nd Hp]. unfold ctx_get_by_node. step.
  assert (Hsame : forall st', after (s_heap st) st st' -> touched p st st') by (intros; by apply (touched_same p nd)).
  assert (Ha : after (s_heap st) st st) by done. destruct (n_con nd) as [c|].
  - step. step; [|steps; by apply Hsame]. do 2 step. step. calm Ha. step. calm Ha. step. step.
    + calm Ha. step. calm Ha. steps. by apply Hsame.
    + step. step. calm Ha. steps. by apply Hsame.
  - destruct (n_host nd) as [host|]; [|steps; by apply Hsame]. step; [steps; by apply Hsame|]. calm Ha.
    destruct a as [c|]; [|steps; by apply Hsame]. calm Ha. step.
    assert (Hfail : forall st1, after (s_heap st) st st1 -> triple U (free_ret c (@None conn)) st1 (fun st' _ => touched p st st') E).
    { intros st1 Ha1. apply (free_ret_t _ _ _ _ st); [done|]. auto. }
    step; [calm Ha; by apply Hfail|]. calm Ha. step; [calm Ha; by apply Hfail|]. calm Ha. step; [by apply Hfail|].
    assert (Hp' : s_heap st'2 !! p = Some nd) by (by rewrite (proj1 Ha)). steps. exists nd. eexists. split; [done|].
    split; [split; [cbn; by rewrite (proj1 Ha)|apply Ha]|]. split; [done|by left].
Qed.

(** A node that is not in the dict yet enters it, or is still outside of it. *)
Definition entered (d : dict bytes loc) p nd (h : nheap) (st st' : cstate W) (d' : dict bytes loc) (r : Z) : Prop :=
  after h st st' /\ (dict_pairs d).*2 ⊆ (dict_pairs d').*2 /\
  (r = DICT_OK /\ (exists qs, holds (W := W) ∅ h d' qs) /\ d_used d' = d_used d + 1 /\ p ∈ (dict_pairs d').*2 \/
   r = DICT_ERR /\ (exists qs, holds (W := W) (<[p := nd]> ∅) h d' qs) /\ d_used d' = d_used d).

Lemma enter_t (d : dict bytes loc) key p nd qs st : holds (W := W) (<[p := nd]> ∅) (s_heap st) d qs -> d_used d + 1 <= 2 ^ 29 ->
  n_addr nd = Some key -> n_slaves nd = None ->
  triple U (m_dictAdd d key p) st (fun st' '(d', r) => entered d p nd (s_heap st) st st' d' r) E.
Proof.
  intros Hq Hu Ha Hs. pose proof (hd_wf _ _ _ _ Hq) as Hwf.
  eapply triple_mono; [apply (dictAdd_t U E d key p); [done|unfold dict_small; lia]| |done].
  intros st' [d' r] (Ha' & Hwf' & Hr). split; [done|].
  pose proof (to_map_size _ d' Hwf') as Hsz'. pose proof (to_map_size _ d Hwf) as Hsz.
  destruct Hr as [(-> & Hk & Hm)|(-> & Hm)].
  - pose proof (pairs_insert d d' key p Hwf Hwf' Hk Hm) as Hp. split.
    { intros q. rewrite Hp. cbn. by right. }
    left. split; [done|]. destruct (holds_add _ _ _ _ d' key p nd Hq (lookup_empty _) Ha Hs Hwf' Hk Hm) as (qs' & Hq' & _).
    split; [by exists qs'|]. split; [rewrite Hsz', Hm, map_size_insert_None by done; lia|]. rewrite Hp. by left.
  - pose proof (pairs_same d d' Hwf Hwf' Hm) as Hp. split; [by rewrite Hp|]. right. split; [done|].
    destruct (holds_same _ _ _ _ Hq d' Hwf' Hm) as (qs' & Hq' & _). split; [by exists qs'|]. rewrite Hsz', Hm. lia.
Qed.

(** The context with another dict that has at least the nodes of the old one. *)
Lemma sound_dict n n' st st' (d' : dict bytes loc) : sound n st -> cc_nodes (s_cc st') = Some d' -> cc_table (s_cc st') = cc_table (s_cc st) ->
  cc_flags (s_cc st') = cc_flags (s_cc st) -> (exists qs, holds (W := W) ∅ (s_heap st') d' qs) -> d_used d' + n' <= 2 ^ 29 ->
  (dict_pairs (node_dict st)).*2 ⊆ (dict_pairs d').*2 -> sound n' st'.
Proof.
  intros [_ _ H3 H4] Hn Ht Hf Hq Hu Hsub. split; unfold node_dict, use_slots in *; rewrite ?Hn, ?Hf; try done.
  intros table Htb. rewrite Ht in Htb. split; [by eexists|]. intros i p Hip. destruct (H3 table Htb) as [_ Hi].
  destruct (Hi i p Hip) as [? ?]. split; [done|]. by apply Hsub.
Qed.

(** A new node beside the nodes of a sound context, and its end. *)
Lemma holds_new st p nd qs : holds (W := W) ∅ (s_heap st) (node_dict st) qs -> s_heap st !! p = None ->
  holds (W := W) (<[p := nd]> ∅) (<[p := nd]> (s_heap st)) (node_dict st) qs.
Proof. intros Hq Hp. apply holds_other; [done|]. intros [x Hin]%(holds_in _ _ _ _ Hq). congruence. Qed.

Lemma holds_gone (d : dict bytes loc) p nd (h : nheap) qs : holds (W := W) (<[p := nd]> ∅) h d qs -> holds (W := W) ∅ (delete p h) d qs.
Proof.
  intros Hq. rewrite <- (delete_insert_id ∅ p nd) by done. apply holds_delete; [done|].
  intros Hin%(holds_fresh _ _ _ _ Hq). by rewrite lookup_insert_eq in Hin.
Qed.

End Nodes.

(** A new context. *)
Lemma init_sound n st : 0 <= n <= 2 ^ 29 -> s_heap st = ∅ -> s_cc st = cc_init -> sound n st.
Proof.
  intros Hn Hh Hc. split; unfold node_dict; rewrite ?Hc, ?Hh; cbn; [exists []; apply holds_empty|lia|done|by right].
Qed.

(** Flags that are added keep the invariant, but for slaves without CLUSTER SLOTS. *)
Lemma sound_flag n f st : flag_set f HIRCLUSTER_FLAG_ADD_SLAVE = false -> sound n st ->
  sound n (upd_cc (fun cc => cc_set_flags (Z.lor (cc_flags cc) f) cc) st).
Proof.
  intros Hf [H1 H2 H3 H4]. split; [done|done|done|]. unfold use_slots in *. cbn.
  rewrite !flag_set_lor, Hf. destruct H4 as [-> | ->]; [by left|by right].
Qed.

(** ** Adding nodes, and the end of a context *)
Lemma add_body_t (U : Prop) addr st n : 0 <= n -> sound (n + 1) st -> triple U (add_node_body addr) st (fun st' _ => sound n st') (fun st' _ => sound n st').
Proof.
  intros Hn0 Hs. unfold add_node_body. step.
  eapply triple_bind with (Q := fun st1 d => sound (n + 1) st1 /\ cc_nodes (s_cc st1) = Some d).
  { destruct (cc_nodes (s_cc st)) as [d|] eqn:En; [by steps|]. unfold m_dictCreate. steps.
    - apply (sound_mono (n + 1)); [by apply (sound_after _ st)|lia].
    - split; [|done]. destruct b; [|done]. injection H0 as <-. destruct Hs as [H1 H2 H3 H4].
      unfold node_dict in *. rewrite En in H1, H2, H3. split; [done|done| |done].
      intros table Ht. destruct (H3 table Ht) as [[? ?] _]. done. }
  intros st1 d [Hs1 Hd]. assert (Hdd : node_dict st1 = d) by (unfold node_dict; by rewrite Hd).
  assert (Hno : forall st', after (s_heap st1) st1 st' -> sound n st').
  { intros st' Ha. apply (sound_mono (n + 1)); [by eapply sound_after|lia]. }
  pose proof (sd_holds _ _ Hs1) as [qs Hq]. step; [by apply Hno|].
  eapply triple_run; [apply find_run; rewrite <- Hdd; apply (hd_wf _ _ _ _ Hq)|].
  destruct (to_map d !! _); [steps; by apply Hno|]. destruct (strrchr addr _) as [[|i]|]; try (steps; by apply Hno).
  step; [by apply Hno|]. cbv zeta. step; [steps; by apply Hno|]. step; [steps; by apply Hno|].
  eapply triple_bind; [apply (createNode_t U)|]. intros st2 [p|] Hst2; [|step; [by apply Hno|done]].
  destruct Hst2 as [Hp [Hh2 [= Hn2 Ht2 Hf2]]]. cbn in Hp, Hh2, Hn2, Ht2, Hf2. step; [done|]. injection H0 as <-.
  assert (Hp2 : s_heap st2 !! p = Some zero_node) by (rewrite Hh2; apply lookup_insert_eq).
  assert (Hdel : forall st', (exists nd, s_heap st' = <[p := nd]> (s_heap st1)) -> core (s_cc st') = core (s_cc st1) -> sound n (upd_heap (delete p) st')).
  { intros st' [nd Hh] Hc. apply Hno. split; [cbn; by rewrite Hh, delete_insert_id|done]. }
  eapply triple_catch with (E := fun st' (_ : n_label) => sound n (upd_heap (delete p) st')); [|intros st' l Hst'; by steps].
  assert (Hc2 : core (s_cc st2) = core (s_cc st1)) by (unfold core; congruence).
  step; [apply Hdel; [by exists zero_node|done]|]. step. step.
  { apply Hdel; [|exact Hc2]. eexists. cbn. by rewrite Hh2, insert_insert_eq. }
  match goal with |- triple _ (mbind _ (m_dictAdd _ _ _)) ?st' _ _ => set (st3 := st') end.
  set (nd := n_set_ident _ _ _ _ _ _) in st3.
  assert (Hh3 : s_heap st3 = <[p := nd]> (s_heap st1)) by (cbn; by rewrite Hh2, insert_insert_eq).
  pose proof (holds_new st1 p nd qs Hq Hp) as Hq3. rewrite <- Hh3 in Hq3. pose proof (sd_room _ _ Hs1) as Hroom.
  rewrite Hdd in Hq3, Hroom. rewrite sdsnewlen_all.
  eapply triple_bind; [by apply (enter_t U _ d (sdsnew addr) p nd qs); [|lia|..]|]. intros st4 [d' ret] (Ha4 & Hsub & Hr).
  destruct Ha4 as [Hh4 [= Hn4 Ht4 Hf4]]. cbn in Hn4, Ht4, Hf4. step.
  destruct Hr as [(-> & Hq4 & Hu4 & _)|(-> & [qs4 Hq4] & Hu4)].
  - step; [done|]. steps. apply (sound_dict (n + 1) n st1 _ d'); cbn; rewrite ?Hh4; try done; [congruence|congruence|lia|by rewrite Hdd].
  - step; [|done]. steps. apply (sound_dict (n + 1) n st1 _ d'); cbn; rewrite ?Hh4; try done; [congruence|congruence| |lia|by rewrite Hdd].
    exists qs4. by eapply holds_gone.
Qed.

Section Life.
Context {L : Type} (U : Prop) (E : cstate W -> L -> Prop).

Lemma add_node_t addr st n : 0 <= n -> sound (n + 1) st -> triple U (redisClusterSetOptionAddNode addr) st (fun st' _ => sound n st') E.
Proof.
  intros Hn0 Hs. unfold redisClusterSetOptionAddNode. eapply triple_catch; [by apply add_body_t|].
  intros st' l Hst'. destruct l; steps; [by apply (sound_after _ st')|done].
Qed.

(** [redisClusterFree] leaves nothing behind. *)
Lemma free_t n st : 0 <= n -> sound n st -> triple U redisClusterFree st (fun st' _ => s_heap st' = ∅ /\ sound n st') E.
Proof.
  intros Hn Hs. unfold redisClusterFree. pose proof (sd_holds _ _ Hs) as [qs Hq]. pose proof (sd_room _ _ Hs) as Hroom.
  pose proof (sd_flags _ _ Hs) as Hfl. unfold node_dict in Hq, Hroom. step. eapply triple_bind with (Q := fun st' _ => after (s_heap st) st st').
  { steps; done. }
  intros st1 [] [Hh1 [= Hn1 Ht1 Hf1]]. step. step.
  eapply triple_bind with (Q := fun st' _ => s_heap st' = ∅ /\ cc_nodes (s_cc st') = None /\ cc_table (s_cc st') = None /\ cc_flags (s_cc st') = cc_flags (s_cc st)).
  - destruct (cc_nodes (s_cc st)) as [d|].
    + step. cbn [default from_option id] in Hq, Hroom. match goal with |- triple _ _ ?s _ _ => set (st2 := s) end.
      destruct (holds_release (L := L) ∅ d qs st2) as [w Ew]; [by rewrite <- Hh1 in Hq|unfold dict_small; lia|].
      eapply triple_run_last; [exact Ew|]. done.
    + steps. cbn. destruct Hq as [_ (qss & Hf & ->) _ Hr _ _]. apply Forall2_nil_inv_l in Hf as ->. cbn in Hr. by rewrite Hh1.
  - intros st2 [] (Hh2 & Hn2 & Ht2 & Hf2). steps. split; [done|]. split; unfold node_dict, use_slots in *; cbn; rewrite ?Hh2, ?Hn2, ?Hf2; try done.
    + exists []. apply holds_empty.
    + cbn in *. destruct (cc_nodes (s_cc st)) as [d|]; cbn in Hroom; [|done]. pose proof (wf_used_nonneg _ _ (hd_wf _ _ _ _ Hq)). cbn in *. lia.
    + intros table. by rewrite Ht2.
Qed.
End Life.
End Sound.

(** C7. [redisClusterUpdateSlotmap] on a sound context, with any nodes, any answers and any
    failing allocations, is defined and ends in a sound context: either it succeeds and
    a slot table is in place, or the nodes, the table and the flags are exactly as before.
    So nothing leaks, no node is freed twice, and the slot table never points to a node
    that has been freed. *)
Theorem redisClusterUpdateSlotmap_sound {W : Type} `{HiredisOps W} {sds : SdsOps} {slaws : SdsLaws sds} {bounds : ReplyBounds (W := W)}
    {L : Type} (n : Z) (st : cstate W) :
  0 <= n <= 2 ^ 28 -> sound n st ->
  exists st' r, redisClusterUpdateSlotmap (L := L) st = (st', Normal r) /\ updated n st st' r.
Proof.
  intros Hn Hs. pose proof (update_slotmap_t (L := L) False (fun _ _ => False) n Hn st Hs) as Ht. unfold triple in Ht.
  destruct (redisClusterUpdateSlotmap st) as [st' [r|l|]]; [by eauto|done|done].
Qed.

(** ** Witness *)

(** A cluster whose replies have the size that hiredis delivers. *)
Definition fits (r : redisReply) : bool :=
  match r with
  | REDIS_REPLY_ARRAY es => Z.of_nat (length es) <=? 2 ^ 28
  | REDIS_REPLY_STRING t => Z.of_nat (length t) <=? 2 ^ 29
  | _ => true
  end.
Lemma fits_small r : fits r = true -> small_reply r.
Proof. destruct r; cbn; lia. Qed.

Lemma scripted_bounds sends : (forall r, sends r = true -> fits r = true) -> ReplyBounds (H := scripted sends).
Proof.
  intros Hs w c w' r. cbn. destruct w as [|r' w1]; [done|]. destruct (sends r') eqn:E; [|done].
  intros [= <- <-]. exists r'. split; [done|]. by apply fits_small, Hs.
Qed.

(** The context of the examples: two nodes, which serve slots 0 and 1. *)
Lemma ex_pairs : dict_pairs ex_nodes = [(str "h:1", 1%positive); (str "h:2", 2%positive)].
Proof. vm_compute. reflexivity. Qed.

Lemma ex_holds sends script : holds (H := scripted sends) ∅ (s_heap (ex_cluster script)) ex_nodes [1; 2]%positive.
Proof.
  split; rewrite ?ex_pairs.
  - apply ex_nodes_ok.
  - rewrite <- ex_pairs. by apply ex_old_owned.
  - by apply (bool_decide_unpack _).
  - by apply (bool_decide_unpack _).
  - intros addr p Hin. apply list_elem_of_In in Hin. destruct Hin as [[= <- <-]|[[= <- <-]|[]]]; by eexists.
  - intros q nd l Hq. apply list_elem_of_In in Hq. destruct Hq as [<-|[<-|[]]]; by intros [= <-].
Qed.

Lemma ex_sound sends n script : n <= 2 ^ 28 -> sound (H := scripted sends) n (ex_cluster script).
Proof.
  intros Hn. split; [eexists; apply ex_holds| |  |by right].
  - change (d_used (node_dict (ex_cluster script))) with 2. lia.
  - intros table [= <-]. split; [by eexists|]. intros i p Hp. change (node_dict (ex_cluster script)) with ex_nodes. rewrite ex_pairs.
    apply lookup_insert_Some in Hp as [[<- <-]|[_ Hp]]; [split; [done|left]|].
    apply lookup_singleton_Some in Hp as [<- <-]. split; [done|right; left].
Qed.

(** The first reply breaks off, the second is not an array. *)
Lemma redisClusterUpdateSlotmap_sound_witness :
  let st := ex_cluster [ex_broken_reply; REDIS_REPLY_INTEGER 3] in
  exists st' r, redisClusterUpdateSlotmap (H := scripted fits) (L := Empty_set) st = (st', Normal r) /\
    updated (H := scripted fits) 5 st st' r.
Proof.
  apply (redisClusterUpdateSlotmap_sound (H := scripted fits) (bounds := scripted_bounds fits (fun _ E => E)) 5); [done|by apply ex_sound].
Defined.
