(* ===== verification/ExecProps.v ===== *)
(** * Properties of the execution of a command

    Termination and the bound on the retries, and what a command does when its node
    answers, is busy, or redirects it. *)
From S2P Require Import Prelude Hiutil Crc16 Dict Goto Hiredis Command Context.
From S2P Require Import Nodes Topology Route Execute NodeProps Script Frame.

Section ExecProps.
Context {W : Type} `{HiredisOps W} {sds : SdsOps}.
Implicit Types (st : cstate W) (w : W) (c : conn) (u : option conn).

(** More fuel changes nothing once the loop has ended. *)
Lemma x_loop_mono command fuel : forall at_ s n, (x_loop fuel command at_ s).2 ≠ At x_fuel ->
  x_loop (fuel + n) command at_ s = x_loop fuel command at_ s.
Proof.
  induction fuel as [|fuel IH]; intros at_ s n Hne; [done|]. cbn [x_loop Nat.add] in *.
  unfold mbind, g_bind in *. 
  set (m := match at_ with Some c => mret c | None => x_get_conn (c_slot_num command) end) in *.
  destruct (m s) as [s1 [c|l|]]; [|done|done].
  destruct (x_try command c s1) as [s2 [[|c2|r]|l|]]; try done; by apply IH.
Qed.

Lemma x_fuel_enough st : Z.of_nat (x_fuel_of (s_cc st)) >= cc_max_retry_count (s_cc st) - cc_retry_count (s_cc st) + 2.
Proof. unfold x_fuel_of. lia. Qed.

(** C19. The loop of [redis_cluster_command_execute] ends: with the fuel the model gives
    it, or any more, it leaves by a reply or by [error] and never for lack of fuel, so the
    result does not depend on the fuel.  Every [goto retry] and every followed
    redirection is counted against [max_retry_count]. *)
Theorem redis_cluster_command_execute_terminates {L} (command : cmd) st (fuel : nat) :
  INT_MIN <= cc_retry_count (s_cc st) < INT_MAX -> cc_max_retry_count (s_cc st) < INT_MAX ->
  (x_fuel_of (s_cc st) <= fuel)%nat ->
  (x_loop fuel command None (mkXstate st None)).2 ≠ At x_fuel /\
  redis_cluster_command_execute (L := L) command st =
    match x_loop fuel command None (mkXstate st None) with
    | (s, Normal reply) => x_finish (xs_updating s) reply (xs_st s)
    | (s, At _) => x_finish (xs_updating s) None (xs_st s)
    | (s, Undefined) => (xs_st s, Undefined)
    end.
Proof.
  intros Hr Hm Hf. pose proof (x_fuel_enough st) as He.
  assert (Hl := x_loop_leaves command (x_fuel_of (s_cc st)) None (mkXstate st None) Hr Hm
    ltac:(unfold x_fuel_of; lia) ltac:(unfold x_max, x_retries; cbn [xs_st]; lia)).
  assert (Hne : (x_loop (x_fuel_of (s_cc st)) command None (mkXstate st None)).2 ≠ At x_fuel).
  { unfold leaves in Hl. destruct (x_loop _ _ _ _) as [s [a|l|]]; cbn; [done| |done]. destruct Hl as [-> _]. done. }
  replace fuel with (x_fuel_of (s_cc st) + (fuel - x_fuel_of (s_cc st)))%nat by lia.
  rewrite x_loop_mono by done. split; [done|]. unfold redis_cluster_command_execute.
  destruct (x_loop _ _ _ _) as [s [a|[]|]]; cbn in Hne; done.
Qed.

(** The execution of a command never changes the configuration of the context,
    whatever the cluster answers, and counts at most one retry beyond the larger of the
    limit and the count it started from. *)
Theorem redis_cluster_command_execute_retries {L} (command : cmd) st st' (reply : option redisReply) :
  INT_MIN <= cc_retry_count (s_cc st) < INT_MAX -> cc_max_retry_count (s_cc st) < INT_MAX ->
  redis_cluster_command_execute (L := L) command st = (st', Normal reply) ->
  cc_config (s_cc st') = cc_config (s_cc st) /\
  cc_retry_count (s_cc st) <= cc_retry_count (s_cc st') <=
    Z.max (cc_retry_count (s_cc st)) (cc_max_retry_count (s_cc st)) + 1.
Proof.
  intros Hr Hm. pose proof (x_fuel_enough st) as He.
  assert (Hl := x_loop_leaves command (x_fuel_of (s_cc st)) None (mkXstate st None) Hr Hm
    ltac:(unfold x_fuel_of; lia) ltac:(unfold x_max, x_retries; cbn [xs_st]; lia)).
  assert (Hx : forall u r s1 s2 r2, x_finish (L := L) u r s1 = (s2, Normal r2) ->
    cc_config (s_cc s2) = cc_config (s_cc s1) /\ cc_retry_count (s_cc s2) = cc_retry_count (s_cc s1)).
  { intros u r s1 s2 r2. intros E. apply pair_equal_spec.
    apply (keeps_normal settings (fun _ => True)), pair_equal_spec in E as [E _]; [done|apply (k_x_finish settings)]. }
  unfold leaves, stops, stops_at, x_config, x_retries, x_max in Hl. cbn [xs_st] in Hl.
  unfold redis_cluster_command_execute. destruct (x_loop _ _ _ _) as [s [a|[]|]]; [| | |done].
  - destruct Hl as [H1 H2]. intros [-> ->]%Hx. split; [done|lia].
  - destruct Hl as (_ & H1 & H2). intros [-> ->]%Hx. split; [done|lia].
  - destruct Hl as [[=] _].
Qed.

(** ** A node that answers *)

(** The slot is served by the node at [p], whose connection [c] is open and healthy. *)
Definition serves st (slot : Z) (p : loc) (c : conn) : Prop :=
  0 <= slot < REDIS_CLUSTER_SLOTS /\
  (exists table, cc_table (s_cc st) = Some table /\ table !! slot = Some p) /\
  (exists nd, s_heap st !! p = Some nd /\ n_con nd = Some c) /\
  ctx_err (s_world st) c = 0.

(** One exchange on a connection: the bytes are sent and a reply is received. *)
Definition exchange c (text : bytes) w w' (reply : option redisReply) : Prop :=
  exists w1, redisAppendFormattedCommand w c text = (w1, REDIS_OK) /\
    redisGetReply w1 c = (w', (REDIS_OK, reply)).

(** A reply that is given to the caller. *)
Definition final (reply : option redisReply) : Prop :=
  cluster_reply_error_type reply ∉
    [Some CLUSTER_ERR_MOVED; Some CLUSTER_ERR_ASK; Some CLUSTER_ERR_TRYAGAIN; Some CLUSTER_ERR_CLUSTERDOWN].

Lemma final_not_err reply : cluster_reply_error_type reply = Some CLUSTER_NOT_ERR -> final reply.
Proof. unfold final. intros ->. by apply (bool_decide_unpack _). Qed.

Definition is_busy (reply : option redisReply) : Prop :=
  cluster_reply_error_type reply ∈ [Some CLUSTER_ERR_TRYAGAIN; Some CLUSTER_ERR_CLUSTERDOWN].

(** A cluster that answers TRYAGAIN or CLUSTERDOWN [n] times and then gives a reply. *)
Inductive busy_then c (text : bytes) : nat -> W -> W -> option redisReply -> Prop :=
  | answers_now w w' reply :
      exchange c text w w' reply -> final reply -> busy_then c text 0 w w' reply
  | answers_later n w w1 w' busy reply :
      exchange c text w w1 busy -> is_busy busy -> ctx_err w1 c = 0 ->
      busy_then c text n w1 w' reply -> busy_then c text (S n) w w' reply.

Lemma node_get_by_table_serves {L} st slot p c : serves st slot p c ->
  node_get_by_table (L := L) slot st = (st, Normal (Some p)).
Proof.
  intros (Hs & (t & Ht & Hp) & _). unfold node_get_by_table, mbind, g_bind, get_cc.
  rewrite u32_small by (unfold REDIS_CLUSTER_SLOTS in Hs; lia).
  destruct (REDIS_CLUSTER_SLOTS <=? slot) eqn:E; [apply Z.leb_le in E; lia|]. by rewrite Ht, Hp.
Qed.

Lemma ctx_get_by_node_open {L} st p nd c : s_heap st !! p = Some nd -> n_con nd = Some c ->
  ctx_err (s_world st) c = 0 -> ctx_get_by_node (L := L) p st = (st, Normal (Some c)).
Proof.
  intros Hp Hc He. unfold ctx_get_by_node, mbind, g_bind, get_node. rewrite Hp, Hc. unfold world_get. by rewrite He.
Qed.

Lemma x_lift_normal {A} (m : G (cstate W) x_label A) st u st' a :
  m st = (st', Normal a) -> x_lift m (mkXstate st u) = (mkXstate st' u, Normal a).
Proof. unfold x_lift. cbn [xs_st xs_updating]. by intros ->. Qed.

Lemma x_get_conn_serves st u slot p c : serves st slot p c ->
  x_get_conn slot (mkXstate st u) = (mkXstate st u, Normal c).
Proof.
  intros Hs. unfold x_get_conn.
  rewrite (gbind_normal _ _ _ _ _ (x_lift_normal _ _ u _ _ (node_get_by_table_serves _ _ _ _ Hs))), gbind_ret.
  destruct Hs as (_ & _ & (nd & Hp & Hc) & He).
  rewrite (gbind_normal _ _ _ _ _ (x_lift_normal _ _ u _ _ (ctx_get_by_node_open _ _ _ _ Hp Hc He))).
  unfold mbind, g_bind, x_lift, world_get. cbn [xs_st xs_updating]. by rewrite He.
Qed.

(** What an attempt does with the reply it received. *)
Definition x_dispatch c (reply : option redisReply) : G (xstate W) x_label x_next :=
  match cluster_reply_error_type reply with
  | Some CLUSTER_ERR_MOVED => x_count_retry;; x_moved c (reply_str reply)
  | Some CLUSTER_ERR_ASK => x_count_retry;; x_ask (reply_str reply)
  | Some CLUSTER_ERR_TRYAGAIN | Some CLUSTER_ERR_CLUSTERDOWN => x_count_retry;; mret X_retry
  | _ => mret (X_done reply)
  end.

(** No update of the slot map is due, or one is under way. *)
Definition no_update_due st u : Prop := cc_need_update_route (s_cc st) = 0 \/ u ≠ None.

Definition set_world w st : cstate W := upd_world (fun _ => w) st.

Lemma x_try_exchange command c st u text w reply : cmd_bytes command = Some text -> no_update_due st u ->
  exchange c text (s_world st) w reply ->
  x_try command c (mkXstate st u) = x_dispatch c reply (mkXstate (set_world w st) u).
Proof.
  intros Ht Hu (w1 & H1 & H2). unfold x_try. rewrite Ht. unfold gdef. rewrite gbind_ret.
  unfold mbind at 1, g_bind at 1, x_lift at 1, world_call at 1. cbn [xs_st xs_updating]. rewrite H1.
  replace (negb (REDIS_OK =? REDIS_OK)) with false by done.
  set (st1 := upd_world (fun _ => w1) st).
  unfold mbind at 1, g_bind at 1, x_lift at 1, get_cc. cbn [xs_st xs_updating]. rewrite gbind_get. cbn [xs_updating].
  assert (E : (match u with
               | Some _ => mret ()
               | None => if negb (cc_need_update_route (s_cc st1) =? 0) then x_send_update c;; mret () else mret ()
               end : G (xstate W) x_label ()) = mret ()).
  { destruct u; [done|]. destruct Hu as [Hu|]; [|done]. unfold st1. cbn. by rewrite Hu. }
  rewrite E, gbind_ret. unfold mbind at 1, g_bind at 1, x_lift at 1, world_call at 1. cbn [xs_st xs_updating s_world st1 upd_world].
  rewrite H2. replace (negb (REDIS_OK =? REDIS_OK)) with false by done. done.
Qed.

(** The state after [n] counted retries, in the world [w]. *)
Definition retried (n : nat) (w : W) st : cstate W :=
  upd_cc (fun cc => cc_set_retry (cc_retry_count cc + Z.of_nat n) (cc_need_update_route cc) cc) (set_world w st).

Lemma retried_0 w st : retried 0 w st = set_world w st.
Proof. destruct st as [[] ? ? ? ? ?]. unfold retried, set_world, upd_cc, upd_world, cc_set_retry. cbn. by rewrite Z.add_0_r. Qed.

Lemma retried_S n w w1 st : retried n w (retried 1 w1 st) = retried (S n) w st.
Proof.
  destruct st as [[] ? ? ? ? ?]. unfold retried, set_world, upd_cc, upd_world, cc_set_retry. cbn. do 2 f_equal. lia.
Qed.

Lemma serves_retried n w st slot p c : serves st slot p c -> ctx_err w c = 0 -> serves (retried n w st) slot p c.
Proof. intros (H1 & H2 & H3 & _) He. exact (conj H1 (conj H2 (conj H3 He))). Qed.

Lemma x_count_retry_ok st u : INT_MIN <= cc_retry_count (s_cc st) < INT_MAX ->
  cc_retry_count (s_cc st) < cc_max_retry_count (s_cc st) ->
  x_count_retry (mkXstate st u) = (mkXstate (retried 1 (s_world st) st) u, Normal ()).
Proof.
  intros Hr Hm. unfold x_count_retry, mbind, g_bind, x_lift, get_cc, mod_cc, gmodify, gputs. cbn [xs_st xs_updating].
  rewrite i32_small by lia. destruct (_ <? _) eqn:E; [apply Z.ltb_lt in E; lia|]. destruct st. done.
Qed.

Lemma x_dispatch_final c reply s : final reply -> x_dispatch c reply s = (s, Normal (X_done reply)).
Proof.
  unfold final, x_dispatch. intros Hn. destruct (cluster_reply_error_type reply) as [[]|]; try done; destruct Hn; set_solver.
Qed.

Lemma x_dispatch_busy c reply st u : is_busy reply -> INT_MIN <= cc_retry_count (s_cc st) < INT_MAX ->
  cc_retry_count (s_cc st) < cc_max_retry_count (s_cc st) ->
  x_dispatch c reply (mkXstate st u) = (mkXstate (retried 1 (s_world st) st) u, Normal X_retry).
Proof.
  intros Hb Hr Hm. unfold is_busy in Hb. apply list_elem_of_In in Hb. unfold x_dispatch.
  destruct Hb as [<-|[<-|[]]]; by rewrite (gbind_normal _ _ _ _ _ (x_count_retry_ok st u Hr Hm)).
Qed.

Lemma x_loop_busy command text slot p c n w w' reply : cmd_bytes command = Some text -> c_slot_num command = slot ->
  busy_then c text n w w' reply -> forall fuel st u, s_world st = w -> serves st slot p c -> no_update_due st u ->
  INT_MIN <= cc_retry_count (s_cc st) -> cc_max_retry_count (s_cc st) < INT_MAX -> (n < fuel)%nat ->
  cc_retry_count (s_cc st) + Z.of_nat n <= cc_max_retry_count (s_cc st) ->
  x_loop fuel command None (mkXstate st u) = (mkXstate (retried n w' st) u, Normal reply).
Proof.
  intros Ht Hslot Hb. induction Hb as [w w' reply He Hf|n w w1 w' busy reply He Hi Hok Hb IH];
    intros fuel st u <- Hs Hu Hr Hm Hn Hl; (destruct fuel as [|fuel]; [lia|]); cbn [x_loop]; rewrite Hslot.
  - rewrite (gbind_normal _ _ _ _ _ (x_get_conn_serves _ u _ _ _ Hs)).
    unfold mbind, g_bind. rewrite (x_try_exchange _ _ _ _ text w' reply) by done. rewrite x_dispatch_final by done.
    by rewrite retried_0.
  - rewrite (gbind_normal _ _ _ _ _ (x_get_conn_serves _ u _ _ _ Hs)).
    unfold mbind, g_bind. rewrite (x_try_exchange _ _ _ _ text w1 busy) by done.
    rewrite x_dispatch_busy by (try done; cbn; lia). change (s_world (set_world w1 st)) with w1.
    change (retried 1 w1 (set_world w1 st)) with (retried 1 w1 st).
    rewrite IH; [by rewrite retried_S|done|by apply serves_retried| | | | |]; cbn; (lia || done).
Qed.

(** C20. A busy cluster is waited for: when the node of the slot answers TRYAGAIN or
    CLUSTERDOWN [n] times and then replies, and [n] more retries are allowed,
    [redis_cluster_command_execute] returns that reply after [n] counted retries.  With
    [n = 0], a node that answers at once is asked once, and nothing else changes. *)
Theorem redis_cluster_command_execute_persists {L} (command : cmd) st (p : loc) c (text : bytes) (n : nat) w
    (reply : option redisReply) :
  cmd_bytes command = Some text ->
  serves st (c_slot_num command) p c ->
  cc_need_update_route (s_cc st) = 0 ->
  INT_MIN <= cc_retry_count (s_cc st) -> cc_max_retry_count (s_cc st) < INT_MAX ->
  cc_retry_count (s_cc st) + Z.of_nat n <= cc_max_retry_count (s_cc st) ->
  busy_then c text n (s_world st) w reply ->
  redis_cluster_command_execute (L := L) command st = (retried n w st, Normal reply).
Proof.
  intros Ht Hs Hu Hr Hm Hn Hb. unfold redis_cluster_command_execute.
  rewrite (x_loop_busy command text (c_slot_num command) p c n (s_world st) w reply); try done; [by left|].
  unfold x_fuel_of. lia.
Qed.
End ExecProps.

(** ** Witnesses *)
Definition ex_busy : list redisReply :=
  [REDIS_REPLY_ERROR (str "TRYAGAIN Multiple keys request during rehashing of slot"); REDIS_REPLY_STATUS (str "PONG")].

Lemma redis_cluster_command_execute_terminates_witness :
  (x_loop 7 (ex_command 0) None (mkXstate (ex_cluster ex_busy) None)).2 ≠ At x_fuel /\
  redis_cluster_command_execute (L := Empty_set) (ex_command 0) (ex_cluster ex_busy) =
    match x_loop 7 (ex_command 0) None (mkXstate (ex_cluster ex_busy) None) with
    | (s, Normal reply) => x_finish (xs_updating s) reply (xs_st s)
    | (s, At _) => x_finish (xs_updating s) None (xs_st s)
    | (s, Undefined) => (xs_st s, Undefined)
    end.
Proof. by apply redis_cluster_command_execute_terminates; vm_compute. Defined.

Lemma redis_cluster_command_execute_retries_witness :
  exists st', redis_cluster_command_execute (L := Empty_set) (ex_command 0) (ex_cluster ex_busy) =
    (st', Normal (Some (REDIS_REPLY_STATUS (str "PONG")))) /\
  cc_config (s_cc st') = cc_config cc_init /\ 0 <= cc_retry_count (s_cc st') <= Z.max 0 5 + 1.
Proof.
  eexists. split; [vm_compute; reflexivity|].
  by eapply (redis_cluster_command_execute_retries (L := Empty_set) (ex_command 0) (ex_cluster ex_busy)); vm_compute.
Defined.

Lemma redis_cluster_command_execute_persists_witness :
  redis_cluster_command_execute (L := Empty_set) (ex_command 0) (ex_cluster ex_busy) =
    (retried 1 [] (ex_cluster ex_busy), Normal (Some (REDIS_REPLY_STATUS (str "PONG")))).
Proof.
  apply (redis_cluster_command_execute_persists (ex_command 0) (ex_cluster ex_busy) 1%positive 1%positive (str "PING") 1 []);
    try reflexivity; try (vm_compute; discriminate).
  - split; [by vm_compute|]. split; [eexists; split; vm_compute; reflexivity|]. split; [eexists; split; vm_compute; reflexivity|done].
  - eapply answers_later with (w1 := [REDIS_REPLY_STATUS (str "PONG")]).
    + eexists. split; reflexivity.
    + unfold is_busy. vm_compute. left.
    + reflexivity.
    + apply answers_now; [eexists; split; reflexivity|]. by apply final_not_err.
Defined.
