(* ===== verification/Redirect.v ===== *)
(** * Following the cluster's redirections

    What [getNodeFromRedirectReply] makes of a MOVED or ASK reply, and what a command
    does when it is answered by one. *)
From S2P Require Import Prelude Hiutil Crc16 Dict Goto Hiredis Command Context Sds.
From S2P Require Import Nodes Topology Route Execute NodeProps Script Frame ExecProps.

(** The text of a redirection, as the server sends it. *)
Definition redirect (kind : bytes) (slot : Z) (addr : bytes) : bytes :=
  kind ++ " "%byte :: dec slot ++ " "%byte :: addr.

(** A node that a redirection names for the first time. *)
Definition redirect_node (host : bytes) (port : Z) : redisClusterNode :=
  mkClusterNode None (Some (address host port)) (Some host) port REDIS_ROLE_MASTER 0 None None 0 None None None None.

Section Redirect.
Context {W : Type} `{HiredisOps W} {sds : SdsOps} {laws : SdsLaws sds}.
Implicit Types (st : cstate W).

(** A host name without the characters that separate it. *)
Definition host_ok (host : bytes) : Prop := (host ≠ []) /\ (Byte.x00 ∉ host) /\ (Byte.x20 ∉ host).

Lemma redirect_split kind slot host port : Byte.x20 ∉ kind -> 0 <= slot -> 0 <= port -> host_ok host ->
  sdssplitlen (redirect kind slot (address host port)) (str " ") = [kind; dec slot; address host port].
Proof.
  intros Hk Hs Hp (_ & _ & Hh). change (str " ") with [" "%byte]. unfold redirect.
  apply sdssplitlen_3; [done|by apply dec_no|]. by apply address_no.
Qed.

Lemma redirect_known {L} st kind slot host port nodes p want : Byte.x20 ∉ kind -> 0 <= slot <= INT_MAX ->
  0 <= port -> host_ok host -> s_allocs st = [] -> cc_nodes (s_cc st) = Some nodes -> nodes_ok (W := W) nodes ->
  to_map nodes !! address host port = Some p ->
  getNodeFromRedirectReply (L := L) (redirect kind slot (address host port)) want st =
    (st, Normal (Some p, if want then slot else -1)).
Proof.
  intros Hk Hs Hp Hh Ha Hn Hok Hm. unfold getNodeFromRedirectReply.
  rewrite (gbind_normal _ _ _ _ _ (alloc_ok st Ha)). cbn [negb].
  rewrite redirect_split by (done || lia). rewrite hi_atoi_dec by done. rewrite address_colon by (done || apply Hh).
  destruct (length host) as [|n] eqn:E; [destruct host; [by destruct Hh|done]|].
  unfold mbind at 1, g_bind at 1, get_cc. rewrite Hn. cbn [gdef]. rewrite gbind_ret.
  rewrite (gbind_normal _ _ _ _ _ (m_dictFind_ok st nodes _ Hok)). by rewrite Hm.
Qed.

Lemma redirect_new {L} st kind slot host port nodes want : Byte.x20 ∉ kind -> 0 <= slot <= INT_MAX ->
  0 <= port <= UINT16_MAX -> host_ok host -> s_allocs st = [] -> cc_nodes (s_cc st) = Some nodes ->
  nodes_ok (W := W) nodes -> to_map nodes !! address host port = None ->
  exists p nodes', s_heap st !! p = None /\ to_map nodes' = <[address host port := p]> (to_map nodes) /\
    dict_wf (clusterNodesDictType (W := W)) nodes' /\
    getNodeFromRedirectReply (L := L) (redirect kind slot (address host port)) want st =
      (upd_cc (cc_set_nodes (Some nodes')) (upd_heap (<[p := redirect_node host port]>) st),
       Normal (Some p, if want then slot else -1)).
Proof.
  intros Hk Hs Hp Hh Ha Hn Hok Hm. destruct (createNode_ok (L := L) st Ha) as (p & Hfree & Ec).
  set (st' := upd_heap (<[p := redirect_node host port]>) st).
  destruct (m_dictAdd_new (L := L) st' nodes (address host port) p Hok Ha Hm) as (nodes' & Ed & Hwf & Hm').
  exists p, nodes'. split; [done|]. split; [done|]. split; [done|].
  unfold getNodeFromRedirectReply. rewrite (gbind_normal _ _ _ _ _ (alloc_ok st Ha)). cbn [negb].
  rewrite redirect_split by (done || lia). rewrite hi_atoi_dec by done.
  rewrite address_colon by (lia || apply Hh). rewrite address_port by (apply Hh || unfold UINT16_MAX, INT_MAX in *; lia).
  rewrite hi_atoi_dec by (unfold UINT16_MAX, INT_MAX in *; lia).
  destruct (length host) as [|n] eqn:E; [destruct host; [by destruct Hh|done]|]. rewrite <- E.
  unfold mbind at 1, g_bind at 1, get_cc. rewrite Hn. cbn [gdef]. rewrite gbind_ret.
  rewrite (gbind_normal _ _ _ _ _ (m_dictFind_ok st nodes _ Hok)), Hm, (gbind_normal _ _ _ _ _ Ec).
  rewrite (gbind_normal _ _ _ _ _ (put_node_ins _ _ _ _)).
  do 2 rewrite (gbind_normal _ _ _ _ _ (alloc_ok (upd_heap _ st) Ha)). cbn [negb].
  rewrite (gbind_normal _ _ _ _ _ (put_node_ins _ _ _ _)).
  rewrite sdsnewlen_all, sdsnewlen_law, address_host by apply address_long.
  replace (u16 port) with port by (symmetry; apply wrapu_small; unfold UINT16_MAX in *; lia).
  by rewrite (gbind_normal _ _ _ _ _ Ed).
Qed.

Lemma err_prefix_app p b s : err_prefix p (p ++ b :: s) = true.
Proof.
  unfold err_prefix, memeq. rewrite length_app. cbn [length]. rewrite take_app_length, firstn_all.
  rewrite bool_decide_true by done. rewrite andb_true_r. apply Z.ltb_lt. lia.
Qed.

Lemma moved_type slot addr :
  cluster_reply_error_type (Some (REDIS_REPLY_ERROR (redirect (str "MOVED") slot addr))) = Some CLUSTER_ERR_MOVED.
Proof. unfold cluster_reply_error_type, redirect. by rewrite err_prefix_app. Qed.

Lemma ask_type slot addr :
  cluster_reply_error_type (Some (REDIS_REPLY_ERROR (redirect (str "ASK") slot addr))) = Some CLUSTER_ERR_ASK.
Proof.
  unfold cluster_reply_error_type, redirect. rewrite err_prefix_app.
  replace (err_prefix (str "MOVED") _) with false; [done|]. symmetry. apply andb_false_intro2. by apply bool_decide_false.
Qed.

(** The node a redirection [<kind> <slot> <host>:<port>] names: the one the client
    knows by that address, or else a new master with that host and port, added to the
    nodes dict under its address and to nothing else.  The slot is given to the caller
    that asks for it. *)
Theorem getNodeFromRedirectReply_spec {L} st (kind : bytes) (slot : Z) (host : bytes) (port : Z) nodes (want : bool) :
  (Byte.x20 ∉ kind) -> 0 <= slot <= INT_MAX -> 0 <= port <= UINT16_MAX -> host_ok host ->
  s_allocs st = [] -> cc_nodes (s_cc st) = Some nodes -> nodes_ok (W := W) nodes ->
  let found := if want then slot else -1 in
  let run := getNodeFromRedirectReply (L := L) (redirect kind slot (address host port)) want st in
  match to_map nodes !! address host port with
  | Some p => run = (st, Normal (Some p, found))
  | None => exists p nodes', s_heap st !! p = None /\ to_map nodes' = <[address host port := p]> (to_map nodes) /\
      dict_wf (clusterNodesDictType (W := W)) nodes' /\
      run = (upd_cc (cc_set_nodes (Some nodes')) (upd_heap (<[p := redirect_node host port]>) st),
             Normal (Some p, found))
  end.
Proof.
  intros Hk Hs Hp Hh Ha Hn Hok found run. destruct (to_map nodes !! address host port) as [p|] eqn:E.
  - by apply (redirect_known st kind slot host port nodes p); [..|lia| | | | |].
  - by apply redirect_new.
Qed.

(** ** A command that is redirected *)

(** The node at [q] is known by its address and has an open connection. *)
Definition reachable st w (host : bytes) (port : Z) (q : loc) (c : conn) : Prop :=
  0 <= port /\ host_ok host /\ s_allocs st = [] /\
  (exists nodes, cc_nodes (s_cc st) = Some nodes /\ nodes_ok (W := W) nodes /\
     to_map nodes !! address host port = Some q) /\
  (exists nd, s_heap st !! q = Some nd /\ n_con nd = Some c) /\ ctx_err w c = 0.

(** The request for the cluster's layout is written on [c]. *)
Definition update_sent st c w w' : Prop := exists w1 sent,
  redisAppendCommand w c [str "CLUSTER"; if use_slots (s_cc st) then str "SLOTS" else str "NODES"] = (w1, REDIS_OK) /\
  redisBufferWrite w1 c = (w', (REDIS_OK, sent)).

Lemma x_send_update_ok st c w' : update_sent st c (s_world st) w' ->
  x_send_update c (mkXstate st None) = (mkXstate (set_world w' st) (Some c), Normal true).
Proof.
  intros (w1 & sent & H1 & H2). unfold x_send_update, mbind, g_bind, x_lift.
  unfold clusterUpdateRouteSendCommand, mbind, g_bind, get_cc, world_call. cbn [xs_st].
  destruct (use_slots (s_cc st)); rewrite H1; cbn [negb Z.eqb REDIS_OK s_world upd_world]; rewrite H2; done.
Qed.

Lemma x_conn_open st u q nd c : s_heap st !! q = Some nd -> n_con nd = Some c -> ctx_err (s_world st) c = 0 ->
  x_conn q (mkXstate st u) = (mkXstate st u, Normal c).
Proof.
  intros Hq Hc He. unfold x_conn.
  rewrite (gbind_normal _ _ _ _ _ (x_lift_normal _ _ u _ _ (ctx_get_by_node_open _ _ _ _ Hq Hc He))).
  cbn [gsome]. rewrite gbind_ret. unfold mbind, g_bind, x_lift, world_get. cbn [xs_st xs_updating]. by rewrite He.
Qed.

Definition table_set (slot : Z) (q : loc) (table : gmap Z loc) st : cstate W :=
  upd_cc (fun cc => cc_set_route (cc_route_version cc) (Some (<[slot := q]> table)) cc) st.

Lemma x_set_table_ok st u slot q table : 0 <= slot < REDIS_CLUSTER_SLOTS -> cc_table (s_cc st) = Some table ->
  x_set_table slot q (mkXstate st u) = (mkXstate (table_set slot q table st) u, Normal ()).
Proof.
  intros Hs Ht. unfold x_set_table, mbind, g_bind, x_lift, get_cc, mod_cc, gmodify, gputs. cbn [xs_st xs_updating].
  destruct (0 <=? slot) eqn:E; [|apply Z.leb_gt in E; lia]. rewrite Ht. cbn [gdef].
  destruct (REDIS_CLUSTER_SLOTS <=? slot) eqn:E2; [apply Z.leb_le in E2; lia|]. done.
Qed.

Lemma x_moved_ok st c slot host port q c' table w' : 0 <= slot < REDIS_CLUSTER_SLOTS ->
  cc_table (s_cc st) = Some table -> update_sent st c (s_world st) w' -> reachable st w' host port q c' ->
  x_moved c (redirect (str "MOVED") slot (address host port)) (mkXstate st None) =
    (mkXstate (table_set slot q table (set_world w' st)) (Some c), Normal (X_again c')).
Proof.
  intros Hs Ht Hu (Hp & Hh & Ha & (nodes & Hn & Hok & Hm) & (nd & Hq & Hc) & He). unfold x_moved.
  assert (Er : getNodeFromRedirectReply (L := x_label) (redirect (str "MOVED") slot (address host port)) true st =
    (st, Normal (Some q, slot))).
  { apply (redirect_known st (str "MOVED") slot host port nodes q true); try done.
    - by apply (bool_decide_unpack _).
    - unfold REDIS_CLUSTER_SLOTS, INT_MAX in *. lia. }
  rewrite (gbind_normal _ _ _ _ _ (x_lift_normal _ _ None _ _ Er)). cbn [gsome]. rewrite gbind_ret.
  rewrite (gbind_normal _ _ _ _ _ (x_set_table_ok st None slot q table Hs Ht)), gbind_get. cbn [xs_updating].
  set (st1 := table_set slot q table st). assert (Hu1 : update_sent st1 c (s_world st1) w') by done.
  rewrite gbind_assoc, (gbind_normal _ _ _ _ _ (x_send_update_ok st1 c w' Hu1)), gbind_ret.
  by rewrite (gbind_normal _ _ _ _ _ (x_conn_open (set_world w' st1) (Some c) q nd c' Hq Hc He)).
Qed.

(** C16. MOVED: when the node of the slot answers [MOVED <slot> <host>:<port>] and the
    client has an open connection to that node, the slot is entered in the table as
    served by it, an update of the slot map is requested from the node that redirected,
    the same command is sent to the new node, and its reply is the result.  The
    requested layout is awaited at the end ([x_finish]). *)
Theorem redis_cluster_command_execute_moved {L} (command : cmd) st (p : loc) c (text : bytes) w1 w2 w3
    (slot : Z) (host : bytes) (port : Z) (q : loc) c' (table : gmap Z loc) (reply : option redisReply) :
  cmd_bytes command = Some text -> serves st (c_slot_num command) p c ->
  cc_need_update_route (s_cc st) = 0 ->
  INT_MIN <= cc_retry_count (s_cc st) < INT_MAX -> cc_retry_count (s_cc st) < cc_max_retry_count (s_cc st) ->
  exchange c text (s_world st) w1 (Some (REDIS_REPLY_ERROR (redirect (str "MOVED") slot (address host port)))) ->
  0 <= slot < REDIS_CLUSTER_SLOTS -> cc_table (s_cc st) = Some table ->
  update_sent st c w1 w2 -> reachable st w2 host port q c' ->
  exchange c' text w2 w3 reply -> final reply ->
  redis_cluster_command_execute (L := L) command st =
    x_finish (Some c) reply (table_set slot q table (retried 1 w3 st)).
Proof.
  intros Ht Hs Hu Hr Hm Hx Hslot Htab Hup Hreach Hx2 Hf. unfold redis_cluster_command_execute, x_fuel_of.
  cbn [x_loop]. rewrite (gbind_normal _ _ _ _ _ (x_get_conn_serves _ None _ _ _ Hs)).
  unfold mbind at 1, g_bind at 1. erewrite (x_try_exchange command c st None text w1) by (done || by left).
  unfold x_dispatch. rewrite moved_type. cbn [reply_str].
  rewrite (gbind_normal _ _ _ _ _ (x_count_retry_ok (set_world w1 st) None Hr Hm)).
  change (retried 1 (s_world (set_world w1 st)) (set_world w1 st)) with (retried 1 w1 st).
  rewrite (x_moved_ok (retried 1 w1 st) c slot host port q c' table w2); try done.
  rewrite gbind_ret. unfold mbind, g_bind.
  set (st2 := table_set slot q table (set_world w2 (retried 1 w1 st))).
  by erewrite (x_try_exchange command c' st2 (Some c) text w3 reply), x_dispatch_final by (done || by right).
Qed.

Lemma x_ask_ok st u slot host port q c' w' asked : 0 <= slot <= INT_MAX -> reachable st (s_world st) host port q c' ->
  redisCommand (s_world st) c' [str "ASKING"] = (w', Some asked) ->
  x_ask (redirect (str "ASK") slot (address host port)) (mkXstate st u) =
    (mkXstate (set_world w' st) u, Normal (X_again c')).
Proof.
  intros Hs (Hp & Hh & Ha & (nodes & Hn & Hok & Hm) & (nd & Hq & Hc) & He) Hask. unfold x_ask.
  assert (Er : getNodeFromRedirectReply (L := x_label) (redirect (str "ASK") slot (address host port)) false st =
    (st, Normal (Some q, -1))).
  { apply (redirect_known st (str "ASK") slot host port nodes q false); try done. by apply (bool_decide_unpack _). }
  rewrite (gbind_normal _ _ _ _ _ (x_lift_normal _ _ u _ _ Er)). cbn [gsome]. rewrite gbind_ret.
  rewrite (gbind_normal _ _ _ _ _ (x_conn_open st u q nd c' Hq Hc He)).
  erewrite gbind_normal; [|apply x_lift_normal; unfold world_call; by rewrite Hask]. done.
Qed.

(** C21. ASK: when the node of the slot answers [ASK <slot> <host>:<port>], the command is
    sent once more, after ASKING, to the node of that address, and its reply is the
    result; the slot table and the nodes stay as they are, and no update of the slot
    map is asked for. *)
Theorem redis_cluster_command_execute_ask {L} (command : cmd) st (p : loc) c (text : bytes) w1 w2 w3
    (slot : Z) (host : bytes) (port : Z) (q : loc) c' (asked : redisReply) (reply : option redisReply) :
  cmd_bytes command = Some text -> serves st (c_slot_num command) p c ->
  cc_need_update_route (s_cc st) = 0 ->
  INT_MIN <= cc_retry_count (s_cc st) < INT_MAX -> cc_retry_count (s_cc st) < cc_max_retry_count (s_cc st) ->
  exchange c text (s_world st) w1 (Some (REDIS_REPLY_ERROR (redirect (str "ASK") slot (address host port)))) ->
  0 <= slot <= INT_MAX -> reachable st w1 host port q c' ->
  redisCommand w1 c' [str "ASKING"] = (w2, Some asked) ->
  exchange c' text w2 w3 reply -> final reply ->
  redis_cluster_command_execute (L := L) command st = (retried 1 w3 st, Normal reply).
Proof.
  intros Ht Hs Hu Hr Hm Hx Hslot Hreach Hask Hx2 Hf. unfold redis_cluster_command_execute, x_fuel_of.
  cbn [x_loop]. rewrite (gbind_normal _ _ _ _ _ (x_get_conn_serves _ None _ _ _ Hs)).
  unfold mbind at 1, g_bind at 1. erewrite (x_try_exchange command c st None text w1) by (done || by left).
  unfold x_dispatch. rewrite ask_type. cbn [reply_str].
  rewrite (gbind_normal _ _ _ _ _ (x_count_retry_ok (set_world w1 st) None Hr Hm)).
  change (retried 1 (s_world (set_world w1 st)) (set_world w1 st)) with (retried 1 w1 st).
  rewrite (x_ask_ok (retried 1 w1 st) None slot host port q c' w2 asked) by done.
  rewrite gbind_ret. unfold mbind, g_bind. set (st2 := set_world w2 (retried 1 w1 st)).
  by erewrite (x_try_exchange command c' st2 None text w3 reply), x_dispatch_final by (done || by left).
Qed.
End Redirect.

(** ** Witnesses *)
Definition ex_redirect (kind : bytes) : list redisReply :=
  [REDIS_REPLY_ERROR (redirect kind 0 (address (str "h") 2)); REDIS_REPLY_STATUS (str "PONG")].
Definition PONG : option redisReply := Some (REDIS_REPLY_STATUS (str "PONG")).

Lemma ex_host_ok : host_ok (str "h").
Proof. split; [done|]. split; by apply (bool_decide_unpack _). Qed.

Lemma ex_reachable script w : reachable (ex_cluster script) w (str "h") 2 2 2.
Proof.
  split; [done|]. split; [apply ex_host_ok|]. split; [done|]. split.
  - exists ex_nodes. split; [done|]. split; [apply ex_nodes_ok|]. by rewrite ex_nodes_map.
  - split; [|done]. exists (ex_node 2 2). by split.
Qed.

Lemma ex_serves script : serves (ex_cluster script) 0 1 1.
Proof.
  split; [by vm_compute|]. split; [eexists; split; vm_compute; reflexivity|]. split; [|done]. exists (ex_node 1 1). by split.
Qed.

Lemma getNodeFromRedirectReply_spec_witness : let st := ex_cluster [] in
  exists p nodes', s_heap st !! p = None /\ to_map nodes' = <[address (str "new") 7 := p]> (to_map ex_nodes) /\
    dict_wf (clusterNodesDictType (W := list redisReply)) nodes' /\
    getNodeFromRedirectReply (L := Empty_set) (redirect (str "MOVED") 5 (address (str "new") 7)) true st =
      (upd_cc (cc_set_nodes (Some nodes')) (upd_heap (<[p := redirect_node (str "new") 7]>) st), Normal (Some p, 5)).
Proof.
  assert (Hn : Byte.x20 ∉ str "MOVED") by by apply (bool_decide_unpack _).
  assert (Hh : host_ok (str "new")) by (split; [done|]; split; by apply (bool_decide_unpack _)).
  pose proof (getNodeFromRedirectReply_spec (L := Empty_set) (ex_cluster []) (str "MOVED") 5 (str "new") 7 ex_nodes true
    Hn ltac:(by vm_compute) ltac:(by vm_compute) Hh eq_refl eq_refl ex_nodes_ok) as H.
  cbv zeta in H. rewrite ex_nodes_map in H. rewrite ex_nodes_map. exact H.
Defined.

Lemma redis_cluster_command_execute_moved_witness : let st := ex_cluster (ex_redirect (str "MOVED")) in
  redis_cluster_command_execute (L := Empty_set) (ex_command 0) st =
    x_finish (Some 1%positive) PONG (table_set 0 2 {[0 := 1%positive; 1 := 2%positive]} (retried 1 [] st)).
Proof.
  refine (redis_cluster_command_execute_moved (ex_command 0) (ex_cluster (ex_redirect (str "MOVED"))) 1 1 (str "PING")
    (tail (ex_redirect (str "MOVED"))) (tail (ex_redirect (str "MOVED"))) [] 0 (str "h") 2 2 2
    {[0 := 1%positive; 1 := 2%positive]} PONG eq_refl (ex_serves _) eq_refl _ eq_refl _ _ eq_refl _ (ex_reachable _ _) _ _).
  - by split.
  - eexists. split; reflexivity.
  - by split.
  - eexists _, true. split; reflexivity.
  - eexists. split; reflexivity.
  - by apply final_not_err.
Defined.

Lemma redis_cluster_command_execute_ask_witness : let st := ex_cluster (ex_redirect (str "ASK")) in
  redis_cluster_command_execute (L := Empty_set) (ex_command 0) st = (retried 1 [] st, Normal PONG).
Proof.
  refine (redis_cluster_command_execute_ask (ex_command 0) (ex_cluster (ex_redirect (str "ASK"))) 1 1 (str "PING")
    (tail (ex_redirect (str "ASK"))) (tail (ex_redirect (str "ASK"))) [] 0 (str "h") 2 2 2
    (REDIS_REPLY_STATUS (str "OK")) PONG eq_refl (ex_serves _) eq_refl _ eq_refl _ _ (ex_reachable _ _) eq_refl _ _).
  - by split.
  - eexists. split; reflexivity.
  - by split.
  - eexists. split; reflexivity.
  - by apply final_not_err.
Defined.
