(* ===== verification/Client.v ===== *)
(** * hircluster.c: the synchronous commands and the pipeline

    [redisClusterFormattedCommand] formats, splits, executes and merges; the Append
    functions write a command to its connections and queue it, [redisClusterGetReply]
    reads the reply of the first queued command and [redisClusterReset] reads them
    all.  What hiredis' formatting functions return ([len], [cmd]) is an argument, and so
    are the parser's allocations.  A loop that waits for hiredis has fuel and
    returns [None] when it ends. *)
From S2P Require Import Prelude Crc16 Dict Goto Hiredis Cmddef Command Context Fragment Nodes Topology Route Execute.

(** What a [void *reply] of the pipeline points to: NULL, a reply the caller owns, or a
    reply that has been freed. *)
Inductive reply_ref := RNull | RLive (r : redisReply) | RFreed.

Definition ref_of (reply : option redisReply) : reply_ref :=
  match reply with Some r => RLive r | None => RNull end.

(** An iterator over the nodes.  The dict of [di] is [cc->nodes]: it is replaced only
    together with a new [route_version]. *)
Record redisClusterNodeIterator := mkNodeIterator {
  ni_route_version : Z;
  ni_di : dictIterator bytes loc;
  ni_retries_left : Z
}.

Section Client.
Context {W : Type} `{HiredisOps W} {sds : SdsOps} {L : Type}.
Variables (realloc_ok : Z -> bool) (errstr_ok : bool) (num_str : bytes).
Abbreviation M := (G (cstate W) L).

Definition m_format_by_slot (command : cmd) : M (Z * cmd * list cmd) := fun st =>
  match command_format_by_slot realloc_ok errstr_ok num_str command [] st with
  | Some (st, slot_num, command, commands) => (st, Normal (slot_num, command, commands))
  | None => (st, Undefined)
  end.

Definition m_post_fragment (command : cmd) (commands : list cmd) : M (option redisReply) :=
  r ← gcatch (command_post_fragment command commands) (fun l : Empty_set => match l with end);
  mret r.1.

Definition reset_retry : M () := mod_cc (fun cc => cc_set_retry 0 (cc_need_update_route cc) cc).
Definition clear_error : M () := mod_cc (cc_set_error 0 []).

(** The sub commands in list order, each with its reply; the reply to return at once
    otherwise. *)
Fixpoint execute_subs (subs done : list cmd) : M (list cmd + option redisReply) :=
  match subs with
  | [] => mret (inl done)
  | sub :: rest =>
      reply ← redis_cluster_command_execute sub;
      match reply with
      | None => mret (inr None)
      | Some (REDIS_REPLY_ERROR e) => mret (inr (Some (REDIS_REPLY_ERROR e)))
      | Some r => execute_subs rest (done ++ [set_reply sub (Some r)])
      end
  end.

Definition redisClusterFormattedCommand (text : bytes) (len : Z) : M (option redisReply) :=
  cc ← get_cc;
  (if negb (cc_err cc =? 0) then clear_error else mret ());;
  command ← m_command_get;
  match command with
  | None => set_error REDIS_ERR_OOM (str "Out of memory");; reset_retry;; mret None
  | Some command =>
      ok ← alloc;
      if negb ok then set_error REDIS_ERR_OOM (str "Out of memory");; reset_retry;; mret None
      else
        '(slot_num, command, commands) ← m_format_by_slot (set_cmd command (Some text) len);
        if slot_num <? 0 then reset_retry;; mret None
        else if REDIS_CLUSTER_SLOTS <=? slot_num then
          set_error REDIS_ERR_OTHER (str "slot_num is out of range");; reset_retry;; mret None
        else
          reply ← (match commands with
                   | [] => redis_cluster_command_execute command
                   | _ =>
                       r ← execute_subs commands [];
                       match r with
                       | inl commands => m_post_fragment command commands
                       | inr reply => mret reply
                       end
                   end);
          reset_retry;; mret reply
  end.

(** [redisClustervCommand]: [len] and [text] are what hiredis formats. *)
Definition redisClustervCommand (len : Z) (text : bytes) : M (option redisReply) :=
  if len =? -1 then set_error REDIS_ERR_OOM (str "Out of memory");; mret None
  else if len =? -2 then set_error REDIS_ERR_OTHER (str "Invalid format string");; mret None
  else redisClusterFormattedCommand text len.

(** The variadic functions; what they format is [len] and [text]. *)
Definition redisClusterCommand (len : Z) (text : bytes) : M (option redisReply) := redisClustervCommand len text.

Definition redisClusterCommandArgv (len : Z) (text : bytes) : M (option redisReply) :=
  if len =? -1 then set_error REDIS_ERR_OOM (str "Out of memory");; mret None
  else redisClusterFormattedCommand text len.

(** The connection of a node that a user passes, or its error. *)
Definition conn_or_error (node : loc) : M (option conn) :=
  c ← ctx_get_by_node node;
  match c with
  | None => mret None
  | Some c =>
      err ← world_get (fun w => ctx_err w c);
      if negb (err =? 0) then set_ctx_error c;; mret None else mret (Some c)
  end.

Definition redisClustervCommandToNode (node : loc) (args : list bytes) : M (option redisReply) :=
  c ← conn_or_error node;
  match c with
  | None => mret None
  | Some c =>
      cc ← get_cc;
      (if negb (cc_err cc =? 0) then clear_error else mret ());;
      ret ← world_call (fun w => redisAppendCommand w c args);
      if negb (ret =? REDIS_OK) then set_ctx_error c;; mret None
      else
        cc ← get_cc;
        updating ← (if negb (cc_need_update_route cc =? 0) then
                      r ← clusterUpdateRouteSendCommand c; mret (r =? REDIS_OK)
                    else mret false);
        '(r, reply) ← world_call (fun w => redisGetReply w c);
        if negb (r =? REDIS_OK) then
          set_ctx_error c;;
          err ← world_get (fun w => ctx_err w c);
          (if negb (err =? REDIS_ERR_OOM)
           then mod_cc (fun cc => cc_set_retry (cc_retry_count cc) 1 cc) else mret ());;
          mret None
        else
          (if updating : bool then
             r ← clusterUpdateRouteHandleReply c;
             if negb (r =? REDIS_OK) then clear_error else mret ()
           else mret ());;
          mret reply
  end.

Definition redisClusterCommandToNode (node : loc) (args : list bytes) : M (option redisReply) :=
  redisClustervCommandToNode node args.

(** ** The pipeline *)

(** [__redisClusterAppendCommand] *)
Definition clusterAppendCommand (command : cmd) : M Z :=
  node ← node_get_by_table (c_slot_num command);
  match node with
  | None => mret REDIS_ERR
  | Some node =>
      c ← conn_or_error node;
      match c with
      | None => mret REDIS_ERR
      | Some c =>
          text ← gdef (cmd_bytes command);
          r ← world_call (fun w => redisAppendFormattedCommand w c text);
          if negb (r =? REDIS_OK) then set_ctx_error c;; mret REDIS_ERR else mret REDIS_OK
      end
  end.

(** The list of queued commands, made when there is none: whether that worked. *)
Definition ensure_requests : M bool :=
  cc ← get_cc;
  match cc_requests cc with
  | Some _ => mret true
  | None =>
      ok ← alloc;
      if ok : bool then mod_cc (cc_set_requests (Some []));; mret true else mret false
  end.

Definition add_request (command : cmd) : M bool :=
  ok ← alloc;
  if ok : bool then
    mod_cc (fun cc => cc_set_requests ((fun l => l ++ [command]) <$> cc_requests cc) cc);; mret true
  else mret false.

Definition oom_err : M Z := set_error REDIS_ERR_OOM (str "Out of memory");; mret REDIS_ERR.

Fixpoint append_subs (subs : list cmd) : M Z :=
  match subs with
  | [] => mret REDIS_OK
  | sub :: rest =>
      r ← clusterAppendCommand sub;
      if negb (r =? REDIS_OK) then mret REDIS_ERR else append_subs rest
  end.

Definition redisClusterAppendFormattedCommand (text : bytes) (len : Z) : M Z :=
  ok ← ensure_requests;
  if negb ok then oom_err
  else
    command ← m_command_get;
    match command with
    | None => oom_err
    | Some command =>
        ok ← alloc;
        if negb ok then oom_err
        else
          '(slot_num, command, commands) ← m_format_by_slot (set_cmd command (Some text) len);
          if slot_num <? 0 then mret REDIS_ERR
          else if REDIS_CLUSTER_SLOTS <=? slot_num then
            set_error REDIS_ERR_OTHER (str "slot_num is out of range");; mret REDIS_ERR
          else
            r ← (match commands with [] => clusterAppendCommand command | _ => append_subs commands end);
            if negb (r =? REDIS_OK) then mret REDIS_ERR
            else
              let command := set_dest command (c_node_addr command)
                (match commands with [] => c_sub_commands command | _ => Some commands end) in
              ok ← add_request (set_cmd command None (c_clen command));
              if negb ok then oom_err else mret REDIS_OK
    end.

Definition redisClustervAppendCommand (len : Z) (text : bytes) : M Z :=
  if len =? -1 then oom_err
  else if len =? -2 then set_error REDIS_ERR_OTHER (str "Invalid format string");; mret REDIS_ERR
  else redisClusterAppendFormattedCommand text len.

Definition redisClusterAppendCommand (format_null : bool) (len : Z) (text : bytes) : M Z :=
  if format_null then mret REDIS_ERR else redisClustervAppendCommand len text.

Definition redisClusterAppendCommandArgv (len : Z) (text : bytes) : M Z :=
  if len =? -1 then oom_err else redisClusterAppendFormattedCommand text len.

Definition redisClustervAppendCommandToNode (node : loc) (len : Z) (text : bytes) : M Z :=
  ok ← ensure_requests;
  if negb ok then oom_err
  else
    c ← conn_or_error node;
    match c with
    | None => mret REDIS_ERR
    | Some c =>
        if len =? -1 then oom_err
        else if len =? -2 then set_error REDIS_ERR_OTHER (str "Invalid format string");; mret REDIS_ERR
        else
          r ← world_call (fun w => redisAppendFormattedCommand w c (take (Z.to_nat len) text));
          if negb (r =? REDIS_OK) then set_ctx_error c;; mret REDIS_ERR
          else
            command ← m_command_get;
            match command with
            | None => oom_err
            | Some command =>
                nd ← get_node node;
                addr ← gdef (n_addr nd);
                ok ← alloc;
                if negb ok then oom_err
                else
                  ok ← add_request (set_dest (set_cmd command (Some text) len) (Some (sdsnew addr)) None);
                  if negb ok then oom_err else mret REDIS_OK
            end
    end.

Definition redisClusterAppendCommandToNode (node : option loc) (format_null : bool) (len : Z) (text : bytes) : M Z :=
  match node with
  | Some node => if format_null then mret REDIS_ERR else redisClustervAppendCommandToNode node len text
  | None => mret REDIS_ERR
  end.

(** [__redisClusterGetReplyFromNode] *)
Definition clusterGetReplyFromNode (node : loc) : M (Z * option redisReply) :=
  nd ← get_node node;
  match n_con nd with
  | None => mret (REDIS_ERR, None)
  | Some c =>
      err ← world_get (fun w => ctx_err w c);
      if negb (err =? 0) then
        cc ← get_cc;
        (if cc_need_update_route cc =? 0 then
           let n := i32 (cc_retry_count cc + 1) in
           if cc_max_retry_count cc <? n then mod_cc (cc_set_retry 0 1) else mod_cc (cc_set_retry n 0)
         else mret ());;
        set_ctx_error c;; mret (REDIS_ERR, None)
      else
        '(r, reply) ← world_call (fun w => redisGetReply w c);
        if negb (r =? REDIS_OK) then set_ctx_error c;; mret (REDIS_ERR, None)
        else
          (if bool_decide (cluster_reply_error_type reply = Some CLUSTER_ERR_MOVED)
           then mod_cc (fun cc => cc_set_retry (cc_retry_count cc) 1 cc) else mret ());;
          mret (REDIS_OK, reply)
  end.

(** [__redisClusterGetReply] *)
Definition clusterGetReply (slot_num : Z) : M (Z * option redisReply) :=
  if slot_num <? 0 then mret (REDIS_ERR, None)
  else
    node ← node_get_by_table slot_num;
    match node with None => mret (REDIS_ERR, None) | Some node => clusterGetReplyFromNode node end.

(** The replies of the sub commands of a queued command. *)
Fixpoint get_sub_replies (subs done : list cmd) : M (option (list cmd)) :=
  match subs with
  | [] => mret (Some done)
  | sub :: rest =>
      if c_slot_num sub <? 0 then
        set_error REDIS_ERR_OTHER (str "sub_command slot_num is less then zero");; mret None
      else
        '(r, reply) ← clusterGetReply (c_slot_num sub);
        if negb (r =? REDIS_OK) then mret None
        else get_sub_replies rest (done ++ [set_reply sub reply])
  end.

Definition pop_request (rest : list cmd) : M () := mod_cc (cc_set_requests (Some rest)).

(** The merged reply of the sub commands.  An error reply is the sub command's own
    object, which deleting the request frees. *)
Definition merged_reply (command : cmd) (commands : list cmd) : M reply_ref :=
  reply ← m_post_fragment command commands;
  mret (match check_replies (c_type command) commands 0 with
        | SubError _ => RFreed
        | _ => ref_of reply
        end).

Definition redisClusterGetReply : M (Z * reply_ref) :=
  clear_error;;
  cc ← get_cc;
  match cc_requests cc with
  | None => mret (REDIS_ERR, RNull)
  | Some [] => mret (REDIS_OK, RNull)
  | Some (command :: rest) =>
      if 0 <=? c_slot_num command then
        pop_request rest;;
        '(r, reply) ← clusterGetReply (c_slot_num command);
        mret (r, ref_of reply)
      else
        match c_node_addr command with
        | Some node_addr =>
            nodes ← gdef (cc_nodes cc);
            de ← m_dictFind nodes node_addr;
            match de with
            | Some node =>
                pop_request rest;;
                '(r, reply) ← clusterGetReplyFromNode node;
                mret (r, ref_of reply)
            | None =>
                set_error REDIS_ERR_OTHER (str "command was sent to a now unknown node");;
                pop_request rest;; mret (REDIS_ERR, RNull)
            end
        | None =>
            match c_sub_commands command with
            | None =>
                set_error REDIS_ERR_OTHER (str "sub_commands in command is null");;
                pop_request rest;; mret (REDIS_ERR, RNull)
            | Some commands =>
                done ← get_sub_replies commands [];
                match done with
                | None => pop_request rest;; mret (REDIS_ERR, RNull)
                | Some commands =>
                    reply ← merged_reply command commands;
                    pop_request rest;;
                    mret (match reply with RNull => (REDIS_ERR, RNull) | r => (REDIS_OK, r) end)
                end
            end
        end
  end.

(** [do { redisBufferWrite(c, &wdone) } while (!wdone)] *)
Fixpoint write_all (fuel : nat) (c : conn) : M (option Z) :=
  match fuel with
  | O => mret None
  | S fuel' =>
      '(r, wdone) ← world_call (fun w => redisBufferWrite w c);
      if r =? REDIS_ERR then mret (Some REDIS_ERR)
      else if wdone : bool then mret (Some REDIS_OK) else write_all fuel' c
  end.

Fixpoint send_all_loop (fuel : nat) (entries : list (bytes * loc)) : M (option Z) :=
  match entries with
  | [] => mret (Some REDIS_OK)
  | (_, p) :: rest =>
      c ← ctx_get_by_node p;
      match c with
      | None => send_all_loop fuel rest
      | Some c =>
          r ← write_all fuel c;
          match r with
          | None => mret None
          | Some r => if r =? REDIS_ERR then mret (Some REDIS_ERR) else send_all_loop fuel rest
          end
      end
  end.

Definition redisClusterSendAll (fuel : nat) : M (option Z) :=
  cc ← get_cc;
  match cc_nodes cc with
  | None => mret (Some REDIS_ERR)
  | Some nodes => entries ← gdef (dict_entries nodes); send_all_loop fuel entries
  end.

Fixpoint clear_all_loop (entries : list (bytes * loc)) : M () :=
  match entries with
  | [] => mret ()
  | (_, p) :: rest =>
      nd ← get_node p;
      match n_con nd with
      | None => mret ()
      | Some c => world (fun w => redisFree w c);; put_node p (fun n => n_set_con None (n_acon n) n)
      end;;
      clear_all_loop rest
  end.

Definition redisClusterClearAll : M Z :=
  cc ← get_cc;
  (if negb (cc_err cc =? 0) then clear_error else mret ());;
  match cc_nodes cc with
  | None => mret REDIS_ERR
  | Some nodes => entries ← gdef (dict_entries nodes); clear_all_loop entries;; mret REDIS_OK
  end.

(** The loop that drains the queue; [freeReplyObject] of a freed reply is undefined. *)
Fixpoint drain (fuel : nat) : M (option ()) :=
  match fuel with
  | O => mret None
  | S fuel' =>
      '(status, reply) ← redisClusterGetReply;
      if status =? REDIS_OK then
        match reply with
        | RNull => mret (Some ())
        | RLive _ => drain fuel'
        | RFreed => undefined
        end
      else redisClusterClearAll;; mret (Some ())
  end.

Definition queued (cc : redisClusterContext) : nat := length (default [] (cc_requests cc)).

Definition redisClusterReset (fuel : nat) : M (option ()) :=
  cc ← get_cc;
  match cc_nodes cc with
  | None => mret (Some ())
  | Some _ =>
      r ← (if negb (cc_err cc =? 0) then redisClusterClearAll;; mret (Some ())
           else
             sent ← redisClusterSendAll fuel;
             match sent with None => mret None | Some _ => drain (S (queued cc)) end);
      match r with
      | None => mret None
      | Some _ =>
          mod_cc (cc_set_requests None);;
          cc ← get_cc;
          if negb (cc_need_update_route cc =? 0) then
            status ← redisClusterUpdateSlotmap;
            (if negb (status =? REDIS_OK) then mret ()
             else mod_cc (fun cc => cc_set_retry (cc_retry_count cc) 0 cc));;
            mret (Some ())
          else mret (Some ())
      end
  end.

(** ** The node iterator and the key functions *)
Definition redisClusterInitNodeIterator : M redisClusterNodeIterator :=
  cc ← get_cc;
  mret (mkNodeIterator (cc_route_version cc) dictInitIterator 1).

Definition redisClusterNodeNext (iter : redisClusterNodeIterator) : M (redisClusterNodeIterator * option loc) :=
  if ni_retries_left iter <=? 0 then mret (iter, None)
  else
    cc ← get_cc;
    let iter :=
      if negb (ni_route_version iter =? cc_route_version cc)
      then mkNodeIterator (cc_route_version cc) dictInitIterator (ni_retries_left iter - 1)
      else iter in
    nodes ← gdef (cc_nodes cc);
    '(di, de) ← gdef (dictNext nodes (ni_di iter));
    mret (mkNodeIterator (ni_route_version iter) di (ni_retries_left iter), snd <$> de).

Definition redisClusterGetNodeByKey (key : bytes) : M (option loc) :=
  node_get_by_table (keyHashSlot (c_str key)).
End Client.
