(* ===== verification/Pipeline.v ===== *)
(** * Properties of the pipeline

    The queue of commands: what is appended, what reading a reply takes off, and that
    [redisClusterReset] empties it. *)
From S2P Require Import Prelude Hiutil Crc16 Dict Goto Hiredis Cmddef Command Context Fragment.
From S2P Require Import Sds Nodes Topology Route Execute NodeProps Script Frame Client.

Section Pipeline.
Context {W : Type} `{HiredisOps W} {sds : SdsOps}.
Implicit Types (st : cstate W).

Definition requests st : option (list cmd) := cc_requests (s_cc st).

Lemma q_settings {L A} (lab : L -> Prop) (m : G (cstate W) L A) : keeps settings lab m -> keeps requests lab m.
Proof.
  intros Hm st. specialize (Hm st). unfold settings, requests in *.
  destruct (m st) as [st' [a|l|]]; [by injection Hm| |done]. destruct Hm as [? Hm]. split; [done|by injection Hm].
Qed.

Section Queue.
Context {L : Type} (lab : L -> Prop).
Abbreviation Q := (keeps (requests) lab).

Lemma q_mod_cc f : (forall cc, cc_requests (f cc) = cc_requests cc) -> Q (mod_cc f).
Proof. intros Hf st. apply Hf. Qed.

Ltac q_step :=
  lazymatch goal with
  | |- keeps _ _ (mod_cc _) => apply q_mod_cc; done
  | |- keeps _ _ (mbind _ _) => apply keeps_bind; [|intros]
  | |- keeps _ _ (match ?x with _ => _ end) => destruct x
  | |- _ => first [assumption | apply q_settings; solve [keeps_tac]]
  end.
Ltac q_tac := intros; cbn zeta; repeat (q_step; cbn zeta).

Lemma q_getFromNode p : Q (clusterGetReplyFromNode p).
Proof. unfold clusterGetReplyFromNode. q_tac. Qed.
Lemma q_clear_error : Q clear_error.
Proof. unfold clear_error. q_tac. Qed.
Lemma q_getReply slot : Q (clusterGetReply slot).
Proof. unfold clusterGetReply. q_tac. apply q_getFromNode. Qed.
Lemma q_post_fragment command commands : Q (m_post_fragment command commands).
Proof.
  unfold m_post_fragment. apply keeps_bind; [|done]. apply keeps_catch with (lab' := fun _ => True); [|intros []].
  unfold command_post_fragment. apply q_settings. keeps_tac.
Qed.
Lemma q_sub_replies subs : forall done_, Q (get_sub_replies subs done_).
Proof.
  induction subs as [|sub subs IH]; intros done_; cbn [get_sub_replies]; [done|].
  destruct (c_slot_num sub <? 0); [q_tac|]. apply keeps_bind; [apply q_getReply|]. intros [r reply].
  destruct (negb (r =? REDIS_OK)); [done|apply IH].
Qed.
Lemma q_clear_loop es : Q (clear_all_loop es).
Proof. induction es as [|[k p] es IH]; cbn [clear_all_loop]; q_tac. Qed.
Lemma q_clear_all : Q redisClusterClearAll.
Proof. unfold redisClusterClearAll. q_tac; [apply q_clear_error|apply q_clear_loop]. Qed.
Lemma q_write_all fuel c : Q (write_all fuel c).
Proof. induction fuel as [|fuel IH]; cbn [write_all]; q_tac. Qed.
Lemma q_send_loop fuel es : Q (send_all_loop fuel es).
Proof. induction es as [|[k p] es IH]; cbn [send_all_loop]; q_tac. apply q_write_all. Qed.
Lemma q_send_all fuel : Q (redisClusterSendAll fuel).
Proof. unfold redisClusterSendAll. q_tac. apply q_send_loop. Qed.
End Queue.

(** ** Reading a reply *)
Context {L : Type}.

(** A reply that is not NULL takes the first command off the queue. *)
Definition took st st' (r : Z * reply_ref) : Prop :=
  match r.2 with RNull => True | _ => exists c rest, requests st = Some (c :: rest) /\ requests st' = Some rest end.

Abbreviation never := (fun (_ : cstate W) (_ : L) => False).

Lemma leaves_q {A B} (m : G (cstate W) L A) (k : A -> G (cstate W) L B) st P :
  keeps requests (fun _ => False) m -> (forall st' a, requests st' = requests st -> leaves (k a) st' P never) ->
  leaves (m ≫= k) st P never.
Proof.
  intros Hm Hk. eapply leaves_bind; [|exact Hk]. apply leaves_mono with (1 := leaves_keeps _ _ _ st Hm); [done|]. by intros ? ? [? _].
Qed.

Lemma leaves_pop {B} rest (k : () -> G (cstate W) L B) st P :
  (forall st', requests st' = Some rest -> leaves (k ()) st' P never) -> leaves (pop_request rest ≫= k) st P never.
Proof. intros Hk. unfold pop_request, mod_cc. unfold leaves. rewrite gbind_modify. by apply Hk. Qed.

Lemma leaves_ret {A} (a : A) st (P : cstate W -> A -> Prop) : P st a -> leaves (L := L) (mret a) st P never.
Proof. done. Qed.

Lemma getReply_took st : leaves (redisClusterGetReply (L := L)) st (took st) never.
Proof.
  unfold redisClusterGetReply. apply leaves_q; [apply q_clear_error|]. intros st1 [] H1.
  unfold leaves, mbind at 1, g_bind at 1, get_cc at 1. fold (requests st1).
  destruct (requests st1) as [[|command rest]|] eqn:E1; [done| |done].
  assert (Hlast : forall st' r, requests st' = Some rest -> took st st' r).
  { intros st' [r ref] Hr. unfold took. destruct ref; [done| |]; exists command, rest; by rewrite <- H1. }
  match goal with |- match ?m st1 with _ => _ end => change (leaves m st1 (took st) never) end.
  destruct (0 <=? c_slot_num command).
  { apply leaves_pop. intros st2 H2. apply leaves_q; [apply q_getReply|]. intros st3 [r reply] H3. apply Hlast. congruence. }
  destruct (c_node_addr command) as [addr|].
  { apply leaves_q; [apply keeps_def|]. intros st2 nodes H2. apply leaves_q; [apply q_settings, (k_dictFind settings)|]. intros st3 [p|] H3.
    - apply leaves_pop. intros st4 H4. apply leaves_q; [apply q_getFromNode|]. intros st5 [r reply] H5. apply Hlast. congruence.
    - apply leaves_q; [done|]. intros st4 [] H4. by apply leaves_pop. }
  destruct (c_sub_commands command) as [commands|].
  2: { apply leaves_q; [done|]. intros st2 [] H2. by apply leaves_pop. }
  apply leaves_q; [apply q_sub_replies|]. intros st2 [done_|] H2; [|by apply leaves_pop].
  apply leaves_q; [unfold merged_reply; apply keeps_bind; [apply q_post_fragment|done]|]. intros st3 reply H3.
  apply leaves_pop. intros st4 H4. apply leaves_ret. destruct reply; [done| |]; by apply Hlast.
Qed.

(** ** Draining the queue *)
Definition queue_len st : nat := length (default [] (requests st)).

Lemma drain_ends fuel : forall st, (queue_len st < fuel)%nat ->
  leaves (drain (L := L) fuel) st (fun _ r => r = Some ()) never.
Proof.
  induction fuel as [|fuel IH]; intros st Hf; [lia|]. cbn [drain].
  eapply leaves_bind; [apply getReply_took|]. intros st1 [status reply] Ht. destruct (status =? REDIS_OK).
  - destruct reply; [done| |done]. destruct Ht as (c & rest & H1 & H2). apply IH. unfold queue_len in *. rewrite H1 in Hf. rewrite H2.
    cbn in *. lia.
  - eapply leaves_q; [apply q_clear_all|]. done.
Qed.

(** C28. [redisClusterReset] ends and empties the queue: once everything queued has been
    written, it takes at most one read per queued command and one more, whatever the
    cluster answers, and afterwards no command is queued.  (The fuel only bounds the
    writes, which wait for the socket; a context without nodes is left alone.  The use of a
    freed reply, which the next theorem shows to be possible, is undefined.) *)
Theorem redisClusterReset_drains st (fuel : nat) :
  match redisClusterReset (L := L) fuel st with
  | (_, Normal None) => (redisClusterSendAll (L := L) fuel st).2 = Normal None
  | (st', Normal (Some _)) => if cc_nodes (s_cc st) is Some _ then requests st' = None else st' = st
  | (_, At _) => False
  | (_, Undefined) => True
  end.
Proof.
  unfold redisClusterReset. unfold mbind at 1, g_bind at 1, get_cc at 1. destruct (cc_nodes (s_cc st)) as [nodes|]; [|done].
  assert (Hend : forall st1, leaves (L := L) (mod_cc (cc_set_requests None);; cc ← get_cc;
    if negb (cc_need_update_route cc =? 0) then
      status ← redisClusterUpdateSlotmap;
      (if negb (status =? REDIS_OK) then mret () else mod_cc (fun cc => cc_set_retry (cc_retry_count cc) 0 cc));; mret (Some ())
    else mret (Some ())) st1 (fun st' r => r = Some () /\ requests st' = None) never).
  { intros st1. unfold mod_cc. unfold leaves at 1. rewrite gbind_modify.
    match goal with |- match ?m ?s with _ => _ end => change (leaves m s (fun st' r => r = Some () /\ requests st' = None) never) end.
    apply leaves_q; [apply q_settings; keeps_tac|]. intros st2 cc H2. destruct (negb _); [|by apply leaves_ret].
    apply leaves_q; [apply q_settings, (k_update_slotmap settings)|]. intros st3 status H3.
    apply leaves_q; [destruct (negb _); [done|by apply q_mod_cc]|]. intros st4 [] H4. apply leaves_ret. split; [done|]. by rewrite H4, H3, H2. }
  set (m1 := if negb (cc_err (s_cc st) =? 0) then _ else _).
  assert (Hm : leaves (L := L) m1 st (fun _ r => r = Some () \/ r = None /\ (redisClusterSendAll (L := L) fuel st).2 = Normal None) never).
  { unfold m1. destruct (negb _); [apply leaves_q; [apply q_clear_all|]; by left|].
    pose proof (q_send_all (L := L) (fun _ => False) fuel st) as Hq.
    unfold leaves, mbind, g_bind. destruct (redisClusterSendAll fuel st) as [st1 [[z|]|l|]]; [| |by destruct Hq|done].
    - assert (Hd : leaves (drain (L := L) (S (queued (s_cc st)))) st1 (fun _ r => r = Some ()) never).
      { apply drain_ends. unfold queue_len, queued. rewrite Hq. unfold requests. lia. }
      unfold leaves in Hd. destruct (drain _ st1) as [st2 [a|l|]]; [by left|done|done].
    - cbn. by right. }
  unfold leaves in Hm. unfold mbind at 1, g_bind at 1. destruct (m1 st) as [st1 [r|l|]]; [|done|done].
  destruct Hm as [->|[-> Hs]]; [|done]. specialize (Hend st1). unfold leaves in Hend.
  match goal with |- match ?t with _ => _ end => destruct t as [st2 [[u|]|l|]] end; [|by destruct Hend|done|done].
  by destruct Hend.
Qed.

(** The error reply that is handed on is a sub command's own. *)
Lemma check_replies_error t commands e : forall z, check_replies t commands z = SubError e ->
  exists sub, sub ∈ commands /\ c_reply sub = Some e.
Proof.
  induction commands as [|sub commands IH]; intros z He; cbn [check_replies] in He; [done|].
  assert (Hrest : forall z, check_replies t commands z = SubError e -> exists s, s ∈ sub :: commands /\ c_reply s = Some e).
  { intros z' E. destruct (IH z' E) as (s & Hin & Hs). exists s. split; [by right|done]. }
  destruct (c_reply sub) as [r|] eqn:Er; [|done].
  destruct r; try (injection He as <-; exists sub; split; [by left|done]); destruct t; try done; try (by eapply Hrest).
  revert He. case_bool_decide; [by apply Hrest|done].
Qed.

(** C33. A pipelined multi-key command whose sub commands are answered by an error gives the
    caller a reply that has been freed: [command_post_fragment] returns the sub command's
    own reply object, which is among what [listDelNode] of the request frees.  [redisClusterReset],
    which frees the reply it reads, then frees it a second time. *)
Theorem redisClusterGetReply_use_after_free st st2 command rest commands answered e (fuel : nat) :
  requests st = Some (command :: rest) -> c_slot_num command < 0 -> c_node_addr command = None ->
  c_sub_commands command = Some commands ->
  get_sub_replies (L := L) commands [] (upd_cc (cc_set_error 0 []) st) = (st2, Normal (Some answered)) ->
  check_replies (c_type command) answered 0 = SubError e ->
  own_reply e ∈ listCommandFree (set_dest command None (Some answered)) /\
  exists st', redisClusterGetReply (L := L) st = (st', Normal (REDIS_OK, RFreed)) /\
    drain (L := L) (S fuel) st = (st', Undefined).
Proof.
  intros Hr Hs Ha Hc Hg He. split.
  { destruct (check_replies_error _ _ _ _ He) as (sub & Hin & Hsub). by apply (command_destroy_replies _ answered sub). }
  exists (upd_cc (cc_set_requests (Some rest)) st2).
  assert (E : redisClusterGetReply (L := L) st = (upd_cc (cc_set_requests (Some rest)) st2, Normal (REDIS_OK, RFreed))).
  { unfold redisClusterGetReply, clear_error, mod_cc. rewrite gbind_modify. unfold mbind at 1, g_bind at 1, get_cc at 1.
    change (cc_requests (s_cc (upd_cc (cc_set_error 0 []) st))) with (requests st). rewrite Hr.
    destruct (0 <=? c_slot_num command) eqn:E; [apply Z.leb_le in E; lia|]. rewrite Ha, Hc, (gbind_normal _ _ _ _ _ Hg).
    unfold merged_reply, m_post_fragment, command_post_fragment, gcatch. rewrite He. done. }
  split; [done|]. cbn [drain]. by rewrite (gbind_normal _ _ _ _ _ E).
Qed.

(** ** The node iterator *)

(** The loop of a user: [while ((node = redisClusterNodeNext(&iter)) != NULL)]. *)
Fixpoint visit_nodes (fuel : nat) (iter : redisClusterNodeIterator) : G (cstate W) L (option (list loc)) :=
  match fuel with
  | O => mret None
  | S fuel' =>
      '(iter, node) ← redisClusterNodeNext iter;
      match node with
      | None => mret (Some [])
      | Some p => ps ← visit_nodes fuel' iter; mret (cons p <$> ps)
      end
  end.

Lemma visit_iterate st nodes v r : cc_nodes (s_cc st) = Some nodes -> cc_route_version (s_cc st) = v -> 0 < r ->
  forall fuel it es, dict_iterate fuel nodes it = Some es ->
  visit_nodes fuel (mkNodeIterator v it r) st = (st, Normal (Some es.*2)).
Proof.
  intros Hn Hv Hr. induction fuel as [|fuel IH]; intros it es E; [done|]. cbn [dict_iterate] in E.
  apply bind_Some in E as ([it' de] & Ed & E). cbn [visit_nodes].
  assert (En : redisClusterNodeNext (L := L) (mkNodeIterator v it r) st = (st, Normal (mkNodeIterator v it' r, snd <$> de))).
  { unfold redisClusterNodeNext. cbn [ni_retries_left ni_route_version ni_di].
    destruct (r <=? 0) eqn:E0; [apply Z.leb_le in E0; lia|]. unfold mbind at 1, g_bind at 1, get_cc at 1.
    rewrite Hv, Z.eqb_refl, Hn. cbn [negb gdef ni_di]. rewrite gbind_ret, Ed. done. }
  rewrite (gbind_normal _ _ _ _ _ En). destruct de as [[k p]|]; cbn [fmap option_fmap option_map snd].
  - apply bind_Some in E as (es' & E & [= <-]). by rewrite (gbind_normal _ _ _ _ _ (IH _ _ E)).
  - by injection E as <-.
Qed.

Lemma iterate_start nodes fuel : dict_wf (clusterNodesDictType (W := W)) nodes -> d_used nodes < Z.of_nat fuel ->
  dict_iterate fuel nodes dictInitIterator = Some (dict_pairs nodes).
Proof.
  intros Hwf Hf. rewrite (dict_iterate_ok clusterNodesDictType nodes Hwf); [reflexivity| |].
  - unfold it_ok. simpl. pose proof (wf_size _ nodes Hwf). lia.
  - destruct Hwf as (Hu & _). unfold it_rest. simpl. rewrite drop_0. lia.
Qed.

(** An iterator of an older route starts over, without a retry left. *)
Lemma visit_restart st nodes v di fuel : cc_nodes (s_cc st) = Some nodes -> cc_route_version (s_cc st) ≠ v ->
  dict_wf (clusterNodesDictType (W := W)) nodes ->
  visit_nodes (S (S fuel)) (mkNodeIterator v di 1) st = (st, Normal (Some (take 1 (dict_pairs nodes).*2))).
Proof.
  intros Hn Hv Hwf. assert (E := iterate_start nodes (S (Z.to_nat (d_used nodes))) Hwf ltac:(lia)).
  cbn [dict_iterate] in E. apply bind_Some in E as ([it' de] & Ed & E). cbn [visit_nodes].
  assert (En : redisClusterNodeNext (L := L) (mkNodeIterator v di 1) st =
    (st, Normal (mkNodeIterator (cc_route_version (s_cc st)) it' 0, snd <$> de))).
  { unfold redisClusterNodeNext. cbn [ni_retries_left ni_route_version ni_di Z.leb Z.compare].
    unfold mbind at 1, g_bind at 1, get_cc at 1. rewrite Hn, (proj2 (Z.eqb_neq _ _)) by congruence.
    cbn [negb gdef ni_di ni_retries_left ni_route_version]. rewrite gbind_ret, Ed. done. }
  rewrite (gbind_normal _ _ _ _ _ En). destruct de as [[k p]|]; cbn [fmap option_fmap option_map snd].
  - apply bind_Some in E as (es & _ & Ep). injection Ep as Ep. by rewrite <- Ep.
  - by injection E as <-.
Qed.

(** C38. A loop over [redisClusterNodeNext] visits every node of the context exactly once and
    then gets NULL, as long as the route is not updated meanwhile.  After an update the
    iterator does start over, but its only retry is used up by that: the loop gets one
    node of the new dict and then NULL. *)
Theorem redisClusterNodeNext_visits st (nodes : dict bytes loc) (fuel : nat) :
  cc_nodes (s_cc st) = Some nodes -> dict_wf (clusterNodesDictType (W := W)) nodes -> d_used nodes < Z.of_nat fuel ->
  (exists ps, (iter ← redisClusterInitNodeIterator; visit_nodes fuel iter) st = (st, Normal (Some ps)) /\
     ps ≡ₚ (map_to_list (to_map nodes)).*2) /\
  forall v di, cc_route_version (s_cc st) ≠ v ->
    visit_nodes (S (S fuel)) (mkNodeIterator v di 1) st = (st, Normal (Some (take 1 (dict_pairs nodes).*2))).
Proof.
  intros Hn Hwf Hf. split; [|intros v di Hv; by apply visit_restart]. exists (dict_pairs nodes).*2. split.
  - unfold redisClusterInitNodeIterator. rewrite gbind_assoc. unfold mbind at 1, g_bind at 1, get_cc at 1. rewrite gbind_ret.
    by apply (visit_iterate st nodes), iterate_start.
  - apply fmap_Permutation. symmetry. apply map_to_list_to_map. by destruct Hwf as (_ & ? & _).
Qed.
End Pipeline.

(** ** Witnesses *)
Definition ex_multi : cmd :=
  set_dest (set_slot (set_type (ex_command 0) CMD_REQ_REDIS_MGET) (-1) None) None (Some [ex_command 0; ex_command 1]).
Definition ex_queued (script : list redisReply) : cstate (list redisReply) :=
  upd_cc (cc_set_requests (Some [ex_multi; ex_command 1])) (ex_cluster script).
Definition ex_error : redisReply := REDIS_REPLY_ERROR (str "WRONGTYPE").

Lemma redisClusterGetReply_use_after_free_witness : let st := ex_queued [REDIS_REPLY_ARRAY []; ex_error] in
  exists st', redisClusterGetReply (L := Empty_set) st = (st', Normal (REDIS_OK, RFreed)) /\
    drain (L := Empty_set) 3 st = (st', Undefined).
Proof.
  intros st.
  refine (proj2 (redisClusterGetReply_use_after_free st (upd_world (fun _ => []) (upd_cc (cc_set_error 0 []) st)) ex_multi [ex_command 1]
    [ex_command 0; ex_command 1] [set_reply (ex_command 0) (Some (REDIS_REPLY_ARRAY [])); set_reply (ex_command 1) (Some ex_error)]
    ex_error 2 _ _ _ _ _ _)); reflexivity.
Defined.

Lemma redisClusterNodeNext_visits_witness :
  exists ps, (iter ← redisClusterInitNodeIterator; visit_nodes (L := Empty_set) 3 iter) (ex_cluster []) =
    (ex_cluster [], Normal (Some ps)) /\ Z.of_nat (length ps) = 2.
Proof.
  destruct (redisClusterNodeNext_visits (L := Empty_set) (ex_cluster []) ex_nodes 3 eq_refl (proj1 ex_nodes_ok) ltac:(by vm_compute))
    as [(ps & E & Hp) _]. exists ps. split; [exact E|]. rewrite Hp, length_fmap, length_map_to_list.
  rewrite <- (to_map_size clusterNodesDictType _ (proj1 ex_nodes_ok)). reflexivity.
Defined.
