(* ===== verification/SoundExec.v ===== *)
(** * Memory safety of executing commands

    [redis_cluster_command_execute] keeps the invariant of the context over all retries,
    redirections and updates of the slot map.  It is never undefined as long as the slots
    of redirections are slots and the request for a new slot map can be sent; without
    this the two faults of the MOVED branch remain, and the invariant holds where the
    function is defined. *)
From S2P Require Import Prelude Hiutil Crc16 Dict Goto Hiredis Command Context Sds Fragment Nodes Topology Route Options Execute.
From S2P Require Import NodeProps Ownership TopoProps Script SlotMap OptionProps Frame Triple Memory Safety Sound.

Section Exec.
Context {W : Type} `{HiredisOps W} {sds : SdsOps} {slaws : SdsLaws sds} {bounds : ReplyBounds (W := W)}.
Implicit Types (st : cstate W) (s : xstate W).

(** ** Redirections *)
Definition redirect_slot (reply : bytes) : Z :=
  match sdssplitlen reply (str " ") with [_; part1; _] => hi_atoi part1 | _ => -1 end.

Definition redirected n st (reply : bytes) (want : bool) st' (o : option loc) (slot : Z) : Prop :=
  sound n st' /\ cc_table (s_cc st') = cc_table (s_cc st) /\
  (forall p, o = Some p -> p ∈ (dict_pairs (node_dict st')).*2) /\
  (want = true -> is_Some o -> slot = redirect_slot reply).

Lemma redirect_t {L} (U : Prop) (E : cstate W -> L -> Prop) n reply want st : 0 <= n -> sound (n + 1) st -> is_Some (cc_nodes (s_cc st)) \/ U ->
  triple U (getNodeFromRedirectReply reply want) st (fun st' '(o, slot) => redirected n st reply want st' o slot) E.
Proof.
  intros Hn0 Hs Hnodes. pose proof (sd_holds _ _ Hs) as [qs Hq].
  assert (Hno : forall st' slot, after (s_heap st) st st' -> redirected n st reply want st' None slot).
  { intros st' slot Ha. split; [apply (sound_mono (n + 1)); [by eapply sound_after|lia]|].
    destruct Ha as [_ [= _ ? _]]. split; [done|]. split; [done|]. by intros _ [? ?]. }
  unfold getNodeFromRedirectReply. step. step; [steps; by apply Hno|]. unfold redirected, redirect_slot in *.
  destruct (sdssplitlen reply (str " ")) as [|part0 [|part1 [|part2 []]]]; try (steps; by apply Hno). cbv zeta.
  destruct (strrchr part2 _) as [[|i]|]; try (steps; by apply Hno). step. change (s_cc (upd_allocs tail st)) with (s_cc st).
  destruct (cc_nodes (s_cc st)) as [d|] eqn:Hd; [|apply triple_undefined; by destruct Hnodes as [[? ?]|]].
  assert (Hdd : node_dict st = d) by (unfold node_dict; by rewrite Hd).
  eapply triple_def; [reflexivity|].
  rewrite Hdd in Hq. eapply triple_run; [apply find_run, (hd_wf _ _ _ _ Hq)|].
  destruct (to_map d !! part2) as [p|] eqn:Em.
  { steps. split; [by apply (sound_mono (n + 1)); [apply (sound_after _ st)|lia]|]. split; [done|]. split.
    - intros p' [= <-]. change (node_dict (upd_allocs tail st)) with (node_dict st). rewrite Hdd. apply list_elem_of_fmap.
      exists (part2, p). split; [done|]. by apply (holds_map _ _ _ _ Hq).
    - by intros -> _. }
  eapply triple_bind; [apply (createNode_t U)|]. intros st1 [p|] Hst1; [|steps; by apply Hno].
  destruct Hst1 as [Hp [Hh1 [= Hn1 Ht1 Hf1]]]. assert (Hp1 : s_heap st1 !! p = Some zero_node) by (rewrite Hh1; apply lookup_insert_eq).
  cbn in Hp, Hh1. assert (Hgone : delete p (s_heap st1) = s_heap st) by (rewrite Hh1; by apply delete_insert_id).
  step. step.
  assert (Hfin : forall st', (exists nd, s_heap st' = <[p := nd]> (s_heap st)) -> core (s_cc st') = core (s_cc st) ->
    after (s_heap st) st (upd_heap (delete p) (upd_cc (redisClusterSetError REDIS_ERR_OOM (str "Out of memory")) st'))).
  { intros st' [nd Hh] Hc. split; [cbn; by rewrite Hh, delete_insert_id|exact Hc]. }
  assert (Hc1 : core (s_cc st1) = core (s_cc st)) by (unfold core; congruence).
  step; [|step; step; [|done]; steps; apply Hno, Hfin; [|done]; eexists; cbn; by rewrite Hh1, insert_insert_eq].
  step. step; [steps; apply Hno, Hfin; [|done]; eexists; cbn; by rewrite Hh1, insert_insert_eq|].
  step. match goal with |- triple _ (mbind _ (m_dictAdd _ _ _)) ?st' _ _ => set (st2 := st') end.
  set (nd := n_set_ident _ _ _ _ _ _) in st2. rewrite <- Hdd in Hq.
  assert (Hh2 : s_heap st2 = <[p := nd]> (s_heap st)) by (cbn; by rewrite Hh1, !insert_insert_eq).
  pose proof (holds_new st p nd qs Hq Hp) as Hq2. rewrite <- Hh2 in Hq2. pose proof (sd_room _ _ Hs) as Hroom.
  rewrite Hdd in Hq2, Hroom. rewrite sdsnewlen_all.
  eapply triple_bind; [by apply (enter_t U E d part2 p nd qs); [|lia|..]|]. intros st3 [d' ret] (Ha3 & Hsub & Hr).
  destruct Ha3 as [Hh3 [= Hn3 Ht3 Hf3]]. cbn in Hn3, Ht3, Hf3. step.
  destruct Hr as [(-> & Hq3 & Hu3 & Hin)|(-> & [qs3 Hq3] & Hu3)].
  - step; [done|]. steps. split; [apply (sound_dict (n + 1) n st _ d'); cbn; rewrite ?Hh3; try done; [congruence|congruence|lia|by rewrite Hdd]|].
    split; [cbn; congruence|]. split; [by intros ? [= <-]|by intros -> _].
  - step; [|done]. steps. split; [apply (sound_dict (n + 1) n st _ d'); cbn; rewrite ?Hh3; try done; [congruence|congruence| |lia|by rewrite Hdd]|].
    + exists qs3. by eapply holds_gone.
    + split; [cbn; congruence|]. split; [done|]. by intros _ [? ?].
Qed.

(** What keeps the MOVED branch defined. *)
Class Polite : Prop := {
  polite_slot w c w' r text : redisGetReply w c = (w', (r, Some (REDIS_REPLY_ERROR text))) ->
    cluster_reply_error_type (Some (REDIS_REPLY_ERROR text)) = Some CLUSTER_ERR_MOVED -> redirect_slot text < REDIS_CLUSTER_SLOTS;
  polite_append w c args : (redisAppendCommand w c args).2 = REDIS_OK;
  polite_write w c : (redisBufferWrite w c).2.1 ≠ REDIS_ERR
}.

(** An entry of the slot table that points to a node of the dict. *)
Lemma sound_set_table n st table slot p v : sound n st -> cc_table (s_cc st) = Some table -> slot < REDIS_CLUSTER_SLOTS ->
  p ∈ (dict_pairs (node_dict st)).*2 -> sound n (upd_cc (cc_set_route v (Some (<[slot := p]> table))) st).
Proof.
  intros Hs Ht Hsl Hp. pose proof (sd_table _ _ Hs table Ht) as [Hn Hi]. destruct Hs as [H1 H2 H3 H4].
  split; [done|done| |done]. intros t [= <-]. split; [done|]. intros i q. destruct (decide (slot = i)) as [<-|Hne].
  - rewrite lookup_insert_eq. by intros [= <-].
  - rewrite lookup_insert_ne by done. apply Hi.
Qed.

Section Steps.
Context (U : Prop) (HU : U \/ Polite).
Abbreviation X := (G (xstate W) x_label).

Definition x_with st s : xstate W := mkXstate st (xs_updating s).

Lemma triple_x {A B} (m : G (cstate W) x_label A) (k : A -> X B) s P E Q :
  triple U m (xs_st s) Q (fun _ _ => False) -> (forall st a, Q st a -> triple U (k a) (x_with st s) P E) ->
  triple U (x_lift m ≫= k) s P E.
Proof.
  unfold triple at 1 3. intros Hm Hk. unfold mbind, g_bind, x_lift. destruct (m (xs_st s)) as [st [a|l|]]; [by apply Hk|done|done].
Qed.

(** The invariant inside of the loop, and at its ends. *)
Definition x_sound n s : Prop := sound n (xs_st s) /\ has_table (xs_st s).
Definition x_left n : xstate W -> x_label -> Prop := fun s _ => sound n (xs_st s).

Lemma x_sound_after n s st : x_sound n s -> after (s_heap (xs_st s)) (xs_st s) st -> x_sound n (x_with st s).
Proof. intros [H1 H2] Ha. split; [by eapply sound_after|by eapply has_table_after]. Qed.

Lemma x_sound_touched n s st p : x_sound n s -> touched p (xs_st s) st -> x_sound n (x_with st s).
Proof.
  intros [H1 H2] Ht. split; [by eapply sound_touched|]. destruct Ht as (nd & nd' & _ & [_ [= _ Et _]] & _).
  unfold has_table in *. cbn. by rewrite Et.
Qed.

Lemma triple_xq {A B} (m : G (cstate W) x_label A) (k : A -> X B) n s P E : quiet U (fun _ _ => False) m -> x_sound n s ->
  (forall s' a, x_sound n s' -> triple U (k a) s' P E) -> triple U (x_lift m ≫= k) s P E.
Proof.
  intros Hm Hs Hk. eapply triple_x; [apply Hm|]. intros st a Ha. apply Hk. by eapply x_sound_after.
Qed.

(** The connection of a node; only an undefined end excuses a node that is gone. *)
Lemma ctx_get_x {B} (k : option conn -> X B) n s p P E : x_sound n s -> is_Some (s_heap (xs_st s) !! p) \/ U ->
  (forall s' c, x_sound n s' -> triple U (k c) s' P E) -> triple U (x_lift (ctx_get_by_node p) ≫= k) s P E.
Proof.
  intros Hs Hp Hk. destruct (s_heap (xs_st s) !! p) as [nd|] eqn:Ep.
  - eapply triple_x; [apply ctx_get_t; by exists nd|]. intros st c Ht. apply Hk. by apply (x_sound_touched n s st p).
  - destruct Hp as [[? ?]|HUt]; [done|]. unfold triple, mbind, g_bind, x_lift, ctx_get_by_node, mbind, g_bind, get_node.
    by rewrite Ep.
Qed.

Lemma q_world_get {A L} (f : W -> A) (E : cstate W -> L -> Prop) : quiet U E (world_get f).
Proof. done. Qed.
Lemma q_world_call {A L} (f : W -> W * A) (E : cstate W -> L -> Prop) : quiet U E (world_call f).
Proof. intros st. by step. Qed.
Lemma q_get_cc {L} (E : cstate W -> L -> Prop) : quiet U E get_cc.
Proof. done. Qed.
Lemma q_set_error {L} t m (E : cstate W -> L -> Prop) : quiet U E (set_error t m).
Proof. done. Qed.
Lemma q_set_retry {L} f g (E : cstate W -> L -> Prop) : quiet U E (mod_cc (fun cc => cc_set_retry (f cc) (g cc) cc)).
Proof. done. Qed.
Lemma q_mod_error {L} t m (E : cstate W -> L -> Prop) : quiet U E (mod_cc (cc_set_error t m)).
Proof. done. Qed.
Hint Resolve q_world_get q_world_call q_get_cc q_set_error q_set_retry q_mod_error
  q_ctx_error q_on_connect q_ssl_fails q_connect q_free_ret q_send_update q_by_table q_authenticate : keeps.

Ltac xq Hs := eapply triple_xq; [by auto with keeps|exact Hs|]; clear Hs; intros ? ? Hs.

Lemma x_conn_t n s p : x_sound n s -> is_Some (s_heap (xs_st s) !! p) \/ U ->
  triple U (x_conn p) s (fun s' _ => x_sound n s') (x_left n).
Proof.
  intros Hs Hp. unfold x_conn. eapply ctx_get_x; [done|done|]. clear s Hs Hp. intros s c Hs.
  step; [by destruct Hs|]. xq Hs. step; [|by steps]. xq Hs. steps. by destruct Hs.
Qed.

(** The node of a slot is live. *)
Lemma by_table_t {L} i n st (E : cstate W -> L -> Prop) : sound n st ->
  triple U (node_get_by_table i) st (fun st' o => after (s_heap st) st st' /\
    forall p, o = Some p -> has_table st' /\ is_Some (s_heap st' !! p)) E.
Proof.
  intros Hs. unfold node_get_by_table. steps; [done|]. destruct (cc_table _) as [t|] eqn:Et; [|by steps].
  destruct (t !! _) as [p|] eqn:Ep; [|by steps]. steps. split; [done|]. intros p' [= <-]. split; [by eexists|].
  apply (sound_root n); [done|]. destruct (sd_table _ _ Hs t Et) as [_ Hi]. by destruct (Hi _ _ Ep).
Qed.

Lemma x_update_t n s : 0 <= n <= 2 ^ 28 -> sound n (xs_st s) -> triple U (x_ok redisClusterUpdateSlotmap) s (fun s' _ => x_sound n s') (x_left n).
Proof.
  intros Hn Hs. unfold x_ok. eapply triple_x; [by apply (update_slotmap_t U _ n)|]. intros st r Hu.
  pose proof (updated_sound _ _ _ _ Hs Hu) as Hs'. steps; [exact Hs'|]. apply negb_false_iff, Z.eqb_eq in H0. subst r.
  destruct Hu as [(_ & H1 & H2)|[? _]]; [by split|done].
Qed.

(** After an update the slot's node, if it is served now. *)
Lemma x_node_t {B} i n s (k : loc -> X B) P : sound n (xs_st s) ->
  (forall s' p, x_sound n s' -> is_Some (s_heap (xs_st s') !! p) -> triple U (k p) s' P (x_left n)) ->
  triple U (x_lift (node_get_by_table i) ≫= (fun node => gsome x_error node ≫= k)) s P (x_left n).
Proof.
  intros Hs Hk. eapply triple_x; [by apply (by_table_t i n)|]. intros st o [Ha Ho]. pose proof (sound_after _ _ _ Hs Ha) as Hs'.
  step; [exact Hs'|]. subst o. destruct (Ho _ eq_refl). by apply Hk.
Qed.

Lemma x_get_conn_t i n s : 0 <= n <= 2 ^ 28 -> sound n (xs_st s) ->
  triple U (x_get_conn i) s (fun s' _ => x_sound n s') (x_left n).
Proof.
  intros Hn Hs. unfold x_get_conn. eapply triple_x; [by apply (by_table_t i n)|]. intros st o [Ha Ho].
  pose proof (sound_after _ _ _ Hs Ha) as Hs1.
  eapply triple_bind with (Q := fun s' p => x_sound n s' /\ is_Some (s_heap (xs_st s') !! p)).
  { destruct o as [p|]; [steps; destruct (Ho p eq_refl); split; [by split|done]|].
    eapply triple_bind; [by apply x_update_t|]. intros s2 [] [Hs2 _].
    eapply triple_mono; [|intros s' a Hx; exact Hx|intros s' l Hx; exact Hx].
    eapply triple_x; [by apply (by_table_t i n)|]. intros st3 o [Ha3 Ho3]. pose proof (sound_after _ _ _ Hs2 Ha3) as Hs3.
    destruct o as [p|]; [|exact Hs3]. destruct (Ho3 p eq_refl). split; [by split|done]. }
  clear s Hs st Ha Ho Hs1. intros s p [Hs Hp]. eapply ctx_get_x; [done|by left|]. clear s Hs Hp. intros s c Hs.
  eapply triple_bind with (Q := fun s' failed => x_sound n s').
  { destruct c as [c|]; [|by steps]. xq Hs. by steps. }
  clear s Hs. intros s [] Hs; [|by destruct c as [c|]; [|destruct Hs]].
  eapply triple_bind; [apply x_update_t; [done|by destruct Hs]|]. intros s2 [] [Hs2 _].
  apply (x_node_t i n); [done|]. intros s3 p3 H3 Hp3. apply x_conn_t; [done|by left].
Qed.

(** The request for a new slot map: a failure of it is what [Polite] rules out. *)
Lemma send_t {L} c st (E : cstate W -> L -> Prop) :
  triple U (clusterUpdateRouteSendCommand c) st (fun st' r => after (s_heap st) st st' /\ (r = REDIS_OK \/ U)) E.
Proof.
  unfold clusterUpdateRouteSendCommand. step. step. step.
  - steps. split; [done|]. right. destruct HU as [?|Hp]; [done|]. pose proof (polite_append (s_world st) c
      (if use_slots (s_cc st) then [str "CLUSTER"; str "SLOTS"] else [str "CLUSTER"; str "NODES"])) as Hr.
    rewrite H0 in Hr. cbn in Hr. subst a. done.
  - step. step; [|steps; by (split; [|left])]. steps. split; [done|]. right. destruct HU as [?|Hp]; [done|].
    match goal with Hc : redisBufferWrite ?w _ = _ |- _ => pose proof (polite_write w c) as Hw; rewrite Hc in Hw end. cbn in Hw. lia.
Qed.

Lemma x_send_t n c s p : x_sound n s -> is_Some (s_heap (xs_st s) !! p) ->
  triple U (x_send_update c) s (fun s' sent => x_sound n s' /\ is_Some (s_heap (xs_st s') !! p) /\ (sent = true \/ U)) (x_left n).
Proof.
  intros Hs Hp. unfold x_send_update. eapply triple_x; [apply send_t|]. intros st r [Ha Hr].
  pose proof (x_sound_after _ _ _ Hs Ha) as Hs'. rewrite <- (proj1 Ha) in Hp. step.
  - unfold x_set_updating. steps. split; [exact Hs'|]. split; [done|by left].
  - steps. split; [done|]. split; [done|]. destruct Hr as [-> |?]; [done|by right].
Qed.

Lemma x_set_table_t n s slot p : x_sound n s -> p ∈ (dict_pairs (node_dict (xs_st s))).*2 -> slot < REDIS_CLUSTER_SLOTS \/ U ->
  triple U (x_set_table slot p) s (fun s' _ => x_sound n s' /\ is_Some (s_heap (xs_st s') !! p)) (x_left n).
Proof.
  intros [Hs [table Ht]] Hp Hsl. pose proof (sound_root _ _ _ Hs Hp) as Hl. unfold x_set_table.
  apply triple_run with (s' := s) (a := s_cc (xs_st s)); [by destruct s|]. step; [|steps; split; [split; [done|by exists table]|done]].
  eapply triple_def; [exact Ht|]. step; [apply triple_undefined; destruct Hsl; [lia|done]|].
  eapply triple_run_last with (s' := x_with _ s) (a := ()); [reflexivity|]. split; [|done]. split; [|by eexists].
  apply (sound_set_table n (xs_st s) table); [done|done|lia|done].
Qed.

Lemma x_redirect_t n reply want s : 0 <= n -> x_sound (n + 1) s ->
  triple U (x_lift (getNodeFromRedirectReply reply want)) s (fun s' '(o, slot) => x_sound n s' /\
    (forall p, o = Some p -> p ∈ (dict_pairs (node_dict (xs_st s'))).*2) /\ (want = true -> is_Some o -> slot = redirect_slot reply)) (x_left n).
Proof.
  intros Hn [Hs Ht]. assert (Hd : is_Some (cc_nodes (s_cc (xs_st s)))) by (destruct Ht as [t Ht]; apply (sd_table _ _ Hs t Ht)).
  pose proof (redirect_t (L := x_label) U (fun _ _ => False) n reply want (xs_st s) Hn Hs (or_introl Hd)) as Hr.
  unfold triple, x_lift in *. destruct (getNodeFromRedirectReply reply want (xs_st s)) as [st [[o slot]|l|]]; [|done|done].
  destruct Hr as (H1 & H2 & H3 & H4). split; [split; [done|unfold has_table; cbn; by rewrite H2]|done].
Qed.

(** An attempt that goes on may have added a node. *)
Definition tried n s (next : x_next) : Prop := match next with X_done _ => x_sound (n + 1) s | _ => x_sound n s end.

Lemma x_moved_t n c reply s : 0 <= n <= 2 ^ 28 -> x_sound (n + 1) s -> redirect_slot reply < REDIS_CLUSTER_SLOTS \/ U ->
  triple U (x_moved c reply) s (tried n) (x_left n).
Proof.
  intros Hn Hs Hsl. unfold x_moved. eapply triple_bind; [apply x_redirect_t; [lia|done]|].
  clear s Hs. intros s [o slot] (Hs & Hroot & Hslot). step; [by destruct Hs|]. rename a into p. subst o.
  rewrite (Hslot eq_refl ltac:(done)). eapply triple_bind; [apply (x_set_table_t n); [done|by apply Hroot|done]|].
  clear s Hs Hroot. intros s [] [Hs Hp]. step.
  eapply triple_bind with (Q := fun s' (_ : ()) => x_sound n s' /\ (is_Some (s_heap (xs_st s') !! p) \/ U)).
  { destruct (xs_updating s); [steps; split; [done|by left]|]. eapply triple_bind; [by apply (x_send_t n c s p)|].
    intros s1 sent (Hs1 & Hp1 & Hsent). step; [steps; split; [done|by left]|]. destruct Hsent as [Hsent|HUt]; [done|].
    eapply triple_bind; [apply x_update_t; [done|by destruct Hs1]|]. intros s2 [] Hs2.
    eapply triple_run_last; [reflexivity|]. split; [|by right]. by apply (x_sound_after _ _ _ Hs2). }
  intros s1 [] [Hs1 Hp1]. eapply triple_bind; [by apply (x_conn_t n s1 p)|]. intros s2 c2 Hs2. by steps.
Qed.

Lemma x_ask_t n reply s : 0 <= n -> x_sound (n + 1) s ->
  triple U (x_ask reply) s (tried n) (x_left n).
Proof.
  intros Hn Hs. unfold x_ask. eapply triple_bind; [by apply x_redirect_t|].
  clear s Hs. intros s [o slot] (Hs & Hroot & _). step; [by destruct Hs|]. rename a into p. subst o.
  eapply triple_bind; [apply (x_conn_t n s p); [done|]|].
  { left. destruct Hs as [Hs _]. apply (sound_root n); [done|by apply Hroot]. }
  clear s Hs Hroot. intros s c Hs. xq Hs. destruct a as [r|]; [by steps|]. xq Hs. steps. by destruct Hs.
Qed.

Lemma x_count_t n s : x_sound n s -> triple U x_count_retry s (fun s' _ => x_sound n s') (x_left n).
Proof.
  intros Hs. unfold x_count_retry. xq Hs. cbv zeta. eapply triple_x with (Q := fun st _ => after (s_heap (xs_st s')) (xs_st s') st); [by step|].
  intros st [] Ha. pose proof (x_sound_after _ _ _ Hs Ha) as Hs1. step; [|by steps]. xq Hs1. steps. by destruct Hs1.
Qed.

Lemma x_sound_mono n n' s : x_sound n s -> n' <= n -> x_sound n' s.
Proof. intros [H1 H2] Hn. split; [by eapply sound_mono|done]. Qed.

Lemma x_try_t n command c s : 0 <= n <= 2 ^ 28 -> is_Some (cmd_bytes command) \/ U -> x_sound (n + 1) s ->
  triple U (x_try command c) s (tried n) (x_left n).
Proof.
  intros Hn Ht Hs. assert (Hend : forall s, x_sound (n + 1) s -> x_left n s x_error).
  { intros s' [Hs' _]. apply (sound_mono (n + 1)); [done|lia]. }
  unfold x_try. destruct (cmd_bytes command) as [text|] eqn:Et; [|destruct Ht as [[? ?]|HUt]; [done|by apply triple_undefined]].
  eapply triple_def; [reflexivity|]. xq Hs. step; [xq Hs; steps; by apply Hend|]. xq Hs. step.
  eapply triple_bind with (Q := fun s' (_ : ()) => x_sound (n + 1) s').
  { destruct (xs_updating s'0); [by steps|]. step; [|by steps]. unfold x_send_update. step. xq Hs.
    step; unfold x_set_updating; steps; exact Hs. }
  intros s1 [] Hs1. eapply triple_x with (Q := fun st rr => after (s_heap (xs_st s1)) (xs_st s1) st /\
    redisGetReply (s_world (xs_st s1)) c = (s_world st, rr)).
  { step. split; [done|]. cbn. exact H0. }
  intros st [r reply] [Ha Hget]. pose proof (x_sound_after _ _ _ Hs1 Ha) as Hs2. step.
  { xq Hs2. xq Hs2. step; [xq Hs2|]; steps; by apply Hend. }
  assert (Hmono : forall s, x_sound (n + 1) s -> x_sound n s) by (intros s2 H2; by apply (x_sound_mono (n + 1)); [|lia]).
  assert (Hcount : forall (k : X x_next), (forall s3, x_sound (n + 1) s3 -> triple U k s3 (tried n) (x_left n)) ->
    triple U (x_count_retry;; k) (x_with st s1) (tried n) (x_left n)).
  { intros k Hk. eapply triple_bind with (Q := fun s3 (_ : ()) => x_sound (n + 1) s3); [eapply triple_mono; [by apply (x_count_t (n + 1))|done|]|].
    - intros s3 l H3. apply (sound_mono (n + 1)); [exact H3|lia].
    - intros s3 [] H3. by apply Hk. }
  destruct (cluster_reply_error_type reply) as [[]|] eqn:Er; try (apply triple_ret; exact Hs2);
    try (apply Hcount; intros s3 H3; apply triple_ret; by apply Hmono); apply Hcount; intros s3 H3.
  - apply x_moved_t; [done|done|]. destruct HU as [?|Hp]; [by right|]. left.
    destruct reply as [[]|]; try done. cbn [reply_str]. by apply (polite_slot _ _ _ _ _ Hget).
  - apply x_ask_t; [lia|done].
Qed.

(** The retries that are left: each may add one node. *)
Definition budget st : Z := Z.max 0 (cc_max_retry_count (s_cc st) - cc_retry_count (s_cc st)).

Lemma budget_st st st' : settings st' = settings st -> budget st' = budget st.
Proof. unfold settings, cc_config, budget. intros [=]. congruence. Qed.
Lemma budget_settings s s' : x_settings s' = x_settings s -> budget (xs_st s') = budget (xs_st s).
Proof. apply budget_st. Qed.

Lemma x_loop_t m command : is_Some (cmd_bytes command) \/ U -> 1 <= m -> forall fuel at_ s,
  m + budget (xs_st s) <= 2 ^ 28 -> INT_MIN <= x_retries s < INT_MAX -> x_max s < INT_MAX ->
  sound (m + budget (xs_st s)) (xs_st s) -> (at_ ≠ None -> has_table (xs_st s)) ->
  triple U (x_loop fuel command at_) s (fun s' _ => sound (m + budget (xs_st s')) (xs_st s')) (x_left (m - 1)).
Proof.
  intros Hc Hm. assert (Hb : forall st, 0 <= budget st) by (intros; unfold budget; lia).
  assert (Hleft : forall n s l, m - 1 <= n -> x_left n s l -> x_left (m - 1) s l) by (intros n s' l ? ?; by apply (sound_mono n)).
  induction fuel as [|fuel IH]; intros at_ s Hf Hr Hx Hs Hat; cbn [x_loop].
  { steps. apply (sound_mono (m + budget (xs_st s))); [done|]. specialize (Hb (xs_st s)). lia. }
  set (n := m + budget (xs_st s)) in *. pose proof (Hb (xs_st s)).
  eapply triple_bind with (Q := fun s' _ => x_sound n s' /\ x_settings s' = x_settings s).
  { destruct at_ as [c|]; [steps; split; [split; [done|by apply Hat]|done]|].
    assert (Hl : leaves (x_get_conn (c_slot_num command)) s (fun s' _ => x_settings s' = x_settings s) (fun s' l => is_error l /\ x_settings s' = x_settings s)).
    { apply leaves_keeps. auto with keeps. }
    assert (Ht : triple U (x_get_conn (c_slot_num command)) s (fun s' _ => x_sound n s') (x_left n)) by (by apply x_get_conn_t; [lia|]).
    eapply triple_mono; [apply (triple_and _ _ _ _ _ _ _ Ht Hl)|done|]. intros s' l [Hl' _]. apply (Hleft n); [lia|done]. }
  intros s1 c [Hs1 Hset1]. pose proof (budget_settings _ _ Hset1) as Hb1. pose proof Hset1 as (Hr1 & Hm1 & _)%settings_counters.
  eapply triple_bind.
  { eapply triple_mono; [eapply triple_and; [apply (x_try_t (n - 1) command c s1); [lia|done|by replace (n - 1 + 1) with n by lia]|
      apply x_try_leaves; by rewrite Hr1]|intros s' a Hq; exact Hq|]. intros s' l [Hl' _]. apply (Hleft (n - 1)); [lia|done]. }
  intros s2 next [Htr Hprog].
  assert (Hgo : forall at2, x_sound (n - 1) s2 -> counted s1 s2 ->
    triple U (x_loop fuel command at2) s2 (fun s' _ => sound (m + budget (xs_st s')) (xs_st s')) (x_left (m - 1))).
  { intros at2 [H1 H2] (C1 & C2 & C3). pose proof (config_max _ _ C1) as Hmax.
    assert (budget (xs_st s2) = budget (xs_st s) - 1).
    { rewrite <- Hb1. unfold budget, x_retries, x_max in *. lia. }
    apply IH; [lia|lia|lia| |done]. apply (sound_mono (n - 1)); [done|lia]. }
  destruct Hprog as [Hcnt|[Hset2 Hdone]].
  - destruct next as [|c2|reply]; [by apply Hgo|by apply Hgo|]. steps. destruct Htr as [H1 _].
    replace (n - 1 + 1) with n in H1 by lia. apply (sound_mono n); [done|].
    destruct Hcnt as (C1 & C2 & C3). pose proof (config_max _ _ C1) as Hmax.
    unfold n. rewrite <- Hb1. unfold budget, x_retries, x_max in *. lia.
  - destruct next as [|c2|reply]; [done|done|]. steps. destruct Htr as [H1 _]. replace (n - 1 + 1) with n in H1 by lia.
    rewrite (budget_settings _ _ Hset2), Hb1. exact H1.
Qed.

Lemma x_finish_t {L} n updating reply st (E : cstate W -> L -> Prop) : 0 <= n <= 2 ^ 28 -> sound n st ->
  triple U (x_finish updating reply) st (fun st' r => sound n st' /\ settings st' = settings st /\ (reply = None -> r = None)) E.
Proof.
  intros Hn Hs. assert (Ht : triple U (x_finish updating reply) st (fun st' r => sound n st' /\ (reply = None -> r = None)) E).
  { unfold x_finish. destruct updating as [c|]; [|by steps].
    eapply triple_bind; [by apply (handle_reply_t U _ n)|]. intros st1 r Hu. pose proof (updated_sound _ _ _ _ Hs Hu) as Hs1.
    step; [|by steps]. step. eapply triple_bind; [apply (update_slotmap_t U _ n); [done|by apply (sound_after _ st1)]|].
    intros st2 r2 Hu2. steps. split; [|intros ->; by destruct (r2 =? REDIS_OK)].
    apply (updated_sound _ (upd_cc (cc_set_error 0 []) st1) _ r2); [by apply (sound_after _ st1)|done]. }
  eapply triple_mono; [eapply triple_and; [exact Ht|apply (leaves_keeps settings (fun _ => True)), (k_x_finish settings)]| |by intros ? ? [? _]].
  by intros st' r [[H1 H2] H3].
Qed.
End Steps.

(** ** The whole function *)
Definition retries st : Z := cc_retry_count (s_cc st).
Definition max_retries st : Z := cc_max_retry_count (s_cc st).

(** What is left of the room for nodes, and how far the retries have gone. *)
Definition executed m st st' (reply : option redisReply) : Prop :=
  cc_config (s_cc st') = cc_config (s_cc st) /\ sound (m - 1) st' /\
  retries st <= retries st' <= Z.max (retries st) (max_retries st) + 1 /\
  (reply ≠ None -> sound (m + budget st') st' /\ retries st' <= Z.max (retries st) (max_retries st)).

Lemma settings_kept st st' : settings st' = settings st ->
  cc_config (s_cc st') = cc_config (s_cc st) /\ retries st' = retries st /\ budget st' = budget st.
Proof.
  intros Hs. split; [exact (f_equal (fun x => x.1.1) Hs)|]. split; [exact (f_equal (fun x => x.1.2) Hs)|by apply budget_st].
Qed.

Lemma execute_t {L} (U : Prop) (E : cstate W -> L -> Prop) m command st : U \/ Polite -> is_Some (cmd_bytes command) \/ U -> 1 <= m ->
  m + budget st <= 2 ^ 28 -> sound (m + budget st) st ->
  INT_MIN <= retries st < INT_MAX -> max_retries st < INT_MAX ->
  triple U (redis_cluster_command_execute command) st (executed m st) E.
Proof.
  intros HU Hc Hm Hb Hs Hr Hx. unfold redis_cluster_command_execute.
  assert (Hb0 : forall st, 0 <= budget st) by (intros; unfold budget; lia).
  pose proof (x_loop_t U HU m command Hc Hm (x_fuel_of (s_cc st)) None (mkXstate st None) Hb Hr Hx Hs ltac:(done)) as Ht.
  pose proof (x_loop_leaves command (x_fuel_of (s_cc st)) None (mkXstate st None)) as Hl. unfold x_retries, x_max in Hl. cbn [xs_st] in Hl.
  specialize (Hl Hr Hx). unfold x_fuel_of in Hl at 1 2. specialize (Hl ltac:(lia) ltac:(lia)).
  unfold triple, leaves in Ht, Hl. unfold triple. destruct (x_loop _ command None (mkXstate st None)) as [s' [reply|l|]]; [| |done].
  - destruct Hl as [Hcfg Hrt]. pose proof (config_max _ _ Hcfg) as Hmax. unfold x_config, x_retries, x_max in *. cbn [xs_st] in *.
    assert (Hle : m + budget (xs_st s') <= m + budget st) by (unfold budget; lia). pose proof (Hb0 (xs_st s')).
    change (triple U (x_finish (xs_updating s') reply) (xs_st s') (executed m st) E).
    eapply triple_mono; [apply (x_finish_t U (m + budget (xs_st s'))); [lia|done]| |done].
    intros st' r (H1 & (H2 & H3 & H4)%settings_kept & _). unfold executed, retries, max_retries in *. rewrite H2, H3, H4.
    split; [done|]. split; [apply (sound_mono _ _ _ H1); lia|]. split; [lia|]. split; [done|lia].
  - destruct Hl as (-> & Hcfg & Hrt). unfold x_config, x_retries, x_max in *. cbn [xs_st] in *. pose proof (Hb0 st).
    change (triple U (x_finish (xs_updating s') None) (xs_st s') (executed m st) E).
    eapply triple_mono; [apply (x_finish_t U (m - 1)); [lia|done]| |done].
    intros st' r (H1 & (H2 & H3 & _)%settings_kept & H4). unfold executed, retries, max_retries in *. rewrite H2, H3.
    split; [done|]. split; [done|]. split; [lia|]. intros Hn. by destruct Hn, H4.
Qed.
End Exec.


(** ** Witness *)

(** The cluster of the examples with redirections to slots only. *)
Definition sends_politely (r : redisReply) : bool :=
  fits r && match r with
            | REDIS_REPLY_ERROR text =>
                negb (bool_decide (cluster_reply_error_type (Some r) = Some CLUSTER_ERR_MOVED)) || (redirect_slot text <? REDIS_CLUSTER_SLOTS)
            | _ => true
            end.

Lemma scripted_polite : Polite (H := scripted sends_politely).
Proof.
  split; [|done|].
  - intros w c w' r text. cbn. destruct w as [|r' w1]; [done|]. destruct (sends_politely r') eqn:E; [|done].
    intros [= <- <- ->] He. unfold sends_politely in E. rewrite (bool_decide_eq_true_2 _ He) in E. cbn in E. lia.
  - intros w c. done.
Qed.

Lemma scripted_fits : ReplyBounds (H := scripted sends_politely).
Proof. apply scripted_bounds. intros r E. unfold sends_politely in E. by destruct (fits r). Qed.

