(* ===== verification/Session.v ===== *)
(** * Sessions with the synchronous client

    A session is a list of calls of the public functions, with any arguments.  Whatever
    the cluster answers and whichever allocations fail, the context is sound after every
    call that ends, and [redisClusterFree] at the end leaves the heap empty.  The calls
    that only manage the context never end undefined. *)
From S2P Require Import Prelude Hiutil Crc16 Dict Goto Hiredis Cmddef Command Context Sds Fragment Nodes Topology Route Options Execute.
From S2P Require Import NodeProps Ownership TopoProps Script SlotMap OptionProps Frame Client Pipeline Triple Memory Safety Sound SoundExec.

(** ** Splitting and merging leave the nodes and the settings alone *)
Section Format.
Context {W : Type} `{HiredisOps W} {sds : SdsOps}.
Implicit Types (st : cstate W).

Definition whole st := (s_heap st, s_world st, core (s_cc st), settings st).
#[local] Abbreviation FK := (keeps (fun s : fstate W => whole (fs_st s)) (fun _ => True)).

Lemma k_f_lift {A} (m : G (cstate W) frag_label A) : keeps whole (fun _ => True) m -> FK (f_lift m).
Proof. intros Hm s. unfold f_lift. specialize (Hm (fs_st s)). by destruct (m (fs_st s)) as [st [a|l|]]. Qed.

Lemma w_alloc {L} (lab : L -> Prop) : keeps whole lab (alloc (W := W)).
Proof. done. Qed.
Lemma w_set_error {L} (lab : L -> Prop) t m : keeps whole lab (set_error (W := W) t m).
Proof. done. Qed.
Lemma w_alloc_or {L} (lab : L -> Prop) l : lab l -> keeps whole lab (alloc_or (W := W) l).
Proof. intros Hl. unfold alloc_or. apply keeps_bind; [done|]. intros. by apply keeps_when. Qed.
Lemma w_command_get {L} (lab : L -> Prop) : keeps whole lab (m_command_get (W := W)).
Proof.
  unfold m_command_get. apply keeps_bind; [done|]. intros a. apply keeps_bind; [by destruct a|]. intros b.
  apply keeps_bind; [by destruct b|]. intros c. apply keeps_bind; [done|]. intros s. destruct (command_get _ _ _ _). by keeps_tac.
Qed.
Hint Resolve w_alloc w_set_error w_command_get : keeps.

#[local] Ltac f_tac := intros; cbn zeta; repeat (lazymatch goal with
  | |- keeps _ _ (f_lift (alloc_or _)) => apply k_f_lift, w_alloc_or; exact I
  | |- keeps _ _ (f_lift _) => apply k_f_lift
  | _ => keeps_step end; cbn zeta).

Lemma f_itoa_k n : FK (f_itoa n).
Proof. unfold f_itoa, f_set_num_str. f_tac. Qed.
Lemma f_get_sub_k n : FK (f_get_sub n).
Proof. unfold f_get_sub, f_command_get, f_set_sub. f_tac. Qed.
Lemma f_put_k out src : FK (f_put out src).
Proof. unfold f_put. f_tac. Qed.
Hint Resolve f_itoa_k f_get_sub_k f_put_k : keeps.
Lemma f_fill_key_k buf i : FK (f_fill_key buf i).
Proof. unfold f_fill_key, f_set_slot_num, f_set_command, f_set_sub. f_tac. Qed.
Lemma f_fill_k fuel buf : forall i, FK (f_fill fuel buf i).
Proof. induction fuel as [|fuel IH]; intros i; cbn [f_fill]; [done|]. apply keeps_bind; [apply f_fill_key_k|]. intros. apply IH. Qed.
Lemma f_put_key_k mset buf keys j out : FK (f_put_key mset buf keys j out).
Proof. unfold f_put_key. f_tac. Qed.
Lemma f_put_keys_k fuel mset buf keys : forall j out, FK (f_put_keys fuel mset buf keys j out).
Proof. induction fuel as [|fuel IH]; intros j out; cbn [f_put_keys]; [done|]. apply keeps_bind; [apply f_put_key_k|]. intros. apply IH. Qed.
Hint Resolve f_put_keys_k : keeps.
Lemma f_build_k buf sub : FK (f_build buf sub).
Proof. unfold f_build. f_tac. Qed.
Hint Resolve f_build_k : keeps.
Lemma f_emit_k buf i : FK (f_emit buf i).
Proof. unfold f_emit, f_set_sub, f_set_commands. f_tac. Qed.
Lemma f_emit_all_k buf slots : FK (f_emit_all buf slots).
Proof. induction slots as [|i slots IH]; cbn [f_emit_all]; [done|]. apply keeps_bind; [apply f_emit_k|]. by intros. Qed.
Lemma f_body_k : FK f_body.
Proof. unfold f_body, f_set_command. f_tac; [apply f_fill_k|apply f_emit_all_k]. Qed.

Lemma pre_fragment_k num_str command commands st st' i c cs :
  command_pre_fragment num_str command commands st = Some (st', i, c, cs) -> whole st' = whole st.
Proof.
  unfold command_pre_fragment. pose proof (f_body_k (mkFstate st command commands ∅ num_str (-1))) as Hk.
  destruct (f_body _) as [s [a|[]|]]; [| | |done].
  - cbn zeta. destruct (_ && _); by intros [= <- _ _ _].
  - destruct Hk as [_ Hk]. by intros [= <- _ _ _].
  - destruct Hk as [_ Hk]. cbn zeta. destruct (_ && _); by intros [= <- _ _ _].
Qed.

Lemma format_k {L} (lab : L -> Prop) realloc_ok errstr_ok num_str command :
  keeps whole lab (m_format_by_slot (W := W) realloc_ok errstr_ok num_str command).
Proof.
  intros st. unfold m_format_by_slot. destruct (command_format_by_slot _ _ _ _ _ _) as [[[[st' i] c] cs]|] eqn:E; [|done].
  unfold command_format_by_slot in E. cbn zeta in E. destruct (c_cmd command) as [buf|]; [|by injection E as <- _ _ _].
  destruct (_ <=? 0); [by injection E as <- _ _ _|]. apply bind_Some in E as (command' & _ & E).
  destruct (c_result command'); try by injection E as <- _ _ _.
  destruct (_ <=? 0); [by injection E as <- _ _ _|]. destruct (_ =? 1).
  - apply bind_Some in E as (kp & _ & E). apply bind_Some in E as (key & _ & E). by injection E as <- _ _ _.
  - by apply pre_fragment_k in E.
Qed.

Lemma post_fragment_k {L} (lab : L -> Prop) command commands : keeps whole lab (m_post_fragment (W := W) command commands).
Proof.
  unfold m_post_fragment. apply keeps_bind; [|done]. apply keeps_catch with (lab' := fun _ => True); [|intros []].
  unfold command_post_fragment. keeps_tac.
Qed.

(** Such a function in a triple that allows undefined ends. *)
Lemma whole_t {L A} (m : G (cstate W) L A) st (E : cstate W -> L -> Prop) : keeps whole (fun _ => False) m ->
  triple True m st (fun st' _ => after (s_heap st) st st' /\ settings st' = settings st) E.
Proof.
  intros Hm. unfold triple. specialize (Hm st). destruct (m st) as [st' [a|l|]]; [| |done].
  - injection Hm as Hh _ Hn Ht Hf Hs1 Hs2. split; [by split; [|unfold core; congruence]|]. unfold settings, cc_config. congruence.
  - by destruct Hm.
Qed.
End Format.

(** ** The state between calls *)
Section Ready.
Context {W : Type} `{HiredisOps W} {sds : SdsOps} {slaws : SdsLaws sds} {bounds : ReplyBounds (W := W)}.
Implicit Types (st : cstate W).
(** The highest retry limit the user sets. *)
Context (R : Z) (HR : 0 <= R <= 2 ^ 20).

(** [ready n slots st]: sound with room for [n] nodes, with a retry counter within the limit;
    [slots] tells that CLUSTER SLOTS is in use. *)
Record ready (n : Z) (slots : bool) st : Prop := {
  rd_sound : sound n st;
  rd_retries : 0 <= retries st <= R;
  rd_max : 0 <= max_retries st <= R;
  rd_slots : slots = true -> use_slots (s_cc st) = true
}.

Lemma ready_mono n n' b st : ready n b st -> n' <= n -> ready n' b st.
Proof. intros [H1 H2 H3 H4] Hn. split; [by apply (sound_mono n)|done..]. Qed.

Definition marks (cc : redisClusterContext) := (cc_flags cc, cc_max_retry_count cc, cc_retry_count cc).

Lemma ready_kept n n' b st st' : ready n b st -> sound n' st' -> marks (s_cc st') = marks (s_cc st) -> ready n' b st'.
Proof.
  intros [H1 H2 H3 H4] Hs [= Hf Hm Hr]. unfold retries, max_retries, use_slots in *.
  split; unfold retries, max_retries, use_slots; rewrite ?Hf, ?Hm, ?Hr; done.
Qed.

Lemma settings_marks st st' : settings st' = settings st -> marks (s_cc st') = marks (s_cc st).
Proof. unfold settings, cc_config, marks. intros [=]. congruence. Qed.

(** A call that keeps the settings. *)
Lemma ready_call {L A} (U : Prop) (m : G (cstate W) L A) n n' b st (E : cstate W -> L -> Prop) :
  ready n b st -> triple U m st (fun st' _ => sound n' st') E -> keeps settings (fun _ => True) m ->
  triple U m st (fun st' _ => ready n' b st') E.
Proof.
  intros Hr Ht Hk. eapply triple_mono; [eapply triple_and; [exact Ht|exact (leaves_keeps _ _ _ st Hk)]| |by intros ? ? [? _]].
  intros st' a [Hs He]. apply (ready_kept n n' b st); [done|done|by apply settings_marks].
Qed.

Lemma triple_last {L A B} (U : Prop) (m : G (cstate W) L A) (k : A -> B) st (P : cstate W -> Prop) (E : cstate W -> L -> Prop) :
  triple U m st (fun st' _ => P st') E -> triple U (m ≫= (fun a => mret (k a))) st (fun st' _ => P st') E.
Proof. intros Ht. eapply triple_bind; [exact Ht|]. by intros. Qed.

(** An assignment to fields that the invariant does not speak of. *)
Lemma sound_upd n g st : core (g (s_cc st)) = core (s_cc st) -> sound n st -> sound n (upd_cc g st).
Proof. intros Hc Hs. by apply (sound_after _ st). Qed.

Lemma ready_upd n b g st : core (g (s_cc st)) = core (s_cc st) -> marks (g (s_cc st)) = marks (s_cc st) ->
  ready n b st -> ready n b (upd_cc g st).
Proof. intros Hc Hm Hr. apply (ready_kept n n b st); [done|by apply sound_upd, Hr|done]. Qed.

Lemma ready_allocs n b st : ready n b st -> ready n b (upd_allocs tail st).
Proof. intros Hr. apply (ready_kept n n b st); [done|by apply (sound_after _ st); [apply Hr|]|done]. Qed.

Section Calls.
Context {L : Type} (U : Prop) (E : cstate W -> L -> Prop).

Lemma add_node_ready addr n b st : 0 <= n -> ready (n + 1) b st ->
  triple U (redisClusterSetOptionAddNode addr) st (fun st' _ => ready n b st') E.
Proof.
  intros Hn Hr. apply (ready_call U _ (n + 1)); [done|by apply add_node_t, Hr|].
  unfold redisClusterSetOptionAddNode, add_node_body. apply keeps_catch with (lab' := fun _ => True).
  - keeps_tac.
  - keeps_tac.
Qed.

Lemma add_nodes_ready addrs : forall n b st, 0 <= n -> ready (n + Z.of_nat (length addrs)) b st ->
  triple U (add_nodes_loop addrs) st (fun st' _ => ready n b st') E.
Proof.
  induction addrs as [|a addrs IH]; intros n b st Hn Hr; cbn [add_nodes_loop length] in *.
  { steps. by replace n with (n + Z.of_nat 0) by lia. }
  eapply triple_bind; [apply (add_node_ready a (n + Z.of_nat (length addrs)) b); [lia|]|].
  { by replace (n + Z.of_nat (length addrs) + 1) with (n + Z.of_nat (S (length addrs))) by lia. }
  intros st1 ret Hr1. step; [steps; by apply (ready_mono _ n _ _ Hr1); lia|]. by apply IH.
Qed.

Lemma update_ready n b st : 0 <= n <= 2 ^ 28 -> ready n b st ->
  triple U redisClusterUpdateSlotmap st (fun st' _ => ready n b st') E.
Proof.
  intros Hn Hr. apply (ready_call U _ n); [done| |apply (k_update_slotmap settings)].
  eapply triple_mono; [by apply update_slotmap_t, Hr| |done]. intros st' r Hu. eapply updated_sound; [apply Hr|exact Hu].
Qed.

(** The flags; slaves are asked for with CLUSTER SLOTS only. *)
Lemma set_flag_ready f n b st : ready n b st -> (flag_set f HIRCLUSTER_FLAG_ADD_SLAVE = true -> b = true) ->
  triple U (set_flag f) st (fun st' _ => ready n (b || flag_set f HIRCLUSTER_FLAG_ROUTE_USE_SLOTS) st') E.
Proof.
  intros [[H1 H2 H3 H4] H5 H6 H7] Hf. unfold set_flag. steps. split; [|done|done|].
  - split; [done|done|done|]. unfold use_slots in *. cbn. rewrite !flag_set_lor.
    destruct (flag_set f HIRCLUSTER_FLAG_ADD_SLAVE); [left; by rewrite H7 by auto|]. destruct H4 as [-> | ->]; [by left|by right].
  - unfold use_slots in *. cbn. rewrite flag_set_lor. destruct b; cbn; [by rewrite H7|]. intros ->. by rewrite orb_true_r.
Qed.

(** The timeouts of the connections of live nodes. *)
Definition same_cc st st' : Prop := s_heap st' = s_heap st /\ s_cc st' = s_cc st.

Lemma node_timeout_t tv p st : is_Some (s_heap st !! p) -> triple U (set_node_timeout tv p) st (fun st' _ => same_cc st st') E.
Proof.
  intros [nd Hp]. unfold set_node_timeout. step. destruct (n_acon nd), (n_con nd); by steps.
Qed.

Lemma nodes_timeout_t tv ps : forall st, (forall p, p ∈ ps -> is_Some (s_heap st !! p)) ->
  triple U (set_nodes_timeout tv ps) st (fun st' _ => same_cc st st') E.
Proof.
  induction ps as [|p ps IH]; intros st Hp; cbn [set_nodes_timeout]; [by steps|].
  eapply triple_bind; [apply node_timeout_t, Hp; left|]. intros st1 [] Ha.
  eapply triple_mono; [apply IH; intros q Hq; rewrite (proj1 Ha); apply Hp; by right| |done].
  intros st2 [] Ha2. destruct Ha, Ha2. split; congruence.
Qed.

Lemma masters_timeout_t tv es n : forall st, sound n st -> (forall k p, (k, p) ∈ es -> is_Some (s_heap st !! p)) ->
  triple U (set_masters_timeout tv es) st (fun st' _ => same_cc st st') E.
Proof.
  induction es as [|[k p] es IH]; intros st Hs He; cbn [set_masters_timeout]; [by steps|].
  assert (Hp : is_Some (s_heap st !! p)) by (apply (He k); left). pose proof Hp as [nd Hnd].
  eapply triple_bind; [by apply node_timeout_t|]. intros st1 [] Ha. pose proof Hnd as Hnd1. rewrite <- (proj1 Ha) in Hnd1. step.
  eapply triple_bind with (Q := fun st2 _ => same_cc st st2).
  { destruct (n_slaves nd) as [l|] eqn:El; [|by steps]. eapply triple_mono; [apply nodes_timeout_t| |done].
    - intros q Hq. rewrite (proj1 Ha). destruct (sound_live _ _ _ _ Hs Hnd) as (qs & Hh & Hin). by apply (holds_slaves _ _ _ _ Hh p nd l).
    - intros st2 [] Ha2. destruct Ha, Ha2. split; congruence. }
  intros st2 [] Ha2. eapply triple_mono; [apply IH; [apply (sound_after _ st); [done|split; [apply Ha2|by rewrite (proj2 Ha2)]]|]| |done].
  - intros k' q Hq. rewrite (proj1 Ha2). apply (He k'). by right.
  - intros st3 [] Ha3. destruct Ha2, Ha3. split; congruence.
Qed.

Lemma timeout_ready tv n b st : ready n b st -> triple U (redisClusterSetOptionTimeout tv) st (fun st' _ => ready n b st') E.
Proof.
  intros Hr. unfold redisClusterSetOptionTimeout. step. step; [by steps|].
  eapply triple_bind with (Q := fun st1 _ => ready n b st1 /\ s_cc st1 = s_cc st).
  { destruct (cc_command_timeout _); steps; [by split|]. split; [by apply ready_allocs|done]. }
  intros st1 ok [Hr1 Hcc]. step; [steps; by apply ready_upd|]. step.
  assert (Hr2 : ready n b (upd_cc (fun cc => cc_set_timeouts (cc_connect_timeout cc) (Some tv) cc) st1)) by (by apply ready_upd).
  eapply triple_bind with (Q := fun st' _ => ready n b st'); [|by intros; steps].
  rewrite <- Hcc. destruct (cc_nodes (s_cc st1)) as [nodes|] eqn:En; [|by steps].
  pose proof (sd_holds _ _ (rd_sound _ _ _ Hr2)) as [qs Hq]. unfold node_dict in Hq. cbn in Hq. rewrite En in Hq. cbn in Hq.
  eapply triple_def; [apply (dict_entries_ok _ nodes (hd_wf _ _ _ _ Hq))|].
  eapply triple_mono; [apply (masters_timeout_t tv _ n); [apply Hr2|]| |done].
  - intros k p Hin. apply (holds_in _ _ _ _ Hq). by apply (holds_root _ _ _ _ Hq k).
  - intros st' [] [Hh Hc]. apply (ready_kept n n b _ _ Hr2); [|by rewrite Hc].
    apply (sound_after _ _ _ (rd_sound _ _ _ Hr2)). split; [done|by rewrite Hc].
Qed.

Lemma auth_ready n b (name : option bytes) (user : bool) st : ready n b st ->
  triple U (if user then redisClusterSetOptionUsername name else redisClusterSetOptionPassword name) st (fun st' _ => ready n b st') E.
Proof.
  intros Hr. destruct user; unfold redisClusterSetOptionUsername, redisClusterSetOptionPassword; steps;
    apply ready_upd; try done; by apply ready_allocs.
Qed.

Lemma connect_timeout_ready tv n b st : ready n b st -> triple U (redisClusterSetOptionConnectTimeout tv) st (fun st' _ => ready n b st') E.
Proof.
  intros Hr. unfold redisClusterSetOptionConnectTimeout. step.
  eapply triple_bind with (Q := fun st' _ => ready n b st').
  { destruct (cc_connect_timeout _); steps; [done|by apply ready_allocs]. }
  intros st' ok Hr'. steps; by apply ready_upd.
Qed.

Lemma max_retry_ready k n b st : k <= R -> ready n b st -> triple U (redisClusterSetOptionMaxRetry k) st (fun st' _ => ready n b st') E.
Proof.
  intros Hk [H1 H2 H3 H4]. unfold redisClusterSetOptionMaxRetry. steps; [done|]. split; [by apply (sound_after _ st)|done| |done].
  unfold max_retries. cbn. lia.
Qed.

Lemma connect_callback_ready n b st : ready n b st -> triple U redisClusterSetConnectCallback st (fun st' _ => ready n b st') E.
Proof. intros Hr. unfold redisClusterSetConnectCallback. steps; [done|]. by apply ready_upd. Qed.
Lemma event_callback_ready n b st : ready n b st -> triple U redisClusterSetEventCallback st (fun st' _ => ready n b st') E.
Proof. intros Hr. unfold redisClusterSetEventCallback. steps; [done|]. by apply ready_upd. Qed.

Lemma connect2_ready n b st : 0 <= n <= 2 ^ 28 -> ready n b st -> triple U redisClusterConnect2 st (fun st' _ => ready n b st') E.
Proof.
  intros Hn [H1 H2 H3 H4]. unfold redisClusterConnect2, clusterConnect2. step.
  assert (Hflag : forall f c, Z.land (Z.lnot HIRCLUSTER_FLAG_SHUTDOWN) c = c ->
    flag_set (Z.land f (Z.lnot HIRCLUSTER_FLAG_SHUTDOWN)) c = flag_set f c).
  { intros f c Hc. unfold flag_set. by rewrite <- Z.land_assoc, Hc. }
  set (st1 := upd_cc _ st). assert (Hr : ready n b st1).
  { split; [|done|done|]; [|unfold use_slots; cbn; by rewrite Hflag]. destruct H1 as [G1 G2 G3 G4].
    split; [done|done|done|]. unfold use_slots in *. cbn. by rewrite !Hflag. }
  step. destruct (cc_nodes (s_cc st1)) as [nodes|]; [|steps; by apply ready_upd]. step; [steps; by apply ready_upd|]. by apply update_ready.
Qed.
End Calls.

(** ** Commands

    What they may do beyond the model (an overflow while splitting, for one) is undefined
    there; the invariant holds where they end. *)
Section Commands.
Context {L : Type} (E : cstate W -> L -> Prop).

Lemma ready_still n b st st' : ready n b st -> after (s_heap st) st st' -> settings st' = settings st -> ready n b st'.
Proof. intros Hr Ha Hs. apply (ready_kept n n b st); [done|by eapply sound_after; [apply Hr|]|by apply settings_marks]. Qed.

Lemma whole_ready {A} (m : G (cstate W) L A) n b st : keeps whole (fun _ => False) m -> ready n b st ->
  triple True m st (fun st' _ => ready n b st') E.
Proof. intros Hm Hr. eapply triple_mono; [by apply whole_t| |done]. intros st' a [Ha Hs]. by eapply ready_still. Qed.

(** The room of a command: one node for each of its retries, and one. *)
Definition room st : Z := 1 + budget st.

Lemma budget_ready n b st : ready n b st -> 0 <= budget st <= R.
Proof. intros [_ H2 H3 _]. unfold budget, retries, max_retries in *. lia. Qed.

(** While a command executes the counter can pass the limit by one. *)
Record busy (m : Z) b st : Prop := {
  bs_sound : sound m st;
  bs_retries : 0 <= retries st <= R + 1;
  bs_max : 0 <= max_retries st <= R;
  bs_slots : b = true -> use_slots (s_cc st) = true
}.

Lemma busy_reset m b st : busy m b st -> triple True (reset_retry (L := L)) st (fun st' _ => ready m b st') E.
Proof.
  intros [H1 H2 H3 H4]. unfold reset_retry. steps. split; [by apply (sound_after _ st)|unfold retries; cbn; lia|done|done].
Qed.

Lemma reset_ret {A} (a : A) m b st : busy m b st -> triple True (reset_retry (L := L);; mret a) st (fun st' _ => ready m b st') E.
Proof. intros Hb. eapply triple_bind; [by apply busy_reset|]. by intros. Qed.

Lemma ready_busy m m' b st : ready m b st -> m' <= m -> busy m' b st.
Proof. intros [H1 H2 H3 H4] Hm. split; [by apply (sound_mono m)|lia|done|done]. Qed.

Lemma execute_ready m command b st : 1 <= m <= 2 ^ 27 -> ready (m + budget st) b st ->
  triple True (redis_cluster_command_execute command) st (fun st' reply => busy (m - 1) b st' /\
    (reply ≠ None -> ready (m + budget st') b st')) E.
Proof.
  intros Hm Hr. pose proof (budget_ready _ _ _ Hr) as Hb. pose proof Hr as [H1 H2 H3 H4].
  eapply triple_mono; [apply (execute_t True E m command st); [by left|by right|lia|lia|done| |]| |done].
  - unfold INT_MIN, INT_MAX. lia.
  - unfold INT_MAX. lia.
  - intros st' reply (Hc & Hs & Hrt & Hok). assert (Hmax : max_retries st' = max_retries st /\ cc_flags (s_cc st') = cc_flags (s_cc st)).
    { unfold cc_config in Hc. injection Hc as Hf _ _ Hm' _. by split. }
    destruct Hmax as [Hmax Hfl]. split; [split; [done|lia|by rewrite Hmax|unfold use_slots in *; by rewrite Hfl]|].
    intros Hn. destruct (Hok Hn) as [Hs' Hle]. split; [done|lia|by rewrite Hmax|unfold use_slots in *; by rewrite Hfl].
Qed.

Lemma execute_subs_ready m b subs : 1 <= m <= 2 ^ 27 -> forall done_ st, ready (m + budget st) b st ->
  triple True (execute_subs subs done_) st (fun st' _ => busy (m - 1) b st') E.
Proof.
  intros Hm. induction subs as [|sub subs IH]; intros done_ st Hr; cbn [execute_subs].
  { steps. pose proof (budget_ready _ _ _ Hr). eapply ready_busy; [done|lia]. }
  eapply triple_bind; [by apply (execute_ready m)|]. intros st1 reply [Hb Hr1].
  destruct reply as [[]|]; try (by steps); apply IH; by apply Hr1.
Qed.

Lemma formatted_ready realloc_ok errstr_ok num_str text len n b st : 0 <= n <= 2 ^ 26 -> ready (n + 1 + R) b st ->
  triple True (redisClusterFormattedCommand realloc_ok errstr_ok num_str text len) st (fun st' _ => ready n b st') E.
Proof.
  intros Hn Hr. unfold redisClusterFormattedCommand. step.
  eapply triple_bind with (Q := fun st' _ => ready (n + 1 + R) b st'). { unfold clear_error. steps; [by apply ready_upd|done]. }
  clear st Hr. intros st [] Hr. eapply triple_bind; [apply (whole_ready _ (n + 1 + R) b); [apply w_command_get|done]|].
  clear st Hr. intros st command Hr.
  assert (Hend : forall A st (a : A), ready (n + 1 + R) b st -> triple True (reset_retry (L := L);; mret a) st (fun st' _ => ready n b st') E).
  { intros A st' a Hr'. apply reset_ret. eapply ready_busy; [done|lia]. }
  destruct command as [command|]; [|step; apply Hend; by apply ready_upd]. step. step; [step; apply Hend, ready_upd; [done|done|by apply ready_allocs]|].
  eapply triple_bind; [apply (whole_ready _ (n + 1 + R) b); [apply format_k|by apply ready_allocs]|]. clear st Hr. intros st [[slot_num c] commands] Hr.
  step; [by apply Hend|]. step; [step; by apply Hend, ready_upd|].
  pose proof (budget_ready _ _ _ Hr) as Hb. assert (Hr' : ready (n + 1 + budget st) b st) by (eapply ready_mono; [done|lia]).
  eapply triple_bind with (Q := fun st' _ => busy n b st'); [|intros st' reply Hb'; by apply reset_ret].
  replace n with (n + 1 - 1) by lia. destruct commands as [|sub subs].
  - eapply triple_mono; [by apply (execute_ready (n + 1)); [lia|]| |done]. by intros st' r [? _].
  - eapply triple_bind; [by apply (execute_subs_ready (n + 1)); [lia|]|]. intros st1 [cs|r] Hb1; [|by steps].
    eapply triple_mono; [apply whole_t, post_fragment_k| |done]. intros st2 r [Ha Hs]. destruct Hb1 as [G1 G2 G3 G4].
    pose proof (settings_marks _ _ Hs) as [= Hf Hmx Hrt]. unfold retries, max_retries, use_slots in *.
    split; unfold retries, max_retries, use_slots; rewrite ?Hf, ?Hmx, ?Hrt; try done. by eapply sound_after.
Qed.
End Commands.

(** ** The pipeline, and commands for a node

    Every function is a composition of steps that keep [ready]. *)
Section Queue.
Context {L : Type} (E : cstate W -> L -> Prop) (n : Z) (b : bool).

Definition steady {A} (m : G (cstate W) L A) : Prop :=
  forall st, ready n b st -> triple True m st (fun st' _ => ready n b st') E.

Lemma steady_ret {A} (a : A) : steady (mret a).
Proof. by intros st. Qed.
Lemma steady_bind {A B} (m : G (cstate W) L A) (k : A -> G (cstate W) L B) : steady m -> (forall a, steady (k a)) -> steady (m ≫= k).
Proof. intros Hm Hk st Hr. eapply triple_bind; [by apply Hm|]. intros st' a Hr'. by apply Hk. Qed.
Lemma steady_undefined {A} : steady (A := A) undefined.
Proof. by intros st. Qed.
Lemma steady_def {A} (o : option A) : steady (gdef o).
Proof. destruct o; [apply steady_ret|apply steady_undefined]. Qed.
Lemma steady_calm {A} (m : G (cstate W) L A) : quiet True E m -> keeps settings (fun _ => True) m -> steady m.
Proof. intros Hq Hk st Hr. apply (ready_call True _ n); [done| |done]. eapply triple_mono; [apply Hq| |done]. intros st' a Ha. by eapply sound_after; [apply Hr|]. Qed.
Lemma steady_upd g : (forall cc, core (g cc) = core cc) -> (forall cc, marks (g cc) = marks cc) -> steady (mod_cc g).
Proof. intros Hc Hm st Hr. by apply ready_upd. Qed.
Lemma steady_whole {A} (m : G (cstate W) L A) : keeps whole (fun _ => False) m -> steady m.
Proof. intros Hm st Hr. by apply whole_ready. Qed.

(** The retry counter stays within the limits. *)
Lemma steady_retry k v : (forall st, ready n b st -> 0 <= k (s_cc st) <= R) ->
  steady (mod_cc (fun cc => cc_set_retry (k cc) v cc)).
Proof.
  intros Hk st Hr. pose proof Hr as [H1 H2 H3 H4]. unfold triple, mod_cc. split; [by apply (sound_after _ st)|by apply Hk|done|done].
Qed.

Lemma steady_touched {A} p (m : G (cstate W) L A) :
  (forall st, is_Some (s_heap st !! p) -> triple True m st (fun st' _ => touched p st st') E) ->
  (forall st, s_heap st !! p = None -> triple True m st (fun _ _ => False) E) ->
  keeps settings (fun _ => True) m -> steady m.
Proof.
  intros Ht Hu Hk st Hr. destruct (s_heap st !! p) as [nd|] eqn:Ep.
  - apply (ready_call True _ n); [done| |done]. eapply triple_mono; [apply Ht; by exists nd| |done].
    intros st' a Ha. eapply sound_touched; [apply Hr|exact Ha].
  - eapply triple_mono; [by apply Hu| |done]. done.
Qed.

Lemma steady_get_node p : steady (get_node p).
Proof. intros st Hr. unfold triple, get_node. by destruct (_ !! _). Qed.
Lemma steady_ctx_get p : steady (ctx_get_by_node p).
Proof.
  apply (steady_touched p); [by intros; apply ctx_get_t| |apply (k_ctx_get settings)].
  intros st Hp. unfold triple, ctx_get_by_node, mbind, g_bind, get_node. by rewrite Hp.
Qed.
Lemma steady_put_node p f : (forall nd, like nd (f nd)) -> steady (put_node p f).
Proof.
  intros Hf. apply (steady_touched p); [| |apply (k_put_node settings)].
  - intros st [nd Hp]. step. exists nd, (f nd). split; [done|]. split; [done|apply Hf].
  - intros st Hp. unfold triple, put_node, mbind, g_bind, get_node. by rewrite Hp.
Qed.
Lemma steady_update : 0 <= n <= 2 ^ 28 -> steady redisClusterUpdateSlotmap.
Proof. intros Hn st Hr. by apply update_ready. Qed.
Lemma steady_handle c : 0 <= n <= 2 ^ 28 -> steady (clusterUpdateRouteHandleReply c).
Proof.
  intros Hn st Hr. apply (ready_call True _ n); [done| |apply (k_handle_reply settings)].
  eapply triple_mono; [apply (handle_reply_t True E n Hn c), Hr| |done]. intros st' r Hu. eapply updated_sound; [apply Hr|exact Hu].
Qed.

#[local] Hint Resolve q_world_get q_world_call q_get_cc q_set_error q_ctx_error q_send_update q_by_table : keeps.
#[local] Hint Resolve k_get_cc k_world_get k_world_call k_set_error k_ctx_error k_send_update k_by_table : keeps.
#[local] Hint Resolve w_command_get format_k post_fragment_k : keeps.

#[local] Ltac steady_step :=
  lazymatch goal with
  | |- steady (mret _) => apply steady_ret
  | |- steady undefined => apply steady_undefined
  | |- steady (gdef _) => apply steady_def
  | |- steady (get_node _) => apply steady_get_node
  | |- steady (ctx_get_by_node _) => apply steady_ctx_get
  | |- steady (put_node _ _) => apply steady_put_node; intros; split; [done|by left]
  | |- steady (mbind _ _) => apply steady_bind; [|intros]
  | |- steady (match ?x with _ => _ end) => destruct x
  | |- steady (mod_cc _) => first [by apply steady_upd | idtac]
  | |- _ => first [assumption | solve [auto with keeps] | apply steady_calm; solve [auto with keeps | keeps_tac | intros ?; by steps] | apply steady_whole; solve [auto with keeps] ]
  end.
#[local] Ltac steady_tac := intros; cbn zeta; repeat (steady_step; cbn zeta).

Lemma steady_conn p : steady (conn_or_error p).
Proof. unfold conn_or_error. steady_tac. Qed.
Hint Resolve steady_conn : keeps.
Lemma steady_clear : steady (clear_error (W := W)).
Proof. unfold clear_error. steady_tac. Qed.
Hint Resolve steady_clear : keeps.
Lemma steady_append command : steady (clusterAppendCommand command).
Proof. unfold clusterAppendCommand. steady_tac. Qed.
Hint Resolve steady_append : keeps.
Lemma steady_append_subs subs : steady (append_subs subs).
Proof. induction subs as [|sub subs IH]; cbn [append_subs]; steady_tac. Qed.
Hint Resolve steady_append_subs : keeps.
Lemma steady_ensure : steady (ensure_requests (W := W)).
Proof. unfold ensure_requests. steady_tac. Qed.
Lemma steady_add command : steady (add_request command).
Proof. unfold add_request. steady_tac. Qed.
Lemma steady_oom : steady (oom_err (W := W)).
Proof. unfold oom_err. steady_tac. Qed.
Hint Resolve steady_ensure steady_add steady_oom : keeps.

Lemma steady_append_formatted realloc_ok errstr_ok num_str text len :
  steady (redisClusterAppendFormattedCommand realloc_ok errstr_ok num_str text len).
Proof. unfold redisClusterAppendFormattedCommand. steady_tac. Qed.
Lemma steady_append_to_node p len text : steady (redisClustervAppendCommandToNode p len text).
Proof. unfold redisClustervAppendCommandToNode. steady_tac. Qed.
Hint Resolve steady_append_formatted steady_append_to_node : keeps.

Lemma steady_need v : steady (mod_cc (fun cc => cc_set_retry (cc_retry_count cc) v cc)).
Proof. apply steady_retry. intros st Hr. apply Hr. Qed.
Hint Resolve steady_need : keeps.

Lemma steady_from_node p : steady (clusterGetReplyFromNode p).
Proof.
  unfold clusterGetReplyFromNode. apply steady_bind; [steady_tac|]. intros nd. destruct (n_con nd) as [c|]; [|steady_tac].
  apply steady_bind; [steady_tac|]. intros err. destruct (negb (err =? 0)); [|steady_tac].
  intros st Hr. step. eapply triple_bind with (Q := fun st' _ => ready n b st'); [|intros st' []; revert st'; apply steady_bind; steady_tac].
  step; [|by steps]. pose proof Hr as [H1 H2 H3 H4]. unfold retries, max_retries in *. step.
  - steps. split; [by apply (sound_after _ st)|unfold retries; cbn; lia|done|done].
  - steps. assert (E1 : i32 (cc_retry_count (s_cc st) + 1) = cc_retry_count (s_cc st) + 1).
    { apply i32_small. unfold INT_MIN, INT_MAX. lia. }
    apply Z.ltb_ge in Heqb1. split; [by apply (sound_after _ st)|unfold retries; cbn; lia|done|done].
Qed.
Hint Resolve steady_from_node : keeps.
Lemma steady_get_reply slot : steady (clusterGetReply slot).
Proof. unfold clusterGetReply. steady_tac. Qed.
Hint Resolve steady_get_reply : keeps.
Lemma steady_sub_replies subs : forall done_, steady (get_sub_replies subs done_).
Proof. induction subs as [|sub subs IH]; intros done_; cbn [get_sub_replies]; steady_tac. Qed.
Hint Resolve steady_sub_replies : keeps.
Lemma steady_pop rest : steady (pop_request (W := W) rest).
Proof. unfold pop_request. steady_tac. Qed.
Hint Resolve steady_pop : keeps.
Lemma steady_merged command commands : steady (merged_reply (W := W) command commands).
Proof. unfold merged_reply. steady_tac. Qed.
Hint Resolve steady_merged : keeps.
Lemma steady_find d key : steady (m_dictFind d key).
Proof. unfold m_dictFind. steady_tac. Qed.
Hint Resolve steady_find : keeps.
Lemma steady_reply : steady redisClusterGetReply.
Proof. unfold redisClusterGetReply. steady_tac. Qed.
Hint Resolve steady_reply : keeps.
Lemma steady_write_all fuel c : steady (write_all fuel c).
Proof. induction fuel as [|fuel IH]; cbn [write_all]; steady_tac. Qed.
Hint Resolve steady_write_all : keeps.
Lemma steady_send_loop fuel es : steady (send_all_loop fuel es).
Proof. induction es as [|[k p] es IH]; cbn [send_all_loop]; steady_tac. Qed.
Hint Resolve steady_send_loop : keeps.
Lemma steady_send_all fuel : steady (redisClusterSendAll fuel).
Proof. unfold redisClusterSendAll. steady_tac. Qed.
Hint Resolve steady_send_all : keeps.
Lemma steady_clear_loop es : steady (clear_all_loop es).
Proof. induction es as [|[k p] es IH]; cbn [clear_all_loop]; steady_tac. Qed.
Hint Resolve steady_clear_loop : keeps.
Lemma steady_clear_all : steady redisClusterClearAll.
Proof. unfold redisClusterClearAll. steady_tac. Qed.
Hint Resolve steady_clear_all : keeps.
Lemma steady_drain fuel : steady (drain fuel).
Proof. induction fuel as [|fuel IH]; cbn [drain]; steady_tac. Qed.
Hint Resolve steady_drain : keeps.
Hint Resolve steady_update steady_handle : keeps.
Lemma steady_reset fuel : 0 <= n <= 2 ^ 28 -> steady (redisClusterReset fuel).
Proof. intros Hn. unfold redisClusterReset. steady_tac. Qed.
Lemma steady_to_node p args : 0 <= n <= 2 ^ 28 -> steady (redisClustervCommandToNode p args).
Proof. intros Hn. unfold redisClustervCommandToNode. steady_tac. Qed.
End Queue.

(** ** Sessions *)

(** The public functions with their arguments; what hiredis' formatting functions return,
    and the parser's allocations, are arguments as in Client. *)
Inductive call :=
  | AddNode (addr : bytes) | AddNodes (addrs : bytes)
  | Username (name : option bytes) | Password (text : option bytes)
  | UseSlots | ParseSlaves | ParseOpenSlots
  | ConnectTimeout (tv : timeval) | Timeout (tv : timeval) | MaxRetry (k : Z)
  | OnConnect | OnEvent | EnableSSL (ssl : bool) | Connect | UpdateSlotmap
  | Command (realloc_ok : Z -> bool) (errstr_ok : bool) (num_str text : bytes) (len : Z)
  | CommandToNode (node : loc) (args : list bytes)
  | AppendCommand (realloc_ok : Z -> bool) (errstr_ok : bool) (num_str text : bytes) (len : Z)
  | AppendToNode (node : loc) (len : Z) (text : bytes)
  | GetReply | SendAll (fuel : nat) | ClearAll | Reset (fuel : nat).

Definition run {L} (c : call) : G (cstate W) L () :=
  match c with
  | AddNode addr => redisClusterSetOptionAddNode addr;; mret ()
  | AddNodes addrs => redisClusterSetOptionAddNodes addrs;; mret ()
  | Username name => redisClusterSetOptionUsername name;; mret ()
  | Password text => redisClusterSetOptionPassword text;; mret ()
  | UseSlots => redisClusterSetOptionRouteUseSlots;; mret ()
  | ParseSlaves => redisClusterSetOptionParseSlaves;; mret ()
  | ParseOpenSlots => redisClusterSetOptionParseOpenSlots;; mret ()
  | ConnectTimeout tv => redisClusterSetOptionConnectTimeout tv;; mret ()
  | Timeout tv => redisClusterSetOptionTimeout tv;; mret ()
  | MaxRetry k => redisClusterSetOptionMaxRetry k;; mret ()
  | OnConnect => redisClusterSetConnectCallback;; mret ()
  | OnEvent => redisClusterSetEventCallback;; mret ()
  | EnableSSL ssl => redisClusterSetOptionEnableSSL ssl;; mret ()
  | Connect => redisClusterConnect2;; mret ()
  | UpdateSlotmap => redisClusterUpdateSlotmap;; mret ()
  | Command realloc_ok errstr_ok num_str text len => redisClusterFormattedCommand realloc_ok errstr_ok num_str text len;; mret ()
  | CommandToNode node args => redisClustervCommandToNode node args;; mret ()
  | AppendCommand realloc_ok errstr_ok num_str text len =>
      redisClusterAppendFormattedCommand realloc_ok errstr_ok num_str text len;; mret ()
  | AppendToNode node len text => redisClustervAppendCommandToNode node len text;; mret ()
  | GetReply => redisClusterGetReply;; mret ()
  | SendAll fuel => redisClusterSendAll fuel;; mret ()
  | ClearAll => redisClusterClearAll;; mret ()
  | Reset fuel => redisClusterReset fuel;; mret ()
  end.

(** The calls that only manage the context. *)
Definition manages (c : call) : bool :=
  match c with
  | Command _ _ _ _ _ | CommandToNode _ _ | AppendCommand _ _ _ _ _ | AppendToNode _ _ _
  | GetReply | SendAll _ | ClearAll | Reset _ => false
  | _ => true
  end.

(** How many nodes a call can add beside those of a new slot map. *)
Definition cost (c : call) : Z :=
  match c with
  | AddNode _ => 1
  | AddNodes addrs => Z.of_nat (length (sdssplitlen (c_str addrs) (str ",")))
  | Command _ _ _ _ _ => 1 + R
  | _ => 0
  end.

(** Slaves are asked for after CLUSTER SLOTS has been chosen, and retry limits are within
    the limit of the session. *)
Definition asks_slots (c : call) : bool := match c with UseSlots => true | _ => false end.
Definition legal (slots : bool) (c : call) : bool :=
  match c with ParseSlaves => slots | MaxRetry k => k <=? R | _ => true end.

Fixpoint all_legal (slots : bool) (cs : list call) : bool :=
  match cs with [] => true | c :: cs => legal slots c && all_legal (slots || asks_slots c) cs end.
Definition total (cs : list call) : Z := foldr (fun c n => cost c + n) 0 cs.

Definition run_all {L} (cs : list call) : G (cstate W) L () := foldr (fun c m => run c;; m) (mret ()) cs.

(** A context made, used and freed: whether it could be made. *)
Definition session {L} (cs : list call) : G (cstate W) L bool :=
  ok ← redisClusterContextInit;
  if ok : bool then run_all cs;; mret true else mret false.

Section Run.
Context {L : Type} (U : Prop) (E : cstate W -> L -> Prop).

Lemma triple_excused {A} (m : G (cstate W) L A) st (P : cstate W -> A -> Prop) : U -> triple True m st P E -> triple U m st P E.
Proof. unfold triple. by destruct (m st) as [? [?|?|]]. Qed.

Lemma call_cost_nonneg c : 0 <= cost c.
Proof. destruct c; cbn; lia. Qed.
Lemma total_nonneg cs : 0 <= total cs.
Proof. unfold total. induction cs as [|c cs IH]; cbn; [lia|]. pose proof (call_cost_nonneg c). lia. Qed.

Lemma managed_ready c n b st : 0 <= n <= 2 ^ 26 -> ready (n + cost c) b st -> legal b c = true -> manages c = true ->
  triple U (run c) st (fun st' _ => ready n (b || asks_slots c) st') E.
Proof.
  intros Hn Hr Hl Hm. destruct c; try done; cbn [run cost asks_slots legal] in *; rewrite ?Z.add_0_r, ?orb_false_r in *;
    eapply triple_bind; try (intros st' r Hr'; exact Hr').
  - apply add_node_ready; [lia|done].
  - unfold redisClusterSetOptionAddNodes. apply (ready_allocs _ _ st) in Hr.
    assert (Hno : ready n b (upd_allocs tail st)) by (eapply ready_mono; [done|lia]). step. step; [steps; by apply ready_upd|].
    destruct (sdssplitlen _ _); [steps; by apply ready_upd|]. by apply add_nodes_ready; [lia|].
  - by apply (auth_ready U E n b name true).
  - by apply (auth_ready U E n b text false).
  - eapply triple_mono; [by apply (set_flag_ready U E _ n b)| |done]. done.
  - eapply triple_mono; [by apply (set_flag_ready U E _ n b)| |done]. intros st' r. by rewrite orb_false_r.
  - eapply triple_mono; [by apply (set_flag_ready U E _ n b)| |done]. intros st' r. by rewrite orb_false_r.
  - by apply connect_timeout_ready.
  - by apply timeout_ready.
  - apply max_retry_ready; [lia|done].
  - by apply connect_callback_ready.
  - by apply event_callback_ready.
  - unfold redisClusterSetOptionEnableSSL. steps; [done|]. by apply ready_upd.
  - apply connect2_ready; [lia|done].
  - apply update_ready; [lia|done].
Qed.

Lemma other_ready c n b st : 0 <= n <= 2 ^ 26 -> ready (n + cost c) b st -> manages c = false ->
  triple True (run c) st (fun st' _ => ready n (b || asks_slots c) st') E.
Proof.
  intros Hn Hr Hm. destruct c; try done; cbn [run cost asks_slots] in *; rewrite ?orb_false_r;
    eapply triple_bind; try (intros st' r Hr'; exact Hr').
  - apply formatted_ready; [done|]. by rewrite Z.add_assoc in Hr.
  - rewrite Z.add_0_r in Hr. apply steady_to_node; [lia|done].
  - rewrite Z.add_0_r in Hr. by apply steady_append_formatted.
  - rewrite Z.add_0_r in Hr. by apply steady_append_to_node.
  - rewrite Z.add_0_r in Hr. by apply steady_reply.
  - rewrite Z.add_0_r in Hr. by apply steady_send_all.
  - rewrite Z.add_0_r in Hr. by apply steady_clear_all.
  - rewrite Z.add_0_r in Hr. apply steady_reset; [lia|done].
Qed.

Lemma run_all_ready cs : forall n b st, 0 <= n -> n + total cs <= 2 ^ 26 -> ready (n + total cs) b st ->
  all_legal b cs = true -> U \/ forallb manages cs = true ->
  triple U (run_all cs) st (fun st' _ => exists b', ready n b' st') E.
Proof.
  induction cs as [|c cs IH]; intros n b st Hn Ht Hr Hl Hu; cbn [run_all foldr total] in *.
  { steps. exists b. by rewrite Z.add_0_r in Hr. }
  apply andb_true_iff in Hl as [Hl Hls]. fold (total cs) in *. pose proof (call_cost_nonneg c). pose proof (total_nonneg cs).
  replace (n + (cost c + total cs)) with (n + total cs + cost c) in Hr by lia.
  eapply triple_bind with (Q := fun st' _ => ready (n + total cs) (b || asks_slots c) st').
  - destruct (manages c) eqn:Em; [apply managed_ready; [lia|done..]|].
    apply triple_excused; [destruct Hu as [|Hu]; [done|cbn in Hu; by rewrite Em in Hu]|]. apply other_ready; [lia|done..].
  - intros st' [] Hr'. apply (IH n (b || asks_slots c)); [done|lia|done..|]. destruct Hu as [|Hu]; [by left|right].
    by apply andb_true_iff in Hu as [_ Hu].
Qed.
End Run.

Lemma ready_init n st : CLUSTER_DEFAULT_MAX_RETRY_COUNT <= R -> 0 <= n <= 2 ^ 26 -> s_heap st = ∅ -> s_cc st = cc_init -> ready n false st.
Proof.
  intros HR' Hn Hh Hc. split; unfold retries, max_retries; rewrite ?Hc; [|cbn; lia|cbn; unfold CLUSTER_DEFAULT_MAX_RETRY_COUNT in *; lia|done].
  apply init_sound; [lia|done|done].
Qed.
End Ready.


(** ** Witness *)

(** The second allocation for a node fails; the cluster's first answer breaks off. *)
Definition ex_calls : list call :=
  [UseSlots; ParseSlaves; EnableSSL true; AddNodes (str "a:1,b:2"); MaxRetry 3; Timeout (mkTimeval 1 0); Connect; Username (Some (str "me")); UpdateSlotmap].
Definition ex_start : cstate (list redisReply) :=
  mkState cc_init ∅ [ex_broken_reply; REDIS_REPLY_INTEGER 3] [true; true; true; true; false] 0 [].

