(* ===== verification/Async.v ===== *)
(** * hircluster.c: the asynchronous API

    The part of the client that is driven by an event loop.  What hiredis keeps for a
    pending command is its callback: one of the client's three, or none.  When the event
    loop calls it, the function of that name runs; the user's own functions are a
    parameter.  Times are microseconds, as [hi_usec_now] gives them. *)
From S2P Require Import Prelude Hiutil System Crc16 Dict Goto Hiredis Cmddef Command.
From S2P Require Import Context Fragment Nodes Topology Route Options Execute Client.

Definition SLOTMAP_UPDATE_THROTTLE_USEC : Z := 1000000.
Definition SLOTMAP_UPDATE_ONGOING : Z := INT64_MAX.
Definition NO_RETRY : Z := -1.

(** [cluster_async_data]: what the client keeps for a pending command.  Its pointers to the
    context and the command are never NULL; the user's function may be. *)
Record cluster_async_data := mkAsyncData {
  cad_command : cmd;
  cad_callback : option Z;      (* a name of the user's function *)
  cad_retry_count : Z;
  cad_privdata : Z
}.

(** The callback of a pending command, with its [privdata]. *)
Inductive async_callback :=
  | cb_none
  | clusterSlotsReply
  | clusterNodesReply
  | clusterCommand (cad : option cluster_async_data).

(** ** hiredis, and the clock *)
Class AsyncOps (W : Type) := {
  redisAsyncConnectWithOptions : W -> bytes -> Z -> option timeval -> option timeval -> W * option conn;
  async_err : W -> conn -> Z;                     (* ac->err *)
  async_connected : W -> conn -> bool;            (* ac->c.flags & REDIS_CONNECTED *)
  async_data : W -> conn -> option loc;           (* ac->data *)
  redisAsyncCommand : W -> conn -> async_callback -> list bytes -> W * Z;
  redisAsyncFormattedCommand : W -> conn -> async_callback -> bytes -> W * Z;
  redisAsyncSetConnectCallback : W -> conn -> bool -> W;   (* true: the non-const variant *)
  redisAsyncSetDisconnectCallback : W -> conn -> W;
  redisAsyncDisconnect : W -> conn -> W * bool;   (* whether it frees the context at once *)
  redisAeAttach : W -> conn -> W * Z;
  redisLibevAttach : W -> conn -> W * Z;
  redisLibeventAttach : W -> conn -> W * Z;
  redisLibuvAttach : W -> conn -> W * Z;
  g_source_attach : W -> conn -> W * Z;           (* of redis_source_new(ac): the source's id *)
  gettimeofday : W -> option (Z * Z);
  random : W -> W * Z
}.

(** The event loops of adapters/: what [attach_fn] of a context points to. *)
Inductive adapter :=
  | redisAeAttach_link | redisGlibAttach_link | redisLibevAttach_link | redisLibeventAttach_link | redisLibuvAttach_link.

Definition attach_fn {W} `{AsyncOps W} (fn : adapter) (w : W) (ac : conn) : W * Z :=
  match fn with
  | redisAeAttach_link => redisAeAttach w ac
  | redisGlibAttach_link =>
      let '(w, id) := g_source_attach w ac in (w, if 0 <? id then REDIS_OK else REDIS_ERR)
  | redisLibevAttach_link => redisLibevAttach w ac
  | redisLibeventAttach_link => redisLibeventAttach w ac
  | redisLibuvAttach_link => redisLibuvAttach w ac
  end.

Definition usec_now {W} `{AsyncOps W} (w : W) : Z := hi_usec_now (gettimeofday w).

Record astate (W : Type) := mkAstate {
  as_st : cstate W;
  as_err : Z;
  as_errstr : bytes;
  as_last : Z;              (* lastSlotmapUpdateAttempt, int64_t *)
  as_adapter : option adapter;   (* attach_fn, where adapter is not NULL *)
  as_onConnect : bool;
  as_onConnectNC : bool;
  as_onDisconnect : bool
}.
Arguments mkAstate {W} _ _ _ _ _ _ _ _.
Arguments as_st {W} _.
Arguments as_err {W} _.
Arguments as_errstr {W} _.
Arguments as_last {W} _.
Arguments as_adapter {W} _.
Arguments as_onConnect {W} _.
Arguments as_onConnectNC {W} _.
Arguments as_onDisconnect {W} _.

(** The labels inside the asynchronous functions. *)
Inductive a_label := a_error | a_oom | a_done.

Section Async.
Context {W : Type} `{HiredisOps W} `{AsyncOps W} {sds : SdsOps}.
(** What the user's function does with the context. *)
Variable user_callback : Z -> Z -> option redisReply -> astate W -> astate W.
Variables (realloc_ok : Z -> bool) (errstr_ok : bool) (num_str : bytes).

Section Functions.
Context {L : Type}.
Abbreviation A := (G (astate W) L).

Definition a_lift {X} (m : G (cstate W) L X) : A X := fun s =>
  match m (as_st s) with
  | (st, o) => (mkAstate st (as_err s) (as_errstr s) (as_last s) (as_adapter s) (as_onConnect s) (as_onConnectNC s)
                  (as_onDisconnect s), o)
  end.
Definition a_put_error (err : Z) (errstr : bytes) (s : astate W) : astate W :=
  mkAstate (as_st s) err errstr (as_last s) (as_adapter s) (as_onConnect s) (as_onConnectNC s) (as_onDisconnect s).
Definition a_put_last (last : Z) (s : astate W) : astate W :=
  mkAstate (as_st s) (as_err s) (as_errstr s) last (as_adapter s) (as_onConnect s) (as_onConnectNC s) (as_onDisconnect s).
Definition a_put_callbacks (connect connectNC disconnect : bool) (s : astate W) : astate W :=
  mkAstate (as_st s) (as_err s) (as_errstr s) (as_last s) (as_adapter s) connect connectNC disconnect.

Definition a_put_adapter (fn : adapter) (s : astate W) : astate W :=
  mkAstate (as_st s) (as_err s) (as_errstr s) (as_last s) (Some fn) (as_onConnect s) (as_onConnectNC s) (as_onDisconnect s).

Definition a_cc : A redisClusterContext := a_lift get_cc.
Definition a_world_get {X} (f : W -> X) : A X := a_lift (world_get f).
Definition a_world_call {X} (f : W -> W * X) : A X := a_lift (world_call f).
Definition a_now : A Z := a_world_get usec_now.

(** [__redisClusterAsyncSetError] *)
Definition redisClusterAsyncSetError (type : Z) (s : bytes) : A () :=
  gmodify (a_put_error type (take (ERRSTR_SIZE - 1) (c_str s))).

(** [__redisClusterAsyncSetError(acc, ac->c.err, ac->c.errstr)] *)
Definition a_ctx_error (ac : conn) : A () :=
  err ← a_world_get (fun w => (ctx_err w ac, ctx_errstr w ac)); redisClusterAsyncSetError err.1 err.2.
(** [__redisClusterAsyncSetError(acc, ac->err, ac->errstr)] *)
Definition a_async_error (ac : conn) : A () :=
  err ← a_world_get (fun w => (async_err w ac, ctx_errstr w ac)); redisClusterAsyncSetError err.1 err.2.
(** [__redisClusterAsyncSetError(acc, cc->err, cc->errstr)] *)
Definition a_cc_error : A () := cc ← a_cc; redisClusterAsyncSetError (cc_err cc) (cc_errstr cc).

Definition a_fail {X} (ac : conn) (r : X) : A X := a_lift (world (fun w => redisAsyncFree w ac));; mret r.

Definition redisClusterAsyncInitialize : A bool :=
  ok ← a_lift alloc;
  if ok : bool then
    cc ← a_cc;
    gmodify (fun s => mkAstate (as_st s) (cc_err cc) (cc_errstr cc) 0 None false false false);; mret true
  else mret false.

(** adapters/: [loop] tells that the event loop is not NULL. *)
Definition redisClusterAeAttach (loop : bool) : A Z :=
  if negb loop then mret REDIS_ERR else gmodify (a_put_adapter redisAeAttach_link);; mret REDIS_OK.
Definition redisClusterGlibAttach (loop : bool) : A Z :=
  if negb loop then mret REDIS_ERR else gmodify (a_put_adapter redisGlibAttach_link);; mret REDIS_OK.
Definition redisClusterLibevAttach (loop : bool) : A Z :=
  if negb loop then mret REDIS_ERR else gmodify (a_put_adapter redisLibevAttach_link);; mret REDIS_OK.
Definition redisClusterLibeventAttach (loop : bool) : A Z :=
  if negb loop then mret REDIS_ERR else gmodify (a_put_adapter redisLibeventAttach_link);; mret REDIS_OK.
Definition redisClusterLibuvAttach (loop : bool) : A Z :=
  if negb loop then mret REDIS_ERR else gmodify (a_put_adapter redisLibuvAttach_link);; mret REDIS_OK.

Definition unlinkAsyncContextAndNode (data : option loc) : A () :=
  match data with
  | Some node => a_lift (put_node node (fun n => n_set_con (n_con n) None n))
  | None => mret ()
  end.

(** The AUTH of a new asynchronous connection; the reply is not looked at. *)
Definition a_authenticate (ac : conn) : A Z :=
  cc ← a_cc;
  match cc_password cc with
  | None => mret REDIS_OK
  | Some password =>
      let args := match cc_username cc with
                  | Some username => [str "AUTH"; username; password]
                  | None => [str "AUTH"; password]
                  end in
      a_world_call (fun w => redisAsyncCommand w ac cb_none args)
  end.

(** The callbacks of the user and the link to the node. *)
Definition a_link (node : loc) (ac : conn) : A () :=
  s ← gget;
  (if as_onConnect s then a_lift (world (fun w => redisAsyncSetConnectCallback w ac false))
   else if as_onConnectNC s then a_lift (world (fun w => redisAsyncSetConnectCallback w ac true))
   else mret ());;
  (if as_onDisconnect s then a_lift (world (fun w => redisAsyncSetDisconnectCallback w ac)) else mret ());;
  a_lift (world (fun w => set_acon_data w ac (Some node)));;
  a_lift (put_node node (fun n => n_set_con (n_con n) (Some ac) n)).

Definition set_lastConnectionAttempt (now : Z) (n : redisClusterNode) : redisClusterNode :=
  mkClusterNode (n_name n) (n_addr n) (n_host n) (n_port n) (n_role n) (n_failure_count n) (n_con n) (n_acon n) now
    (n_slots n) (n_slaves n) (n_migrating n) (n_importing n).

Definition actx_get_by_node (node : loc) : A (option conn) :=
  nd ← a_lift (get_node node);
  match n_acon nd with
  | Some ac =>
      err ← a_world_get (fun w => ctx_err w ac);
      if err =? 0 then mret (Some ac) else a_ctx_error ac;; mret None
  | None =>
      match n_host nd with
      | None => redisClusterAsyncSetError REDIS_ERR_OTHER (str "node host or port is error");; mret None
      | Some host =>
          if n_port nd <=? 0 then
            redisClusterAsyncSetError REDIS_ERR_OTHER (str "node host or port is error");; mret None
          else
            cc ← a_cc;
            now ← a_now;
            a_lift (put_node node (set_lastConnectionAttempt now));;
            ac ← a_world_call (fun w => redisAsyncConnectWithOptions w host (n_port nd) (cc_connect_timeout cc)
                                          (cc_command_timeout cc));
            match ac with
            | None => redisClusterAsyncSetError REDIS_ERR_OOM (str "Out of memory");; mret None
            | Some ac =>
                err ← a_world_get (fun w => async_err w ac);
                if negb (err =? 0) then a_async_error ac;; a_fail ac None
                else
                  fails ← a_lift (ssl_fails ac);
                  if fails : bool then a_ctx_error ac;; a_fail ac None
                  else
                    ret ← a_authenticate ac;
                    if negb (ret =? REDIS_OK) then a_ctx_error ac;; a_fail ac None
                    else
                      s ← gget;
                      ret ← (match as_adapter s with Some fn => a_world_call (fun w => attach_fn fn w ac) | None => mret REDIS_OK end);
                      if negb (ret =? REDIS_OK) then
                        redisClusterAsyncSetError REDIS_ERR_OTHER (str "Failed to attach event adapter");; a_fail ac None
                      else a_link node ac;; mret (Some ac)
            end
      end
  end.

(** ** Creating the context *)
Definition redisClusterAsyncContextInit : A bool :=
  ok ← a_lift redisClusterContextInit;
  if negb ok then mret false
  else
    ok ← redisClusterAsyncInitialize;
    if ok : bool then mret true else a_lift redisClusterFree;; mret false.

Definition redisClusterAsyncConnect (addrs : bytes) (flags : Z) : A bool :=
  ok ← a_lift (redisClusterConnect addrs flags);
  if negb ok then mret false
  else
    ok ← redisClusterAsyncInitialize;
    if ok : bool then mret true else a_lift redisClusterFree;; mret false.

Definition redisClusterAsyncSetConnectCallback : A Z :=
  s ← gget;
  if as_onConnect s || as_onConnectNC s then mret REDIS_ERR
  else gmodify (a_put_callbacks true (as_onConnectNC s) (as_onDisconnect s));; mret REDIS_OK.
Definition redisClusterAsyncSetConnectCallbackNC : A Z :=
  s ← gget;
  if as_onConnectNC s || as_onConnect s then mret REDIS_ERR
  else gmodify (a_put_callbacks (as_onConnect s) true (as_onDisconnect s));; mret REDIS_OK.
Definition redisClusterAsyncSetDisconnectCallback : A Z :=
  s ← gget;
  if as_onDisconnect s then mret REDIS_ERR
  else gmodify (a_put_callbacks (as_onConnect s) (as_onConnectNC s) true);; mret REDIS_OK.

(** ** Updating the slot map *)

(** [nodeIsConnected] *)
Definition nodeIsConnected (w : W) (nd : redisClusterNode) : bool :=
  match n_acon nd with Some ac => (async_err w ac =? 0) && async_connected w ac | None => false end.

(** The loop of [selectNode] over the entries from [currentIndex] on. *)
Fixpoint select_loop (w : W) (heap : gmap loc redisClusterNode) (throttleLimit checkIndex currentIndex : Z)
    (selected : option (loc * redisClusterNode)) (entries : list (bytes * loc)) : option (option loc) :=
  match entries with
  | [] => Some (fst <$> selected)
  | (_, p) :: rest =>
      nd ← heap !! p;
      let sel_connected := match selected with Some (_, s) => nodeIsConnected w s | None => false end in
      let selected :=
        if nodeIsConnected w nd then Some (p, nd)
        else if (n_lastConnectionAttempt nd <? throttleLimit) &&
                (bool_decide (selected = None) || (currentIndex <? checkIndex) && negb sel_connected)
        then Some (p, nd)
        else selected in
      let sel_connected := match selected with Some (_, s) => nodeIsConnected w s | None => false end in
      if (checkIndex <=? currentIndex) && sel_connected then Some (fst <$> selected)
      else select_loop w heap throttleLimit checkIndex (currentIndex + 1) selected rest
  end.

(** [random() % dictSize(nodes)] is undefined for an empty dict. *)
Definition selectNode (nodes : dict bytes loc) : A (option loc) :=
  now ← a_now;
  r ← a_world_call random;
  if d_used nodes =? 0 then undefined
  else
    entries ← gdef (dict_entries nodes);
    s ← gget;
    gdef (select_loop (s_world (as_st s)) (s_heap (as_st s)) (now - SLOTMAP_UPDATE_THROTTLE_USEC)
            (r mod d_used nodes) 0 None entries).
End Functions.

(** The connection to ask for the slot map: the given one, or that of a selected node. *)
Definition a_update_conn (ac : option conn) : G (astate W) a_label conn :=
  match ac with
  | Some ac => mret ac
  | None =>
      cc ← a_cc;
      match cc_nodes cc with
      | None => redisClusterAsyncSetError REDIS_ERR_OTHER (str "no nodes added");; goto a_error
      | Some nodes =>
          node ← selectNode nodes;
          node ← gsome a_error node;
          ac ← actx_get_by_node node;
          gsome a_error ac
      end
  end.

Definition updateSlotMapAsync {L} (ac : option conn) : G (astate W) L Z :=
  s ← gget;
  cc ← a_cc;
  if as_last s =? SLOTMAP_UPDATE_ONGOING then mret REDIS_ERR
  else if flag_set (cc_flags cc) HIRCLUSTER_FLAG_SHUTDOWN then mret REDIS_ERR
  else
    gcatch (
      ac ← a_update_conn ac;
      status ← a_world_call (fun w =>
        if use_slots cc then redisAsyncCommand w ac clusterSlotsReply [str "CLUSTER"; str "SLOTS"]
        else redisAsyncCommand w ac clusterNodesReply [str "CLUSTER"; str "NODES"]);
      if status =? REDIS_OK then gmodify (a_put_last SLOTMAP_UPDATE_ONGOING);; mret REDIS_OK
      else goto a_error)
      (fun _ => now ← a_now; gmodify (a_put_last now);; mret REDIS_ERR).

Definition throttledUpdateSlotMapAsync {L} (ac : option conn) : G (astate W) L () :=
  s ← gget;
  now ← a_now;
  if negb (as_last s =? SLOTMAP_UPDATE_ONGOING) && (i64 (as_last s + SLOTMAP_UPDATE_THROTTLE_USEC) <? now)
  then updateSlotMapAsync ac;; mret () else mret ().

Definition redisClusterAsyncConnect2 {L} : G (astate W) L Z :=
  s ← gget; if as_adapter s is None then mret REDIS_ERR else updateSlotMapAsync None.

(** The text of a reply: [reply->str], [reply->len]. *)
Definition reply_text (reply : redisReply) : bytes :=
  match reply with REDIS_REPLY_STRING s | REDIS_REPLY_STATUS s | REDIS_REPLY_ERROR s => s | _ => [] end.

Definition slotmap_callback {L} (parse : redisReply -> G (cstate W) L (option (dict bytes loc))) (reply : option redisReply)
    : G (astate W) L () :=
  now ← a_now;
  gmodify (a_put_last now);;
  match reply with
  | None => updateSlotMapAsync None;; mret ()
  | Some reply =>
      nodes ← a_lift (parse reply);
      r ← a_lift (updateNodesAndSlotmap nodes);
      if negb (r =? REDIS_OK) then updateSlotMapAsync None;; mret () else mret ()
  end.

Definition clusterSlotsReplyCallback {L} (ac : conn) (r : option redisReply) : G (astate W) L () :=
  slotmap_callback (fun reply => parse_cluster_slots ac (Some reply)) r.
Definition clusterNodesReplyCallback {L} (ac : conn) (r : option redisReply) : G (astate W) L () :=
  slotmap_callback (fun reply => parse_cluster_nodes ac (reply_text reply)) r.

(** ** Commands *)

(** [done:] the user's callback, and the errors are cleared. *)
Definition a_clear_errors {L} : G (astate W) L () :=
  cc ← a_cc;
  (if negb (cc_err cc =? 0) then a_lift clear_error else mret ());;
  gmodify (fun s => if negb (as_err s =? 0) then a_put_error 0 [] s else s).

Definition a_finish {L} (reply : option redisReply) (cad : cluster_async_data) : G (astate W) L () :=
  s ← gget;
  fn ← gdef (cad_callback cad);
  gmodify (user_callback fn (cad_privdata cad) (if negb (as_err s =? 0) then None else reply));;
  a_clear_errors.

Definition cad_set_retry (retry_count : Z) (cad : cluster_async_data) : cluster_async_data :=
  mkAsyncData (cad_command cad) (cad_callback cad) retry_count (cad_privdata cad).

(** The node of a redirection, or the error of finding it. *)
Definition a_redirect (reply : bytes) (want_slot : bool) : G (astate W) a_label (loc * Z) :=
  '(node, slot) ← a_lift (getNodeFromRedirectReply reply want_slot);
  match node with Some node => mret (node, slot) | None => a_cc_error;; goto a_done end.

(** [if (slot >= 0) cc->table[slot] = node;] *)
Definition a_set_table (slot : Z) (node : loc) : G (astate W) a_label () :=
  cc ← a_cc;
  if 0 <=? slot then
    table ← gdef (cc_table cc);
    if REDIS_CLUSTER_SLOTS <=? slot then undefined
    else a_lift (mod_cc (cc_set_route (cc_route_version cc) (Some (<[slot := node]> table))))
  else mret ().

(** The connection to send a redirected command to, and the retry count with it. *)
Definition a_again (ac : conn) (error_type : CLUSTER_ERR_TYPE) (reply : bytes)
    : G (astate W) a_label (option conn) :=
  match error_type with
  | CLUSTER_ERR_MOVED =>
      throttledUpdateSlotMapAsync (Some ac);;
      '(node, slot) ← a_redirect reply true;
      a_set_table slot node;;
      actx_get_by_node node
  | CLUSTER_ERR_ASK =>
      '(node, _) ← a_redirect reply false;
      ac_retry ← actx_get_by_node node;
      ac_retry ← gsome a_done ac_retry;
      ret ← a_world_call (fun w => redisAsyncCommand w ac_retry cb_none [str "ASKING"]);
      if negb (ret =? REDIS_OK) then goto a_error else mret (Some ac_retry)
  | CLUSTER_ERR_TRYAGAIN | CLUSTER_ERR_CLUSTERDOWN => mret (Some ac)
  | _ => goto a_done
  end.

(** Up to [retry]: the connection to retry on and the data with the new count. *)
Definition a_body (ac : conn) (reply : option redisReply) (cad : cluster_async_data)
    : G (astate W) a_label (option conn * cluster_async_data) :=
  match reply with
  | None =>
      a_async_error ac;;
      data ← a_world_get (fun w => async_data w ac);
      match data with
      | None => goto a_done
      | Some _ => throttledUpdateSlotMapAsync None;; goto a_done
      end
  | Some _ =>
      cc ← a_cc;
      if (cad_retry_count cad =? NO_RETRY) || flag_set (cc_flags cc) HIRCLUSTER_FLAG_SHUTDOWN then goto a_done
      else
        match cluster_reply_error_type reply with
        | Some (CLUSTER_ERR_MOVED | CLUSTER_ERR_ASK | CLUSTER_ERR_TRYAGAIN | CLUSTER_ERR_CLUSTERDOWN) as t =>
            let n := i32 (cad_retry_count cad + 1) in
            if cc_max_retry_count cc <? n then
              redisClusterAsyncSetError REDIS_ERR_CLUSTER_TOO_MANY_RETRIES (str "too many cluster retries");; goto a_done
            else
              ac_retry ← a_again ac (default CLUSTER_NOT_ERR t) (reply_str reply);
              mret (ac_retry, cad_set_retry n cad)
        | _ => goto a_done
        end
  end.

(** The reply callback of every command.  At [error] the data is freed and the user is
    not called. *)
Definition redisClusterAsyncCallback {L} (ac : conn) (reply : option redisReply) (cad : option cluster_async_data)
    : G (astate W) L () :=
  match cad with
  | None => mret ()
  | Some cad =>
      gcatch (
        '(ac_retry, cad) ← a_body ac reply cad;
        ac_retry ← gdef ac_retry;              (* hiredis dereferences it *)
        text ← gdef (cmd_bytes (cad_command cad));
        ret ← a_world_call (fun w => redisAsyncFormattedCommand w ac_retry (clusterCommand (Some cad)) text);
        if negb (ret =? REDIS_OK) then goto a_error else mret ())
        (fun l => match l with a_done => a_finish reply cad | _ => mret () end)
  end.

(** [command_get] and the copy of the command. *)
Definition a_command (text : bytes) (len : Z) : G (astate W) a_label cmd :=
  command ← a_lift m_command_get;
  command ← gsome a_oom command;
  a_lift (alloc_or a_oom);;
  mret (set_cmd command (Some text) len).

Definition a_send (ac : conn) (cad : cluster_async_data) (text : bytes) (len : Z) : G (astate W) a_label Z :=
  status ← a_world_call (fun w =>
    redisAsyncFormattedCommand w ac (clusterCommand (Some cad)) (take (Z.to_nat len) text));
  if negb (status =? REDIS_OK) then a_async_error ac;; goto a_error else mret REDIS_OK.

Definition a_formatted (fn : option Z) (privdata : Z) (text : bytes) (len : Z) : G (astate W) a_label Z :=
  command ← a_command text len;
  a_lift (alloc_or a_oom);;                                        (* commands *)
  '(slot_num, command, commands) ← a_lift (m_format_by_slot realloc_ok errstr_ok num_str command);
  if slot_num <? 0 then a_cc_error;; goto a_error
  else if REDIS_CLUSTER_SLOTS <=? slot_num then
    redisClusterAsyncSetError REDIS_ERR_OTHER (str "slot_num is out of range");; goto a_error
  else
    match commands with
    | _ :: _ =>
        redisClusterAsyncSetError REDIS_ERR_OTHER (str "Asynchronous API now not support multi-key command");;
        goto a_error
    | [] =>
        node ← a_lift (node_get_by_table slot_num);
        match node with
        | None => throttledUpdateSlotMapAsync None;; a_cc_error;; goto a_error
        | Some node =>
            ac ← actx_get_by_node node;
            ac ← gsome a_error ac;
            a_lift (alloc_or a_oom);;                              (* cluster_async_data_create *)
            a_send ac (mkAsyncData command fn 0 privdata) text len
        end
    end.

Definition a_exit {L} (oom : Z) (m : G (astate W) a_label Z) : G (astate W) L Z :=
  gcatch m (fun l =>
    match l with a_oom => redisClusterAsyncSetError oom (str "Out of memory") | _ => mret () end;; mret REDIS_ERR).

Definition redisClusterAsyncFormattedCommand {L} (fn : option Z) (privdata : Z) (text : bytes) (len : Z)
    : G (astate W) L Z :=
  cc ← a_cc;
  if flag_set (cc_flags cc) HIRCLUSTER_FLAG_SHUTDOWN then
    redisClusterAsyncSetError REDIS_ERR_OTHER (str "client closing");; mret REDIS_ERR
  else a_clear_errors;; a_exit REDIS_ERR_OOM (a_formatted fn privdata text len).

Definition redisClusterAsyncFormattedCommandToNode {L} (node : loc) (fn : option Z) (privdata : Z) (text : bytes) (len : Z)
    : G (astate W) L Z :=
  cc ← a_cc;
  if flag_set (cc_flags cc) HIRCLUSTER_FLAG_SHUTDOWN then
    redisClusterAsyncSetError REDIS_ERR_OTHER (str "disconnecting");; mret REDIS_ERR
  else
    ac ← actx_get_by_node node;
    match ac with
    | None => mret REDIS_ERR
    | Some ac =>
        a_clear_errors;;
        a_exit REDIS_ERR_OTHER (
          command ← a_command text len;
          a_lift (alloc_or a_oom);;
          a_send ac (mkAsyncData command fn NO_RETRY privdata) text len)
    end.

(** [redisClustervAsyncCommand]: the text is what hiredis formats. *)
Definition redisClustervAsyncCommand {L} (fn : option Z) (privdata len : Z) (text : bytes) : G (astate W) L Z :=
  if len =? -1 then redisClusterAsyncSetError REDIS_ERR_OOM (str "Out of memory");; mret REDIS_ERR
  else if len =? -2 then redisClusterAsyncSetError REDIS_ERR_OTHER (str "Invalid format string");; mret REDIS_ERR
  else redisClusterAsyncFormattedCommand fn privdata text len.

Definition redisClusterAsyncCommand {L} (fn : option Z) (privdata len : Z) (text : bytes) : G (astate W) L Z :=
  redisClustervAsyncCommand fn privdata len text.

Definition redisClusterAsyncCommandToNode {L} (node : loc) (fn : option Z) (privdata len : Z) (text : bytes)
    : G (astate W) L Z :=
  if len =? -1 then redisClusterAsyncSetError REDIS_ERR_OTHER (str "Out of memory");; mret REDIS_ERR
  else if len =? -2 then redisClusterAsyncSetError REDIS_ERR_OTHER (str "Invalid format string");; mret REDIS_ERR
  else redisClusterAsyncFormattedCommandToNode node fn privdata text len.

Definition redisClusterAsyncCommandArgv {L} (fn : option Z) (privdata len : Z) (text : bytes) : G (astate W) L Z :=
  if len =? -1 then redisClusterAsyncSetError REDIS_ERR_OOM (str "Out of memory");; mret REDIS_ERR
  else redisClusterAsyncFormattedCommand fn privdata text len.

Definition redisClusterAsyncCommandArgvToNode {L} (node : loc) (fn : option Z) (privdata len : Z) (text : bytes)
    : G (astate W) L Z :=
  if len =? -1 then redisClusterAsyncSetError REDIS_ERR_OOM (str "Out of memory");; mret REDIS_ERR
  else redisClusterAsyncFormattedCommandToNode node fn privdata text len.

(** ** Closing *)
Definition a_set_shutdown {L} : G (astate W) L () :=
  a_lift (mod_cc (fun cc => cc_set_flags (Z.lor (cc_flags cc) HIRCLUSTER_FLAG_SHUTDOWN) cc)).

(** A context that is freed at once unlinks itself from its node. *)
Fixpoint disconnect_loop {L} (entries : list (bytes * loc)) : G (astate W) L () :=
  match entries with
  | [] => mret ()
  | (_, p) :: rest =>
      nd ← a_lift (get_node p);
      match n_acon nd with
      | None => mret ()
      | Some ac =>
          data ← a_world_get (fun w => async_data w ac);
          freed ← a_world_call (fun w => redisAsyncDisconnect w ac);
          if freed : bool then unlinkAsyncContextAndNode data else mret ()
      end;;
      disconnect_loop rest
  end.

Definition redisClusterAsyncDisconnect {L} : G (astate W) L () :=
  a_set_shutdown;;
  cc ← a_cc;
  match cc_nodes cc with
  | None => mret ()
  | Some nodes => entries ← gdef (dict_entries nodes); disconnect_loop entries
  end.

Definition redisClusterAsyncFree {L} : G (astate W) L () := a_set_shutdown;; a_lift redisClusterFree.
End Async.
