(* ===== verification/AsyncProps.v ===== *)
(** * Properties of the asynchronous API

    Which node is asked for the slot map, when an update may start, and what the callback
    of a command does with its reply. *)
From S2P Require Import Prelude Hiutil Crc16 Dict Goto Hiredis Cmddef Command Context Sds Fragment Nodes.
From S2P Require Import Topology Route Options Execute Client NodeProps Script Frame ExecProps Redirect Async.

Lemma elem_of_snoc {A} (l : list A) a b : a ∈ l ++ [b] <-> a ∈ l \/ a = b.
Proof. by rewrite elem_of_app, list_elem_of_singleton. Qed.

Section Select.
Context {W : Type} `{HiredisOps W} `{AsyncOps W}.
Implicit Types (w : W) (h : gmap loc redisClusterNode).

Definition connected w h (p : loc) : Prop := exists nd, h !! p = Some nd /\ nodeIsConnected w nd = true.

(** No connection to the node was attempted since [limit]. *)
Definition untried h (limit : Z) (p : loc) : Prop :=
  exists nd, h !! p = Some nd /\ n_lastConnectionAttempt nd < limit.

(** A good choice among [ps]: connected if any of them is, else one that was not tried
    lately; none only when there is neither. *)
Definition good_choice w h (limit : Z) (ps : list loc) (r : option loc) : Prop :=
  match r with
  | Some p => p ∈ ps /\ (connected w h p \/ untried h limit p /\ forall q, q ∈ ps -> ~ connected w h q)
  | None => forall q, q ∈ ps -> ~ connected w h q /\ ~ untried h limit q
  end.

(** What the loop has selected so far. *)
Definition sel_ok h (sel : option (loc * redisClusterNode)) : Prop :=
  match sel with Some (p, nd) => h !! p = Some nd | None => True end.

Definition sel_connected w (sel : option (loc * redisClusterNode)) : bool :=
  match sel with Some (_, nd) => nodeIsConnected w nd | None => false end.

Lemma connected_dec w h p nd : h !! p = Some nd -> connected w h p <-> nodeIsConnected w nd = true.
Proof. intros Hp. split; [|by exists nd]. intros (nd' & Hp' & ?). congruence. Qed.

Lemma good_choice_connected w h limit ps p : p ∈ ps -> connected w h p -> good_choice w h limit ps (Some p).
Proof. intros Hp Hc. split; [done|]. by left. Qed.

(** One entry of the loop: the choice so far stays a good one. *)
Lemma good_choice_snoc w h limit ps sel p nd (b : bool) : h !! p = Some nd -> sel_ok h sel ->
  good_choice w h limit ps (fst <$> sel) ->
  (sel = None -> b = true) -> (sel_connected w sel = true -> b = false) ->
  let sel' := if nodeIsConnected w nd then Some (p, nd)
    else if (n_lastConnectionAttempt nd <? limit) && b then Some (p, nd) else sel in
  sel_ok h sel' /\ good_choice w h limit (ps ++ [p]) (fst <$> sel').
Proof.
  intros Hp Hs Hg Hn Hb. cbv zeta. pose proof (connected_dec w h p nd Hp) as Hc.
  destruct (nodeIsConnected w nd) eqn:Ec.
  { split; [done|]. cbn. apply good_choice_connected; [apply elem_of_app; right; left|by apply Hc]. }
  assert (Hnc : ~ connected w h p) by (rewrite Hc; done).
  assert (Hu : (n_lastConnectionAttempt nd <? limit) = true <-> untried h limit p).
  { rewrite Z.ltb_lt. split; [by exists nd|]. intros (nd' & Hp' & ?). congruence. }
  destruct (_ && b) eqn:E.
  - apply andb_true_iff in E as [Hl ->]. split; [done|]. cbn. split; [apply elem_of_app; right; left|].
    right. split; [by apply Hu|]. intros q [Hq| ->]%elem_of_snoc; [|done].
    destruct sel as [[q' nd']|]; cbn in Hg; [|by apply Hg].
    destruct Hg as [Hq' [Hcq|[_ Hno]]]; [|by apply Hno]. apply (connected_dec w h q' nd' Hs) in Hcq. by specialize (Hb Hcq).
  - split; [done|]. destruct sel as [[q' nd']|]; cbn in Hg |- *.
    + destruct Hg as [Hq' Hg]. split; [apply elem_of_app; by left|]. destruct Hg as [Hg|[Hg Hno]]; [by left|].
      right. split; [done|]. intros q [Hq| ->]%elem_of_snoc; [by apply Hno|done].
    + rewrite (Hn eq_refl), andb_true_r in E. intros q [Hq| ->]%elem_of_snoc; [by apply Hg|].
      split; [done|]. rewrite <- Hu. by rewrite E.
Qed.

Lemma good_choice_stop w h limit ps qs sel : sel_ok h sel -> sel_connected w sel = true ->
  good_choice w h limit ps (fst <$> sel) -> good_choice w h limit (ps ++ qs) (fst <$> sel).
Proof.
  destruct sel as [[p nd]|]; [|done]. cbn. intros Hs Hc [Hp _].
  apply good_choice_connected; [apply elem_of_app; by left|]. by exists nd.
Qed.

Lemma select_loop_ok w h limit checkIndex : forall (es : list (bytes * loc)) i sel ps,
  Forall (fun e => is_Some (h !! e.2)) es -> sel_ok h sel -> good_choice w h limit ps (fst <$> sel) ->
  exists r, select_loop w h limit checkIndex i sel es = Some r /\ good_choice w h limit (ps ++ es.*2) r.
Proof.
  induction es as [|[k p] es IH]; intros i sel ps Hin Hs Hg.
  { exists (fst <$> sel). cbn. by rewrite app_nil_r. }
  apply Forall_cons in Hin as [[nd Hp] Hin]. cbn in Hp. cbn [select_loop fmap list_fmap snd]. rewrite Hp.
  cbn [mbind option_bind]. fold (sel_connected w sel).
  set (b := bool_decide (sel = None) || (i <? checkIndex) && negb (sel_connected w sel)).
  destruct (good_choice_snoc w h limit ps sel p nd b Hp Hs Hg) as [Hs' Hg'].
  { intros ->. done. }
  { intros Hc. unfold b. rewrite Hc, andb_false_r, orb_false_r. apply bool_decide_false. intros ->. done. }
  cbv zeta in Hs', Hg'. set (sel' := if nodeIsConnected w nd then _ else _) in *. clearbody sel'.
  fold (sel_connected w sel'). change (p :: es.*2) with ([p] ++ es.*2). rewrite app_assoc.
  destruct ((checkIndex <=? i) && sel_connected w sel') eqn:E; [|by apply IH].
  apply andb_true_iff in E as [_ E]. exists (fst <$> sel'). split; [done|]. by apply good_choice_stop.
Qed.
End Select.

(** ** The state of the asynchronous context *)
Section Async.
Context {W : Type} `{HiredisOps W} `{AsyncOps W} {sds : SdsOps}.
Implicit Types (s : astate W) (ac : conn).

Definition a_upd (f : cstate W -> cstate W) s : astate W :=
  mkAstate (f (as_st s)) (as_err s) (as_errstr s) (as_last s) (as_adapter s) (as_onConnect s) (as_onConnectNC s)
    (as_onDisconnect s).

Lemma a_lift_normal {L A} (m : G (cstate W) L A) s st' x :
  m (as_st s) = (st', Normal x) -> a_lift m s = (a_upd (fun _ => st') s, Normal x).
Proof. unfold a_lift. by intros ->. Qed.

Lemma a_lift_same {L A} (m : G (cstate W) L A) s x :
  m (as_st s) = (as_st s, Normal x) -> a_lift m s = (s, Normal x).
Proof. intros E. rewrite (a_lift_normal _ _ _ _ E). by destruct s. Qed.

Lemma a_cc_ok {L B} (k : redisClusterContext -> G (astate W) L B) s : (a_cc ≫= k) s = k (s_cc (as_st s)) s.
Proof. by destruct s. Qed.

Lemma a_get_ok {L A B} (f : W -> A) (k : A -> G (astate W) L B) s :
  (a_world_get f ≫= k) s = k (f (s_world (as_st s))) s.
Proof. by destruct s. Qed.

Lemma a_call_ok {L A B} (f : W -> W * A) (k : A -> G (astate W) L B) s w x : f (s_world (as_st s)) = (w, x) ->
  (a_world_call f ≫= k) s = k x (a_upd (set_world w) s).
Proof.
  intros E. unfold a_world_call, mbind, g_bind, a_lift, world_call. rewrite E. done.
Qed.

Definition shutting_down s : bool := flag_set (cc_flags (s_cc (as_st s))) HIRCLUSTER_FLAG_SHUTDOWN.

(** C29. [selectNode] divides by the number of nodes, so an empty dict is undefined behaviour.
    Otherwise it ends, changes nothing but the random source, and its choice is the best
    there is: a connected node if the dict has one, else a node to which no connection was
    attempted for the throttling time, and none only if there is neither. *)
Theorem selectNode_prefers_connected {L} s (nodes : dict bytes loc) (w' : W) (r : Z) :
  nodes_ok (W := W) nodes -> Forall (fun e => is_Some (s_heap (as_st s) !! e.2)) (dict_pairs nodes) ->
  random (s_world (as_st s)) = (w', r) ->
  let limit := usec_now (s_world (as_st s)) - SLOTMAP_UPDATE_THROTTLE_USEC in
  if d_used nodes =? 0 then (selectNode (L := L) nodes s).2 = Undefined
  else exists choice, selectNode (L := L) nodes s = (a_upd (set_world w') s, Normal choice) /\
    good_choice w' (s_heap (as_st s)) limit (dict_pairs nodes).*2 choice.
Proof.
  intros [Hwf _] Hin Hr limit. unfold selectNode, a_now. rewrite a_get_ok, (a_call_ok _ _ _ _ _ Hr).
  destruct (d_used nodes =? 0); [done|]. rewrite (dict_entries_ok _ nodes Hwf). cbn [gdef]. rewrite gbind_ret, gbind_get.
  destruct (select_loop_ok w' (s_heap (as_st s)) limit (r mod d_used nodes) (dict_pairs nodes) 0 None [] Hin I)
    as (choice & E & Hg); [by intros q Hq%elem_of_nil|].
  exists choice. split; [|done]. cbn [as_st a_upd set_world s_world s_heap upd_world]. fold limit. by rewrite E.
Qed.

(** The request for the slot map on a connection. *)
Definition request s ac : W * Z :=
  if use_slots (s_cc (as_st s))
  then redisAsyncCommand (s_world (as_st s)) ac clusterSlotsReply [str "CLUSTER"; str "SLOTS"]
  else redisAsyncCommand (s_world (as_st s)) ac clusterNodesReply [str "CLUSTER"; str "NODES"].

(** [updateSlotMapAsync] on a given connection. *)
Lemma update_on {L} s ac :
  if (as_last s =? SLOTMAP_UPDATE_ONGOING) || shutting_down s
  then updateSlotMapAsync (L := L) (Some ac) s = (s, Normal REDIS_ERR)
  else
    let '(w, status) := request s ac in
    updateSlotMapAsync (L := L) (Some ac) s =
      (a_put_last (if status =? REDIS_OK then SLOTMAP_UPDATE_ONGOING else usec_now w) (a_upd (set_world w) s),
       Normal (if status =? REDIS_OK then REDIS_OK else REDIS_ERR)).
Proof.
  unfold shutting_down. destruct (request s ac) as [w status] eqn:Er. unfold request in Er.
  unfold updateSlotMapAsync. rewrite gbind_get, a_cc_ok. destruct (as_last s =? SLOTMAP_UPDATE_ONGOING); [done|].
  cbn [orb]. destruct (flag_set _ _); [done|]. unfold gcatch. cbn [a_update_conn].
  rewrite gbind_ret, (a_call_ok _ _ _ w status Er). by destruct (status =? REDIS_OK).
Qed.

(** C27. At most one update of the slot map is in progress, and updates are throttled.  While one
    is pending, or the client is closing, [updateSlotMapAsync] refuses and does nothing;
    [throttledUpdateSlotMapAsync] does nothing within a second of the last attempt.
    Otherwise one request is sent on the given connection, and the update is pending
    exactly if hiredis accepts it; on every path, also where a node has to be selected
    and connected first, success marks the update as pending and failure leaves the time
    of the attempt. *)
Theorem updateSlotMapAsync_exclusive {L} s (ac : option conn) :
  let now := usec_now (s_world (as_st s)) in
  if (as_last s =? SLOTMAP_UPDATE_ONGOING) || shutting_down s
  then updateSlotMapAsync (L := L) ac s = (s, Normal REDIS_ERR)
  else
    leaves (updateSlotMapAsync (L := L) ac) s (fun s' r =>
      r = REDIS_OK /\ as_last s' = SLOTMAP_UPDATE_ONGOING \/
      r = REDIS_ERR /\ as_last s' = usec_now (s_world (as_st s'))) (fun _ _ => False) /\
    match ac with
    | Some ac =>
        let '(w, status) := request s ac in
        updateSlotMapAsync (L := L) (Some ac) s =
          (a_put_last (if status =? REDIS_OK then SLOTMAP_UPDATE_ONGOING else usec_now w) (a_upd (set_world w) s),
           Normal (if status =? REDIS_OK then REDIS_OK else REDIS_ERR))
    | None => True
    end /\
    (0 <= as_last s < INT64_MAX - SLOTMAP_UPDATE_THROTTLE_USEC -> now <= as_last s + SLOTMAP_UPDATE_THROTTLE_USEC ->
       throttledUpdateSlotMapAsync (L := L) ac s = (s, Normal ())).
Proof.
  intros now. unfold shutting_down.
  destruct (as_last s =? SLOTMAP_UPDATE_ONGOING) eqn:El; cbn [orb].
  { unfold updateSlotMapAsync. rewrite gbind_get, a_cc_ok, El. done. }
  destruct (flag_set _ _) eqn:Ef.
  { unfold updateSlotMapAsync. rewrite gbind_get, a_cc_ok, El, Ef. done. }
  split; [|split].
  - unfold leaves, updateSlotMapAsync. rewrite gbind_get, a_cc_ok, El, Ef. unfold gcatch.
    match goal with |- context [match ?m s with _ => _ end] => destruct (m s) as [s1 [r|l|]] eqn:E end; [|by right|done].
    left. unfold mbind, g_bind in E. destruct (a_update_conn ac s) as [s2 [c|l|]]; [|done|done].
    unfold a_world_call, a_lift, world_call in E. 
    destruct (if use_slots _ then _ else _) as [w status]. destruct (status =? REDIS_OK); [|done].
    unfold gmodify, gputs in E. injection E as <- <-. done.
  - destruct ac as [ac|]; [|done]. pose proof (update_on (L := L) s ac) as E. unfold shutting_down in E. by rewrite El, Ef in E.
  - intros Hl Hn. unfold throttledUpdateSlotMapAsync, a_now. rewrite gbind_get, a_get_ok, El. cbn [negb andb].
    rewrite wraps_small by (unfold INT64_MAX, SLOTMAP_UPDATE_THROTTLE_USEC in *; lia).
    fold now. destruct (_ <? now) eqn:E; [apply Z.ltb_lt in E; lia|done].
Qed.
End Async.

(** ** The callback of a command *)
Section Callback.
Context {W : Type} `{HiredisOps W} `{AsyncOps W} {sds : SdsOps} {laws : SdsLaws sds}.
Context (user : Z -> Z -> option redisReply -> astate W -> astate W) {L : Type}.
Implicit Types (s : astate W) (ac : conn) (cad : cluster_async_data).

(** The errors of both contexts are cleared. *)
Definition cleared s : astate W :=
  let s := if cc_err (s_cc (as_st s)) =? 0 then s else a_upd (upd_cc (cc_set_error 0 [])) s in
  if as_err s =? 0 then s else a_put_error 0 [] s.

(** The user's function was called, once, with this reply. *)
Definition told cad (fn : Z) (reply : option redisReply) s : astate W := cleared (user fn (cad_privdata cad) reply s).

Lemma a_clear_errors_ok s : a_clear_errors (L := L) s = (cleared s, Normal ()).
Proof.
  unfold a_clear_errors, cleared. rewrite a_cc_ok. destruct (cc_err _ =? 0); cbn [negb].
  - rewrite gbind_ret. unfold gmodify, gputs. by destruct (as_err s =? 0).
  - rewrite (gbind_normal _ _ _ _ _ (a_lift_normal _ _ _ _ eq_refl)). unfold gmodify, gputs. cbn.
    by destruct (as_err s =? 0).
Qed.

Lemma a_finish_ok s reply cad fn : cad_callback cad = Some fn ->
  a_finish user (L := L) reply cad s = (told cad fn (if as_err s =? 0 then reply else None) s, Normal ()).
Proof.
  intros Hf. unfold a_finish. rewrite gbind_get, Hf. cbn [gdef]. rewrite gbind_ret, gbind_modify, a_clear_errors_ok.
  by destruct (as_err s =? 0).
Qed.

Lemma callback_done s ac reply cad fn s' : cad_callback cad = Some fn -> a_body ac reply cad s = (s', At a_done) ->
  redisClusterAsyncCallback user (L := L) ac reply (Some cad) s =
    (told cad fn (if as_err s' =? 0 then reply else None) s', Normal ()).
Proof.
  intros Hf E. unfold redisClusterAsyncCallback, gcatch. rewrite (gbind_at _ _ _ _ _ E). by apply a_finish_ok.
Qed.

(** The command is sent again, with its data. *)
Definition resend s c cad : W * Z :=
  redisAsyncFormattedCommand (s_world (as_st s)) c (clusterCommand (Some cad)) (default [] (cmd_bytes (cad_command cad))).

Lemma callback_again s ac reply cad cad' c s' : a_body ac reply cad s = (s', Normal (Some c, cad')) ->
  is_Some (cmd_bytes (cad_command cad')) ->
  redisClusterAsyncCallback user (L := L) ac reply (Some cad) s =
    (a_upd (set_world (fst (resend s' c cad'))) s', Normal ()).
Proof.
  intros E [text Ht]. unfold redisClusterAsyncCallback, gcatch. rewrite (gbind_normal _ _ _ _ _ E). cbn [gdef].
  rewrite gbind_ret, Ht. cbn [gdef]. rewrite gbind_ret. unfold resend. rewrite Ht. cbn [default].
  destruct (redisAsyncFormattedCommand _ _ _ _) as [w ret] eqn:Er. rewrite (a_call_ok _ _ _ _ _ Er).
  by destruct (ret =? REDIS_OK).
Qed.

(** C23. When a reply is not followed up -- it is no redirection and does not ask to retry, the
    command was sent to a chosen node, or the client is closing -- nothing is sent and
    the user's function is called exactly once, after which both error fields are clear.
    It is given the reply only if the error field of the context is clear: an error that
    an earlier call left there makes it NULL. *)
Theorem redisClusterAsyncCallback_delivers s ac (reply : redisReply) cad fn : cad_callback cad = Some fn ->
  final (Some reply) \/ cad_retry_count cad = NO_RETRY \/ shutting_down s = true ->
  redisClusterAsyncCallback user (L := L) ac (Some reply) (Some cad) s =
    (told cad fn (if as_err s =? 0 then Some reply else None) s, Normal ()).
Proof.
  intros Hf Hr. apply callback_done; [done|]. unfold a_body. rewrite a_cc_ok. fold (shutting_down s).
  destruct ((cad_retry_count cad =? NO_RETRY) || shutting_down s) eqn:E; [done|].
  apply orb_false_iff in E as [E1 E2]. apply Z.eqb_neq in E1. destruct Hr as [Hr|[?|?]]; [|done|congruence].
  unfold final in Hr. rewrite !not_elem_of_cons in Hr. 
  by destruct (cluster_reply_error_type (Some reply)) as [[]|]; destruct_and?.
Qed.

(** A reply that may be followed up, of a command that has retries left or not. *)
Definition may_retry s cad : Prop :=
  cad_retry_count cad ≠ NO_RETRY /\ shutting_down s = false /\ INT_MIN <= cad_retry_count cad < INT_MAX.

Definition err_retries : bytes := str "too many cluster retries".

Definition retry_error s : astate W :=
  a_put_error REDIS_ERR_CLUSTER_TOO_MANY_RETRIES (take (ERRSTR_SIZE - 1) (c_str err_retries)) s.

Lemma a_body_retry s ac reply cad t : may_retry s cad -> cluster_reply_error_type (Some reply) = Some t ->
  t ∈ [CLUSTER_ERR_MOVED; CLUSTER_ERR_ASK; CLUSTER_ERR_TRYAGAIN; CLUSTER_ERR_CLUSTERDOWN] ->
  let n := cad_retry_count cad + 1 in
  a_body ac (Some reply) cad s =
    (if cc_max_retry_count (s_cc (as_st s)) <? n then (retry_error s, At a_done)
     else (a_again ac t (reply_str (Some reply)) ≫= fun c => mret (c, cad_set_retry n cad)) s).
Proof.
  intros (Hn & Hs & Hi) Ht Hin n. unfold a_body. rewrite a_cc_ok. fold (shutting_down s). rewrite Hs, Ht, orb_false_r.
  apply Z.eqb_neq in Hn. rewrite Hn. rewrite i32_small by (unfold INT_MIN, INT_MAX in *; lia). fold n.
  destruct t; try by (rewrite !elem_of_cons in Hin; destruct_or?; try done; by apply elem_of_nil in Hin).
  all: by destruct (_ <? n).
Qed.


(** The update of the slot map that a MOVED reply starts on the connection it came from,
    if the throttling allows one. *)
Definition after_throttle s ac : astate W :=
  if negb (as_last s =? SLOTMAP_UPDATE_ONGOING) && negb (shutting_down s) &&
     (i64 (as_last s + SLOTMAP_UPDATE_THROTTLE_USEC) <? usec_now (s_world (as_st s)))
  then
    let '(w, status) := request s ac in
    a_put_last (if status =? REDIS_OK then SLOTMAP_UPDATE_ONGOING else usec_now w) (a_upd (set_world w) s)
  else s.

Lemma after_throttle_st s ac : exists w, as_st (after_throttle s ac) = set_world w (as_st s).
Proof.
  unfold after_throttle. destruct (_ && _); [|exists (s_world (as_st s)); by destruct s as [[]]].
  destruct (request s ac) as [w status]. by exists w.
Qed.

Lemma throttled_ok {L'} s ac : throttledUpdateSlotMapAsync (L := L') (Some ac) s = (after_throttle s ac, Normal ()).
Proof.
  unfold throttledUpdateSlotMapAsync, after_throttle, a_now. rewrite gbind_get, a_get_ok.
  pose proof (update_on (L := L') s ac) as E.
  destruct (as_last s =? SLOTMAP_UPDATE_ONGOING) eqn:El; [done|]. cbn [negb andb orb] in *.
  destruct (_ <? usec_now _); [|by rewrite andb_false_r]. rewrite andb_true_r.
  destruct (shutting_down s); cbn [negb]; [by rewrite (gbind_normal _ _ _ _ _ E)|].
  destruct (request s ac) as [w status]. by rewrite (gbind_normal _ _ _ _ _ E).
Qed.

Lemma a_set_table_ok s slot q table : 0 <= slot < REDIS_CLUSTER_SLOTS -> cc_table (s_cc (as_st s)) = Some table ->
  a_set_table slot q s = (a_upd (table_set slot q table) s, Normal ()).
Proof.
  intros Hs Ht. unfold a_set_table. rewrite a_cc_ok. destruct (0 <=? slot) eqn:E0; [|apply Z.leb_gt in E0; lia].
  rewrite Ht. cbn [gdef]. rewrite gbind_ret.
  destruct (REDIS_CLUSTER_SLOTS <=? slot) eqn:E1; [apply Z.leb_le in E1; lia|]. done.
Qed.

(** C24. A MOVED reply starts an update of the slot map, if the throttling allows one, enters the
    named node in the slot table and sends the command again, on
    the connection to that node.  The connection is not checked: when the node's
    connection is in an error state there is none to use, and NULL is handed to
    hiredis. *)
Theorem redisClusterAsyncCallback_moved s ac cad fn slot host port q nd c table nodes :
  cad_callback cad = Some fn -> is_Some (cmd_bytes (cad_command cad)) -> may_retry s cad ->
  cad_retry_count cad < cc_max_retry_count (s_cc (as_st s)) ->
  0 <= slot < REDIS_CLUSTER_SLOTS -> 0 <= port -> host_ok host ->
  s_allocs (as_st s) = [] -> cc_table (s_cc (as_st s)) = Some table ->
  cc_nodes (s_cc (as_st s)) = Some nodes -> nodes_ok (W := W) nodes -> to_map nodes !! address host port = Some q ->
  s_heap (as_st s) !! q = Some nd -> n_acon nd = Some c ->
  let reply := REDIS_REPLY_ERROR (redirect (str "MOVED") slot (address host port)) in
  let s1 := after_throttle s ac in
  let s' := a_upd (table_set slot q table) s1 in
  let run := redisClusterAsyncCallback user (L := L) ac (Some reply) (Some cad) s in
  if ctx_err (s_world (as_st s1)) c =? 0
  then run = (a_upd (set_world (fst (resend s' c (cad_set_retry (cad_retry_count cad + 1) cad)))) s', Normal ())
  else run.2 = Undefined.
Proof.
  intros Hf Ht Hm Hc Hs Hp Hh Ha Htb Hn Hok Hq Hnd Hac reply s1 s' run.
  destruct (after_throttle_st s ac) as [w Hw]. fold s1 in Hw.
  assert (Hcc : s_cc (as_st s1) = s_cc (as_st s)) by (by rewrite Hw).
  assert (Ha' : forall r, actx_get_by_node (L := a_label) q s' = r ->
    a_body ac (Some reply) cad s =
      match r with
      | (s1, Normal c) => (s1, Normal (c, cad_set_retry (cad_retry_count cad + 1) cad))
      | (s1, At l) => (s1, At l)
      | (s1, Undefined) => (s1, Undefined)
      end).
  { intros r Hr. rewrite (a_body_retry s ac reply cad CLUSTER_ERR_MOVED Hm) by (apply moved_type || left).
    destruct (_ <? cad_retry_count cad + 1) eqn:E; [apply Z.ltb_lt in E; lia|]. cbn [a_again].
    rewrite !gbind_assoc, (gbind_normal _ _ _ _ _ (throttled_ok s ac)), gbind_assoc. fold s1.
    assert (Hr' := redirect_known (L := a_label) (as_st s1) (str "MOVED") slot host port nodes q true
      ltac:(by apply (bool_decide_unpack _)) ltac:(unfold REDIS_CLUSTER_SLOTS, INT_MAX in *; lia) Hp Hh
      ltac:(by rewrite Hw) ltac:(by rewrite Hcc) Hok Hq).
    unfold a_redirect. rewrite gbind_assoc, (gbind_normal _ _ _ _ _ (a_lift_same _ _ _ Hr')), gbind_ret, gbind_assoc.
    rewrite (gbind_normal _ _ _ _ _ (a_set_table_ok s1 slot q table Hs ltac:(by rewrite Hcc))). fold s'.
    unfold mbind, g_bind. rewrite Hr. by destruct r as [s2 []]. }
  unfold actx_get_by_node in Ha'.
  assert (Hg : get_node (L := a_label) q (as_st s') = (as_st s', Normal nd)) by (unfold get_node; cbn; by rewrite Hw; cbn; rewrite Hnd).
  rewrite (gbind_normal _ _ _ _ _ (a_lift_same _ _ _ Hg)), Hac, a_get_ok in Ha'.
  change (s_world (as_st s')) with (s_world (as_st s1)) in Ha'. destruct (ctx_err _ c =? 0).
  - apply callback_again; [by apply (Ha' _ eq_refl)|done].
  - unfold run, redisClusterAsyncCallback, gcatch. by rewrite (gbind_normal _ _ _ _ _ (Ha' _ eq_refl)).
Qed.
End Callback.

(** ** Witnesses

    The world of [Script], which now also logs what is sent, with the clock at ten
    seconds. *)
Definition working_async {W} (command : W -> conn -> async_callback -> list bytes -> W) (formatted : W -> conn -> async_callback -> bytes -> W)
    : AsyncOps W := {|
  redisAsyncConnectWithOptions := fun w _ _ _ _ => (w, Some 9%positive);
  async_err := fun _ _ => 0;
  async_connected := fun _ _ => true;
  async_data := fun _ _ => None;
  redisAsyncCommand := fun w ac cb args => (command w ac cb args, REDIS_OK);
  redisAsyncFormattedCommand := fun w ac cb text => (formatted w ac cb text, REDIS_OK);
  redisAsyncSetConnectCallback := fun w _ _ => w;
  redisAsyncSetDisconnectCallback := fun w _ => w;
  redisAsyncDisconnect := fun w _ => (w, false);
  redisAeAttach := fun w _ => (w, REDIS_OK);
  redisLibevAttach := fun w _ => (w, REDIS_OK);
  redisLibeventAttach := fun w _ => (w, REDIS_OK);
  redisLibuvAttach := fun w _ => (w, REDIS_OK);
  g_source_attach := fun w _ => (w, 1);
  gettimeofday := fun _ => Some (10, 0);
  random := fun w => (w, 5)
|}.
#[export] Instance script_async : AsyncOps (list redisReply) :=
  working_async (fun w _ _ args => w ++ [REDIS_REPLY_ARRAY (REDIS_REPLY_STRING <$> args)])
    (fun w _ _ text => w ++ [REDIS_REPLY_STRING text]).

(** The second node has an open asynchronous connection. *)
Definition ex_async : astate (list redisReply) :=
  mkAstate (upd_heap (<[2%positive := n_set_con None (Some 2%positive) (ex_node 2 2)]>) (ex_cluster [])) 0 [] 0
    (Some redisLibeventAttach_link) false false false.

(** A user's function that leaves the reply it is given as an event. *)
Definition ex_user (fn privdata : Z) (reply : option redisReply) (s : astate (list redisReply)) : astate (list redisReply) :=
  a_upd (upd_events (ON_CONNECT 1 (match reply with Some _ => 1 | None => 0 end))) s.
Definition ex_data (n : Z) : cluster_async_data := mkAsyncData (ex_command 0) (Some 1) n 0.

Lemma selectNode_prefers_connected_witness :
  exists choice, selectNode (L := Empty_set) ex_nodes ex_async = (a_upd (set_world []) ex_async, Normal choice) /\
    good_choice [] (s_heap (as_st ex_async)) 9000000 (dict_pairs ex_nodes).*2 choice.
Proof.
  assert (Hin : Forall (fun e => is_Some (s_heap (as_st ex_async) !! e.2)) (dict_pairs ex_nodes)).
  { vm_compute (dict_pairs ex_nodes). repeat constructor; by eexists. }
  exact (selectNode_prefers_connected (L := Empty_set) ex_async ex_nodes [] 5 ex_nodes_ok Hin eq_refl).
Defined.

Lemma updateSlotMapAsync_exclusive_witness :
  updateSlotMapAsync (L := Empty_set) (Some 2%positive) ex_async =
    (a_put_last SLOTMAP_UPDATE_ONGOING (a_upd (set_world
       [REDIS_REPLY_ARRAY [REDIS_REPLY_STRING (str "CLUSTER"); REDIS_REPLY_STRING (str "NODES")]]) ex_async),
     Normal REDIS_OK).
Proof.
  pose proof (updateSlotMapAsync_exclusive (L := Empty_set) ex_async (Some 2%positive)) as (_ & E & _). exact E.
Defined.

Lemma redisClusterAsyncCallback_delivers_witness :
  redisClusterAsyncCallback ex_user (L := Empty_set) 2 PONG (Some (ex_data 0)) ex_async =
    (a_upd (upd_events (ON_CONNECT 1 1)) ex_async, Normal ()).
Proof.
  exact (redisClusterAsyncCallback_delivers ex_user (L := Empty_set) ex_async 2 (REDIS_REPLY_STATUS (str "PONG"))
    (ex_data 0) 1 eq_refl (or_introl (final_not_err PONG eq_refl))).
Defined.

Lemma ex_may_retry n : 0 <= n < 10 -> may_retry ex_async (ex_data n).
Proof. intros Hn. split; [unfold NO_RETRY; cbn; lia|]. split; [done|]. unfold INT_MIN, INT_MAX. cbn. lia. Qed.


Lemma redisClusterAsyncCallback_moved_witness :
  let s1 := after_throttle ex_async 1 in
  let s' := a_upd (table_set 0 2 {[0 := 1%positive; 1 := 2%positive]}) s1 in
  redisClusterAsyncCallback ex_user (L := Empty_set) 1 (head (ex_redirect (str "MOVED"))) (Some (ex_data 0)) ex_async =
    (a_upd (set_world (fst (resend s' 2 (ex_data 1)))) s', Normal ()).
Proof.
  assert (Hn : to_map ex_nodes !! address (str "h") 2 = Some 2%positive) by by rewrite ex_nodes_map.
  exact (redisClusterAsyncCallback_moved ex_user (L := Empty_set) ex_async 1 (ex_data 0) 1 0 (str "h") 2 2 _ 2 _ ex_nodes
    eq_refl (ex_intro _ _ eq_refl) (ex_may_retry 0 ltac:(lia)) eq_refl ltac:(by vm_compute) ltac:(done) ex_host_ok
    eq_refl eq_refl eq_refl ex_nodes_ok Hn eq_refl eq_refl).
Defined.
