(* ===== verification/AsyncSound.v ===== *)
(** * The invariant of the asynchronous client

    An asynchronous context is driven by the user's calls and by events of hiredis: replies
    to pending commands, and connections that end.  They may come in any order.  This file
    makes them a transition system and shows that every state it reaches is sound: the
    nodes in the heap are those of the context's dict, and the slot table points to them. *)
From S2P Require Import Prelude Hiutil System Crc16 Dict Goto Hiredis Cmddef Command Context Sds Fragment Nodes Topology Route Options Execute Client Async.
From S2P Require Import NodeProps Ownership TopoProps Script SlotMap OptionProps Frame Pipeline AsyncProps Triple Memory Safety Sound SoundExec Session.

(** ** Functions that keep the invariant where they end *)
Section Keeping.
Context {W : Type} `{HiredisOps W} `{AsyncOps W} {sds : SdsOps} {slaws : SdsLaws sds}.
Implicit Types (st : cstate W) (s : astate W).

Definition a_sound (n : Z) s : Prop := sound n (as_st s).

(** [guards n n' m]: from room for [n] nodes to room for [n'], at whatever end. *)
Definition guards {L A} (n n' : Z) (m : G (astate W) L A) : Prop :=
  forall s, a_sound n s -> triple True m s (fun s' _ => a_sound n' s') (fun s' _ => a_sound n' s').
(** The same for the functions below, on the context alone. *)
Definition saves {L A} (n : Z) (m : G (cstate W) L A) : Prop :=
  forall st, sound n st -> triple True m st (fun st' _ => sound n st') (fun st' _ => sound n st').

(** A function that needs room before one that needs less. *)
Lemma guards_seq {L A B} n1 n2 n3 (m : G (astate W) L A) (k : A -> G (astate W) L B) :
  guards n1 n2 m -> n3 <= n2 -> (forall a, guards n2 n3 (k a)) -> guards n1 n3 (m ≫= k).
Proof.
  intros Hm Hn Hk s Hs. eapply triple_bind with (Q := fun s' _ => a_sound n2 s'); [|intros s' a Ha; by apply Hk].
  eapply triple_mono; [by apply Hm|done|]. intros s' l Hl. by apply (sound_mono n2).
Qed.
Lemma guards_less {L A} n1 n2 (m : G (astate W) L A) : guards n1 n1 m -> n2 <= n1 -> guards n1 n2 m.
Proof. intros Hm Hn s Hs. eapply triple_mono; [by apply Hm|..]; intros s' x Hx; by apply (sound_mono n1). Qed.

Section Rules.
Context {L : Type} (n : Z).
Implicit Types (A B : Type).
Abbreviation keep := (guards (L := L) n n).

Lemma guards_ret {A} (a : A) : keep (mret a).
Proof. by intros s. Qed.
Lemma guards_goto {A} l : keep (goto (A := A) l).
Proof. by intros s. Qed.
Lemma guards_undefined {A} : keep (undefined (A := A)).
Proof. by intros s. Qed.
Lemma guards_def {A} (o : option A) : keep (gdef o).
Proof. destruct o; [apply guards_ret|apply guards_undefined]. Qed.
Lemma guards_some {A} l (o : option A) : keep (gsome l o).
Proof. destruct o; [apply guards_ret|apply guards_goto]. Qed.
Lemma guards_get : keep gget.
Proof. by intros s. Qed.
Lemma guards_modify f : (forall s, as_st (f s) = as_st s) -> keep (gmodify f).
Proof. intros Hf s Hs. change (sound n (as_st (f s))). by rewrite Hf. Qed.
Lemma guards_bind {A B} (m : G (astate W) L A) (k : A -> G (astate W) L B) : keep m -> (forall a, keep (k a)) -> keep (m ≫= k).
Proof. intros Hm Hk s Hs. eapply triple_bind; [by apply Hm|]. intros s' a Hs'. by apply Hk. Qed.
Lemma guards_lift {A} (m : G (cstate W) L A) : saves n m -> keep (a_lift m).
Proof. intros Hm s Hs. specialize (Hm _ Hs). unfold triple, a_lift in *. by destruct (m (as_st s)) as [st [a|l|]]. Qed.
End Rules.

Lemma guards_catch {L L' A} n n' (m : G (astate W) L A) (h : L -> G (astate W) L' A) :
  guards n n' m -> (forall l, guards n' n' (h l)) -> guards n n' (gcatch m h).
Proof. intros Hm Hh s Hs. eapply triple_catch; [by apply Hm|]. intros s' l Hs'. by apply Hh. Qed.

(** ** Steps on the context *)
Section Saving.
Context {L : Type} (n : Z).

Lemma saves_quiet {A} (m : G (cstate W) L A) : quiet True (fun _ _ => False) m -> saves n m.
Proof. intros Hm st Hs. eapply triple_mono; [apply Hm| |done]. intros st' a Ha. by eapply sound_after. Qed.
Lemma saves_whole {A} (m : G (cstate W) L A) : keeps whole (fun _ => False) m -> saves n m.
Proof.
  intros Hm st Hs. eapply triple_mono; [apply (whole_t m st (fun _ _ => False) Hm)| |done]. intros st' a [Ha _]. by eapply sound_after.
Qed.
Lemma saves_upd g : (forall cc, core (g cc) = core cc) -> saves (L := L) n (mod_cc g).
Proof. intros Hg st Hs. by apply sound_upd. Qed.
Lemma saves_alloc_or l : saves (L := L) n (alloc_or l).
Proof. intros st Hs. steps; by apply (sound_after _ st). Qed.
Lemma saves_get_node p : saves (L := L) n (get_node p).
Proof. intros st Hs. unfold triple, get_node. by destruct (_ !! _). Qed.
Lemma saves_put_node p f : (forall nd, like nd (f nd)) -> saves (L := L) n (put_node p f).
Proof.
  intros Hf st Hs. destruct (s_heap st !! p) as [nd|] eqn:Ep.
  - step. eapply (sound_touched n st _ p); [done|]. exists nd, (f nd). split; [done|]. split; [done|apply Hf].
  - unfold triple, put_node, mbind, g_bind, get_node. by rewrite Ep.
Qed.
End Saving.

(** ** Composing them *)
Lemma q_world {L} f : quiet True (fun (_ : cstate W) (_ : L) => False) (world f).
Proof. intros st. by step. Qed.
#[local] Hint Resolve q_world q_world_get q_world_call q_get_cc q_set_error q_ctx_error q_by_table q_ssl_fails : keeps.
#[local] Hint Resolve saves_get_node saves_alloc_or : keeps.

#[local] Ltac save :=
  first [solve [auto with keeps] | apply saves_quiet; solve [auto with keeps] | apply saves_upd; done
        | apply saves_put_node; intros; split; [done|by left] | apply saves_whole; solve [auto with keeps]].
#[local] Ltac guards_step :=
  lazymatch goal with
  | |- guards _ _ (mret _) => apply guards_ret
  | |- guards _ _ undefined => apply guards_undefined
  | |- guards _ _ (goto _) => apply guards_goto
  | |- guards _ _ (gdef _) => apply guards_def
  | |- guards _ _ (gsome _ _) => apply guards_some
  | |- guards _ _ gget => apply guards_get
  | |- guards _ _ (gmodify _) => apply guards_modify; intros; done
  | |- guards _ _ (mbind _ _) => apply guards_bind; [|intros]
  | |- guards _ _ (gcatch _ _) => apply guards_catch; [|intros]
  | |- guards _ _ (match ?x with _ => _ end) => destruct x
  | |- guards _ _ (a_lift _) => apply guards_lift; save
  | |- guards _ _ (a_world_get _) => apply guards_lift; save
  | |- guards _ _ (a_world_call _) => apply guards_lift; save
  | |- guards _ _ a_cc => apply guards_lift; save
  | |- guards _ _ a_now => apply guards_lift; save
  | |- _ => solve [auto with keeps]
  end.
#[local] Ltac guards := intros; cbn zeta; repeat (guards_step; cbn zeta).

Section Functions.
Context {L : Type} (n : Z).
Abbreviation keep := (guards (L := L) n n).

Lemma a_set_error_keep e t : keep (redisClusterAsyncSetError e t).
Proof. unfold redisClusterAsyncSetError. guards. Qed.
Hint Resolve a_set_error_keep : keeps.
Lemma a_ctx_error_keep ac : keep (a_ctx_error ac).
Proof. unfold a_ctx_error. guards. Qed.
Lemma a_async_error_keep ac : keep (a_async_error ac).
Proof. unfold a_async_error. guards. Qed.
Lemma a_cc_error_keep : keep a_cc_error.
Proof. unfold a_cc_error. guards. Qed.
Lemma a_fail_keep {X} ac (r : X) : keep (a_fail ac r).
Proof. unfold a_fail. guards. Qed.
Hint Resolve a_ctx_error_keep a_async_error_keep a_cc_error_keep a_fail_keep : keeps.
Lemma a_authenticate_keep ac : keep (a_authenticate ac).
Proof. unfold a_authenticate. guards. Qed.
Lemma a_link_keep p ac : keep (a_link p ac).
Proof. unfold a_link. guards. Qed.
Hint Resolve a_authenticate_keep a_link_keep : keeps.
Lemma actx_get_keep p : keep (actx_get_by_node p).
Proof. unfold actx_get_by_node. guards. Qed.
Hint Resolve actx_get_keep : keeps.
Lemma selectNode_keep d : keep (selectNode d).
Proof. unfold selectNode. guards. Qed.
Hint Resolve selectNode_keep : keeps.
Lemma initialize_keep : keep redisClusterAsyncInitialize.
Proof. unfold redisClusterAsyncInitialize. guards. apply guards_lift, saves_quiet. by intros st. Qed.
Lemma a_clear_errors_keep : keep a_clear_errors.
Proof.
  unfold a_clear_errors, clear_error. guards. apply guards_modify. intros s. by destruct (negb _).
Qed.
Lemma unlink_keep data : keep (unlinkAsyncContextAndNode data).
Proof. unfold unlinkAsyncContextAndNode. guards. Qed.
Hint Resolve unlink_keep : keeps.
Lemma disconnect_loop_keep es : keep (disconnect_loop es).
Proof. induction es as [|[k p] es IH]; cbn [disconnect_loop]; guards. Qed.
Hint Resolve disconnect_loop_keep : keeps.
End Functions.
#[local] Hint Resolve a_set_error_keep a_ctx_error_keep a_async_error_keep a_cc_error_keep actx_get_keep selectNode_keep
  a_clear_errors_keep disconnect_loop_keep : keeps.

Lemma update_conn_keep n ac : guards n n (a_update_conn ac).
Proof. unfold a_update_conn. guards. Qed.
#[local] Hint Resolve update_conn_keep : keeps.

Section Updates.
Context {L : Type} (n : Z).
Abbreviation keep := (guards (L := L) n n).

Lemma update_async_keep ac : keep (updateSlotMapAsync ac).
Proof. unfold updateSlotMapAsync. guards. Qed.
Hint Resolve update_async_keep : keeps.
Lemma throttled_keep ac : keep (throttledUpdateSlotMapAsync ac).
Proof. unfold throttledUpdateSlotMapAsync. guards. Qed.
Lemma connect2_keep : keep redisClusterAsyncConnect2.
Proof. unfold redisClusterAsyncConnect2. guards. Qed.

(** The new slot map of a reply. *)
Lemma slotmap_keep (parse : redisReply -> G (cstate W) L (option (dict bytes loc))) reply s : 0 <= n <= 2 ^ 28 -> a_sound n s ->
  (forall r st, reply = Some r -> core (s_cc st) = core (s_cc (as_st s)) -> triple True (parse r) st (parsed_safely (2 ^ 28) st) (fun _ _ => False)) ->
  triple True (slotmap_callback parse reply) s (fun s' _ => a_sound n s') (fun s' _ => a_sound n s').
Proof.
  intros Hn Hs Hp. unfold slotmap_callback.
  assert (Hup : keep (updateSlotMapAsync None;; mret ())) by guards.
  assert (Hnull : keep (slotmap_callback parse None)) by (unfold slotmap_callback; guards).
  destruct reply as [r|]; [|by apply Hnull].
  apply (triple_run _ _ _ s s (usec_now (s_world (as_st s)))); [by destruct s|].
  apply triple_modify.
  assert (Hl : triple True (a_lift (parse r)) (a_put_last (usec_now (s_world (as_st s))) s)
    (fun s' nodes => parsed_safely (2 ^ 28) (as_st s) (as_st s') nodes) (fun s' _ => False)).
  { specialize (Hp r (as_st s) eq_refl eq_refl). unfold triple, a_lift in *. cbn. by destruct (parse r (as_st s)) as [st [o|l|]]. }
  eapply triple_bind; [eapply triple_mono; [exact Hl|intros s' o Ho; exact Ho|done]|]. intros s1 o Ho.
  pose proof (updateNodes_t (L := L) True (fun _ _ => False) n (2 ^ 28) (as_st s) (as_st s1) o Hs Ho ltac:(lia) ltac:(lia)) as Hu.
  eapply triple_bind with (Q := fun s' r => a_sound n s').
  - unfold triple, a_lift in *. destruct (updateNodesAndSlotmap o (as_st s1)) as [st [z|l|]]; [|done|done].
    eapply (updated_sound n (as_st s)); [exact Hs|exact Hu].
  - intros s2 z Hs2. destruct (negb _); [by apply Hup|done].
Qed.
End Updates.
#[local] Hint Resolve throttled_keep : keeps.

(** ** Redirections *)
Definition known (p : loc) s : Prop := p ∈ (dict_pairs (node_dict (as_st s))).*2.

Lemma a_redirect_t n reply want s : 0 <= n -> a_sound (n + 1) s ->
  triple True (a_redirect reply want) s (fun s' '(p, _) => a_sound n s' /\ known p s') (fun s' _ => a_sound n s').
Proof.
  intros Hn Hs. unfold a_redirect.
  pose proof (redirect_t (L := a_label) True (fun _ _ => False) n reply want (as_st s) Hn Hs (or_intror I)) as Hr.
  eapply triple_bind with (Q := fun s' '(o, _) => a_sound n s' /\ forall p, o = Some p -> known p s').
  - unfold triple, a_lift in *. destruct (getNodeFromRedirectReply reply want (as_st s)) as [st [[o slot]|l|]]; [|done|done].
    destruct Hr as (H1 & _ & H3 & _). by split.
  - intros s1 [[p|] slot] [Hs1 Hp]; [steps; split; [done|by apply Hp]|].
    eapply triple_bind; [by apply (a_cc_error_keep n)|]. intros s2 [] Hs2. by apply triple_goto.
Qed.

Lemma a_set_table_t n slot p s : a_sound n s -> known p s ->
  triple True (a_set_table slot p) s (fun s' _ => a_sound n s') (fun s' _ => a_sound n s').
Proof.
  intros Hs Hp. unfold a_set_table. apply (triple_run _ _ _ s s (s_cc (as_st s))); [by destruct s|].
  destruct (0 <=? slot); [|done]. destruct (cc_table (s_cc (as_st s))) as [table|] eqn:Et; [|by apply triple_undefined].
  eapply triple_def; [reflexivity|]. destruct (REDIS_CLUSTER_SLOTS <=? slot) eqn:E; [by apply triple_undefined|].
  apply (sound_set_table n (as_st s) table); [done|done|lia|done].
Qed.

Lemma a_again_keep n ac t reply : 0 <= n -> guards (n + 1) n (a_again ac t reply).
Proof.
  intros Hn. unfold a_again. destruct t; try (apply guards_less; [solve [guards]|lia]).
  - apply (guards_seq _ (n + 1)); [guards|lia|]. intros _ s Hs.
    eapply triple_bind; [by apply a_redirect_t|]. intros s2 [p slot] [Hs2 Hp].
    eapply triple_bind; [by apply a_set_table_t|]. intros s3 [] Hs3. by apply actx_get_keep.
  - intros s Hs. eapply triple_bind; [by apply a_redirect_t|]. intros s2 [p slot] [Hs2 _]. revert s2 Hs2.
    match goal with |- forall s2, _ -> triple _ ?m s2 _ _ => change (guards n n m) end. guards.
Qed.
#[local] Hint Resolve a_again_keep : keeps.

Lemma a_body_keep n ac reply cad : 0 <= n -> guards (n + 1) n (a_body ac reply cad).
Proof.
  intros Hn. unfold a_body. destruct reply as [r|]; [|apply guards_less; [guards|lia]].
  apply (guards_seq _ (n + 1)); [guards|lia|]. intros cc. destruct (_ || _); [apply guards_less; [guards|lia]|].
  destruct (cluster_reply_error_type _) as [[]|]; try (apply guards_less; [solve [guards]|lia]);
    (destruct (_ <? _); [apply guards_less; [guards|lia]|]); (apply (guards_seq _ n); [by auto with keeps|lia|guards]).
Qed.

(** ** Commands and their replies *)
Lemma m_command_get_saves {L} n : saves (L := L) n m_command_get.
Proof. apply saves_whole, w_command_get. Qed.
Lemma m_format_saves {L} n realloc_ok errstr_ok num_str command : saves (L := L) n (m_format_by_slot realloc_ok errstr_ok num_str command).
Proof. apply saves_whole, format_k. Qed.
#[local] Hint Resolve m_command_get_saves m_format_saves : keeps.

Lemma a_command_keep n text len : guards n n (a_command text len).
Proof. unfold a_command. guards. Qed.
Lemma a_send_keep n ac cad text len : guards n n (a_send ac cad text len).
Proof. unfold a_send. guards. Qed.
#[local] Hint Resolve a_command_keep a_send_keep : keeps.
Lemma a_formatted_keep n realloc_ok errstr_ok num_str fn privdata text len :
  guards n n (a_formatted realloc_ok errstr_ok num_str fn privdata text len).
Proof. unfold a_formatted. guards. Qed.
#[local] Hint Resolve a_formatted_keep : keeps.
Lemma a_exit_keep {L} n oom m : guards n n m -> guards (L := L) n n (a_exit oom m).
Proof. intros Hm. unfold a_exit. guards. Qed.
Lemma formatted_keep {L} n realloc_ok errstr_ok num_str fn privdata text len :
  guards (L := L) n n (redisClusterAsyncFormattedCommand realloc_ok errstr_ok num_str fn privdata text len).
Proof. unfold redisClusterAsyncFormattedCommand. guards. apply a_exit_keep. guards. Qed.
Lemma to_node_keep {L} n p fn privdata text len :
  guards (L := L) n n (redisClusterAsyncFormattedCommandToNode p fn privdata text len).
Proof. unfold redisClusterAsyncFormattedCommandToNode. guards. apply a_exit_keep. guards. Qed.
Lemma disconnect_keep {L} n : guards (L := L) n n redisClusterAsyncDisconnect.
Proof.
  unfold redisClusterAsyncDisconnect, a_set_shutdown. apply guards_bind; [|guards].
  apply guards_lift. intros st Hs. by apply sound_flag.
Qed.
End Keeping.

(** ** The client as a transition system *)
Section System.
Context {W : Type} `{HiredisOps W} `{AsyncOps W} {sds : SdsOps} {slaws : SdsLaws sds}.
(** What the user's function does with the context keeps the invariant, as calls of the
    client do. *)
Context (user_callback : Z -> Z -> option redisReply -> astate W -> astate W).
Context (user_sound : forall fn privdata r s n, a_sound n s -> a_sound n (user_callback fn privdata r s)).

Lemma callback_keep {L} n ac reply cad : 0 <= n -> guards (L := L) (n + 1) n (redisClusterAsyncCallback user_callback ac reply cad).
Proof.
  intros Hn. unfold redisClusterAsyncCallback. destruct cad as [cad|]; [|apply guards_less; [apply guards_ret|lia]].
  apply (guards_catch _ n).
  - apply (guards_seq _ n); [by apply a_body_keep|lia|]. intros [ac_retry cad'].
    apply guards_bind; [apply guards_def|]. intros c. apply guards_bind; [apply guards_def|]. intros text.
    apply guards_bind; [apply guards_lift, saves_quiet; apply q_world_call|]. intros ret.
    destruct (negb _); [apply guards_goto|apply guards_ret].
  - intros []; try apply guards_ret. unfold a_finish. apply guards_bind; [apply guards_get|]. intros s.
    apply guards_bind; [apply guards_def|]. intros fn. apply guards_bind; [|intros; apply a_clear_errors_keep].
    intros s' Hs'. unfold triple, gmodify. by apply user_sound.
Qed.

(** What happens to a client: calls of the user, and events of hiredis. *)
Inductive happening :=
  | user_add_node (addr : bytes)
  | user_connect
  | user_attach (fn : adapter)
  | user_command (realloc_ok : Z -> bool) (errstr_ok : bool) (num_str : bytes) (fn : option Z) (privdata : Z) (text : bytes) (len : Z)
  | user_command_to_node (node : loc) (fn : option Z) (privdata : Z) (text : bytes) (len : Z)
  | user_disconnect
  | reply_to_command (ac : conn) (reply : option redisReply) (cad : option cluster_async_data)
  | reply_to_slots (ac : conn) (reply : option redisReply)
  | reply_to_nodes (ac : conn) (reply : option redisReply)
  | connection_ends (data : option loc).

Definition handle (e : happening) : G (astate W) Empty_set () :=
  match e with
  | user_add_node addr => a_lift (redisClusterSetOptionAddNode addr);; mret ()
  | user_connect => redisClusterAsyncConnect2;; mret ()
  | user_attach fn => gmodify (a_put_adapter fn)
  | user_command realloc_ok errstr_ok num_str fn privdata text len =>
      redisClusterAsyncFormattedCommand realloc_ok errstr_ok num_str fn privdata text len;; mret ()
  | user_command_to_node node fn privdata text len => redisClusterAsyncFormattedCommandToNode node fn privdata text len;; mret ()
  | user_disconnect => redisClusterAsyncDisconnect
  | reply_to_command ac reply cad => redisClusterAsyncCallback user_callback ac reply cad
  | reply_to_slots ac reply => clusterSlotsReplyCallback ac reply
  | reply_to_nodes ac reply => clusterNodesReplyCallback ac reply
  | connection_ends data => unlinkAsyncContextAndNode data
  end.

(** The replies to a request for the slot map have the size of a reply, and CLUSTER NODES
    is not parsed for slaves. *)
Definition may_happen (e : happening) (s : astate W) : Prop :=
  match e with
  | reply_to_slots _ reply => slots_bound reply (2 ^ 28)
  | reply_to_nodes _ (Some reply) =>
      Z.of_nat (length (reply_text reply)) <= 2 ^ 29 /\ flag_set (cc_flags (s_cc (as_st s))) HIRCLUSTER_FLAG_ADD_SLAVE = false
  | _ => True
  end.

Inductive happens : astate W -> astate W -> Prop :=
  happens_intro e s s' : may_happen e s -> handle e s = (s', Normal ()) -> happens s s'.

Lemma callback_t parse reply n s : 0 <= n -> n + 1 <= 2 ^ 28 -> a_sound (n + 1) s ->
  (forall r st, reply = Some r -> core (s_cc st) = core (s_cc (as_st s)) ->
     triple True (parse r) st (parsed_safely (2 ^ 28) st) (fun _ (_ : Empty_set) => False)) ->
  triple True (slotmap_callback parse reply) s (fun s' _ => a_sound n s') (fun s' _ => a_sound n s').
Proof.
  intros Hn Hb Hs Hp. eapply triple_mono; [apply (slotmap_keep (n + 1)); [lia|done|exact Hp]|..]; intros s' x Hx; by apply (sound_mono (n + 1)); [|lia].
Qed.

(** Each of them adds one node at most. *)
Lemma handle_sound e n s : 0 <= n -> n + 1 <= 2 ^ 28 -> a_sound (n + 1) s -> may_happen e s ->
  triple True (handle e) s (fun s' _ => a_sound n s') (fun s' _ => a_sound n s').
Proof.
  intros Hn Hb Hs He. assert (Hless : guards (n + 1) (n + 1) (handle e) -> triple True (handle e) s (fun s' _ => a_sound n s') (fun s' _ => a_sound n s')).
  { intros Hg. by apply (guards_less (n + 1) n); [|lia|]. }
  assert (Hbind : forall A (m : G (astate W) Empty_set A), guards (n + 1) (n + 1) m -> guards (n + 1) (n + 1) (m;; mret ())).
  { intros A m Hm. apply guards_bind; [done|]. intros. apply guards_ret. }
  destruct e as [addr| |fn|realloc_ok errstr_ok num_str fn privdata text len|node fn privdata text len| |ac reply cad|ac reply|ac reply|data]; cbn [handle] in *.
  - eapply triple_bind with (Q := fun s' _ => a_sound n s'); [|done].
    pose proof (add_node_t (L := Empty_set) True (fun _ _ => False) addr (as_st s) n Hn Hs) as Ha.
    unfold triple, a_lift in *. by destruct (redisClusterSetOptionAddNode addr (as_st s)) as [st [r|[]|]].
  - apply Hless, Hbind, connect2_keep.
  - apply Hless, guards_modify. done.
  - apply Hless, Hbind, formatted_keep.
  - apply Hless, Hbind, to_node_keep.
  - apply Hless, disconnect_keep.
  - by apply callback_keep.
  - apply callback_t; [done..|]. intros r st -> _. by apply parse_slots_t.
  - apply callback_t; [done..|]. intros r st -> [= _ _ Hf]. destruct He as [Ht Hfl]. apply parse_nodes_t; [done|lia|by rewrite Hf].
  - apply Hless, unlink_keep.
Qed.

Lemma happens_sound n s s' : 0 <= n -> n + 1 <= 2 ^ 28 -> a_sound (n + 1) s -> happens s s' -> a_sound n s'.
Proof.
  intros Hn Hb Hs Hst. destruct Hst as [e s s' He Eh]. pose proof (handle_sound e n s Hn Hb Hs He) as Ht. unfold triple in Ht. by rewrite Eh in Ht.
Qed.

Lemma nsteps_sound k s s' : nsteps happens k s s' -> forall n, 0 <= n -> n + Z.of_nat k <= 2 ^ 28 -> a_sound (n + Z.of_nat k) s -> a_sound n s'.
Proof.
  induction 1 as [s|k s s1 s' Hst _ IH]; intros n Hn Hb Hs; [by rewrite Z.add_0_r in Hs|].
  apply IH; [done|lia|]. apply (happens_sound (n + Z.of_nat k) s); [lia|lia| |done].
  by replace (n + Z.of_nat k + 1) with (n + Z.of_nat (S k)) by lia.
Qed.

(** C22. The invariant of the asynchronous client: from a new context, whatever the user calls
    and whatever hiredis reports, in any order and with any failing allocations, every
    state is well-formed: the heap holds exactly the nodes of the context's dict and their
    slaves, each one once, and the slot table points to nodes of the dict.  Freeing the
    context then leaves no node.  (At most 2^28 calls and events, each of which adds
    one node at most.) *)
Theorem async_client_sound (k : nat) (s0 s1 s2 : astate W) :
  s_heap (as_st s0) = ∅ -> redisClusterAsyncContextInit (L := Empty_set) s0 = (s1, Normal true) ->
  nsteps happens k s1 s2 -> Z.of_nat k <= 2 ^ 28 ->
  a_sound 0 s2 /\ exists s3, redisClusterAsyncFree (L := Empty_set) s2 = (s3, Normal ()) /\ s_heap (as_st s3) = ∅.
Proof.
  intros Hh Hi Hst Hk. assert (Hs1 : a_sound (2 ^ 28) s1).
  { assert (Hq : triple True (redisClusterAsyncContextInit (L := Empty_set)) s0 (fun s ok => if ok : bool then a_sound (2 ^ 28) s else True) (fun _ _ => True)).
    { unfold redisClusterAsyncContextInit. eapply triple_bind with (Q := fun s ok => if ok : bool then a_sound (2 ^ 28) s else True).
      - unfold redisClusterContextInit, alloc, triple, a_lift, mbind, g_bind, gmodify. destruct (s_allocs (as_st s0)) as [|[] ?]; cbn; try done; by apply init_sound.
      - intros s [] Hs; cbn; [|done]. eapply triple_bind with (Q := fun s _ => a_sound (2 ^ 28) s).
        + eapply triple_mono; [apply initialize_keep, Hs|done|done].
        + intros s' [] Hs'; [done|]. eapply triple_bind with (Q := fun _ _ => True); [|done].
          unfold triple. by destruct (a_lift redisClusterFree s') as [? [?|?|]]. }
    unfold triple in Hq. by rewrite Hi in Hq. }
  assert (Hs2 : a_sound 0 s2).
  { apply (nsteps_sound k s1 s2 Hst); [done|lia|]. by apply (sound_mono (2 ^ 28)); [|lia]. }
  split; [done|]. pose proof (sound_flag 0 HIRCLUSTER_FLAG_SHUTDOWN (as_st s2) eq_refl Hs2) as Hf.
  pose proof (free_t (L := Empty_set) False (fun _ _ => False) 0 _ ltac:(done) Hf) as Ht.
  unfold redisClusterAsyncFree, a_set_shutdown, mbind, g_bind. unfold triple in Ht. unfold a_lift at 1, mod_cc. cbn.
  unfold a_lift. cbn. destruct (redisClusterFree _) as [st [[]|[]|]]; [|done]. eexists. split; [reflexivity|exact (proj1 Ht)].
Qed.

Lemma happens_run e s : may_happen e s -> (handle e s).2 = Normal () -> happens s (handle e s).1.
Proof. intros He Hn. apply (happens_intro e); [done|]. destruct (handle e s) as [s' o].  cbn in *. by subst. Qed.
(** A run of given happenings, each of which ends. *)
Fixpoint run_ends (es : list happening) (s : astate W) : Prop :=
  match es with
  | [] => True
  | e :: es => may_happen e s /\ (handle e s).2 = Normal () /\ run_ends es (handle e s).1
  end.
Lemma run_steps es : forall s, run_ends es s -> nsteps happens (length es) s (foldl (fun s e => (handle e s).1) s es).
Proof.
  induction es as [|e es IH]; intros s He; [constructor|]. destruct He as (H1 & H2 & H3).
  econstructor; [by apply happens_run|by apply IH].
Qed.
End System.

(** ** Witness

    The slot map is asked for before any node is added, and a reply that breaks off arrives. *)
Definition ex_blank : astate (list redisReply) := mkAstate (ex_state cc_init []) 0 [] 0 None false false false.
Definition ex_begun : astate (list redisReply) := (redisClusterAsyncContextInit (L := Empty_set) ex_blank).1.

Lemma ex_user_sound fn privdata r (s : astate (list redisReply)) n : a_sound (H := script_ops) n s ->
  a_sound (H := script_ops) n (ex_user fn privdata r s).
Proof. intros Hs. by apply (sound_after n (as_st s)). Qed.

Definition ex_happenings : list happening :=
  [user_attach redisLibuvAttach_link; user_connect; reply_to_slots 9%positive (Some ex_broken_reply);
   connection_ends None; user_disconnect].
Definition ex_ran : astate (list redisReply) := foldl (fun s e => (handle ex_user e s).1) ex_begun ex_happenings.

Lemma async_client_sound_witness :
  a_sound (H := script_ops) 0 ex_ran /\
  exists s3, redisClusterAsyncFree (L := Empty_set) ex_ran = (s3, Normal ()) /\ s_heap (as_st s3) = ∅.
Proof.
  apply (async_client_sound ex_user ex_user_sound 5 ex_blank ex_begun); [reflexivity|reflexivity| |by vm_compute].
  apply (run_steps ex_user ex_happenings). repeat (split; [by vm_compute|split; [vm_compute; reflexivity|]]). exact I.
Defined.
