(* ===== verification/Cluster.v ===== *)
(** * A command from the user to the cluster and back

    The components together: [redisClusterFormattedCommand] parses the command, finds the
    slots of its keys, sends it, or its parts, to the nodes that serve them and puts
    the replies together.  On a cluster that holds a key-value store, each node the keys of
    its slots, the user gets what one server with the whole store would answer. *)
From S2P Require Import Prelude Hiutil Crc16 Hiarray Dict Goto Hiredis Cmddef Lookup Command Context Sds Fragment Split Nodes Topology Route Execute.
From S2P Require Import NodeProps Script Frame ExecProps Client Triple Session.

(** ** The MGET command *)
Lemma filter_every {A} (P : A -> Prop) `{forall x, Decision (P x)} (l : list A) : (forall x, P x) -> filter P l = l.
Proof. intros HP. induction l as [|x l IH]; [done|]. by rewrite filter_cons, decide_True, IH. Qed.

Lemma mget_parses k keys : parse_spec (str "MGET" :: k :: keys) = inl (CMD_REQ_REDIS_MGET, seq 1 (S (length keys))).
Proof.
  assert (E : exists info, redis_lookup_cmd (str "MGET") (Some k) = Some info /\ cd_type info = CMD_REQ_REDIS_MGET /\
    cd_arity info = -2 /\ firstkeymethod info = KEYPOS_INDEX /\ firstkeypos info = 1).
  { eexists. split; [vm_compute; reflexivity|]. done. }
  destruct E as (info & E & Ht & Ha & Hm & Hp). unfold parse_spec. cbn zeta.
  change ((str "MGET" :: k :: keys) !!! 0%nat) with (str "MGET"). change ((str "MGET" :: k :: keys) !! 1%nat) with (Some k).
  rewrite E. unfold key_indices, arity_error. rewrite Ha, Hm, Hp, Ht. cbn [length].
  replace (0 <=? -2) with false by done. replace (-2 <? 0) with true by done.
  replace (Z.of_nat (S (S (length keys))) <? - -2) with false by (symmetry; apply Z.ltb_ge; lia). cbn [andb orb].
  replace (S (S (length keys)) <=? 1)%nat with false by (symmetry; apply Nat.leb_gt; lia).
  change (Z.to_nat (Z.max 1 1)) with 1%nat. change ((str "MGET" :: k :: keys) !! 1%nat) with (Some k).
  cbn [mbind option_bind is_argx is_argkvx orb andb]. rewrite bool_decide_false by done. cbn [andb].
  unfold more_keys. rewrite filter_every by done. cbn. by rewrite Nat.sub_0_r.
Qed.

(** ** A cluster that holds a store *)
Section Store.
Context {W : Type} `{HiredisOps W} {sds : SdsOps}.
Implicit Types (st : cstate W) (w : W).
Context (ok : W -> Prop) (store : gmap bytes bytes).

(** What GET of a key gives. *)
Definition value (k : bytes) : redisReply :=
  match store !! k with Some v => REDIS_REPLY_STRING v | None => REDIS_REPLY_NIL end.

(** The node behind a connection answers MGET of keys of its slot. *)
Definition answers_mget c (slot : Z) : Prop := forall w name keys, ok w -> name ∈ [str "MGET"; str "mget"] -> keys ≠ [] ->
  Forall (fun k => keyHashSlot k = slot) keys ->
  exists w', ok w' /\ exchange c (fmt_cmd (name :: keys)) w w' (Some (REDIS_REPLY_ARRAY (value <$> keys))).

(** The context's slot table leads each key to a node that answers for it. *)
Definition cluster_holds st (keys : list bytes) : Prop := forall k, k ∈ keys ->
  exists p c, (forall w, ok w -> serves (set_world w st) (keyHashSlot k) p c) /\ answers_mget c (keyHashSlot k).

Definition may_execute st : Prop := cc_need_update_route (s_cc st) = 0 /\
  0 <= cc_retry_count (s_cc st) <= cc_max_retry_count (s_cc st) /\ cc_max_retry_count (s_cc st) < INT_MAX.

Lemma execute_busy {L} command text st p c n w reply : cmd_bytes command = Some text -> serves st (c_slot_num command) p c ->
  may_execute st -> busy_then c text n (s_world st) w reply -> cc_retry_count (s_cc st) + Z.of_nat n <= cc_max_retry_count (s_cc st) ->
  redis_cluster_command_execute (L := L) command st = (retried n w st, Normal reply).
Proof.
  intros Ht Hs (Hu & Hr & Hm) Hb Hn. unfold redis_cluster_command_execute.
  rewrite (x_loop_busy command text (c_slot_num command) p c n (s_world st) w reply); try done; [by left|unfold INT_MIN; lia|unfold x_fuel_of; lia].
Qed.

Lemma execute_now {L} command text st p c w reply : cmd_bytes command = Some text -> serves st (c_slot_num command) p c ->
  may_execute st -> exchange c text (s_world st) w reply -> final reply ->
  redis_cluster_command_execute (L := L) command st = (set_world w st, Normal reply).
Proof.
  intros Ht Hs Hm He Hf. rewrite <- (retried_0 w st). pose proof Hm as (_ & Hr & _).
  apply (execute_busy command text st p c 0); try done; [by apply answers_now|lia].
Qed.

Lemma final_array es : final (Some (REDIS_REPLY_ARRAY es)).
Proof. by apply final_not_err. Qed.

(** ** The parts of a split MGET *)
Section Split.
Context (argv : list bytes) (idx : list nat).
Abbreviation t := CMD_REQ_REDIS_MGET.

(** The keys of a slot, and the values for them. *)
Definition part (slot : Z) : list nat := filter (fun i => key_slot argv i = slot) idx.
Definition part_reply (slot : Z) : redisReply := REDIS_REPLY_ARRAY ((fun i => value (argv !!! i)) <$> part slot).
Definition answered (sub : cmd) : cmd := set_reply sub (Some (part_reply (c_slot_num sub))).

Lemma mget_split_argv slot : split_argv t argv idx slot = str "mget" :: ((fun i => argv !!! i) <$> part slot).
Proof. unfold split_argv. f_equal. fold (part slot). induction (part slot) as [|i l IH]; [done|]. cbn. by rewrite <- IH. Qed.

Lemma sub_bytes slot sub : is_sub argv t idx slot sub ->
  cmd_bytes sub = Some (fmt_cmd (str "mget" :: ((fun i => argv !!! i) <$> part slot))).
Proof.
  intros (_ & _ & _ & Hc & Hl). unfold cmd_bytes. rewrite Hc, Hl, Nat2Z.id. cbn [mbind option_bind].
  by rewrite firstn_all, mget_split_argv.
Qed.

Lemma part_answers c slot w : answers_mget c slot -> ok w -> (exists i, i ∈ idx /\ key_slot argv i = slot) ->
  exists w', ok w' /\ exchange c (fmt_cmd (str "mget" :: ((fun i => argv !!! i) <$> part slot))) w w' (Some (part_reply slot)).
Proof.
  intros Ha Hw (i & Hi & Hs). destruct (Ha w (str "mget") ((fun i => argv !!! i) <$> part slot) Hw) as (w' & Hw' & He).
  - right. left.
  - intros Hn%fmap_nil_inv. assert (Hin : i ∈ part slot) by (by apply list_elem_of_filter). rewrite Hn in Hin. by apply elem_of_nil in Hin.
  - apply Forall_fmap, Forall_forall. intros j Hj. by apply list_elem_of_filter in Hj as [Hj _].
  - exists w'. split; [done|]. unfold part_reply. by rewrite <- list_fmap_compose in He.
Qed.

Lemma answered_slots slots subs : Forall2 (is_sub argv t idx) slots subs -> c_slot_num <$> (answered <$> subs) = slots.
Proof. induction 1 as [|slot c slots cs (Hs & _) _ IH]; [done|]. rewrite !fmap_cons, IH. cbn. by rewrite Hs. Qed.

Lemma answered_holds slots subs : Forall2 (is_sub argv t idx) slots subs ->
  holds_answers (key_slot argv) (fun i => value (argv !!! i)) slots idx (answered <$> subs).
Proof.
  intros Hs. split; [by apply answered_slots|]. apply Forall_fmap, Forall_forall. intros sub _. reflexivity.
Qed.

Lemma execute_subs_mget {L} st slots subs : Forall2 (is_sub argv t idx) slots subs -> may_execute st ->
  (forall slot, slot ∈ slots -> (exists i, i ∈ idx /\ key_slot argv i = slot) /\
     exists p c, (forall w, ok w -> serves (set_world w st) slot p c) /\ answers_mget c slot) ->
  forall w done_, ok w -> exists w', ok w' /\
    execute_subs (L := L) subs done_ (set_world w st) = (set_world w' st, Normal (inl (done_ ++ (answered <$> subs)))).
Proof.
  intros Hf Hm. induction Hf as [|slot sub slots subs Hsub Hf IH]; intros Hs w done_ Hw.
  { exists w. split; [done|]. cbn. by rewrite app_nil_r. }
  destruct (Hs slot) as (Hi & p & c & Hserve & Ha); [left|]. pose proof Hsub as (Hslot & _).
  destruct (part_answers c slot w Ha Hw Hi) as (w1 & Hw1 & He).
  destruct (IH ltac:(intros; apply Hs; by right) w1 (done_ ++ [answered sub]) Hw1) as (w2 & Hw2 & E).
  exists w2. split; [done|]. cbn [execute_subs].
  rewrite (gbind_normal _ _ _ (set_world w1 st) (Some (part_reply slot))).
  - cbn [part_reply]. rewrite <- Hslot. change (execute_subs (L := L) subs (done_ ++ [answered sub]) (set_world w1 st) = (set_world w2 st, Normal (inl (done_ ++ answered sub :: (answered <$> subs))))).
    rewrite E. by rewrite <- app_assoc.
  - rewrite (execute_now sub _ (set_world w st) p c w1 (Some (part_reply slot)) (sub_bytes slot sub Hsub)); try done.
    + rewrite Hslot. by apply Hserve.
    + apply final_array.
Qed.
End Split.

(** ** From the text to the parts *)

(** What a call leaves of the state: the nodes, the slots and the retry settings. *)
Definition like st st' : Prop := s_heap st' = s_heap st /\ cc_table (s_cc st') = cc_table (s_cc st) /\
  cc_need_update_route (s_cc st') = cc_need_update_route (s_cc st) /\
  cc_retry_count (s_cc st') = cc_retry_count (s_cc st) /\ cc_max_retry_count (s_cc st') = cc_max_retry_count (s_cc st).

Lemma like_may_execute st st' : like st st' -> may_execute st -> may_execute st'.
Proof. unfold may_execute. by intros (_ & _ & -> & -> & ->). Qed.

Lemma like_serves st st' w slot p c : like st st' -> serves (set_world w st) slot p c -> serves (set_world w st') slot p c.
Proof. intros (Hh & Ht & _). unfold serves. cbn. by rewrite Hh, Ht. Qed.

Lemma like_holds st st' keys : like st st' -> cluster_holds st keys -> cluster_holds st' keys.
Proof.
  intros Hl Hc k Hk. destruct (Hc k Hk) as (p & c & Hs & Ha). exists p, c. split; [|done].
  intros w Hw. apply (like_serves st); auto.
Qed.

Section Formatted.
Context {L : Type} (num_str : bytes).
Abbreviation M := (G (cstate W) L).
Abbreviation formatted := (redisClusterFormattedCommand (L := L) (fun _ => true) true num_str).

Lemma set_world_id st : set_world (s_world st) st = st.
Proof. by destruct st. Qed.
Lemma alloc_granted {L'} st : s_allocs st = [] -> alloc (L := L') st = (st, Normal true).
Proof. destruct st. cbn. by intros ->. Qed.

Lemma formatted_bytes command argv c : formatted_cmd command argv [] -> c_cmd c = c_cmd command -> c_clen c = c_clen command ->
  cmd_bytes c = Some (fmt_cmd argv).
Proof.
  intros (_ & H1 & H2 & _) E1 E2. unfold cmd_bytes. rewrite E1, E2, H1, H2, Nat2Z.id, app_nil_r. cbn [mbind option_bind].
  by rewrite firstn_all.
Qed.

(** What follows the slot of the command. *)
Definition run_parts (command : cmd) (commands : list cmd) : M (option redisReply) :=
  match commands with
  | [] => redis_cluster_command_execute command
  | _ =>
      r ← execute_subs commands [];
      match r with
      | inl commands => m_post_fragment command commands
      | inr reply => mret reply
      end
  end.

Lemma command_made argv st : s_allocs st = [] -> argv <> [] -> Z.of_nat (length (fmt_cmd argv)) < 2 ^ 31 ->
  exists id c, m_command_get (L := L) st = (upd_cmd_id (fun _ => id) st, Normal (Some c)) /\
    formatted_cmd (set_cmd c (Some (fmt_cmd argv)) (Z.of_nat (length (fmt_cmd argv)))) argv [].
Proof.
  intros Ha Hn Hl. destruct (hiarray_create_holds (A := keypos) sizeof_keypos) as (keys & Hk & Hh); [unfold sizeof_keypos; lia|].
  exists (u64 (s_cmd_id st + 1)), (mkCmd (u64 (s_cmd_id st + 1)) CMD_PARSE_OK None CMD_UNKNOWN None 0 keys 0 false false (-1) None None None None).
  split; [|unfold formatted_cmd; cbn; by rewrite app_nil_r].
  unfold m_command_get. do 3 rewrite (gbind_normal _ _ _ _ _ (alloc_granted st Ha)). rewrite gbind_get.
  unfold command_get. cbn [negb]. rewrite Hk. reflexivity.
Qed.

Lemma formatted_start argv st : s_allocs st = [] -> argv <> [] -> Z.of_nat (length (fmt_cmd argv)) < 2 ^ 31 ->
  exists st1 c, formatted_cmd c argv [] /\ s_allocs st1 = [] /\ s_world st1 = s_world st /\ like st st1 /\ settings st1 = settings st /\
    forall st2 slot c' subs, m_format_by_slot (L := L) (fun _ => true) true num_str c st1 = (st2, Normal (slot, c', subs)) ->
      0 <= slot < REDIS_CLUSTER_SLOTS ->
      formatted (fmt_cmd argv) (Z.of_nat (length (fmt_cmd argv))) st
        = (reply ← run_parts c' subs; reset_retry;; mret reply) st2.
Proof.
  intros Ha Hn Hl. set (st0 := if negb (cc_err (s_cc st) =? 0) then upd_cc (cc_set_error 0 []) st else st).
  assert (H0 : s_allocs st0 = [] /\ s_world st0 = s_world st /\ like st st0 /\ settings st0 = settings st) by (unfold st0; by destruct (negb _)).
  destruct H0 as (Ha0 & Hw0 & Hl0 & Hs0). destruct (command_made argv st0 Ha0 Hn Hl) as (id & c & Ec & Hf).
  eexists (upd_cmd_id (fun _ => id) st0), _. split_and!; [exact Hf|done..|].
  intros st2 slot c' subs Hfmt Hs. unfold redisClusterFormattedCommand.
  assert (E0 : (if negb (cc_err (s_cc st) =? 0) then clear_error else mret () : M ()) st = (st0, Normal ())) by (unfold st0; by destruct (negb _)).
  rewrite (gbind_normal get_cc _ st st (s_cc st) eq_refl), (gbind_normal _ _ _ _ _ E0), (gbind_normal _ _ _ _ _ Ec).
  rewrite (gbind_normal _ _ _ _ _ (alloc_granted (upd_cmd_id (fun _ => id) st0) Ha0)). cbn [negb].
  rewrite (gbind_normal _ _ _ _ _ Hfmt). cbn beta iota.
  replace (slot <? 0) with false by (symmetry; apply Z.ltb_ge; lia).
  replace (REDIS_CLUSTER_SLOTS <=? slot) with false by (symmetry; apply Z.leb_gt; lia). done.
Qed.

(** A command with one key is not split. *)
Lemma one_key_nonempty argv t i : parse_spec argv = inl (t, [i]) -> argv <> [].
Proof. intros Hps. pose proof (parse_spec_bound argv t [i] Hps) as Hi. apply Forall_cons in Hi as [Hi _]. destruct argv; [cbn in Hi; lia|done]. Qed.

Lemma one_key_formats argv t i st command : parse_spec argv = inl (t, [i]) -> formatted_cmd command argv [] ->
  exists c, m_format_by_slot (L := L) (fun _ => true) true num_str command st = (st, Normal (key_slot argv i, c, [])) /\
    c_slot_num c = key_slot argv i /\ cmd_bytes c = Some (fmt_cmd argv).
Proof.
  intros Hps Hf. pose proof (command_format_by_slot_unsplit command argv [] num_str [] st Hf) as Hu. rewrite Hps in Hu.
  destruct Hu as (c & E & Hslot & Hcm & Hcl). exists c. split; [unfold m_format_by_slot; by rewrite E|].
  split; [done|]. by apply (formatted_bytes command).
Qed.

Lemma one_key_runs argv t i st : parse_spec argv = inl (t, [i]) -> Z.of_nat (length (fmt_cmd argv)) < 2 ^ 31 ->
  s_allocs st = [] ->
  exists st1 c, s_allocs st1 = [] /\ s_world st1 = s_world st /\ like st st1 /\ settings st1 = settings st /\
    c_slot_num c = keyHashSlot (argv !!! i) /\ cmd_bytes c = Some (fmt_cmd argv) /\
    forall st2 reply, redis_cluster_command_execute (L := L) c st1 = (st2, Normal reply) ->
      formatted (fmt_cmd argv) (Z.of_nat (length (fmt_cmd argv))) st
        = (upd_cc (fun cc => cc_set_retry 0 (cc_need_update_route cc) cc) st2, Normal reply).
Proof.
  intros Hps Hlen Ha. pose proof (keyHashSlot_bounds (argv !!! i)) as Hs.
  destruct (formatted_start argv st Ha (one_key_nonempty argv t i Hps) Hlen) as (st1 & command & Hf & Ha1 & Hw1 & Hl1 & Hst & Hstart).
  destruct (one_key_formats argv t i st1 command Hps Hf) as (c & Hfmt & Hslot & Hbytes).
  exists st1, c. split_and!; try done. intros st2 reply Hx. rewrite (Hstart _ _ _ _ Hfmt Hs). by rewrite (gbind_normal _ _ _ _ _ Hx).
Qed.

(** C3. A command with one key reaches the node of the key's slot.  Whatever the command, when the
    slot's connection answers the bytes of the command, after TRYAGAIN or CLUSTERDOWN for at most
    as many times as retries are allowed, the user gets that answer.  Nothing else is sent,
    and nodes, slots and settings stay as they are, with the retry counter at 0 again. *)
Theorem redisClusterFormattedCommand_routes argv t i st p c n w reply :
  parse_spec argv = inl (t, [i]) -> Z.of_nat (length (fmt_cmd argv)) < 2 ^ 31 ->
  serves st (keyHashSlot (argv !!! i)) p c -> s_allocs st = [] -> may_execute st ->
  busy_then c (fmt_cmd argv) n (s_world st) w reply -> cc_retry_count (s_cc st) + Z.of_nat n <= cc_max_retry_count (s_cc st) ->
  exists st', formatted (fmt_cmd argv) (Z.of_nat (length (fmt_cmd argv))) st = (st', Normal reply) /\
    s_world st' = w /\ s_heap st' = s_heap st /\ cc_table (s_cc st') = cc_table (s_cc st) /\
    s_allocs st' = [] /\ cc_retry_count (s_cc st') = 0 /\ may_execute st'.
Proof.
  intros Hps Hlen Hs Ha Hm Hb Hn.
  destruct (one_key_runs argv t i st Hps Hlen Ha) as (st1 & c' & Ha1 & Hw1 & Hl1 & _ & Hslot & Hbytes & Hrun).
  assert (Hx : redis_cluster_command_execute (L := L) c' st1 = (retried n w st1, Normal reply)).
  { apply (execute_busy c' (fmt_cmd argv) st1 p c); try done.
    - rewrite Hslot. rewrite <- (set_world_id st1), Hw1. apply (like_serves st); [done|]. by rewrite set_world_id.
    - by apply (like_may_execute st).
    - by rewrite Hw1.
    - by destruct Hl1 as (_ & _ & _ & -> & ->). }
  rewrite (Hrun _ _ Hx). eexists. split; [reflexivity|]. cbn.
  destruct Hl1 as (Hh1 & Ht1 & Hn1 & _ & Hm1). destruct Hm as (Hnu & Hr0 & Hmax). unfold may_execute. cbn.
  rewrite Hh1, Ht1, Hn1, Hm1. split_and!; try done. all: lia.
Qed.

(** ** MGET *)
Section Mget.
Context (Hnum : length num_str = 12%nat) (keys : list bytes) (Hkeys : keys <> []).
Abbreviation argv := (str "MGET" :: keys).
Abbreviation idx := (seq 1 (length keys)).
Abbreviation values := (REDIS_REPLY_ARRAY (value <$> keys)).

Lemma values_by_index : (fun i => value (argv !!! i)) <$> idx = value <$> keys.
Proof.
  rewrite <- fmap_S_seq, <- list_fmap_compose. apply list_eq. intros i. rewrite !list_lookup_fmap.
  destruct (keys !! i) as [k|] eqn:E; cbn.
  - rewrite lookup_seq_lt by (by eapply lookup_lt_Some). change (Some (value (keys !!! i)) = Some (value k)). by rewrite (list_lookup_total_correct _ _ _ E).
  - by rewrite lookup_seq_ge by (by apply lookup_ge_None).
Qed.

Lemma index_key i : i ∈ idx -> argv !!! i ∈ keys.
Proof.
  intros Hi. apply elem_of_seq in Hi. destruct i as [|i]; [lia|].
  destruct (lookup_lt_is_Some_2 keys i) as [k E]; [lia|]. change (keys !!! i ∈ keys). rewrite (list_lookup_total_correct _ _ _ E).
  by apply list_elem_of_lookup_2 in E.
Qed.

Lemma key_index k : k ∈ keys -> exists i, i ∈ idx /\ argv !!! i = k.
Proof.
  intros (i & E)%list_elem_of_lookup_1. exists (S i). pose proof (lookup_lt_Some _ _ _ E).
  split; [apply elem_of_seq; lia|]. by apply (list_lookup_total_correct keys).
Qed.

Lemma split_slot_in i : i ∈ idx -> key_slot argv i ∈ split_slots argv idx.
Proof.
  intros Hi. apply list_elem_of_filter. split; [by apply list_elem_of_fmap_2|].
  apply elem_of_all_slots. exact (keyHashSlot_bounds (argv !!! i)).
Qed.

Lemma split_slot_from slot : slot ∈ split_slots argv idx -> exists i, i ∈ idx /\ slot = key_slot argv i.
Proof. unfold split_slots. rewrite list_elem_of_filter. intros [(i & -> & Hi)%list_elem_of_fmap _]. by exists i. Qed.

Lemma split_slots_nodup : NoDup (split_slots argv idx).
Proof. unfold split_slots. apply NoDup_filter, all_slots_nodup. Qed.

Lemma split_slot_holds st i : cluster_holds st keys -> i ∈ idx ->
  exists p c, (forall w, ok w -> serves (set_world w st) (key_slot argv i) p c) /\ answers_mget c (key_slot argv i).
Proof. intros Hc Hi. unfold key_slot. by apply Hc, index_key. Qed.

(** All keys in one slot: the command is sent as it is. *)
Lemma run_whole st command slot : cmd_bytes command = Some (fmt_cmd argv) -> c_slot_num command = slot ->
  (forall k, k ∈ keys -> keyHashSlot k = slot) -> cluster_holds st keys -> may_execute st -> ok (s_world st) ->
  exists w, ok w /\ run_parts command [] st = (set_world w st, Normal (Some values)).
Proof.
  intros Hb Hslot Hall Hc Hm Hw. destruct keys as [|k ks] eqn:Ek; [done|]. rewrite <- Ek in *.
  destruct (Hc k) as (p & c & Hs & Ha); [rewrite Ek; left|]. rewrite (Hall k) in Hs, Ha by (rewrite Ek; left).
  destruct (Ha (s_world st) (str "MGET") keys Hw) as (w & Hw' & He); [left|by rewrite Ek|by apply Forall_forall|].
  exists w. split; [done|]. unfold run_parts. rewrite (execute_now command _ st p c w (Some values) Hb); try done; [|apply final_array].
  rewrite Hslot. specialize (Hs (s_world st) Hw). unfold set_world in Hs. by destruct st.
Qed.

Lemma post_fragment_normal command commands st st' r commands' :
  command_post_fragment command commands st = (st', Normal (r, commands')) ->
  m_post_fragment (L := L) command commands st = (st', Normal r).
Proof. intros E. unfold m_post_fragment, gcatch, mbind, g_bind. by rewrite E. Qed.

Lemma run_parts_split command subs : subs <> [] -> run_parts command subs =
  (r ← execute_subs subs []; match r with inl commands => m_post_fragment command commands | inr reply => mret reply end).
Proof. by destruct subs. Qed.

(** Keys of several slots: the parts are sent one after the other and merged. *)
Lemma run_split st command subs : c_type command = CMD_REQ_REDIS_MGET -> c_frag_seq command = Some (key_slot argv <$> idx) ->
  Forall2 (is_sub argv CMD_REQ_REDIS_MGET idx) (split_slots argv idx) subs -> subs <> [] ->
  cluster_holds st keys -> may_execute st -> ok (s_world st) -> s_allocs st = [] ->
  exists w, ok w /\ run_parts command subs st = (set_world w st, Normal (Some values)).
Proof.
  intros Ht Hf Hsub Hne Hc Hm Hw Ha.
  destruct (execute_subs_mget argv idx (L := L) st _ subs Hsub Hm) with (w := s_world st) (done_ := @nil cmd) as (w & Hw' & E); [|done|].
  { intros slot (i & Hi & ->)%split_slot_from. split; [by exists i|]. by apply split_slot_holds. }
  exists w. split; [done|]. rewrite (run_parts_split _ _ Hne).
  rewrite set_world_id, app_nil_l in E. rewrite (gbind_normal _ _ _ _ _ E).
  destruct (command_post_fragment_mget (W := W) command idx (key_slot argv) (fun i => value (argv !!! i)) (split_slots argv idx)
    (answered argv idx <$> subs) (set_world w st) Ht Hf split_slots_nodup) as (subs2 & Hp).
  { apply Forall_forall. apply split_slot_in. }
  { by apply answered_holds. }
  { exact Ha. }
  rewrite values_by_index in Hp. exact (post_fragment_normal _ _ _ _ _ _ Hp).
Qed.

(** Splitting the command gives parts that, together, are answered with all the values. *)
Lemma mget_runs st command : formatted_cmd command argv [] -> s_allocs st = [] -> Z.of_nat (length (fmt_cmd argv)) < 2 ^ 30 ->
  Forall (fun k => k <> []) keys -> cluster_holds st keys -> may_execute st -> ok (s_world st) ->
  exists st2 slot c' subs w,
    m_format_by_slot (L := L) (fun _ => true) true num_str command st = (st2, Normal (slot, c', subs)) /\
    0 <= slot < REDIS_CLUSTER_SLOTS /\ s_cc st2 = s_cc st /\ s_heap st2 = s_heap st /\ s_allocs st2 = [] /\
    ok w /\ run_parts c' subs st2 = (set_world w st2, Normal (Some values)).
Proof.
  intros Hf Ha Hlen Hne Hc Hm Hw.
  assert (Hps : parse_spec argv = inl (CMD_REQ_REDIS_MGET, idx)) by (destruct keys as [|k ks]; [done|apply mget_parses]).
  assert (Hslots : forall i, 0 <= key_slot argv i < REDIS_CLUSTER_SLOTS) by (intros i; exact (keyHashSlot_bounds (argv !!! i))).
  assert (Hbytes : forall c, c_cmd c = c_cmd command -> c_clen c = c_clen command -> cmd_bytes c = Some (fmt_cmd argv)) by (intros c; by apply formatted_bytes).
  destruct (decide (length keys = 1%nat)) as [E1|E1].
  - pose proof (command_format_by_slot_unsplit command argv [] num_str [] st Hf) as Hu. rewrite Hps, E1 in Hu. cbn [seq] in Hu.
    destruct Hu as (c & E & Hs & Hcm & Hl).
    destruct (run_whole st c (key_slot argv 1)) as (w & Hw' & Hr); try done; [by apply Hbytes| |].
    { destruct keys as [|k [|]]; try done. intros k' Hk'. by apply list_elem_of_singleton in Hk' as ->. }
    exists st, (key_slot argv 1), c, [], w. unfold m_format_by_slot. by rewrite E.
  - assert (Hl : (1 < length idx)%nat) by (rewrite length_seq; destruct keys as [|? [|]]; cbn in *; [done..|lia]).
    destruct (format_splits command argv [] num_str st CMD_REQ_REDIS_MGET idx Hf Hlen Hnum Ha Hps Hl) as
      (st2 & slot & c' & subs & E & Hcc & Hal & Hcl & Hcm & Ht & Hp & Hlast & Hparts).
    { apply Forall_forall. intros i Hi. rewrite Forall_forall in Hne. apply Hne. by apply index_key. }
    assert (Hfmt : m_format_by_slot (L := L) (fun _ => true) true num_str command st = (st2, Normal (slot, c', subs)))
      by (unfold m_format_by_slot; by rewrite E).
    pose proof (format_k (L := L) (fun _ => False) (fun _ => true) true num_str command st) as Hk. rewrite Hfmt in Hk.
    injection Hk as Hheap Hworld _ _ _ _ _ _.
    assert (Hlike : like st st2) by (unfold like; by rewrite Hheap, Hcc).
    pose proof (like_holds _ _ _ Hlike Hc) as Hc2. pose proof (like_may_execute _ _ Hlike Hm) as Hm2.
    assert (Hin : slot ∈ key_slot argv <$> idx) by (rewrite last_lookup in Hlast; by apply list_elem_of_lookup_2 in Hlast).
    assert (Hrun : exists w, ok w /\ run_parts c' subs st2 = (set_world w st2, Normal (Some values))).
    { destruct (length (split_slots argv idx) =? 1)%nat eqn:E2.
      - destruct Hparts as (-> & Hs & _). apply (run_whole st2 c' slot); try done; [by apply Hbytes| |by rewrite Hworld].
        destruct (split_slots argv idx) as [|x [|]] eqn:Ex; try done.
        assert (Hx : forall i, i ∈ idx -> key_slot argv i = x) by (intros i Hi%split_slot_in; rewrite Ex in Hi; by apply list_elem_of_singleton in Hi).
        apply list_elem_of_fmap in Hin as (j & -> & Hj). rewrite (Hx j Hj). intros k (i & Hi & <-)%key_index. exact (Hx i Hi).
      - destruct Hparts as [Hsubs Hfs]. apply (run_split st2 c' subs); try done; [|by rewrite Hworld].
        intros ->. apply list_elem_of_fmap in Hin as (j & _ & Hj%split_slot_in). apply Forall2_nil_inv_r in Hsubs.
        rewrite Hsubs in Hj. by apply elem_of_nil in Hj. }
    destruct Hrun as (w & Hw' & Hr). exists st2, slot, c', subs, w. split_and!; try done.
    all: apply list_elem_of_fmap in Hin as (i & -> & _); apply Hslots.
Qed.

(** C2. MGET from the user to the cluster and back.  On a cluster that holds a key-value
    store, each node the keys of the slots that the context's table gives it, MGET of any
    keys in any order, in one slot or in many, returns the array of the values in the order
    of the keys, nil for a key that is not stored: what one server with the whole store
    answers.  The nodes and the slots are as before and the next MGET works as well. *)
Theorem mget_from_cluster st :
  cluster_holds st keys -> ok (s_world st) -> s_allocs st = [] -> may_execute st ->
  Forall (fun k => k <> []) keys -> Z.of_nat (length (fmt_cmd argv)) < 2 ^ 30 ->
  exists st', formatted (fmt_cmd argv) (Z.of_nat (length (fmt_cmd argv))) st = (st', Normal (Some values)) /\
    s_heap st' = s_heap st /\ cc_table (s_cc st') = cc_table (s_cc st) /\
    ok (s_world st') /\ s_allocs st' = [] /\ may_execute st'.
Proof.
  intros Hc Hw Ha Hm Hne Hlen.
  destruct (formatted_start argv st Ha) as (st1 & c & Hf & Ha1 & Hw1 & Hl1 & _ & Hstart); [done|lia|].
  destruct (mget_runs st1 c) as (st2 & slot & c' & subs & w & Hfmt & Hs & Hcc & Hh & Ha2 & Hw2 & Hr); try done.
  { by apply (like_holds st). } { by apply (like_may_execute st). } { by rewrite Hw1. }
  rewrite (Hstart _ _ _ _ Hfmt Hs), (gbind_normal _ _ _ _ _ Hr). eexists. split; [reflexivity|]. cbn.
  destruct Hl1 as (Hh1 & Ht1 & Hn1 & _ & Hm1). destruct Hm as (Hn & Hr0 & Hmax). unfold may_execute. cbn.
  rewrite Hcc, Hh, Ht1, Hn1, Hm1. split_and!; try done. all: lia.
Qed.
End Mget.
End Formatted.
End Store.

(** ** A cluster of two servers, for the example *)

(** What a server reads: the wire format back to the arguments. *)
Fixpoint read_num (z : Z) (s : bytes) : option (Z * bytes) :=
  match s with
  | [] => None
  | b :: s => if isdigit b then read_num (z * 10 + digit_val b) s else Some (z, tail s)
  end.
Fixpoint read_bulks (n : nat) (s : bytes) : option (list bytes) :=
  match n with
  | O => Some []
  | S n =>
      '(len, s) ← read_num 0 (tail s);
      args ← read_bulks n (skipn (Z.to_nat len + 2) s);
      Some (firstn (Z.to_nat len) s :: args)
  end.
Definition read_cmd (text : bytes) : option (list bytes) :=
  '(n, s) ← read_num 0 (tail text); read_bulks (Z.to_nat n) s.

Lemma read_num_digits ds rest : Forall (fun b => isdigit b = true) ds -> forall z,
  read_num z (ds ++ CRLF ++ rest) = Some (dec_val z ds, rest).
Proof. induction 1 as [|d ds Hd _ IH]; intros z; cbn [read_num app]; [done|]. by rewrite Hd, IH. Qed.

Lemma read_num_dec n rest : 0 <= n -> read_num 0 (dec n ++ CRLF ++ rest) = Some (n, rest).
Proof. intros Hn. rewrite read_num_digits by (by apply dec_digits). by rewrite dec_val_dec. Qed.

Lemma read_bulks_fmt args : read_bulks (length args) (concat (fmt_bulk <$> args)) = Some args.
Proof.
  induction args as [|a args IH]; [done|]. cbn [length read_bulks fmap list_fmap concat].
  unfold fmt_bulk at 1. change (str "$") with ["$"%byte]. cbn [app tail]. rewrite <- !app_assoc, read_num_dec by lia.
  cbn [mbind option_bind]. rewrite Nat2Z.id, firstn_app, firstn_all, Nat.sub_diag, app_nil_r.
  rewrite (app_assoc a CRLF), (drop_app_length' (a ++ CRLF)) by (by rewrite length_app). by rewrite IH.
Qed.

Lemma read_cmd_fmt argv : read_cmd (fmt_cmd argv) = Some argv.
Proof.
  unfold read_cmd, fmt_cmd. change (str "*") with ["*"%byte]. cbn [app tail]. rewrite read_num_dec by lia.
  cbn [mbind option_bind]. rewrite Nat2Z.id. apply read_bulks_fmt.
Qed.

(** Connection 1 leads to the server of the upper half of the slots, 2 to that of the lower half; the world
    is the last command. *)
Definition owns (c : conn) (slot : Z) : bool := if bool_decide (c = 1%positive) then 8192 <=? slot else slot <? 8192.
Definition server (store : gmap bytes bytes) (c : conn) (text : bytes) : redisReply :=
  match read_cmd text with
  | Some (name :: keys) =>
      if bool_decide (name ∈ [str "MGET"; str "mget"]) && forallb (fun k => owns c (keyHashSlot k)) keys
      then REDIS_REPLY_ARRAY (value store <$> keys)
      else REDIS_REPLY_ERROR (str "MOVED")
  | _ => REDIS_REPLY_ERROR (str "ERR")
  end.
Definition two_servers (store : gmap bytes bytes) : HiredisOps bytes :=
  working (fun _ _ text => (text, REDIS_OK)) (fun w c => (w, (REDIS_OK, Some (server store c w)))).

Lemma two_servers_answer store c slot : owns c slot = true -> answers_mget (H := two_servers store) (fun _ => True) store c slot.
Proof.
  intros Ho w name keys _ Hn _ Hk. exists (fmt_cmd (name :: keys)). split; [done|]. eexists. split; [reflexivity|].
  cbn [redisGetReply two_servers working]. unfold server. rewrite read_cmd_fmt, bool_decide_true by done.
  replace (forallb _ keys) with true; [done|]. symmetry. apply forallb_forall. intros k Hin%list_elem_of_In.
  rewrite Forall_forall in Hk. by rewrite (Hk k Hin).
Qed.

Definition ex_store : gmap bytes bytes := {[str "foo" := str "one"; str "bar" := str "two"]}.
Definition ex_holding : cstate bytes :=
  mkState (cc_set_route 1 (Some {[keyHashSlot (str "foo") := 1%positive; keyHashSlot (str "bar") := 2%positive]}) cc_init)
    {[1%positive := ex_node 1 1; 2%positive := ex_node 2 2]} [] [] 0 [].
Definition ex_keys : list bytes := [str "foo"; str "bar"; str "foo"].

Lemma ex_values : value ex_store <$> ex_keys
  = [REDIS_REPLY_STRING (str "one"); REDIS_REPLY_STRING (str "two"); REDIS_REPLY_STRING (str "one")].
Proof. vm_compute. reflexivity. Qed.

Lemma mget_from_cluster_witness : exists st',
  redisClusterFormattedCommand (L := unit) (H := two_servers ex_store) (fun _ => true) true (replicate 12 Byte.x00)
      (fmt_cmd (str "MGET" :: ex_keys)) (Z.of_nat (length (fmt_cmd (str "MGET" :: ex_keys)))) ex_holding
    = (st', Normal (Some (REDIS_REPLY_ARRAY [REDIS_REPLY_STRING (str "one"); REDIS_REPLY_STRING (str "two"); REDIS_REPLY_STRING (str "one")]))).
Proof.
  pose proof (mget_from_cluster (H := two_servers ex_store) (fun _ => True) ex_store (L := unit) (replicate 12 Byte.x00) eq_refl ex_keys ltac:(done) ex_holding) as Hm.
  destruct Hm as (st' & E & _); [|done|done|by split; [|split]|repeat constructor; done|by vm_compute|].
  - intros k Hk. assert (Hs : k = str "foo" \/ k = str "bar") by (unfold ex_keys in Hk; set_solver).
    exists (if bool_decide (k = str "foo") then 1%positive else 2%positive), (if bool_decide (k = str "foo") then 1%positive else 2%positive).
    split; [|apply two_servers_answer; by destruct Hs as [-> | ->]].
    intros w _. destruct Hs as [-> | ->]; (split; [by split|]); (split; [eexists; split; [reflexivity|by vm_compute]|]);
      (split; [eexists; split; [reflexivity|done]|done]).
  - rewrite ex_values in E. exists st'. exact E.
Defined.

Definition ex_routed : cstate (list redisReply) :=
  mkState (s_cc ex_holding) (s_heap ex_holding) [REDIS_REPLY_ERROR (str "TRYAGAIN Multiple keys request during rehashing of slot"); REDIS_REPLY_STRING (str "one")] [] 0 [].

Lemma redisClusterFormattedCommand_routes_witness : exists st',
  redisClusterFormattedCommand (L := unit) (fun _ => true) true (replicate 12 Byte.x00)
      (fmt_cmd [str "GET"; str "foo"]) (Z.of_nat (length (fmt_cmd [str "GET"; str "foo"]))) ex_routed
    = (st', Normal (Some (REDIS_REPLY_STRING (str "one")))) /\ s_world st' = [].
Proof.
  destruct (redisClusterFormattedCommand_routes (L := unit) (replicate 12 Byte.x00) [str "GET"; str "foo"] CMD_REQ_REDIS_GET 1 ex_routed
    1%positive 1%positive 1 [] (Some (REDIS_REPLY_STRING (str "one")))) as (st' & E & Hw & _).
  - vm_compute. reflexivity.
  - by vm_compute.
  - change ([str "GET"; str "foo"] !!! 1%nat) with (str "foo").
    split; [by vm_compute|]. split; [eexists; split; [reflexivity|by vm_compute]|]. split; [eexists; split; [reflexivity|done]|done].
  - done.
  - by split; [|split].
  - eapply answers_later; [eexists; split; reflexivity|by left|done|].
    apply answers_now; [eexists; split; reflexivity|by apply final_not_err].
  - by vm_compute.
  - exists st'. exact (conj E Hw).
Defined.
