(* ===== verification/Start.v ===== *)
(** * From the addresses to the first answer

    A context knows the addresses its user gave.  [redisClusterConnect2] asks the nodes at these in
    turn for the slots of the cluster, until one answers; the first command for a slot of the answer
    then connects to the master of that slot and gives that master's reply. *)
From S2P Require Import Prelude Hiutil Crc16 Dict Goto Hiredis Cmddef Command Context Sds Fragment Split Nodes Topology Route Options Execute.
From S2P Require Import NodeProps Ownership TopoProps Script SlotMap SlotsReply Frame ExecProps Client Cluster.

(** ** Addresses *)
Lemma address_inj host port host' port' : 0 <= port -> 0 <= port' -> address host port = address host' port' ->
  host = host' /\ port = port'.
Proof.
  intros Hp Hp' E. assert (Hf : forall h p, 0 <= p -> find_last_byte ":" (address h p) = Some (length h)).
  { intros h p H0. unfold address. apply find_last_byte_app. by apply dec_no. }
  pose proof (Hf host port Hp) as E1. rewrite E, Hf in E1 by done. injection E1 as El.
  unfold address in E. apply app_inj_1 in E as [-> Ed]; [|done]. split; [done|].
  apply (app_inv_head (str ":")), (f_equal (dec_val 0)) in Ed. by rewrite !dec_val_dec in Ed.
Qed.

Section Start.
Context {W : Type} `{HiredisOps W} {sds : SdsOps} {laws : SdsLaws sds}.
Implicit Types (st : cstate W) (w : W) (d : dict bytes loc).

(** ** Nodes without connections *)

(** As [redisClusterSetOptionAddNode] makes them: no connection and no slaves. *)
Definition quiet (h : nheap) (p : loc) : Prop :=
  exists nd, h !! p = Some nd /\ n_con nd = None /\ n_acon nd = None /\ owned_slaves nd = [].

Record idle (h : nheap) d : Prop := {
  id_ok : nodes_ok (W := W) d;
  id_distinct : NoDup (dict_pairs d).*2;
  id_node : Forall (quiet h) (dict_pairs d).*2
}.

Lemma swap_ctx_idle {L} st f t : quiet (s_heap st) f -> swap_ctx (L := L) f t st = (st, Normal ()).
Proof. intros (nf & Hf & Hc & Ha & _). unfold swap_ctx, mbind, g_bind, get_node. rewrite Hf, Hc. cbn. by rewrite Hf, Ha. Qed.

Lemma swap_loop_idle {L} d es st : nodes_ok (W := W) d ->
  Forall (fun e => exists nt, s_heap st !! e.2 = Some nt /\ n_addr nt = Some e.1) es ->
  (forall k f, to_map d !! k = Some f -> quiet (s_heap st) f) -> swap_ctx_loop (L := L) d es st = (st, Normal ()).
Proof.
  intros Hd He Hq. induction He as [|[k t] es (nt & Ht & Ha) He IH]; [done|]. cbn [swap_ctx_loop]. cbn in Ht, Ha.
  erewrite gbind_normal; [|unfold get_node; rewrite Ht; reflexivity]. rewrite Ha. cbn [gdef]. rewrite gbind_ret.
  rewrite (gbind_normal _ _ _ _ _ (m_dictFind_ok st d k Hd)). destruct (to_map d !! k) as [f|] eqn:Ef.
  - by rewrite (gbind_normal _ _ _ _ _ (swap_ctx_idle st f t (Hq k f Ef))).
  - by rewrite gbind_ret.
Qed.

Lemma close_idle (h : nheap) w qs : Forall (quiet h) qs -> foldl (close_node h) w qs = w.
Proof.
  induction 1 as [|q qs (nd & Hq & Hc & Ha & _) _ IH]; [done|]. cbn [foldl]. unfold close_node at 2.
  rewrite Hq. unfold close_conns. by rewrite Hc, Ha.
Qed.

Lemma quiet_frame (h h' : nheap) p : (forall q nd, h !! q = Some nd -> h' !! q = Some nd) -> quiet h p -> quiet h' p.
Proof. intros Hf (nd & Hp & Hr). exists nd. split; [by apply Hf|done]. Qed.

Lemma idle_owns st d : idle (s_heap st) d -> dict_owns st d (dict_pairs d).*2.
Proof.
  intros [Hok _ Hn]. split; [done|]. apply forest_leaves. rewrite Forall_forall in Hn.
  intros p (nd & Hp & _ & _ & Hs)%Hn. by exists nd.
Qed.

(** Installing new nodes beside idle ones calls nothing of hiredis. *)
Lemma install_idle {L} st old d (h : nheap) : fresh_nodes st d h -> cc_nodes (s_cc st) = Some old -> idle (s_heap st) old ->
  s_allocs st = [] -> slotmap_ok h (dict_pairs d).*2 ->
  exists st', updateNodesAndSlotmap (L := L) (Some d) (hp h st) = (st', Normal REDIS_OK) /\
    s_world st' = s_world st /\ s_allocs st' = [] /\ s_heap st' = delete_all (dict_pairs old).*2 h /\
    cc_table (s_cc st') = Some (list_to_map (all_pairs h (dict_pairs d).*2)) /\ cc_need_update_route (s_cc st') = 0.
Proof.
  intros Hf Eo Hid Ha Hok. set (qs := (dict_pairs old).*2).
  assert (Hi : installable (hp h st) d qs (dict_pairs d).*2).
  { apply fresh_installable; [done|rewrite Eo; by apply idle_owns|apply Hid]. }
  pose proof (installable_swap _ _ _ _ _ Hi Eo) as Hsw.
  assert (Hq : Forall (quiet h) qs).
  { eapply Forall_impl; [apply Hid|]. intros p. apply quiet_frame, (fn_rest _ _ _ Hf). }
  assert (Hqo : forall k f, to_map old !! k = Some f -> quiet h f).
  { intros k f Hk. rewrite Forall_forall in Hq. apply Hq, list_elem_of_fmap. exists (k, f). split; [done|].
    apply (to_map_pairs (W := W)); [apply Hid|done]. }
  assert (Hnew : Forall (fun e => exists nt, h !! e.2 = Some nt /\ n_addr nt = Some e.1) (dict_pairs d)) by apply Hi.
  destruct (after_no_allocs (hp h st) Ha) as [Ea En].
  assert (Hloop : swap_ctx_loop (L := L) old (dict_pairs d) (tabled d (hp h st)) = (tabled d (hp h st), Normal ())).
  { apply swap_loop_idle; [apply Hid|done|done]. }
  assert (Hm : moved_heap d (hp h st) = h).
  { unfold moved_heap. change (cc_nodes (s_cc (hp h st))) with (cc_nodes (s_cc st)). rewrite Eo.
    destruct (swap_ctx_loop_ok (L := L) old (dict_pairs d) (id_ok _ _ Hid) (tabled d (hp h st)) Hsw) as [w Hw].
    rewrite Hloop in Hw. by injection Hw. }
  pose proof (updateNodes_swapped (L := L) (hp h st) d qs _ (s_world st) Hi En Hok) as Hrun. rewrite Hm, Ea in Hrun.
  eexists. split; [apply Hrun|].
  - unfold cluster_nodes_swap_ctx. change (cc_nodes (s_cc (hp h st))) with (cc_nodes (s_cc st)). rewrite Eo.
    rewrite (dict_entries_ok _ d (proj1 (fn_ok _ _ _ Hf))). cbn [gdef]. rewrite gbind_ret, Hloop. done.
  - set (st2 := freed qs _). assert (Hn : s_world (notified st2) = s_world st2 /\ s_allocs (notified st2) = s_allocs st2).
    { unfold notified. destruct (cc_event_callback (s_cc st2)); [|done]. by destruct (cc_route_version (s_cc st2) =? 1). }
    destruct Hn as [-> ->]. destruct (notified_same st2) as [-> ->]. split; [by apply close_idle|]. done.
Qed.

(** ** What a seed answers *)

(** A reply to CLUSTER SLOTS that describes disjoint regions. *)
Definition slots_reply (rgs : list region) (rs : list redisReply) : Prop :=
  rs <> [] /\ Forall2 is_region rgs rs /\ Forall good_region rgs /\ disjoint_regions rgs /\ Z.of_nat (length rgs) <= 2 ^ 28.

(** Every slot of the regions is served by a node with the region's host and port, still without connection. *)
Definition leads_to st (rg : region) (slot : Z) : Prop := exists table p nd, cc_table (s_cc st) = Some table /\ table !! slot = Some p /\
  s_heap st !! p = Some nd /\ n_con nd = None /\ n_host nd = Some (r_host rg) /\ n_port nd = r_port rg.
Definition ready st (rgs : list region) : Prop := s_allocs st = [] /\ cc_need_update_route (s_cc st) = 0 /\
  forall rg slot, rg ∈ rgs -> r_start rg <= slot <= r_end rg -> leads_to st rg slot.

Lemma handleClusterSlotsReply_ready {L} c st w old rgs rs : redisGetReply (s_world st) c = (w, (REDIS_OK, Some (REDIS_REPLY_ARRAY rs))) ->
  slots_reply rgs rs -> cc_nodes (s_cc st) = Some old -> idle (s_heap st) old -> s_allocs st = [] -> no_slaves st ->
  exists st', handleClusterSlotsReply (L := L) c st = (st', Normal REDIS_OK) /\ s_world st' = w /\ ready st' rgs.
Proof.
  intros Hw (Hne & Hrs & Hg & Hd & Hl) Eo Hid Ha Hf. set (st1 := upd_world (fun _ => w) st).
  destruct (parse_run (L := L) c st1 rgs rs Ha Hf Hne Hrs Hg Hl) as (d & h & Hp & Ep).
  pose proof (parsed_slotmap_ok _ _ _ _ Hp Hg Hd) as Hok.
  destruct (install_idle (L := L) st1 old d h (parsed_fresh _ _ _ _ Hp) Eo Hid Ha Hok) as (st' & Eu & Hw' & Ha' & Hh' & Ht' & Hn').
  exists st'. split; [|split; [done|split; [done|split; [done|]]]].
  { unfold handleClusterSlotsReply, route_reply. rewrite gbind_assoc. unfold mbind at 1, g_bind at 1, world_call at 1.
    rewrite Hw. replace (negb (REDIS_OK =? REDIS_OK)) with false by done. rewrite gbind_assoc. cbn [gdef]. rewrite !gbind_ret.
    fold st1. rewrite (gbind_normal _ _ _ _ _ Ep). exact Eu. }
  intros rg slot Hin Hs. pose proof Hp as [Hr _]. pose proof (rp_all _ _ _ _ Hr) as Hall. rewrite Forall_forall in Hall.
  destruct (Hall rg Hin) as [p Hpd]. destruct (rp_node _ _ _ _ Hr _ _ Hpd) as (Hfree & host & port & Had & Hgood & Hh).
  rewrite Forall_forall in Hg. destruct (Hg rg Hin) as ((_ & _ & Hport) & _). destruct Hgood as (_ & _ & Hport').
  apply address_inj in Had as [Eh Eport]; [|lia..].
  assert (Hpair : (r_addr rg, p) ∈ dict_pairs d) by (apply (to_map_pairs (W := W)); [by eapply parsed_ok|done]).
  eexists _, p, _. split; [exact Ht'|]. split.
  - apply elem_of_list_to_map; [apply Hok|]. apply (parsed_has _ _ _ _ _ _ Hp). by exists rg.
  - rewrite Hh', lookup_delete_all, decide_False; [split; [exact Hh|]; by rewrite Eh, Eport|].
    intros Hq. pose proof (id_node _ _ Hid) as Hqn. rewrite Forall_forall in Hqn. destruct (Hqn p Hq) as (nd & Hnd & _).
    change (s_heap st1) with (s_heap st) in Hfree. congruence.
Qed.

(** ** The seeds in turn *)

(** The context is without password, TLS and slaves, and asks by CLUSTER SLOTS. *)
Definition plain (cc : redisClusterContext) : Prop := cc_password cc = None /\ cc_ssl cc = false /\
  use_slots cc = true /\ flag_set (cc_flags cc) HIRCLUSTER_FLAG_ADD_SLAVE = false.

Definition connects st w host port w1 c : Prop :=
  redisConnectWithOptions w host port (cc_connect_timeout (s_cc st)) (cc_command_timeout (s_cc st)) = (w1, Some c).

Lemma plain_settings st st' : settings st' = settings st -> plain (s_cc st) -> plain (s_cc st').
Proof. intros [= E1 E2 E3 E4 E5 E6 E7 E8 E9 E10 E11]. unfold plain, use_slots. by rewrite E1, E6, E7. Qed.
Lemma connects_settings st st' w host port w1 c : settings st' = settings st -> connects st w host port w1 c -> connects st' w host port w1 c.
Proof. intros [= E1 E2 E3 E4 E5 E6 E7 E8 E9 E10 E11]. unfold connects. by rewrite E2, E3. Qed.

(** A node of the context is asked, and what it sends back. *)
Definition asked st p host port : Prop := exists nd, s_heap st !! p = Some nd /\ n_host nd = Some host /\ n_port nd = port /\ 0 < port.
Definition sends_slots c w w' rs : Prop := exists w1 w2 done,
  redisAppendCommand w c [str "CLUSTER"; str "SLOTS"] = (w1, REDIS_OK) /\ redisBufferWrite w1 c = (w2, (REDIS_OK, done)) /\
  redisGetReply w2 c = (w', (REDIS_OK, Some (REDIS_REPLY_ARRAY rs))).

(** Some seeds cannot be connected to; the first that can answers. *)
Inductive seeds st : list (bytes * loc) -> W -> W -> list region -> Prop :=
  | seed_unreachable k p es w host port w1 c w' rgs :
      asked st p host port -> connects st w host port w1 c -> ctx_err w1 c <> 0 -> seeds st es (redisFree w1 c) w' rgs ->
      seeds st ((k, p) :: es) w w' rgs
  | seed_answers k p es w host port w1 c w2 rgs rs :
      asked st p host port -> connects st w host port w1 c -> ctx_err w1 c = 0 -> sends_slots c w1 w2 rs -> slots_reply rgs rs ->
      seeds st ((k, p) :: es) w (redisFree w2 c) rgs.

(** Opening a connection, and telling the user. *)
Lemma m_connect_run {L} st host port w1 c : connects st (s_world st) host port w1 c ->
  m_connect (L := L) host port st = (set_world w1 st, Normal (Some c)).
Proof. intros E. unfold m_connect, mbind, g_bind, get_cc, world_call. by rewrite E. Qed.

Lemma call_on_connect_run {L} st c : exists st', call_on_connect (L := L) c st = (st', Normal ()) /\
  s_cc st' = s_cc st /\ s_heap st' = s_heap st /\ s_world st' = s_world st /\ s_allocs st' = s_allocs st.
Proof.
  unfold call_on_connect, mbind, g_bind, get_cc, world_get. destruct (cc_on_connect (s_cc st)); [|by exists st].
  by eexists.
Qed.

(** From a connection without error to the request. *)
Lemma by_addr_open {L} st host port w1 c : 0 < port -> connects st (s_world st) host port w1 c ->
  exists st1, s_cc st1 = s_cc st /\ s_heap st1 = s_heap st /\ s_world st1 = w1 /\ s_allocs st1 = s_allocs st /\
    cluster_update_route_by_addr (L := L) host port st =
      (if negb (ctx_err w1 c =? 0) then set_ctx_error c;; free_ret c REDIS_ERR
       else
         fails ← ssl_fails c;
         if fails : bool then set_ctx_error c;; free_ret c REDIS_ERR
         else
           r ← authenticate c;
           if negb (r =? REDIS_OK) then free_ret c REDIS_ERR
           else
             r ← clusterUpdateRouteSendCommand c;
             if negb (r =? REDIS_OK) then free_ret c REDIS_ERR
             else
               r ← clusterUpdateRouteHandleReply c;
               if negb (r =? REDIS_OK) then free_ret c REDIS_ERR else free_ret c REDIS_OK) st1.
Proof.
  intros Hp Hc. destruct (call_on_connect_run (L := L) (set_world w1 st) c) as (st1 & E & E1 & E2 & E3 & E4).
  exists st1. split_and!; try done. unfold cluster_update_route_by_addr.
  replace (port <=? 0) with false by (symmetry; apply Z.leb_gt; lia).
  rewrite (gbind_normal _ _ _ _ _ (m_connect_run st host port w1 c Hc)), (gbind_normal _ _ _ _ _ E).
  unfold mbind at 1, g_bind at 1, world_get at 1. by rewrite E3.
Qed.

Lemma by_addr_unreachable {L} st host port w1 c : 0 < port -> connects st (s_world st) host port w1 c -> ctx_err w1 c <> 0 ->
  exists st', cluster_update_route_by_addr (L := L) host port st = (st', Normal REDIS_ERR) /\ s_heap st' = s_heap st /\
    s_world st' = redisFree w1 c /\ s_allocs st' = s_allocs st /\ cc_nodes (s_cc st') = cc_nodes (s_cc st).
Proof.
  intros Hp Hc He. destruct (by_addr_open (L := L) st host port w1 c Hp Hc) as (st1 & E1 & E2 & E3 & E4 & ->).
  replace (negb (ctx_err w1 c =? 0)) with true by (symmetry; apply negb_true_iff; by apply Z.eqb_neq). cbn iota.
  unfold set_ctx_error, set_error, mod_cc, free_ret, world, mbind, g_bind, world_get, gmodify, gputs.
  eexists. split; [reflexivity|]. cbn. by rewrite E1, E2, E3, E4.
Qed.

Lemma send_slots_run {L} st c w2 (b : bool) w1 : use_slots (s_cc st) = true ->
  redisAppendCommand (s_world st) c [str "CLUSTER"; str "SLOTS"] = (w1, REDIS_OK) -> redisBufferWrite w1 c = (w2, (REDIS_OK, b)) ->
  clusterUpdateRouteSendCommand (L := L) c st = (set_world w2 st, Normal REDIS_OK).
Proof.
  intros Hu H1 H2. unfold clusterUpdateRouteSendCommand, mbind, g_bind, get_cc, world_call. rewrite Hu, H1. cbn [negb].
  replace (negb (REDIS_OK =? REDIS_OK)) with false by done. cbn [s_world upd_world]. by rewrite H2.
Qed.

Lemma free_ret_run {L A} st c (r : A) : free_ret (L := L) c r st = (set_world (redisFree (s_world st) c) st, Normal r).
Proof. by destruct st. Qed.

Lemma ssl_off {L} st c : cc_ssl (s_cc st) = false -> ssl_fails (L := L) c st = (st, Normal false).
Proof. intros E. unfold ssl_fails, mbind, g_bind, get_cc. by rewrite E. Qed.
Lemma no_password {L} st c : cc_password (s_cc st) = None -> authenticate (L := L) c st = (st, Normal REDIS_OK).
Proof. intros E. unfold authenticate, mbind, g_bind, get_cc. by rewrite E. Qed.

Lemma by_addr_answers {L} st old host port w1 c w2 rgs rs : 0 < port -> connects st (s_world st) host port w1 c -> ctx_err w1 c = 0 ->
  sends_slots c w1 w2 rs -> slots_reply rgs rs -> plain (s_cc st) -> s_allocs st = [] ->
  cc_nodes (s_cc st) = Some old -> idle (s_heap st) old ->
  exists st', cluster_update_route_by_addr (L := L) host port st = (st', Normal REDIS_OK) /\ s_world st' = redisFree w2 c /\ ready st' rgs.
Proof.
  intros Hp Hc He (wa & wb & b & Ha & Hb & Hr) Hrs (Hpw & Hssl & Hu & Hf) Hal Eo Hid.
  destruct (by_addr_open (L := L) st host port w1 c Hp Hc) as (st1 & E1 & E2 & E3 & E4 & ->).
  rewrite He. change (negb (0 =? 0)) with false. cbn iota. rewrite <- E1 in *. rewrite <- E2 in *. rewrite <- E3 in *.
  rewrite (gbind_normal _ _ _ _ _ (ssl_off (L := L) st1 c Hssl)). cbn iota.
  rewrite (gbind_normal _ _ _ _ _ (no_password (L := L) st1 c Hpw)).
  replace (negb (REDIS_OK =? REDIS_OK)) with false by done.
  rewrite (gbind_normal _ _ _ _ _ (send_slots_run st1 c wb b wa Hu Ha Hb)).
  replace (negb (REDIS_OK =? REDIS_OK)) with false by done.
  destruct (handleClusterSlotsReply_ready (L := L) c (set_world wb st1) w2 old rgs rs Hr Hrs Eo Hid) as (st2 & E & Hw2 & Hready);
    [by rewrite <- Hal|done|].
  assert (Eh : clusterUpdateRouteHandleReply (L := L) c (set_world wb st1) = (st2, Normal REDIS_OK)).
  { unfold clusterUpdateRouteHandleReply, mbind, g_bind, get_cc. change (s_cc (set_world wb st1)) with (s_cc st1). by rewrite Hu. }
  rewrite (gbind_normal _ _ _ _ _ Eh). replace (negb (REDIS_OK =? REDIS_OK)) with false by done.
  rewrite free_ret_run. eexists. split; [reflexivity|]. split; [cbn; by rewrite Hw2|]. exact Hready.
Qed.

Lemma seeds_frame st st' es w w' rgs : s_heap st' = s_heap st -> settings st' = settings st -> seeds st es w w' rgs -> seeds st' es w w' rgs.
Proof.
  intros Hh Hs. assert (Ha : forall p host port, asked st p host port -> asked st' p host port) by (unfold asked; by rewrite Hh).
  induction 1; [eapply seed_unreachable|eapply seed_answers]; eauto; by eapply connects_settings.
Qed.

Lemma seeds_port st es w w' rgs rg : seeds st es w w' rgs -> rg ∈ rgs -> 0 < r_port rg.
Proof.
  induction 1 as [|? ? ? ? ? ? ? ? ? ? ? _ _ _ _ (_ & _ & Hg & _)]; [done|]. intros Hin. rewrite Forall_forall in Hg.
  destruct (Hg rg Hin) as ((_ & _ & ?) & _). lia.
Qed.

(** What the loop asks of its start. *)
Record startable st : Prop := {
  sa_plain : plain (s_cc st);
  sa_allocs : s_allocs st = [];
  sa_idle : exists old, cc_nodes (s_cc st) = Some old /\ idle (s_heap st) old
}.

Lemma update_slotmap_loop_ready {L} es : forall st tried w' rgs, seeds st es (s_world st) w' rgs -> startable st ->
  exists st', update_slotmap_loop (L := L) es tried st = (st', Normal REDIS_OK) /\ s_world st' = w' /\ ready st' rgs.
Proof.
  induction es as [|[k p] es IH]; intros st tried w' rgs Hs [Hp Ha (old & Eo & Hid)]; [by inversion Hs|].
  inversion Hs as [k0 p0 es0 w0 host port w1 c w2 rgs0 (nd & Hnd & Hh & Hport & H0) Hc He Hs'
    |k0 p0 es0 w0 host port w1 c w2 rgs0 rs (nd & Hnd & Hh & Hport & H0) Hc He Hsend Hrs]; subst; cbn [update_slotmap_loop].
  all: erewrite gbind_normal; [|unfold get_node; rewrite Hnd; reflexivity]; rewrite Hh.
  - destruct (by_addr_unreachable (L := L) st host (n_port nd) w1 c H0 Hc He) as (st1 & E & E1 & E2 & E3 & E4).
    assert (Hst : settings st1 = settings st) by (eapply keeps_normal; [apply (k_update_by_addr settings (fun _ => True))|exact E]).
    rewrite (gbind_normal _ _ _ _ _ E). replace (REDIS_ERR =? REDIS_OK) with false by done.
    apply IH; [rewrite E2; by eapply seeds_frame|]. split; [by eapply plain_settings|by rewrite E3|]. exists old. by rewrite E1, E4.
  - destruct (by_addr_answers (L := L) st old host (n_port nd) w1 c w2 rgs rs) as (st1 & E & E1 & E2); try done.
    rewrite (gbind_normal _ _ _ _ _ E). replace (REDIS_OK =? REDIS_OK) with true by done.
    unfold mbind, g_bind, get_cc, mod_cc. destruct (negb (cc_err (s_cc st1) =? 0)); by eexists.
Qed.

(** ** Connecting *)
Definition online st : cstate W := upd_cc (fun cc => cc_set_flags (Z.land (cc_flags cc) (Z.lnot HIRCLUSTER_FLAG_SHUTDOWN)) cc) st.

Lemma online_flag st f : Z.land (Z.lnot HIRCLUSTER_FLAG_SHUTDOWN) f = f -> flag_set (cc_flags (s_cc (online st))) f = flag_set (cc_flags (s_cc st)) f.
Proof. intros E. unfold flag_set, online. cbn [upd_cc s_cc cc_flags cc_set_flags]. by rewrite <- Z.land_assoc, E. Qed.

Lemma online_startable st : startable st -> startable (online st).
Proof.
  intros [(H1 & H2 & H3 & H4) Ha Hid]. split; [|done|done]. split; [done|]. split; [done|]. unfold use_slots. by rewrite !online_flag.
Qed.

Lemma seeds_online st es w w' rgs : seeds st es w w' rgs -> seeds (online st) es w w' rgs.
Proof. induction 1; [eapply seed_unreachable|eapply seed_answers]; eauto. Qed.

Lemma redisClusterConnect2_ready {L} st old w rgs : cc_nodes (s_cc st) = Some old -> startable st ->
  seeds st (dict_pairs old) (s_world st) w rgs ->
  exists st', redisClusterConnect2 (L := L) st = (st', Normal REDIS_OK) /\ s_world st' = w /\ ready st' rgs /\
    settings st' = settings (online st).
Proof.
  intros Eo Hst Hs. pose proof Hst as [_ _ (old' & Eo' & Hid)]. rewrite Eo in Eo'. injection Eo' as <-.
  assert (Hwf : dict_wf (clusterNodesDictType (W := W)) old) by apply Hid.
  assert (Hu : (d_used old =? 0) = false).
  { apply Z.eqb_neq. rewrite (to_map_size _ _ Hwf). intros E. assert (Em : to_map old = ∅) by (apply map_size_empty_iff; lia).
    destruct (dict_pairs old) as [|[k p] es] eqn:Ep; [inversion Hs|].
    assert (Hin : to_map old !! k = Some p) by (apply (to_map_pairs (W := W)); [apply Hid|rewrite Ep; left]).
    rewrite Em in Hin. by apply lookup_empty_Some in Hin. }
  destruct (update_slotmap_loop_ready (L := L) (dict_pairs old) (online st) false w rgs) as (st' & E & Hw & Hr);
    [by apply seeds_online|by apply online_startable|].
  exists st'. assert (Ec : redisClusterUpdateSlotmap (L := L) (online st) = (st', Normal REDIS_OK)).
  { unfold redisClusterUpdateSlotmap, mbind at 1, g_bind at 1, get_cc. change (cc_nodes (s_cc (online st))) with (cc_nodes (s_cc st)).
    rewrite Eo, (dict_entries_ok _ old Hwf). cbn [gdef]. by rewrite gbind_ret. }
  split_and!; try done.
  - unfold redisClusterConnect2, mod_cc. rewrite gbind_modify. fold (online st).
    unfold clusterConnect2, mbind, g_bind, get_cc. change (cc_nodes (s_cc (online st))) with (cc_nodes (s_cc st)). by rewrite Eo, Hu.
  - eapply keeps_normal; [apply (k_update_slotmap settings (fun _ => True))|exact Ec].
Qed.

(** ** The first command of a slot *)
Lemma ctx_get_by_node_connects {L} st p nd host w1 c : s_heap st !! p = Some nd -> n_con nd = None -> n_host nd = Some host ->
  0 < n_port nd -> connects st (s_world st) host (n_port nd) w1 c -> ctx_err w1 c = 0 -> cc_password (s_cc st) = None -> cc_ssl (s_cc st) = false ->
  exists st1, ctx_get_by_node (L := L) p st = (st1, Normal (Some c)) /\ s_cc st1 = s_cc st /\ s_world st1 = w1 /\
    s_allocs st1 = s_allocs st /\ exists nd', s_heap st1 !! p = Some nd' /\ n_con nd' = Some c.
Proof.
  intros Hp Hcon Hh Hport Hc He Hpw Hssl. destruct (call_on_connect_run (L := L) (set_world w1 st) c) as (st1 & E & E1 & E2 & E3 & E4).
  unfold ctx_get_by_node. erewrite gbind_normal; [|unfold get_node; rewrite Hp; reflexivity]. rewrite Hcon, Hh.
  replace (n_port nd <=? 0) with false by (symmetry; apply Z.leb_gt; lia).
  rewrite (gbind_normal _ _ _ _ _ (m_connect_run st host (n_port nd) w1 c Hc)), (gbind_normal _ _ _ _ _ E).
  unfold mbind at 1, g_bind at 1, world_get at 1. rewrite E3. change (s_world (set_world w1 st)) with w1. rewrite He.
  change (negb (0 =? 0)) with false. cbn iota.
  change (s_cc (set_world w1 st)) with (s_cc st) in E1. change (s_heap (set_world w1 st)) with (s_heap st) in E2. rewrite <- E1 in Hpw, Hssl. rewrite <- E2 in Hp.
  rewrite (gbind_normal _ _ _ _ _ (ssl_off (L := L) st1 c Hssl)). cbn iota. rewrite (gbind_normal _ _ _ _ _ (no_password (L := L) st1 c Hpw)).
  replace (negb (REDIS_OK =? REDIS_OK)) with false by done. rewrite (gbind_normal _ _ _ _ _ (put_node_ok st1 p _ nd Hp)).
  eexists. split; [reflexivity|]. split; [done|]. split; [done|]. split; [done|]. eexists. split; [apply lookup_insert_eq|done].
Qed.

(** It goes on as it would with the connection open from the start. *)
Lemma execute_connects {L} command rg st w1 c : plain (s_cc st) -> leads_to st rg (c_slot_num command) -> 0 < r_port rg ->
  0 <= c_slot_num command < REDIS_CLUSTER_SLOTS -> connects st (s_world st) (r_host rg) (r_port rg) w1 c -> ctx_err w1 c = 0 ->
  exists st1 p, redis_cluster_command_execute (L := L) command st = redis_cluster_command_execute command st1 /\
    s_cc st1 = s_cc st /\ s_world st1 = w1 /\ serves st1 (c_slot_num command) p c.
Proof.
  intros (Hpw & Hssl & _) (table & p & nd & Ht & Hs & Hp & Hcon & Hh & <-) Hport Hr Hc He.
  destruct (ctx_get_by_node_connects (L := x_label) st p nd _ w1 c Hp Hcon Hh Hport Hc He Hpw Hssl) as (st1 & E & E1 & E2 & _ & E3).
  exists st1, p. assert (Hserve : serves st1 (c_slot_num command) p c).
  { split; [done|]. split; [exists table; by rewrite E1|]. split; [done|]. by rewrite E2. }
  split_and!; try done.
  assert (Ex : x_get_conn (c_slot_num command) (mkXstate st None) = (mkXstate st1 None, Normal c)).
  { unfold x_get_conn. assert (Et : node_get_by_table (L := x_label) (c_slot_num command) st = (st, Normal (Some p))).
    { unfold node_get_by_table, mbind, g_bind, get_cc. rewrite u32_small by (unfold REDIS_CLUSTER_SLOTS in Hr; lia).
      replace (REDIS_CLUSTER_SLOTS <=? c_slot_num command) with false by (symmetry; apply Z.leb_gt; lia). by rewrite Ht, Hs. }
    rewrite (gbind_normal _ _ _ _ _ (x_lift_normal _ _ None _ _ Et)), gbind_ret, (gbind_normal _ _ _ _ _ (x_lift_normal _ _ None _ _ E)).
    unfold mbind, g_bind, x_lift, world_get. cbn [xs_st xs_updating]. by rewrite E2, He. }
  unfold redis_cluster_command_execute. rewrite E1. unfold x_fuel_of. cbn [x_loop].
  by rewrite (gbind_normal _ _ _ _ _ Ex), (gbind_normal _ _ _ _ _ (x_get_conn_serves st1 None _ p c Hserve)).
Qed.

(** C4. From the addresses that the user gave to the first answer.  A context whose nodes have no
    connections yet asks them in turn; when some cannot be connected to and then one sends a
    CLUSTER SLOTS reply of disjoint regions, [redisClusterConnect2] succeeds, its only connection is
    closed again, and a command with one key, whose slot is in a region of that reply, opens a
    connection to the host and port of the region and gives the user what the node there
    answers, after TRYAGAIN or CLUSTERDOWN for at most as many times as retries are allowed. *)
Theorem redisClusterConnect2_first_command {L L'} num_str st old rgs rg argv t i w w1 c n w2 reply :
  cc_nodes (s_cc st) = Some old -> startable st -> seeds st (dict_pairs old) (s_world st) w rgs ->
  parse_spec argv = inl (t, [i]) -> Z.of_nat (length (fmt_cmd argv)) < 2 ^ 31 ->
  rg ∈ rgs -> r_start rg <= keyHashSlot (argv !!! i) <= r_end rg ->
  connects st w (r_host rg) (r_port rg) w1 c -> ctx_err w1 c = 0 -> busy_then c (fmt_cmd argv) n w1 w2 reply ->
  0 <= cc_retry_count (s_cc st) -> cc_retry_count (s_cc st) + Z.of_nat n <= cc_max_retry_count (s_cc st) < INT_MAX ->
  exists st1 st2, redisClusterConnect2 (L := L) st = (st1, Normal REDIS_OK) /\ s_world st1 = w /\
    redisClusterFormattedCommand (L := L') (fun _ => true) true num_str (fmt_cmd argv) (Z.of_nat (length (fmt_cmd argv))) st1
      = (st2, Normal reply) /\ s_world st2 = w2 /\ cc_table (s_cc st2) = cc_table (s_cc st1).
Proof.
  intros Eo Hst Hseeds Hps Hlen Hrg Hin Hc He Hb Hr0 [Hn Hmax].
  pose proof (keyHashSlot_bounds (argv !!! i)) as Hslot. pose proof (seeds_port _ _ _ _ _ _ Hseeds Hrg) as Hport.
  destruct (redisClusterConnect2_ready (L := L) st old w rgs Eo Hst Hseeds) as (st1 & E & Hw & (Ha1 & Hnu & Hlead) & Hset).
  exists st1.
  destruct (one_key_runs (L := L') num_str argv t i st1 Hps Hlen Ha1) as (st2 & cm & _ & Hw2 & Hl & Hset2 & Hcs & Hcb & Hrun).
  rewrite Hset in Hset2. pose proof Hl as (Hlh & Hlt & Hln & Hlr & Hlm).
  destruct (execute_connects (L := L') cm rg st2 w1 c) as (st3 & p & Ex & Ec & Ew & Hserve); rewrite ?Hcs; try done.
  - eapply plain_settings; [exact Hset2|]. by apply online_startable.
  - destruct (Hlead rg _ Hrg Hin) as (table & q & nd & Hrest). exists table, q, nd. by rewrite Hlt, Hlh.
  - rewrite Hw2, Hw. eapply connects_settings; [exact Hset2|done].
  - assert (Hcc : cc_retry_count (s_cc st2) = cc_retry_count (s_cc st) /\ cc_max_retry_count (s_cc st2) = cc_max_retry_count (s_cc st)).
    { injection Hset2 as _ _ _ E4 _ _ _ _ _ E10 _. done. }
    destruct Hcc as [Hr2 Hm2].
    assert (Hx : redis_cluster_command_execute (L := L') cm st2 = (retried n w2 st3, Normal reply)).
    { rewrite Ex. apply (execute_busy cm (fmt_cmd argv) st3 p c); [done|done| |by rewrite Ew|rewrite Ec, Hr2, Hm2; lia].
      unfold may_execute. rewrite Ec, Hln, Hnu, Hr2, Hm2. split; [done|]. lia. }
    eexists. split; [done|]. split; [done|]. split; [exact (Hrun _ _ Hx)|]. split; [done|]. cbn. by rewrite Ec, Hlt.
Qed.
End Start.

(** ** Witness *)

(** One seed; the cluster has one master, elsewhere. *)
Definition ex_seed : redisClusterNode := n_set_con None None (ex_node 1 1).
Definition ex_seeds : dict bytes loc := ex_add (str "h:1") 1%positive dictReset.
Definition ex_region : region := mkRegion 12182 12183 (str "h") 2.
Definition ex_region_reply : list redisReply :=
  [REDIS_REPLY_ARRAY [REDIS_REPLY_INTEGER 12182; REDIS_REPLY_INTEGER 12183; ex_node_reply 2]].
Definition ex_begin : cstate (list redisReply) :=
  mkState (cc_set_flags HIRCLUSTER_FLAG_ROUTE_USE_SLOTS (cc_set_nodes (Some ex_seeds) cc_init)) {[1%positive := ex_seed]}
    [REDIS_REPLY_ARRAY ex_region_reply; REDIS_REPLY_STRING (str "one")] [] 0 [].

Lemma ex_startable : startable ex_begin.
Proof.
  split; [done|done|]. exists ex_seeds. split; [done|]. split.
  - apply ex_add_ok; [apply ex_empty_ok|done].
  - vm_compute (_.*2). by apply (bool_decide_unpack _).
  - vm_compute (_.*2). repeat constructor. eexists. split; [reflexivity|]. done.
Qed.

Lemma ex_region_good : slots_reply [ex_region] ex_region_reply.
Proof.
  split; [done|]. split.
  { repeat constructor. eexists (ex_node_reply 2), []. split; [reflexivity|]. split; [by eexists|constructor]. }
  split; [repeat constructor; try discriminate; by apply (bool_decide_unpack _)|].
  split; [split; [by apply (bool_decide_unpack _)|vm_compute (concat _); by apply (bool_decide_unpack _)]|by vm_compute].
Qed.

Lemma redisClusterConnect2_first_command_witness : exists st1 st2,
  redisClusterConnect2 (L := Empty_set) ex_begin = (st1, Normal REDIS_OK) /\
  redisClusterFormattedCommand (L := Empty_set) (fun _ => true) true (replicate 12 Byte.x00) (fmt_cmd [str "GET"; str "foo"])
    (Z.of_nat (length (fmt_cmd [str "GET"; str "foo"]))) st1 = (st2, Normal (Some (REDIS_REPLY_STRING (str "one")))) /\ s_world st2 = [].
Proof.
  destruct (redisClusterConnect2_first_command (L := Empty_set) (L' := Empty_set) (replicate 12 Byte.x00) ex_begin ex_seeds [ex_region] ex_region
    [str "GET"; str "foo"] CMD_REQ_REDIS_GET 1 [REDIS_REPLY_STRING (str "one")] [REDIS_REPLY_STRING (str "one")] 9%positive 0 []
    (Some (REDIS_REPLY_STRING (str "one"))) eq_refl ex_startable) as (st1 & st2 & E1 & _ & E2 & Hw & _).
  - change (dict_pairs ex_seeds) with [(str "h:1", 1%positive)].
    refine (seed_answers ex_begin _ _ _ _ (str "h") 1 _ 9%positive [REDIS_REPLY_STRING (str "one")] _ ex_region_reply _ _ _ _ _); [|reflexivity|reflexivity| |apply ex_region_good].
    + eexists. split; [reflexivity|]. done.
    + by eexists _, _, _.
  - vm_compute. reflexivity.
  - by vm_compute.
  - left.
  - by vm_compute.
  - reflexivity.
  - reflexivity.
  - apply answers_now; [eexists; split; reflexivity|by apply final_not_err].
  - by vm_compute.
  - by vm_compute.
  - exists st1, st2. exact (conj E1 (conj E2 Hw)).
Defined.
