(* ===== verification/Queue.v ===== *)
(** * The pipeline is a queue

    [redisClusterAppendFormattedCommand] and [redisClusterGetReply] against their specification:
    a first-in first-out queue of commands with the replies that the servers give them,
    although the commands go over several connections, each with its own order. *)
From stdpp Require Import functions.
From S2P Require Import Prelude Crc16 Goto Hiredis Cmddef Command Context Sds Fragment Split Nodes Route Execute.
From S2P Require Import Script ExecProps Client Pipeline Session Cluster.

(** hiredis keeps the order of each connection: [pending w c] are the replies still to come on [c], and [server w c text]
    is the reply that [text] will get when it is sent over [c] now. *)
Class Ordered (W : Type) `{HiredisOps W} := {
  healthy : W -> Prop;
  pending : W -> conn -> list redisReply;
  server : W -> conn -> bytes -> redisReply;
  healthy_err w c : healthy w -> ctx_err w c = 0;
  append_ordered w c text : healthy w -> exists w', redisAppendFormattedCommand w c text = (w', REDIS_OK) /\ healthy w' /\
    pending w' c = pending w c ++ [server w c text] /\ (forall c', c' ≠ c -> pending w' c' = pending w c');
  getReply_ordered w c r rs : healthy w -> pending w c = r :: rs -> exists w', redisGetReply w c = (w', (REDIS_OK, Some r)) /\ healthy w' /\
    pending w' c = rs /\ (forall c', c' ≠ c -> pending w' c' = pending w c')
}.

Section Queue.
Context {W : Type} `{Ordered W} {sds : SdsOps} {L : Type} (num_str : bytes).
Implicit Types (st : cstate W).

(** A queued command: its slot, the connection of that slot and the reply it will get. *)
Record queued := mkQueued { q_slot : Z; q_conn : conn; q_reply : redisReply }.

(** The replies of the queue on one connection. *)
Definition replies_on (q : list queued) (c : conn) : list redisReply := q_reply <$> filter (fun e => q_conn e = c) q.

(** The context's state holds the queue [q]. *)
Record lined st (q : list queued) : Prop := {
  ln_requests : exists cmds, default [] (cc_requests (s_cc st)) = cmds /\ Forall2 (fun c e => c_slot_num c = q_slot e) cmds q;
  ln_made : q ≠ [] -> cc_requests (s_cc st) ≠ None;
  ln_served : Forall (fun e => exists p, serves st (q_slot e) p (q_conn e)) q;
  ln_pending : forall c, pending (s_world st) c = replies_on q c;
  ln_healthy : healthy (s_world st)
}.

Lemma serves_moved st st' slot p c : serves st slot p c -> s_heap st' = s_heap st -> cc_table (s_cc st') = cc_table (s_cc st) ->
  healthy (s_world st') -> serves st' slot p c.
Proof.
  intros (H1 & H2 & H3 & _) Hh Ht Hw. unfold serves. rewrite Hh, Ht. exact (conj H1 (conj H2 (conj H3 (healthy_err _ c Hw)))).
Qed.

Lemma replies_on_snoc q e c : replies_on (q ++ [e]) c = replies_on q c ++ (if bool_decide (q_conn e = c) then [q_reply e] else []).
Proof. unfold replies_on. rewrite filter_app, fmap_app, filter_cons. by case_bool_decide; case_decide. Qed.

Lemma replies_on_cons e q c : replies_on (e :: q) c = (if bool_decide (q_conn e = c) then [q_reply e] else []) ++ replies_on q c.
Proof. unfold replies_on. rewrite filter_cons. by case_bool_decide; case_decide. Qed.

(** ** Sending a command *)
Lemma clusterAppendCommand_sends command text st p c : cmd_bytes command = Some text -> serves st (c_slot_num command) p c ->
  healthy (s_world st) -> exists w, clusterAppendCommand (L := L) command st = (set_world w st, Normal REDIS_OK) /\ healthy w /\
    pending w c = pending (s_world st) c ++ [server (s_world st) c text] /\
    (forall c', c' ≠ c -> pending w c' = pending (s_world st) c').
Proof.
  intros Ht Hs Hw. destruct (append_ordered (s_world st) c text Hw) as (w & E & Hp). exists w. split; [|exact Hp].
  unfold clusterAppendCommand. rewrite (gbind_normal _ _ _ _ _ (node_get_by_table_serves _ _ _ _ Hs)).
  destruct Hs as (_ & _ & (nd & Hn & Hc) & He). unfold conn_or_error. rewrite gbind_assoc.
  rewrite (gbind_normal _ _ _ _ _ (ctx_get_by_node_open _ _ _ _ Hn Hc He)).
  unfold mbind, g_bind, world_get, world_call. rewrite He. cbn. rewrite Ht. cbn. by rewrite E.
Qed.

(** ** Receiving a reply *)
Lemma clusterGetReply_receives slot st p c r rs : serves st slot p c -> healthy (s_world st) -> pending (s_world st) c = r :: rs ->
  exists st', clusterGetReply (L := L) slot st = (st', Normal (REDIS_OK, Some r)) /\ healthy (s_world st') /\
    s_heap st' = s_heap st /\ cc_table (s_cc st') = cc_table (s_cc st) /\ cc_requests (s_cc st') = cc_requests (s_cc st) /\
    pending (s_world st') c = rs /\ (forall c', c' ≠ c -> pending (s_world st') c' = pending (s_world st) c').
Proof.
  intros Hs Hw Hp. destruct (getReply_ordered (s_world st) c r rs Hw Hp) as (w & E & Hw' & Hp1 & Hp2).
  exists (if bool_decide (cluster_reply_error_type (Some r) = Some CLUSTER_ERR_MOVED)
    then upd_cc (fun cc => cc_set_retry (cc_retry_count cc) 1 cc) (set_world w st) else set_world w st).
  split; [|by case_bool_decide].
  unfold clusterGetReply. replace (slot <? 0) with false by (symmetry; apply Z.ltb_ge; apply Hs).
  rewrite (gbind_normal _ _ _ _ _ (node_get_by_table_serves _ _ _ _ Hs)).
  destruct Hs as (_ & _ & (nd & Hn & Hc) & He). unfold clusterGetReplyFromNode, mbind, g_bind, get_node.
  rewrite Hn, Hc. unfold world_get, world_call. rewrite He. cbn. rewrite E. cbn. by case_bool_decide.
Qed.

(** ** The queue *)
Abbreviation append argv := (redisClusterAppendFormattedCommand (L := L) (fun _ => true) true num_str (fmt_cmd argv) (Z.of_nat (length (fmt_cmd argv)))).

Lemma ensure_requests_granted st : s_allocs st = [] -> exists st', ensure_requests (L := L) st = (st', Normal true) /\
  cc_requests (s_cc st') = Some (default [] (cc_requests (s_cc st))) /\ s_heap st' = s_heap st /\
  cc_table (s_cc st') = cc_table (s_cc st) /\ s_world st' = s_world st /\ s_allocs st' = [].
Proof.
  intros Ha. unfold ensure_requests. rewrite (gbind_normal get_cc _ st st (s_cc st) eq_refl).
  destruct (cc_requests (s_cc st)) as [l|] eqn:E; [exists st; by rewrite E|].
  rewrite (gbind_normal _ _ _ _ _ (alloc_granted st Ha)). by eexists.
Qed.

Lemma add_request_granted c st : s_allocs st = [] -> add_request (L := L) c st
  = (upd_cc (fun cc => cc_set_requests ((fun l => l ++ [c]) <$> cc_requests cc) cc) st, Normal true).
Proof. intros Ha. unfold add_request. by rewrite (gbind_normal _ _ _ _ _ (alloc_granted st Ha)). Qed.

(** A command with one key goes to the end of the queue. *)
Lemma append_one_key st q argv t i p c : lined st q -> s_allocs st = [] -> parse_spec argv = inl (t, [i]) ->
  Z.of_nat (length (fmt_cmd argv)) < 2 ^ 31 -> serves st (keyHashSlot (argv !!! i)) p c ->
  exists st', append argv st = (st', Normal REDIS_OK) /\ s_allocs st' = [] /\ s_heap st' = s_heap st /\
    cc_table (s_cc st') = cc_table (s_cc st) /\
    lined st' (q ++ [mkQueued (keyHashSlot (argv !!! i)) c (server (s_world st) c (fmt_cmd argv))]).
Proof.
  intros [(cmds & Hr & Hq) _ Hs Hp Hw] Ha Hps Hlen Hserve.
  destruct (ensure_requests_granted st Ha) as (st0 & E0 & Hr0 & Hh0 & Ht0 & Hw0 & Ha0). rewrite Hr in Hr0.
  destruct (command_made (L := L) argv st0 Ha0 (one_key_nonempty argv t i Hps) Hlen) as (id & command & Ec & Hf).
  set (st1 := upd_cmd_id (fun _ => id) st0) in *.
  destruct (one_key_formats (L := L) num_str argv t i st1 _ Hps Hf) as (c' & Hfmt & Hslot & Hbytes).
  assert (Hserve1 : serves st1 (c_slot_num c') p c).
  { rewrite Hslot. apply (serves_moved st); try done. change (healthy (s_world st0)). by rewrite Hw0. }
  destruct (clusterAppendCommand_sends c' (fmt_cmd argv) st1 p c Hbytes Hserve1) as (w & Es & Hw' & Hp1 & Hp2).
  { change (healthy (s_world st0)). by rewrite Hw0. }
  change (s_world st1) with (s_world st0) in Hp1, Hp2. rewrite Hw0 in Hp1, Hp2.
  unfold redisClusterAppendFormattedCommand. rewrite (gbind_normal _ _ _ _ _ E0). cbn [negb]. rewrite (gbind_normal _ _ _ _ _ Ec).
  rewrite (gbind_normal _ _ _ _ _ (alloc_granted st1 Ha0)). cbn [negb]. rewrite (gbind_normal _ _ _ _ _ Hfmt). cbn beta iota.
  pose proof (keyHashSlot_bounds (argv !!! i)) as Hb. fold (key_slot argv i) in Hb.
  replace (key_slot argv i <? 0) with false by (symmetry; apply Z.ltb_ge; lia).
  replace (REDIS_CLUSTER_SLOTS <=? key_slot argv i) with false by (symmetry; apply Z.leb_gt; lia).
  rewrite (gbind_normal _ _ _ _ _ Es). replace (negb (REDIS_OK =? REDIS_OK)) with false by done. cbv beta iota zeta.
  rewrite (gbind_normal _ _ _ _ _ (add_request_granted _ (set_world w st1) Ha0)).
  eexists. split; [reflexivity|]. split; [done|]. split; [done|]. split; [done|]. split; cbn.
  - rewrite Hr0. eexists. split; [reflexivity|]. apply Forall2_app; [done|]. by constructor.
  - by rewrite Hr0.
  - apply Forall_app. split.
    + eapply Forall_impl; [exact Hs|]. intros e (p' & He). exists p'. by eapply serves_moved.
    + constructor; [|done]. exists p. by eapply serves_moved.
  - intros c2. rewrite replies_on_snoc, <- Hp. cbn. case_bool_decide as E; [by subst c2|]. rewrite app_nil_r. by apply Hp2.
  - done.
Qed.

(** The first command of the queue gets its reply. *)
Lemma getReply_first st e q : lined st (e :: q) -> exists st',
  redisClusterGetReply (L := L) st = (st', Normal (REDIS_OK, RLive (q_reply e))) /\ lined st' q /\
  s_heap st' = s_heap st /\ cc_table (s_cc st') = cc_table (s_cc st).
Proof.
  intros [(cmds & Hr & Hq) Hm Hs Hp Hw]. apply Forall2_cons_inv_r in Hq as (cmd & rest & Hslot & Hq & ->).
  apply Forall_cons in Hs as [(p & Hserve) Hs].
  assert (Hr' : cc_requests (s_cc st) = Some (cmd :: rest)) by (specialize (Hm ltac:(done)); destruct (cc_requests _); [by f_equal|done]).
  set (st1 := upd_cc (cc_set_requests (Some rest)) (upd_cc (cc_set_error 0 []) st)).
  destruct (clusterGetReply_receives (q_slot e) st1 p (q_conn e) (q_reply e) (replies_on q (q_conn e)))
    as (st' & E & Hw' & Hh & Ht & Hrq & Hp1 & Hp2); [done|done| |].
  { change (pending (s_world st) (q_conn e) = q_reply e :: replies_on q (q_conn e)). by rewrite Hp, replies_on_cons, bool_decide_true. }
  exists st'. split; [|split; [|done]].
  - unfold redisClusterGetReply, clear_error, pop_request, mod_cc.
    rewrite gbind_modify, (gbind_normal get_cc _ _ _ _ eq_refl).
    change (cc_requests (s_cc (upd_cc (cc_set_error 0 []) st))) with (cc_requests (s_cc st)). rewrite Hr'.
    replace (0 <=? c_slot_num cmd) with true by (symmetry; apply Z.leb_le; rewrite Hslot; apply Hserve).
    rewrite gbind_modify, Hslot. fold st1. by rewrite (gbind_normal _ _ _ _ _ E).
  - split.
    + exists rest. by rewrite Hrq.
    + by rewrite Hrq.
    + eapply Forall_impl; [exact Hs|]. intros e' (p' & He). exists p'. by eapply serves_moved.
    + intros c2. destruct (decide (c2 = q_conn e)) as [->|Hc]; [done|]. rewrite Hp2 by done.
      change (pending (s_world st) c2 = replies_on q c2). rewrite Hp, replies_on_cons, bool_decide_false by done. done.
    + done.
Qed.

(** C14. The pipeline is a first-in first-out queue.  Appending a command with one key puts it, with
    the reply that its server gives it then, at the end; [redisClusterGetReply] takes the
    first command out and returns exactly its reply, over however many connections the
    commands went; when nothing is queued it returns no reply. *)
Theorem pipeline_refines_queue :
  (forall st q argv t i p c, lined st q -> s_allocs st = [] -> parse_spec argv = inl (t, [i]) ->
    Z.of_nat (length (fmt_cmd argv)) < 2 ^ 31 -> serves st (keyHashSlot (argv !!! i)) p c ->
    exists st', append argv st = (st', Normal REDIS_OK) /\ s_allocs st' = [] /\ s_heap st' = s_heap st /\
      cc_table (s_cc st') = cc_table (s_cc st) /\
      lined st' (q ++ [mkQueued (keyHashSlot (argv !!! i)) c (server (s_world st) c (fmt_cmd argv))])) /\
  (forall st e q, lined st (e :: q) -> exists st',
    redisClusterGetReply (L := L) st = (st', Normal (REDIS_OK, RLive (q_reply e))) /\ lined st' q /\
    s_heap st' = s_heap st /\ cc_table (s_cc st') = cc_table (s_cc st)) /\
  (forall st, lined st [] -> exists st' ret, redisClusterGetReply (L := L) st = (st', Normal (ret, RNull)) /\ lined st' []).
Proof.
  split; [exact append_one_key|]. split; [exact getReply_first|].
  intros st [(cmds & Hr & Hq) _ Hs Hp Hw]. apply Forall2_nil_inv_r in Hq. subst cmds.
  unfold redisClusterGetReply, clear_error, mod_cc. rewrite gbind_modify, (gbind_normal get_cc _ _ _ _ eq_refl). cbn.
  destruct (cc_requests (s_cc st)) as [[|]|] eqn:E; try done; do 2 eexists; (split; [reflexivity|]);
    split; cbn; rewrite ?E; try done; by exists [].
Qed.
End Queue.

(** ** Two connections, for the example *)
Definition lines_ops : HiredisOps (conn -> list redisReply) :=
  working (fun w c text => (<[c := w c ++ [Cluster.server ex_store c text]]> w, REDIS_OK))
    (fun w c => match w c with r :: rs => (<[c := rs]> w, (REDIS_OK, Some r)) | [] => (w, (REDIS_ERR, None)) end).
#[local] Existing Instance lines_ops.

#[local] Program Instance lines_ordered : Ordered (conn -> list redisReply) := {|
  healthy := fun _ => True; pending := fun w c => w c; server := fun _ => Cluster.server ex_store
|}.
Next Obligation. done. Qed.
Next Obligation.
  intros w c text _. eexists. split; [reflexivity|]. split; [done|].
  split; [by rewrite fn_lookup_insert|]. intros c' Hc. by rewrite fn_lookup_insert_ne.
Qed.
Next Obligation.
  intros w c r rs _ E. eexists. cbn. rewrite E. split; [reflexivity|]. split; [done|].
  split; [by rewrite fn_lookup_insert|]. intros c' Hc. by rewrite fn_lookup_insert_ne.
Qed.

Definition ex_lines : cstate (conn -> list redisReply) := mkState (s_cc ex_holding) (s_heap ex_holding) (fun _ => []) [] 0 [].
Definition ex_get (key : bytes) : list bytes := [str "MGET"; key].
Definition ex_append (key : bytes) := redisClusterAppendFormattedCommand (L := unit) (fun _ => true) true (replicate 12 Byte.x00)
  (fmt_cmd (ex_get key)) (Z.of_nat (length (fmt_cmd (ex_get key)))).

Lemma ex_parse key : parse_spec (ex_get key) = inl (CMD_REQ_REDIS_MGET, [1%nat]).
Proof. apply (mget_parses key []). Qed.

Lemma ex_get_serves key p st :
  (key, p) ∈ [(str "foo", 1%positive); (str "bar", 2%positive)] -> s_heap st = s_heap ex_lines -> cc_table (s_cc st) = cc_table (s_cc ex_lines) ->
  serves st (keyHashSlot (ex_get key !!! 1%nat)) p p.
Proof.
  intros Hk Hh Ht. change (ex_get key !!! 1%nat) with key. split; [apply keyHashSlot_bounds|]. rewrite Hh, Ht.
  split; [eexists; split; [reflexivity|]|split; [|done]]; apply list_elem_of_In in Hk as [[= <- <-]|[[= <- <-]|[]]].
  1, 2: by vm_compute.
  all: eexists; split; [reflexivity|done].
Qed.

Lemma ex_reply p key v : (p, key, v) ∈ [(1%positive, str "foo", str "one"); (2%positive, str "bar", str "two")] ->
  Cluster.server ex_store p (fmt_cmd (ex_get key)) = REDIS_REPLY_ARRAY [REDIS_REPLY_STRING v].
Proof. intros [[= <- <- <-]|[[= <- <- <-]|[]]]%list_elem_of_In; vm_compute; reflexivity. Qed.

Lemma ex_lines_empty : lined ex_lines [].
Proof. split; try done. by exists []. Qed.

Lemma pipeline_refines_queue_witness : exists st1 st2 st3 st4,
  ex_append (str "foo") ex_lines = (st1, Normal REDIS_OK) /\ ex_append (str "bar") st1 = (st2, Normal REDIS_OK) /\
  redisClusterGetReply (L := unit) st2 = (st3, Normal (REDIS_OK, RLive (REDIS_REPLY_ARRAY [REDIS_REPLY_STRING (str "one")]))) /\
  redisClusterGetReply (L := unit) st3 = (st4, Normal (REDIS_OK, RLive (REDIS_REPLY_ARRAY [REDIS_REPLY_STRING (str "two")]))).
Proof.
  destruct (pipeline_refines_queue (W := conn -> list redisReply) (L := unit) (replicate 12 Byte.x00)) as (Happend & Hget & _).
  destruct (Happend ex_lines [] (ex_get (str "foo")) _ 1%nat 1%positive 1%positive ex_lines_empty eq_refl (ex_parse _)) as (st1 & E1 & Ha1 & Hh1 & Ht1 & Hq1);
    [by vm_compute|apply ex_get_serves; [left|done|done]|].
  destruct (Happend st1 _ (ex_get (str "bar")) _ 1%nat 2%positive 2%positive Hq1 Ha1 (ex_parse _)) as (st2 & E2 & _ & _ & _ & Hq2);
    [by vm_compute|apply ex_get_serves; [right; left|exact Hh1|exact Ht1]|].
  destruct (Hget st2 _ _ Hq2) as (st3 & E3 & Hq3 & _). destruct (Hget st3 _ _ Hq3) as (st4 & E4 & _).
  cbn [q_reply] in E3, E4. cbn [server lines_ordered] in E3, E4.
  rewrite (ex_reply 1%positive (str "foo") (str "one")) in E3 by left.
  rewrite (ex_reply 2%positive (str "bar") (str "two")) in E4 by (right; left).
  exists st1, st2, st3, st4. exact (conj E1 (conj E2 (conj E3 E4))).
Defined.
