(* ===== verification/Delivery.v ===== *)
(** * Every asynchronous command is answered at most once

    hiredis holds the callback of a command until its reply arrives; the client may then
    send the command again or call the user's function.  This file keeps accounts of the
    commands that are held and of the calls of the user's functions, over all calls and
    events in any order: no command is answered twice, none is made up, and
    none gets lost unless a command cannot be sent again. *)
From stdpp Require Import gmultiset.
From S2P Require Import Prelude Hiutil System Crc16 Dict Goto Hiredis Cmddef Command Context Sds Fragment Nodes Topology Route Options Execute Client Async.
From S2P Require Import NodeProps Script Frame ExecProps Session AsyncProps AsyncSound.

(** A command as the user knows it: the function to call and its argument. *)
Abbreviation ticket := (option Z * Z)%type.
Definition cad_ticket (cad : cluster_async_data) : ticket := (cad_callback cad, cad_privdata cad).

(** What hiredis keeps for a callback. *)
Definition ticket_of (cb : async_callback) : gmultiset ticket :=
  match cb with clusterCommand (Some cad) => {[+ cad_ticket cad +]} | _ => ∅ end.

(** The calls of hiredis' asynchronous functions that bring no command of the user. *)
Inductive async_call {W} `{AsyncOps W} : (W -> W) -> Prop :=
  | ac_connect host port t1 t2 : async_call (fun w => (redisAsyncConnectWithOptions w host port t1 t2).1)
  | ac_command ac cb args : ticket_of cb = ∅ -> async_call (fun w => (Async.redisAsyncCommand w ac cb args).1)
  | ac_on_connect ac b : async_call (fun w => redisAsyncSetConnectCallback w ac b)
  | ac_on_disconnect ac : async_call (fun w => redisAsyncSetDisconnectCallback w ac)
  | ac_disconnect ac : async_call (fun w => (redisAsyncDisconnect w ac).1)
  | ac_attach fn ac : async_call (fun w => (attach_fn fn w ac).1)
  | ac_random : async_call (fun w => (random w).1).
#[export] Hint Constructors async_call : keeps.

(** The accounts of a world: the commands hiredis holds, and the calls of the user's functions.
    hiredis holds a command exactly when it accepted it. *)
Class Accounts (W : Type) `{HiredisOps W} `{AsyncOps W} := {
  held : W -> gmultiset ticket;
  called : W -> gmultiset ticket;
  acc_hiredis f w : hiredis f -> held (f w) = held w /\ called (f w) = called w;
  acc_async f w : async_call f -> held (f w) = held w /\ called (f w) = called w;
  acc_send w ac cad text : let '(w', r) := Async.redisAsyncFormattedCommand w ac (clusterCommand (Some cad)) text in
    held w' = held w ⊎ (if r =? REDIS_OK then {[+ cad_ticket cad +]} else ∅) /\ called w' = called w
}.

Section Delivery.
Context {W : Type} `{Accounts W} {sds : SdsOps}.
Implicit Types (st : cstate W) (s : astate W).

Definition account (w : W) := (held w, called w).
Definition c_account st := account (s_world st).
Definition a_account s := account (s_world (as_st s)).

Lemma account_hiredis f w : hiredis f -> account (f w) = account w.
Proof. intros Hf. unfold account. by destruct (acc_hiredis f w Hf) as [-> ->]. Qed.
Lemma account_async f w : async_call f -> account (f w) = account w.
Proof. intros Hf. unfold account. by destruct (acc_async f w Hf) as [-> ->]. Qed.

#[export] Instance account_framed : Framed c_account.
Proof. split; try done. intros f st Hf. exact (account_hiredis f _ Hf). Qed.

(** ** Functions that leave the accounts alone *)
Section Context_functions.
Context {L : Type} (lab : L -> Prop).
Abbreviation K := (keeps c_account lab).

Lemma d_whole {A} (m : G (cstate W) L A) : keeps whole (fun _ => False) m -> K m.
Proof.
  intros Hm st. specialize (Hm st). destruct (m st) as [st' [a|l|]]; [|by destruct Hm|done].
  unfold whole in Hm. injection Hm as _ Hw _ _ _ _ _ _. unfold c_account. by rewrite Hw.
Qed.
Lemma d_mod_cc f : K (mod_cc f).
Proof. done. Qed.
Lemma d_async f : async_call f -> K (world f).
Proof. intros Hf st. exact (account_async f _ Hf). Qed.
Lemma d_async_call {A} (f : W -> W * A) : async_call (fun w => (f w).1) -> K (world_call f).
Proof.
  intros Hf st. unfold world_call. pose proof (account_async _ (s_world st) Hf) as E. cbn beta in E.
  by destruct (f (s_world st)) as [w a].
Qed.
End Context_functions.

Lemma d_format {L} (lab : L -> Prop) realloc_ok errstr_ok num_str command :
  keeps c_account lab (m_format_by_slot (W := W) realloc_ok errstr_ok num_str command).
Proof. apply d_whole, format_k. Qed.
Lemma d_command_get {L} (lab : L -> Prop) : keeps c_account lab (m_command_get (W := W)).
Proof. apply d_whole, w_command_get. Qed.
Lemma d_add_node_body addr : keeps c_account (fun _ => True) (add_node_body (W := W) addr).
Proof. unfold add_node_body. keeps_tac. Qed.
#[local] Hint Resolve d_mod_cc d_async d_async_call d_format d_command_get : keeps.

(** ** The asynchronous functions *)
#[local] Abbreviation AK := (keeps a_account).

Section Async_functions.
Context {L : Type} (lab : L -> Prop).

Lemma d_lift {A} (m : G (cstate W) L A) : keeps c_account lab m -> AK lab (a_lift m).
Proof. intros Hm s. unfold a_lift. specialize (Hm (as_st s)). by destruct (m (as_st s)) as [st [a|l|]]. Qed.
Lemma d_cc : AK lab a_cc.
Proof. by apply d_lift. Qed.
Lemma d_get {A} (f : W -> A) : AK lab (a_world_get f).
Proof. by apply d_lift. Qed.
Lemma d_now : AK lab a_now.
Proof. apply d_get. Qed.
Lemma d_call {A} (f : W -> W * A) : async_call (fun w => (f w).1) -> AK lab (a_world_call f).
Proof. intros Hf. by apply d_lift, d_async_call. Qed.
Lemma d_set_error e t : AK lab (redisClusterAsyncSetError e t).
Proof. done. Qed.
End Async_functions.
#[local] Hint Resolve d_cc d_get d_now d_call d_set_error : keeps.

Ltac keeps_tac ::= intros; cbn zeta; repeat (lazymatch goal with |- keeps _ _ (a_lift _) => apply d_lift | _ => keeps_step end; cbn zeta).

Section Async_functions2.
Context {L : Type} (lab : L -> Prop).
Abbreviation K := (AK lab).

Lemma d_ctx_error ac : K (a_ctx_error ac).
Proof. unfold_tac @a_ctx_error. Qed.
Lemma d_async_error ac : K (a_async_error ac).
Proof. unfold_tac @a_async_error. Qed.
Lemma d_cc_error : K a_cc_error.
Proof. unfold_tac @a_cc_error. Qed.
Lemma d_fail {A} ac (a : A) : K (a_fail ac a).
Proof. unfold_tac @a_fail. Qed.
Lemma d_authenticate ac : K (a_authenticate ac).
Proof. unfold a_authenticate. keeps_tac; apply d_call, ac_command; done. Qed.
Lemma d_link p ac : K (a_link p ac).
Proof. unfold_tac @a_link. Qed.
Lemma d_unlink data : K (unlinkAsyncContextAndNode data).
Proof. unfold_tac @unlinkAsyncContextAndNode. Qed.
Lemma d_clear_errors : K a_clear_errors.
Proof.
  unfold a_clear_errors, clear_error. apply keeps_bind; [apply d_cc|]. intros cc.
  apply keeps_bind; [destruct (negb _); [by apply d_lift|apply keeps_ret]|]. intros []. apply keeps_modify. intros s. by destruct (negb _).
Qed.
End Async_functions2.
#[local] Hint Resolve d_ctx_error d_async_error d_cc_error d_fail d_authenticate d_link d_unlink d_clear_errors : keeps.

Section Async_functions3.
Context {L : Type} (lab : L -> Prop).
Abbreviation K := (AK lab).

Lemma d_actx_get p : K (actx_get_by_node p).
Proof. unfold_tac @actx_get_by_node. Qed.
Lemma d_selectNode d : K (selectNode d).
Proof. unfold_tac @selectNode. Qed.
Lemma d_disconnect_loop es : K (disconnect_loop es).
Proof. induction es as [|[k p] es IH]; cbn [disconnect_loop]; keeps_tac. Qed.
End Async_functions3.
#[local] Hint Resolve d_actx_get d_selectNode d_disconnect_loop : keeps.

Lemma d_update_conn ac : AK (fun _ => True) (a_update_conn ac).
Proof. unfold_tac @a_update_conn. Qed.
#[local] Hint Resolve d_update_conn : keeps.

Section Updates.
Context {L : Type} (lab : L -> Prop).
Abbreviation K := (AK lab).

(** A request for the slot map is no command of the user. *)
Lemma d_request b ac : K (a_world_call (fun w =>
  if b : bool then Async.redisAsyncCommand w ac clusterSlotsReply [str "CLUSTER"; str "SLOTS"]
  else Async.redisAsyncCommand w ac clusterNodesReply [str "CLUSTER"; str "NODES"])).
Proof. destruct b; apply d_call, ac_command; done. Qed.
End Updates.
#[local] Hint Resolve d_request : keeps.

Section Updates2.
Context {L : Type} (lab : L -> Prop).
Abbreviation K := (AK lab).
Lemma d_update ac : K (updateSlotMapAsync ac).
Proof.
  unfold updateSlotMapAsync. apply keeps_bind; [done|]. intros s. apply keeps_bind; [apply d_cc|]. intros cc.
  destruct (_ =? _); [done|]. destruct (flag_set _ _); [done|]. apply keeps_catch with (lab' := fun _ => True); [|keeps_tac].
  apply keeps_bind; [apply d_update_conn|]. intros c. apply keeps_bind; [apply d_request|]. intros status. keeps_tac.
Qed.
End Updates2.
#[local] Hint Resolve d_update : keeps.

Section Updates3.
Context {L : Type} (lab : L -> Prop).
Abbreviation K := (AK lab).
Lemma d_throttled ac : K (throttledUpdateSlotMapAsync ac).
Proof. unfold_tac @throttledUpdateSlotMapAsync. Qed.
Lemma d_connect2 : K redisClusterAsyncConnect2.
Proof. unfold_tac @redisClusterAsyncConnect2. Qed.
Lemma d_slotmap (parse : redisReply -> G (cstate W) L (option (dict bytes loc))) reply :
  (forall r, keeps c_account lab (parse r)) -> K (slotmap_callback parse reply).
Proof. intros Hp. unfold slotmap_callback. keeps_tac. Qed.
Lemma d_slots ac reply : K (clusterSlotsReplyCallback ac reply).
Proof. apply d_slotmap. intros r. keeps_tac. Qed.
Lemma d_nodes ac reply : K (clusterNodesReplyCallback ac reply).
Proof. apply d_slotmap. intros r. keeps_tac. Qed.
Lemma d_disconnect : K redisClusterAsyncDisconnect.
Proof. unfold redisClusterAsyncDisconnect, a_set_shutdown. keeps_tac. Qed.
Lemma d_add_node addr : keeps c_account lab (redisClusterSetOptionAddNode (W := W) addr).
Proof. unfold redisClusterSetOptionAddNode. apply keeps_catch with (lab' := fun _ => True); [apply d_add_node_body|keeps_tac]. Qed.
End Updates3.
#[local] Hint Resolve d_throttled : keeps.

(** ** Following up a reply *)

(** hiredis refuses a command. *)
Definition sends_fail : Prop :=
  (exists w ac cb args, (Async.redisAsyncCommand w ac cb args).2 ≠ REDIS_OK) \/
  (exists w ac cb text, (Async.redisAsyncFormattedCommand w ac cb text).2 ≠ REDIS_OK).
(** The ends of a follow-up: the reply is for the user, or the command could not be sent again. *)
Definition follow_up_ends (l : a_label) : Prop := l = a_done \/ sends_fail.

Ltac keeps_tac ::= intros; cbn zeta; repeat (lazymatch goal with
  | |- keeps _ _ (a_lift _) => apply d_lift
  | |- keeps _ follow_up_ends (goto a_done) => apply keeps_goto; by left
  | |- keeps _ follow_up_ends (gsome a_done _) => apply keeps_some; by left
  | _ => keeps_step end; cbn zeta).

Lemma d_redirect reply b : AK follow_up_ends (a_redirect reply b).
Proof. unfold_tac @a_redirect. Qed.
Lemma d_set_table slot p : AK follow_up_ends (a_set_table slot p).
Proof. unfold_tac @a_set_table. Qed.
#[local] Hint Resolve d_redirect d_set_table : keeps.

Lemma d_asking ac args (r : option conn) : AK follow_up_ends (
  ret ← a_world_call (fun w => Async.redisAsyncCommand w ac cb_none args);
  if negb (ret =? REDIS_OK) then goto a_error else mret r).
Proof.
  intros s. unfold mbind, g_bind, a_world_call, a_lift, world_call.
  pose proof (account_async _ (s_world (as_st s)) (ac_command ac cb_none args eq_refl)) as Ha. cbn beta in Ha.
  destruct (Async.redisAsyncCommand _ _ _ _) as [w ret] eqn:E. destruct (ret =? REDIS_OK) eqn:Er; cbn; [exact Ha|].
  split; [|exact Ha]. right. left. exists (s_world (as_st s)), ac, cb_none, args. rewrite E. by apply Z.eqb_neq.
Qed.
#[local] Hint Resolve d_asking : keeps.

Lemma d_again ac t reply : AK follow_up_ends (a_again ac t reply).
Proof.
  unfold a_again. destruct t; try solve [keeps_tac].
  apply keeps_bind; [apply d_redirect|]. intros [node slot]. apply keeps_bind; [apply d_actx_get|]. intros c.
  apply keeps_bind; [apply keeps_some; by left|]. intros c'. apply d_asking.
Qed.
#[local] Hint Resolve d_again : keeps.
Lemma d_body ac reply cad : AK follow_up_ends (a_body ac reply cad).
Proof. unfold_tac @a_body. Qed.

(** ** Commands *)
Lemma d_command text len : AK (fun _ => True) (a_command text len).
Proof. unfold_tac @a_command. Qed.
#[local] Hint Resolve d_command : keeps.

(** ** Sending a command, and calling the user *)
Definition holding (v : gmultiset ticket * gmultiset ticket) (t : ticket) := (v.1 ⊎ {[+ t +]}, v.2).
Definition calling (v : gmultiset ticket * gmultiset ticket) (t : ticket) := (v.1, v.2 ⊎ {[+ t +]}).

(** A step that keeps the accounts, before one that may not. *)
Lemma d_bind {L A B} (lab : L -> Prop) (m : G (astate W) L A) (k : A -> G (astate W) L B) s v P E : AK lab m -> a_account s = v ->
  (forall s' l, lab l -> a_account s' = v -> E s' l) -> (forall s' a, a_account s' = v -> leaves (k a) s' P E) -> leaves (m ≫= k) s P E.
Proof.
  intros Hm Hs HE Hk. eapply leaves_bind.
  - eapply leaves_mono; [apply (leaves_keeps _ _ _ s Hm)|intros s' a Ha; exact Ha|]. intros s' l [Hl Ha]. apply HE; [done|congruence].
  - intros s' a Ha. apply Hk. congruence.
Qed.

Lemma world_send {L} s ac cad text : leaves (L := L) (a_world_call (fun w => Async.redisAsyncFormattedCommand w ac (clusterCommand (Some cad)) text)) s
  (fun s' r => a_account s' = if r =? REDIS_OK then holding (a_account s) (cad_ticket cad) else a_account s) (fun _ _ => False).
Proof.
  unfold leaves, a_world_call, a_lift, world_call. pose proof (acc_send (s_world (as_st s)) ac cad text) as Ha.
  destruct (Async.redisAsyncFormattedCommand _ _ _ _) as [w r]. destruct Ha as [Hh Hc]. unfold a_account, account, holding. cbn.
  rewrite Hh, Hc. destruct (r =? REDIS_OK); [done|]. by rewrite gmultiset_disj_union_right_id.
Qed.

Lemma send_leaves ac cad text len s v : a_account s = v ->
  leaves (a_send ac cad text len) s (fun s' r => r = REDIS_OK /\ a_account s' = holding v (cad_ticket cad)) (fun s' _ => a_account s' = v).
Proof.
  intros <-. unfold a_send. eapply leaves_bind.
  - eapply leaves_mono; [apply world_send|intros s' a Ha; exact Ha|done].
  - intros s' r Ha. cbn beta in Ha. destruct (r =? REDIS_OK); cbn [negb]; [exact (conj eq_refl Ha)|]. apply (d_bind (fun _ => True) _ _ _ (a_account s)); [keeps_tac|done|done|done].
Qed.

Lemma world_sends {L} s ac cad text : leaves (L := L) (a_world_call (fun w => Async.redisAsyncFormattedCommand w ac (clusterCommand (Some cad)) text)) s
  (fun s' r => a_account s' = (if r =? REDIS_OK then holding (a_account s) (cad_ticket cad) else a_account s) /\ (r ≠ REDIS_OK -> sends_fail))
  (fun _ _ => False).
Proof.
  pose proof (world_send (L := L) s ac cad text) as Hs. unfold leaves, a_world_call, a_lift, world_call in *.
  destruct (Async.redisAsyncFormattedCommand _ _ _ _) as [w r] eqn:E. split; [exact Hs|]. intros Hr. right.
  exists (s_world (as_st s)), ac, (clusterCommand (Some cad)), text. by rewrite E.
Qed.

(** The command of the user is held exactly if the function says so. *)
Definition accepted (fn : option Z) (privdata : Z) v (s' : astate W) (r : Z) : Prop :=
  a_account s' = if r =? REDIS_OK then holding v (fn, privdata) else v.

Lemma exit_leaves {L} oom m fn privdata s v : leaves m s (accepted fn privdata v) (fun s' _ => a_account s' = v) ->
  leaves (L := L) (a_exit oom m) s (accepted fn privdata v) (fun _ _ => False).
Proof.
  unfold leaves, a_exit, gcatch. destruct (m s) as [s' [r|l|]]; [done| |done]. intros Hs. by destruct l.
Qed.

Lemma formatted_leaves realloc_ok errstr_ok num_str fn privdata text len s v : a_account s = v ->
  leaves (a_formatted realloc_ok errstr_ok num_str fn privdata text len) s (accepted fn privdata v) (fun s' _ => a_account s' = v).
Proof.
  intros Hs. unfold a_formatted. apply (d_bind (fun _ => True) _ _ _ v); [keeps_tac|done|done|]. clear s Hs. intros s command Hs.
  apply (d_bind (fun _ => True) _ _ _ v); [keeps_tac|done|done|]. clear s Hs. intros s [] Hs.
  apply (d_bind (fun _ => True) _ _ _ v); [keeps_tac|done|done|]. clear s Hs. intros s [[slot c] cs] Hs.
  destruct (slot <? 0); [apply (d_bind (fun _ => True) _ _ _ v); [keeps_tac|done|done|done]|].
  destruct (_ <=? slot); [apply (d_bind (fun _ => True) _ _ _ v); [keeps_tac|done|done|done]|].
  destruct cs; [|apply (d_bind (fun _ => True) _ _ _ v); [keeps_tac|done|done|done]].
  apply (d_bind (fun _ => True) _ _ _ v); [keeps_tac|done|done|]. clear s Hs. intros s [node|] Hs.
  - apply (d_bind (fun _ => True) _ _ _ v); [keeps_tac|done|done|]. clear s Hs. intros s ac Hs.
    apply (d_bind (fun _ => True) _ _ _ v); [keeps_tac|done|done|]. clear s Hs. intros s ac' Hs.
    apply (d_bind (fun _ => True) _ _ _ v); [keeps_tac|done|done|]. clear s Hs. intros s [] Hs.
    eapply leaves_mono; [by apply send_leaves|by intros s' r [-> Ha]|done].
  - apply (d_bind (fun _ => True) _ _ _ v); [keeps_tac|done|done|]. clear s Hs. intros s [] Hs.
    apply (d_bind (fun _ => True) _ _ _ v); [keeps_tac|done|done|]. done.
Qed.

(** A step without labels, and the rest. *)
Lemma d_then {L A B} (m : G (astate W) L A) (k : A -> G (astate W) L B) s v P E : AK (fun _ => False) m -> a_account s = v ->
  (forall s' a, a_account s' = v -> leaves (k a) s' P E) -> leaves (m ≫= k) s P E.
Proof. intros Hm Hs. by apply (d_bind (fun _ => False) _ _ _ v). Qed.

Lemma command_leaves {L} realloc_ok errstr_ok num_str fn privdata text len s v : a_account s = v ->
  leaves (redisClusterAsyncFormattedCommand (L := L) realloc_ok errstr_ok num_str fn privdata text len) s
    (accepted fn privdata v) (fun _ _ => False).
Proof.
  intros Hs. unfold redisClusterAsyncFormattedCommand. apply (d_then _ _ _ v); [keeps_tac|done|]. clear s Hs. intros s cc Hs.
  destruct (flag_set _ _); (apply (d_then _ _ _ v); [keeps_tac|done|]); clear s Hs; intros s [] Hs; [done|].
  apply exit_leaves. by apply formatted_leaves.
Qed.

Lemma to_node_leaves {L} node fn privdata text len s v : a_account s = v ->
  leaves (redisClusterAsyncFormattedCommandToNode (L := L) node fn privdata text len) s (accepted fn privdata v) (fun _ _ => False).
Proof.
  intros Hs. unfold redisClusterAsyncFormattedCommandToNode. apply (d_then _ _ _ v); [keeps_tac|done|]. clear s Hs. intros s cc Hs.
  destruct (flag_set _ _); (apply (d_then _ _ _ v); [keeps_tac|done|]); clear s Hs; [done|]. intros s [ac|] Hs; [|done].
  apply (d_then _ _ _ v); [keeps_tac|done|]. clear s Hs. intros s [] Hs. apply exit_leaves.
  apply (d_bind (fun _ => True) _ _ _ v); [keeps_tac|done|done|]. clear s Hs. intros s command Hs.
  apply (d_bind (fun _ => True) _ _ _ v); [keeps_tac|done|done|]. clear s Hs. intros s [] Hs.
  eapply leaves_mono; [by apply send_leaves|by intros s' r [-> Ha]|done].
Qed.

(** ** The reply of a command *)
Section User.
Variable user_callback : Z -> Z -> option redisReply -> astate W -> astate W.
Hypothesis user_called : forall fn privdata r s, a_account (user_callback fn privdata r s) = calling (a_account s) (Some fn, privdata).

Lemma leaves_any {L A B} (m : G (astate W) L A) (k : A -> G (astate W) L B) s P E : (forall s' l, E s' l) ->
  (forall s' a, leaves (k a) s' P E) -> leaves (m ≫= k) s P E.
Proof. intros HE Hk. unfold leaves, mbind, g_bind. destruct (m s) as [s' [a|l|]]; [apply Hk|apply HE|done]. Qed.

Lemma leaves_catch {L L' A} (m : G (astate W) L A) (h : L -> G (astate W) L' A) s P E (E' : astate W -> L' -> Prop) :
  leaves m s P E -> (forall s' l, E s' l -> leaves (h l) s' P E') -> leaves (gcatch m h) s P E'.
Proof. unfold leaves, gcatch. destruct (m s) as [s' [a|l|]]; [done| |done]. intros HE Hh. by apply Hh. Qed.

Lemma body_ticket ac reply cad s : leaves (a_body ac reply cad) s (fun s' '(_, cad') => cad_ticket cad' = cad_ticket cad /\ a_account s' = a_account s)
  (fun s' l => follow_up_ends l /\ a_account s' = a_account s).
Proof.
  assert (Ht : leaves (a_body ac reply cad) s (fun _ '(_, cad') => cad_ticket cad' = cad_ticket cad) (fun _ _ => True)).
  { unfold a_body. destruct reply as [r|].
    - apply leaves_any; [done|]. intros s1 cc. destruct (_ || _); [done|].
      destruct (cluster_reply_error_type _) as [[]|]; try done; (destruct (_ <? _); [by apply leaves_any|]); by apply leaves_any.
    - apply leaves_any; [done|]. intros s1 []. apply leaves_any; [done|]. intros s2 [p|]; [|done]. by apply leaves_any. }
  pose proof (leaves_keeps _ _ _ s (d_body ac reply cad)) as Hk. unfold leaves in *.
  by destruct (a_body ac reply cad s) as [s' [[c cad']|l|]].
Qed.

Lemma finish_leaves {L} reply cad s v : a_account s = v ->
  leaves (a_finish (L := L) user_callback reply cad) s (fun s' _ => a_account s' = calling v (cad_ticket cad)) (fun _ _ => False).
Proof.
  intros <-. unfold a_finish. unfold leaves. rewrite gbind_get. destruct (cad_callback cad) as [fn|] eqn:Ef; [|done]. cbn [gdef].
  rewrite gbind_ret, gbind_modify.
  pose proof (d_clear_errors (L := L) (fun _ => False) (user_callback fn (cad_privdata cad) (if negb (as_err s =? 0) then None else reply) s)) as Hc.
  destruct (a_clear_errors _) as [s' [[]|l|]]; [|by destruct Hc|done]. rewrite Hc, user_called. unfold cad_ticket. by rewrite Ef.
Qed.

(** The reply of a command: the user is called with it, the command is held again, or, if hiredis refuses it, gone. *)
Definition answered v (t : ticket) (s' : astate W) : Prop :=
  a_account s' = calling v t \/ a_account s' = holding v t \/ a_account s' = v /\ sends_fail.

Lemma callback_leaves {L} ac reply cad s v : a_account s = v ->
  leaves (redisClusterAsyncCallback (L := L) user_callback ac reply (Some cad)) s (fun s' _ => answered v (cad_ticket cad) s') (fun _ _ => False).
Proof.
  intros <-. set (v := a_account s). unfold redisClusterAsyncCallback.
  apply leaves_catch with (E := fun s' l => follow_up_ends l /\ a_account s' = v).
  - eapply leaves_bind; [apply body_ticket|]. intros s1 [ac_retry cad'] [Ht Hs1].
    apply (d_bind (fun _ => False) _ _ _ v); [keeps_tac|done|done|]. intros s2 c Hs2.
    apply (d_bind (fun _ => False) _ _ _ v); [keeps_tac|done|done|]. intros s3 text Hs3.
    eapply leaves_bind.
    { eapply leaves_mono; [apply (world_sends s3)|intros s4 r Hr; exact Hr|done]. }
    intros s4 r [Ha Hr]. rewrite Hs3, Ht in Ha. destruct (r =? REDIS_OK) eqn:E; cbn [negb]; [by right; left|].
    split; [right; apply Hr; by apply Z.eqb_neq|done].
  - intros s1 l [Hl Hs1]. destruct Hl as [-> | Hf].
    + eapply leaves_mono; [by apply finish_leaves|intros s2 [] Ha; by left|done].
    + destruct l; [by right; right|by right; right|].
      eapply leaves_mono; [by apply finish_leaves|intros s2 [] Ha; by left|done].
Qed.
(** ** All calls and events *)

Definition brings_command (e : happening) : bool :=
  match e with user_command _ _ _ _ _ _ _ | user_command_to_node _ _ _ _ _ | reply_to_command _ _ (Some _) => true | _ => false end.

(** The client's state with the commands that were accepted so far. *)
Inductive moves : astate W * gmultiset ticket -> astate W * gmultiset ticket -> Prop :=
  | mv_command realloc_ok errstr_ok num_str fn privdata text len s s' acc r :
      redisClusterAsyncFormattedCommand (L := Empty_set) realloc_ok errstr_ok num_str fn privdata text len s = (s', Normal r) ->
      moves (s, acc) (s', acc ⊎ (if r =? REDIS_OK then {[+ (fn, privdata) +]} else ∅))
  | mv_to_node node fn privdata text len s s' acc r :
      redisClusterAsyncFormattedCommandToNode (L := Empty_set) node fn privdata text len s = (s', Normal r) ->
      moves (s, acc) (s', acc ⊎ (if r =? REDIS_OK then {[+ (fn, privdata) +]} else ∅))
  | mv_reply ac reply cad w s s' acc :
      held (s_world (as_st s)) = held w ⊎ {[+ cad_ticket cad +]} -> called (s_world (as_st s)) = called w ->
      redisClusterAsyncCallback (L := Empty_set) user_callback ac reply (Some cad) (a_upd (set_world w) s) = (s', Normal ()) ->
      moves (s, acc) (s', acc)
  | mv_other e s s' acc : brings_command e = false -> handle user_callback e s = (s', Normal ()) -> moves (s, acc) (s', acc)
  | mv_network w s acc : account w = a_account s -> moves (s, acc) (a_upd (set_world w) s, acc).

Lemma other_keeps e : brings_command e = false -> AK (fun _ => False) (handle user_callback e).
Proof.
  destruct e as [addr| |fn|?|?| |ac reply [cad|]|ac reply|ac reply|data]; try done; intros _; cbn [handle].
  - apply keeps_bind; [apply d_lift, d_add_node|done].
  - apply keeps_bind; [apply d_connect2|done].
  - apply d_disconnect.
  - apply d_slots.
  - apply d_nodes.
  - apply d_unlink.
Qed.

(** Commands that were accepted, against those still held and those answered. *)
Definition settled s (acc : gmultiset ticket) : Prop :=
  let now := called (s_world (as_st s)) ⊎ held (s_world (as_st s)) in now ⊆ acc /\ (~ sends_fail -> now = acc).

Lemma settled_account s s' acc : a_account s' = a_account s -> settled s acc -> settled s' acc.
Proof. unfold settled. intros [= -> ->]. done. Qed.

Lemma settled_accepted s s' acc fn privdata r : accepted fn privdata (a_account s) s' r -> settled s acc ->
  settled s' (acc ⊎ (if r =? REDIS_OK then {[+ (fn, privdata) +]} else ∅)).
Proof.
  unfold accepted, settled. destruct (r =? REDIS_OK).
  - intros [= -> ->] [Hsub Heq]. split; [multiset_solver|]. intros Hn. rewrite <- (Heq Hn). multiset_solver.
  - intros [= -> ->] [Hsub Heq]. rewrite gmultiset_disj_union_right_id. done.
Qed.

Lemma settled_answered s s' w t acc : held (s_world (as_st s)) = held w ⊎ {[+ t +]} -> called (s_world (as_st s)) = called w ->
  answered (account w) t s' -> settled s acc -> settled s' acc.
Proof.
  intros Hh Hc Ha [Hsub Heq]. unfold settled. rewrite Hh, Hc in Hsub, Heq. destruct Ha as [[= -> ->]|[[= -> ->]|[[= -> ->] Hf]]]; cbn.
  - split; [multiset_solver|]. intros Hn. rewrite <- (Heq Hn). multiset_solver.
  - split; [multiset_solver|]. intros Hn. rewrite <- (Heq Hn). multiset_solver.
  - split; [multiset_solver|done].
Qed.

Lemma leaves_ends {L A} (m : G (astate W) L A) s s' a P E : leaves m s P E -> m s = (s', Normal a) -> P s' a.
Proof. unfold leaves. by intros Hm E'; rewrite E' in Hm. Qed.

Lemma moves_settled x y : moves x y -> settled x.1 x.2 -> settled y.1 y.2.
Proof.
  intros Hm Hs. destruct Hm as [?????????? r E|???????? r E|??? w s s' acc Hh Hc E|e s s' acc He E|w s acc Hw]; cbn [fst snd] in *.
  - eapply settled_accepted; [|exact Hs]. exact (leaves_ends _ _ _ _ _ _ (command_leaves _ _ _ _ _ _ _ _ _ eq_refl) E).
  - eapply settled_accepted; [|exact Hs]. exact (leaves_ends _ _ _ _ _ _ (to_node_leaves _ _ _ _ _ _ _ eq_refl) E).
  - eapply settled_answered; [exact Hh|exact Hc| |exact Hs]. exact (leaves_ends _ _ _ _ _ _ (callback_leaves _ _ _ _ _ eq_refl) E).
  - eapply settled_account; [|exact Hs]. exact (keeps_normal _ _ _ _ _ _ (other_keeps e He) E).
  - by eapply settled_account.
Qed.

Lemma rtc_settled x y : rtc moves x y -> settled x.1 x.2 -> settled y.1 y.2.
Proof. intros Hm Hs. induction Hm as [x|x z y Hxz _ IH]; [done|]. by apply IH, (moves_settled x). Qed.

End User.
End Delivery.

(** ** Witness

    A world of nothing but the accounts.  A command is sent, asked to be sent again, and answered. *)
Abbreviation ledger := (gmultiset ticket * gmultiset ticket)%type.
#[local] Instance ledger_ops : HiredisOps ledger := working (fun w _ _ => (w, REDIS_OK)) (fun w _ => (w, (REDIS_ERR, None))).
#[local] Instance ledger_async : AsyncOps ledger :=
  working_async (fun w _ cb _ => (w.1 ⊎ ticket_of cb, w.2)) (fun w _ cb _ => (w.1 ⊎ ticket_of cb, w.2)).

Lemma ledger_hiredis (f : ledger -> ledger) w : hiredis f -> f w = w.
Proof. by intros []. Qed.
Lemma ledger_calls (f : ledger -> ledger) w : async_call f -> f w = w.
Proof.
  intros [host port t1 t2|ac cb args Hcb|ac b|ac|ac|[] ac|]; try done. cbn. rewrite Hcb, gmultiset_disj_union_right_id. by destruct w.
Qed.

#[local] Program Instance ledger_accounts : Accounts ledger := {| held := fst; called := snd |}.
Next Obligation. intros f w Hf. by rewrite ledger_hiredis. Qed.
Next Obligation. intros f w Hf. by rewrite ledger_calls. Qed.
Next Obligation. by intros. Qed.

Definition ledger_user (fn privdata : Z) (_ : option redisReply) (s : astate ledger) : astate ledger :=
  a_upd (upd_world (fun w => (w.1, w.2 ⊎ {[+ (Some fn, privdata) +]}))) s.

Lemma ledger_sends : ~ sends_fail (W := ledger).
Proof. intros [(w & ac & cb & x & Hn)|(w & ac & cb & x & Hn)]; by destruct Hn. Qed.

Definition ex_open : astate ledger :=
  mkAstate (mkState (cc_set_route 1 (Some {[keyHashSlot (str "foo") := 1%positive]}) cc_init)
    {[1%positive := n_set_con None (Some 1%positive) (ex_node 1 1)]} (∅, ∅) [] 0 []) 0 [] 0 (Some redisLibuvAttach_link) false false false.
Definition ex_get : bytes := fmt_cmd [str "GET"; str "foo"].
Definition ex_sent := (redisClusterAsyncFormattedCommand (L := Empty_set) (fun _ => true) true (replicate 12 Byte.x00) (Some 4) 7 ex_get
  (Z.of_nat (length ex_get)) ex_open).
Definition ex_cad (retry : Z) : cluster_async_data := mkAsyncData (ex_command 0) (Some 4) retry 7.
Definition ex_replied (reply : redisReply) (retry : Z) (s : astate ledger) := redisClusterAsyncCallback (L := Empty_set) ledger_user 1%positive (Some reply)
  (Some (ex_cad retry)) (a_upd (set_world (∅, ∅)) s).
Definition ex_again := (ex_replied (REDIS_REPLY_ERROR (str "TRYAGAIN Multiple keys request during rehashing of slot")) 0 ex_sent.1).
Definition ex_answered := (ex_replied (REDIS_REPLY_STRING (str "one")) 1 ex_again.1).

#[local] Strategy expand [ex_sent ex_replied ex_again ex_answered].

Lemma run_ends_as {L A} (m : astate ledger * outcome L A) o : m.2 = o -> m = (m.1, o).
Proof. destruct m. cbn. by intros ->. Qed.

